(** * The DRI2 swap-chain manager of xf86-video-armsoc (src/armsoc_dri2.c)

    A shallow embedding of the buffer records, the swap command and the
    functions of [armsoc_dri2.c] as computations in a state-and-error
    monad over an explicit heap, followed by the properties of the
    swap/flip protocol proved about them. *)

From Stdlib Require Import ZArith Bool Lia.
From stdpp Require Import base option list gmap.

Local Open Scope Z_scope.

(** ** C integers *)

(** [int] and [unsigned] are 32 bits wide on the targets of the driver; the
    result of an arithmetic operation is brought back into range. *)
Definition to_int (z : Z) : Z := (z + 2 ^ 31) mod 2 ^ 32 - 2 ^ 31.
Definition to_unsigned (z : Z) : Z := z mod 2 ^ 32.

Definition INT_MAX : Z := 2 ^ 31 - 1.
Definition UINT_MAX : Z := 2 ^ 32 - 1.

(** ** Constants of the X server and DRI2 headers *)

Definition DRI2BufferFrontLeft : Z := 0.
Definition DRI2BufferBackLeft : Z := 1.

Definition DRI2_EXCHANGE_COMPLETE : Z := 1.
Definition DRI2_BLIT_COMPLETE : Z := 2.
Definition DRI2_FLIP_COMPLETE : Z := 3.

Definition DRAWABLE_WINDOW : Z := 0.
Definition DRAWABLE_PIXMAP : Z := 1.

Definition ARMSOC_CREATE_PIXMAP_SCANOUT : Z := 2147483648.
Definition CREATE_PIXMAP_USAGE_BACKING_PIXMAP : Z := 2.

(** [#define ARMSOC_SWAP_FAKE_FLIP (1 << 0)] and [ARMSOC_SWAP_FAIL (1 << 1)] *)
Definition ARMSOC_SWAP_FAKE_FLIP : Z := Z.shiftl 1 0.
Definition ARMSOC_SWAP_FAIL : Z := Z.shiftl 1 1.

(** ** Data model *)

(** Heap objects are named by addresses ([nat]); a pointer that may be
    [NULL] is an [option]. *)
Abbreviation addr := nat (only parsing).
Abbreviation XID := Z (only parsing).

(** The memory-object handle ([struct armsoc_bo]), as far as this file
    looks into it through its accessors. *)
Record armsoc_bo := {
  bo_name : Z;
  bo_fb_id : Z;
  bo_width : Z;
  bo_height : Z;
  bo_refcnt : Z
}.

(** A pixmap with its driver private ([ARMSOCPixmapPrivRec.bo]). *)
Record Pixmap := {
  pix_refcnt : Z;
  pix_devKind : Z;
  pix_bitsPerPixel : Z;
  pix_bo : option addr
}.

(** A drawable as the entry points receive it.  [d_pix] is what [draw2pix]
    answers for it and [d_DRI2CanFlip] what the DRI2 core answers. *)
Record Drawable := {
  d_id : XID;
  d_type : Z;
  d_width : Z;
  d_height : Z;
  d_depth : Z;
  d_pix : addr;
  d_DRI2CanFlip : bool
}.

(** [struct ARMSOCDRI2BufferRec], with the fields of its [DRI2BufferRec base]
    inlined. *)
Record ARMSOCDRI2BufferRec := {
  attachment : Z;
  name : Z;
  pitch : Z;
  cpp : Z;
  format : Z;
  base_flags : Z;
  pPixmaps : list (option addr);
  currentPixmap : Z;
  numPixmaps : Z;
  refcnt : Z;
  attempted_fb_alloc : bool
}.

(** [struct ARMSOCDRISwapCmd] *)
Record ARMSOCDRISwapCmd := {
  type : Z;
  client : Z;
  draw_id : XID;
  pDstBuffer : addr;
  pSrcBuffer : addr;
  func : Z;
  swapCount : Z;
  flags : Z;
  data : Z
}.

(** The fields of [struct ARMSOCRec] that are fixed when the screen is
    set up. *)
Record ARMSOCRec := {
  NoFlip : bool;
  driNumBufs : Z;
  use_page_flip_events : bool
}.

(** What a drawable argument of [dri2draw] refers to. *)
Inductive DrawRef :=
| DrawWindow (d : Drawable)
| DrawPixmap (p : addr).

(** Calls that leave this file, in the order they are made. *)
Inductive Event :=
| EvDRI2SwapComplete (cl : Z) (draw : XID) (kind : Z) (fn dt : Z)
| EvPageFlip (draw : XID) (fb : Z) (cmd : addr)
| EvCopyArea (src dst : DrawRef) (w h : Z)
| EvPendingDeletions
| EvSetScanout (bo : addr)
| EvAddFb (bo : addr)
| EvRmFb (bo : addr)
| EvCreatePixmap (w h depth usage : Z)
| EvDestroyPixmap (p : addr)
| EvRegisterExternalAccess (p : addr)
| EvDeregisterExternalAccess (p : addr)
| EvPixmapExchange (a b : addr).

(** The answers of the collaborators during one entry into the driver.
    Every entry point asks each of them at most once. *)
Record NewBo := {
  nb_name : Z;
  nb_fb_id : Z;
  nb_width : Z;
  nb_height : Z
}.

Record NewPixmap := {
  np_devKind : Z;
  np_bitsPerPixel : Z;
  np_bo : option NewBo
}.

Record Env := {
  env_calloc : bool;                    (* the calloc of the record succeeds *)
  env_array : bool;                     (* the allocation of pPixmaps succeeds *)
  env_CreatePixmap : option NewPixmap;  (* pScreen->CreatePixmap *)
  env_add_fb : option positive;         (* armsoc_bo_add_fb: the new fb id *)
  env_page_flip : Z;                    (* drmmode_page_flip *)
  env_GetScratchGC : bool
}.

Record State := {
  bos : gmap addr armsoc_bo;
  pixmaps : gmap addr Pixmap;
  buffers : gmap addr ARMSOCDRI2BufferRec;
  cmds : gmap addr ARMSOCDRISwapCmd;
  drawables : gmap XID Drawable;        (* the resource table of dixLookupDrawable *)
  pending_flips : Z;                    (* pARMSOC->pending_flips *)
  scanout : option addr;                (* pARMSOC->scanout *)
  next_addr : addr;                     (* allocator: smallest unused address *)
  trace : list Event
}.

(** *** Field updates *)

Definition set_bo_fb_id (v : Z) (b : armsoc_bo) : armsoc_bo :=
  {| bo_name := bo_name b; bo_fb_id := v; bo_width := bo_width b;
     bo_height := bo_height b; bo_refcnt := bo_refcnt b |}.

Definition set_bo_refcnt (v : Z) (b : armsoc_bo) : armsoc_bo :=
  {| bo_name := bo_name b; bo_fb_id := bo_fb_id b; bo_width := bo_width b;
     bo_height := bo_height b; bo_refcnt := v |}.

Definition set_pix_refcnt (v : Z) (p : Pixmap) : Pixmap :=
  {| pix_refcnt := v; pix_devKind := pix_devKind p;
     pix_bitsPerPixel := pix_bitsPerPixel p; pix_bo := pix_bo p |}.

Definition set_pix_bo (v : option addr) (p : Pixmap) : Pixmap :=
  {| pix_refcnt := pix_refcnt p; pix_devKind := pix_devKind p;
     pix_bitsPerPixel := pix_bitsPerPixel p; pix_bo := v |}.

Definition set_name (v : Z) (r : ARMSOCDRI2BufferRec) : ARMSOCDRI2BufferRec :=
  {| attachment := attachment r; name := v; pitch := pitch r; cpp := cpp r;
     format := format r; base_flags := base_flags r; pPixmaps := pPixmaps r;
     currentPixmap := currentPixmap r; numPixmaps := numPixmaps r;
     refcnt := refcnt r; attempted_fb_alloc := attempted_fb_alloc r |}.

Definition set_pPixmaps (v : list (option addr)) (r : ARMSOCDRI2BufferRec)
  : ARMSOCDRI2BufferRec :=
  {| attachment := attachment r; name := name r; pitch := pitch r; cpp := cpp r;
     format := format r; base_flags := base_flags r; pPixmaps := v;
     currentPixmap := currentPixmap r; numPixmaps := numPixmaps r;
     refcnt := refcnt r; attempted_fb_alloc := attempted_fb_alloc r |}.

Definition set_currentPixmap (v : Z) (r : ARMSOCDRI2BufferRec) : ARMSOCDRI2BufferRec :=
  {| attachment := attachment r; name := name r; pitch := pitch r; cpp := cpp r;
     format := format r; base_flags := base_flags r; pPixmaps := pPixmaps r;
     currentPixmap := v; numPixmaps := numPixmaps r;
     refcnt := refcnt r; attempted_fb_alloc := attempted_fb_alloc r |}.

Definition set_numPixmaps (v : Z) (r : ARMSOCDRI2BufferRec) : ARMSOCDRI2BufferRec :=
  {| attachment := attachment r; name := name r; pitch := pitch r; cpp := cpp r;
     format := format r; base_flags := base_flags r; pPixmaps := pPixmaps r;
     currentPixmap := currentPixmap r; numPixmaps := v;
     refcnt := refcnt r; attempted_fb_alloc := attempted_fb_alloc r |}.

Definition set_refcnt (v : Z) (r : ARMSOCDRI2BufferRec) : ARMSOCDRI2BufferRec :=
  {| attachment := attachment r; name := name r; pitch := pitch r; cpp := cpp r;
     format := format r; base_flags := base_flags r; pPixmaps := pPixmaps r;
     currentPixmap := currentPixmap r; numPixmaps := numPixmaps r;
     refcnt := v; attempted_fb_alloc := attempted_fb_alloc r |}.

Definition set_attempted_fb_alloc (v : bool) (r : ARMSOCDRI2BufferRec)
  : ARMSOCDRI2BufferRec :=
  {| attachment := attachment r; name := name r; pitch := pitch r; cpp := cpp r;
     format := format r; base_flags := base_flags r; pPixmaps := pPixmaps r;
     currentPixmap := currentPixmap r; numPixmaps := numPixmaps r;
     refcnt := refcnt r; attempted_fb_alloc := v |}.

Definition set_type (v : Z) (c : ARMSOCDRISwapCmd) : ARMSOCDRISwapCmd :=
  {| type := v; client := client c; draw_id := draw_id c;
     pDstBuffer := pDstBuffer c; pSrcBuffer := pSrcBuffer c; func := func c;
     swapCount := swapCount c; flags := flags c; data := data c |}.

Definition set_swapCount (v : Z) (c : ARMSOCDRISwapCmd) : ARMSOCDRISwapCmd :=
  {| type := type c; client := client c; draw_id := draw_id c;
     pDstBuffer := pDstBuffer c; pSrcBuffer := pSrcBuffer c; func := func c;
     swapCount := v; flags := flags c; data := data c |}.

Definition set_flags (v : Z) (c : ARMSOCDRISwapCmd) : ARMSOCDRISwapCmd :=
  {| type := type c; client := client c; draw_id := draw_id c;
     pDstBuffer := pDstBuffer c; pSrcBuffer := pSrcBuffer c; func := func c;
     swapCount := swapCount c; flags := v; data := data c |}.

Definition upd_bos (f : gmap addr armsoc_bo -> gmap addr armsoc_bo) (s : State) : State :=
  {| bos := f (bos s); pixmaps := pixmaps s; buffers := buffers s; cmds := cmds s;
     drawables := drawables s; pending_flips := pending_flips s;
     scanout := scanout s; next_addr := next_addr s; trace := trace s |}.

Definition upd_pixmaps (f : gmap addr Pixmap -> gmap addr Pixmap) (s : State) : State :=
  {| bos := bos s; pixmaps := f (pixmaps s); buffers := buffers s; cmds := cmds s;
     drawables := drawables s; pending_flips := pending_flips s;
     scanout := scanout s; next_addr := next_addr s; trace := trace s |}.

Definition upd_buffers
  (f : gmap addr ARMSOCDRI2BufferRec -> gmap addr ARMSOCDRI2BufferRec) (s : State) : State :=
  {| bos := bos s; pixmaps := pixmaps s; buffers := f (buffers s); cmds := cmds s;
     drawables := drawables s; pending_flips := pending_flips s;
     scanout := scanout s; next_addr := next_addr s; trace := trace s |}.

Definition upd_cmds
  (f : gmap addr ARMSOCDRISwapCmd -> gmap addr ARMSOCDRISwapCmd) (s : State) : State :=
  {| bos := bos s; pixmaps := pixmaps s; buffers := buffers s; cmds := f (cmds s);
     drawables := drawables s; pending_flips := pending_flips s;
     scanout := scanout s; next_addr := next_addr s; trace := trace s |}.

Definition upd_drawables (f : gmap XID Drawable -> gmap XID Drawable) (s : State) : State :=
  {| bos := bos s; pixmaps := pixmaps s; buffers := buffers s; cmds := cmds s;
     drawables := f (drawables s); pending_flips := pending_flips s;
     scanout := scanout s; next_addr := next_addr s; trace := trace s |}.

Definition upd_pending_flips (f : Z -> Z) (s : State) : State :=
  {| bos := bos s; pixmaps := pixmaps s; buffers := buffers s; cmds := cmds s;
     drawables := drawables s; pending_flips := f (pending_flips s);
     scanout := scanout s; next_addr := next_addr s; trace := trace s |}.

Definition upd_scanout (v : option addr) (s : State) : State :=
  {| bos := bos s; pixmaps := pixmaps s; buffers := buffers s; cmds := cmds s;
     drawables := drawables s; pending_flips := pending_flips s;
     scanout := v; next_addr := next_addr s; trace := trace s |}.

Definition upd_next_addr (f : addr -> addr) (s : State) : State :=
  {| bos := bos s; pixmaps := pixmaps s; buffers := buffers s; cmds := cmds s;
     drawables := drawables s; pending_flips := pending_flips s;
     scanout := scanout s; next_addr := f (next_addr s); trace := trace s |}.

Definition upd_trace (f : list Event -> list Event) (s : State) : State :=
  {| bos := bos s; pixmaps := pixmaps s; buffers := buffers s; cmds := cmds s;
     drawables := drawables s; pending_flips := pending_flips s;
     scanout := scanout s; next_addr := next_addr s; trace := f (trace s) |}.

(** ** The monad: state, with [None] for a run that leaves defined
    behaviour (a dangling or [NULL] dereference, a failed [assert]). *)

Definition M (A : Type) : Type := State -> option (A * State).

Definition ret {A} (a : A) : M A := fun s => Some (a, s).

Definition bind {A B} (m : M A) (k : A -> M B) : M B :=
  fun s => match m s with
           | Some (a, s') => k a s'
           | None => None
           end.

Definition fail {A} : M A := fun _ => None.

Notation "x <- m ;; k" := (bind m (fun x => k))
  (at level 100, m at next level, right associativity).
Notation "m ;; k" := (bind m (fun _ => k))
  (at level 100, right associativity).

Definition gets {A} (f : State -> A) : M A := fun s => Some (f s, s).
Definition modify (f : State -> State) : M unit := fun s => Some (tt, f s).

Definition deref {A} (o : option A) : M A :=
  match o with
  | Some a => ret a
  | None => fail
  end.

Definition c_assert (b : bool) : M unit := if b then ret tt else fail.

Definition emit (e : Event) : M unit := modify (upd_trace (fun t => t ++ [e])).

Definition load_bo (b : addr) : M armsoc_bo := fun s => deref (bos s !! b) s.
Definition load_pix (p : addr) : M Pixmap := fun s => deref (pixmaps s !! p) s.
Definition load_buf (b : addr) : M ARMSOCDRI2BufferRec := fun s => deref (buffers s !! b) s.
Definition load_cmd (c : addr) : M ARMSOCDRISwapCmd := fun s => deref (cmds s !! c) s.

Definition update_bo (b : addr) (f : armsoc_bo -> armsoc_bo) : M unit :=
  r <- load_bo b ;; modify (upd_bos (insert b (f r))).
Definition update_pix (p : addr) (f : Pixmap -> Pixmap) : M unit :=
  r <- load_pix p ;; modify (upd_pixmaps (insert p (f r))).
Definition update_buf (b : addr) (f : ARMSOCDRI2BufferRec -> ARMSOCDRI2BufferRec) : M unit :=
  r <- load_buf b ;; modify (upd_buffers (insert b (f r))).
Definition update_cmd (c : addr) (f : ARMSOCDRISwapCmd -> ARMSOCDRISwapCmd) : M unit :=
  r <- load_cmd c ;; modify (upd_cmds (insert c (f r))).

(** [a[i]] for an array held as a list; a read outside it is undefined. *)
Definition array_get {A} (a : list A) (i : Z) : M A :=
  if (0 <=? i) then deref (a !! Z.to_nat i) else fail.

(** An address nothing else occupies. *)
Definition fresh_addr : M addr :=
  a <- gets next_addr ;; modify (upd_next_addr S) ;; ret a.

Definition non_null {A} (p : option A) : bool :=
  match p with
  | Some _ => true
  | None => false
  end.

(** ** The collaborators

    The memory-object, pixmap and modesetting layers live in other files of
    the driver and in the X server. *)

(** Modelled from the spec: [name_of(handle) -> export_name], the accessor
    [armsoc_bo_name] of the memory-object layer, which is not in this file. *)
Definition armsoc_bo_name (bo : option addr) : M Z :=
  b <- deref bo ;; r <- load_bo b ;; ret (bo_name r).

(** Modelled from the spec: [has_scanout(handle) -> fb_id|0], the accessor
    [armsoc_bo_get_fb] of the memory-object layer. *)
Definition armsoc_bo_get_fb (bo : option addr) : M Z :=
  b <- deref bo ;; r <- load_bo b ;; ret (bo_fb_id r).

(** Modelled from the spec: [width(handle)] and [height(handle)]. *)
Definition armsoc_bo_width (bo : option addr) : M Z :=
  b <- deref bo ;; r <- load_bo b ;; ret (bo_width r).

Definition armsoc_bo_height (bo : option addr) : M Z :=
  b <- deref bo ;; r <- load_bo b ;; ret (bo_height r).

(** Modelled from the spec: [reference(handle)] of the memory-object layer
    takes one more reference on the handle. *)
Definition armsoc_bo_reference (bo : option addr) : M unit :=
  b <- deref bo ;;
  update_bo b (fun r => set_bo_refcnt (to_int (bo_refcnt r + 1)) r).

(** Modelled from the spec: [unreference(handle)] gives one reference back;
    the object goes away with its last reference. *)
Definition armsoc_bo_unreference (bo : option addr) : M unit :=
  b <- deref bo ;;
  r <- load_bo b ;;
  let n := to_int (bo_refcnt r - 1) in
  if n =? 0 then modify (upd_bos (delete b))
  else modify (upd_bos (insert b (set_bo_refcnt n r))).

(** Modelled from the spec: [add_scanout(handle) -> ok|error]; the answer is
    [0] and the handle carries the new framebuffer id, or the answer is an
    error and the handle is unchanged. *)
Definition armsoc_bo_add_fb (env : Env) (bo : option addr) : M Z :=
  b <- deref bo ;;
  emit (EvAddFb b) ;;
  match env_add_fb env with
  | Some fb => update_bo b (set_bo_fb_id (Z.pos fb)) ;; ret 0
  | None => _ <- load_bo b ;; ret (-1)
  end.

(** Modelled from the spec: [remove_scanout(handle)]. *)
Definition armsoc_bo_rm_fb (bo : option addr) : M unit :=
  b <- deref bo ;;
  emit (EvRmFb b) ;;
  update_bo b (set_bo_fb_id 0).

(** Modelled from the spec: [flush_pending_deletions()]; the deferred
    deletions are not visible through the handles this file holds. *)
Definition armsoc_bo_do_pending_deletions : M unit := emit EvPendingDeletions.

(** Modelled from the spec: [create_surface(drawable, width, height, depth,
    flip_capable) -> surface | null], the screen's CreatePixmap.  A new
    surface has one reference and owns the one reference of its new
    memory object, when it has one. *)
Definition CreatePixmap (env : Env) (w h depth usage : Z) : M (option addr) :=
  emit (EvCreatePixmap w h depth usage) ;;
  match env_CreatePixmap env with
  | None => ret None
  | Some np =>
      bo <- match np_bo np with
            | None => ret None
            | Some nb =>
                b <- fresh_addr ;;
                modify (upd_bos (insert b
                  {| bo_name := nb_name nb; bo_fb_id := nb_fb_id nb;
                     bo_width := nb_width nb; bo_height := nb_height nb;
                     bo_refcnt := 1 |})) ;;
                ret (Some b)
            end ;;
      p <- fresh_addr ;;
      modify (upd_pixmaps (insert p
        {| pix_refcnt := 1; pix_devKind := np_devKind np;
           pix_bitsPerPixel := np_bitsPerPixel np; pix_bo := bo |})) ;;
      ret (Some p)
  end.

(** Modelled from the spec: [destroy_surface(surface)], the screen's
    DestroyPixmap: one reference less, and with the last one the surface
    goes and gives back its reference on the memory object. *)
Definition DestroyPixmap (p : addr) : M unit :=
  emit (EvDestroyPixmap p) ;;
  r <- load_pix p ;;
  let n := to_int (pix_refcnt r - 1) in
  if n =? 0 then
    (match pix_bo r with
     | Some b => armsoc_bo_unreference (Some b)
     | None => ret tt
     end) ;;
    modify (upd_pixmaps (delete p))
  else modify (upd_pixmaps (insert p (set_pix_refcnt n r))).

(** Modelled from the spec: get-backing-object; [ARMSOCPixmapBo] reads the
    memory object out of the pixmap's driver private. *)
Definition ARMSOCPixmapBo (p : addr) : M (option addr) :=
  r <- load_pix p ;; ret (pix_bo r).

(** Modelled from the spec: the exchange of backing identity between two
    surfaces, [ARMSOCPixmapExchange] of the acceleration layer: the two
    pixmaps trade their memory objects. *)
Definition ARMSOCPixmapExchange (a b : addr) : M unit :=
  emit (EvPixmapExchange a b) ;;
  pa <- load_pix a ;;
  pb <- load_pix b ;;
  update_pix a (set_pix_bo (pix_bo pb)) ;;
  update_pix b (set_pix_bo (pix_bo pa)).

Definition ARMSOCRegisterExternalAccess (p : addr) : M unit :=
  _ <- load_pix p ;; emit (EvRegisterExternalAccess p).

Definition ARMSOCDeregisterExternalAccess (p : addr) : M unit :=
  _ <- load_pix p ;; emit (EvDeregisterExternalAccess p).

(** Modelled from the spec: the pixmap behind a drawable, [draw2pix] of the
    driver header: a pixmap is its own, a window has the one the server
    keeps for it. *)
Definition draw2pix (d : DrawRef) : addr :=
  match d with
  | DrawWindow w => d_pix w
  | DrawPixmap p => p
  end.

(** Modelled from the spec: [lookup_drawable(stable_id) -> drawable |
    not_found], the server's dixLookupDrawable. *)
Definition dixLookupDrawable (id : XID) : M (option Drawable) :=
  gets (fun s => drawables s !! id).

(** Modelled from the spec: [page_flip(drawable, framebuffer_id, context) ->
    negative=error | 0=no-op-immediate | N=events-expected]. *)
Definition drmmode_page_flip (env : Env) (pDraw : Drawable) (fb_id : Z) (cmd : addr) : M Z :=
  emit (EvPageFlip (d_id pDraw) fb_id cmd) ;; ret (env_page_flip env).

(** Modelled from the spec: [notify_swap_complete(client, drawable, kind,
    func, data)], the DRI2 core's DRI2SwapComplete. *)
Definition DRI2SwapComplete (cl : Z) (pDraw : Drawable) (kind fn dt : Z) : M unit :=
  emit (EvDRI2SwapComplete cl (d_id pDraw) kind fn dt).

(** Modelled from the spec: publishing a memory object as the active
    scanout surface, [set_scanout_bo] of the driver. *)
Definition set_scanout_bo (bo : option addr) : M unit :=
  b <- deref bo ;;
  _ <- load_bo b ;;
  emit (EvSetScanout b) ;;
  modify (upd_scanout (Some b)).

(** ** The functions of armsoc_dri2.c *)

Section Driver.

Variable pARMSOC : ARMSOCRec.

Definition dri2draw (pDraw : Drawable) (buf : addr) : M DrawRef :=
  r <- load_buf buf ;;
  if attachment r =? DRI2BufferFrontLeft then ret (DrawWindow pDraw)
  else
    let curPix := currentPixmap r in
    slot <- array_get (pPixmaps r) curPix ;;
    p <- deref slot ;;
    ret (DrawPixmap p).

Definition canflip (pDraw : Drawable) : bool :=
  if NoFlip pARMSOC then false
  else (d_type pDraw =? DRAWABLE_WINDOW) && d_DRI2CanFlip pDraw.

Definition exchangebufs (pDraw : Drawable) (a b : addr) : M bool :=
  da <- dri2draw pDraw a ;;
  db <- dri2draw pDraw b ;;
  let aPix := draw2pix da in
  let bPix := draw2pix db in
  ARMSOCPixmapExchange aPix bPix ;;
  ra <- load_buf a ;;
  rb <- load_buf b ;;
  update_buf a (set_name (name rb)) ;;
  update_buf b (set_name (name ra)) ;;
  ret true.

Definition createpix (env : Env) (pDraw : Drawable) : M (option addr) :=
  let usage := if canflip pDraw then ARMSOC_CREATE_PIXMAP_SCANOUT
               else CREATE_PIXMAP_USAGE_BACKING_PIXMAP in
  CreatePixmap env (d_width pDraw) (d_height pDraw) (d_depth pDraw) usage.

(** The [fail:] label of ARMSOCDRI2CreateBuffer. *)
Definition CreateBuffer_fail (pPixmap : option addr) (att : Z) : M (option addr) :=
  match pPixmap with
  | Some pix =>
      if negb (att =? DRI2BufferFrontLeft) then DestroyPixmap pix
      else update_pix pix (fun r => set_pix_refcnt (to_int (pix_refcnt r - 1)) r)
  | None => ret tt
  end ;;
  ret None.

(** ARMSOCDRI2CreateBuffer.  The [pitch] of the record is an [unsigned
    int]: the pitch that exaGetPixmapPitch reads off the pixmap is brought
    into its range. *)
Definition ARMSOCDRI2CreateBuffer (env : Env) (pDraw : Drawable) (att fmt : Z)
  : M (option addr) :=
  if negb (env_calloc env) then ret None
  else
    pPixmap <- (if att =? DRI2BufferFrontLeft then
                  let pix := draw2pix (DrawWindow pDraw) in
                  update_pix pix (fun r => set_pix_refcnt (to_int (pix_refcnt r + 1)) r) ;;
                  ret (Some pix)
                else createpix env pDraw) ;;
    match pPixmap with
    | None =>
        c_assert (negb (att =? DRI2BufferFrontLeft)) ;;
        CreateBuffer_fail pPixmap att
    | Some pix =>
        let ring := (att =? DRI2BufferBackLeft) && (2 <? driNumBufs pARMSOC) in
        if negb (env_array env) then CreateBuffer_fail pPixmap att
        else
          let arr := if ring
                     then replicate (Z.to_nat (driNumBufs pARMSOC - 1)) None
                     else [None] in
          let n := if ring then to_unsigned (driNumBufs pARMSOC - 1) else 1 in
          c_assert (bool_decide (0 < length arr)%nat) ;;
          let arr := <[0%nat := Some pix]> arr in
          bo <- ARMSOCPixmapBo pix ;;
          match bo with
          | None => CreateBuffer_fail pPixmap att
          | Some _ =>
              r <- load_pix pix ;;
              nm <- armsoc_bo_name bo ;;
              buf <- fresh_addr ;;
              modify (upd_buffers (insert buf
                {| attachment := att;
                   name := nm;
                   pitch := to_unsigned (pix_devKind r);
                   cpp := pix_bitsPerPixel r / 8;
                   format := fmt;
                   base_flags := 0;
                   pPixmaps := arr;
                   currentPixmap := 0;
                   numPixmaps := n;
                   refcnt := 1;
                   attempted_fb_alloc := false |})) ;;
              (if canflip pDraw && negb (att =? DRI2BufferFrontLeft) then
                 _ <- armsoc_bo_add_fb env bo ;;
                 update_buf buf (set_attempted_fb_alloc true)
               else ret tt) ;;
              ARMSOCRegisterExternalAccess pix ;;
              ret (Some buf)
          end
    end.

Definition ARMSOCDRI2ReuseBufferNotify (env : Env) (pDraw : Drawable) (buffer : addr)
  : M unit :=
  buf <- load_buf buffer ;;
  if attachment buf =? DRI2BufferFrontLeft then ret tt
  else
    slot <- array_get (pPixmaps buf) 0 ;;
    pix <- deref slot ;;
    bo <- ARMSOCPixmapBo pix ;;
    fb_id <- armsoc_bo_get_fb bo ;;
    let flippable := canflip pDraw in
    (if flippable && negb (attempted_fb_alloc buf) && (fb_id =? 0) then
       _ <- armsoc_bo_add_fb env bo ;;
       update_buf buffer (set_attempted_fb_alloc true)
     else ret tt) ;;
    (if negb flippable && negb (fb_id =? 0) then
       update_buf buffer (set_attempted_fb_alloc false) ;;
       armsoc_bo_rm_fb bo
     else ret tt).

(** The loop of ARMSOCDRI2DestroyBuffer:
    [for (i = 0; i < numBuffers && buf->pPixmaps[i] != NULL; i++)],
    with [todo] the iterations [numBuffers - i] still allowed. *)
Fixpoint destroy_pixmaps (arr : list (option addr)) (i : Z) (todo : nat) : M unit :=
  match todo with
  | O => ret tt
  | S todo' =>
      slot <- array_get arr i ;;
      match slot with
      | None => ret tt
      | Some pix =>
          ARMSOCDeregisterExternalAccess pix ;;
          DestroyPixmap pix ;;
          destroy_pixmaps arr (i + 1) todo'
      end
  end.

Definition ARMSOCDRI2DestroyBuffer (pDraw : option Drawable) (buffer : addr) : M unit :=
  buf <- load_buf buffer ;;
  slot <- array_get (pPixmaps buf) 0 ;;
  pix <- deref slot ;;
  _ <- load_pix pix ;;
  let n := to_int (refcnt buf - 1) in
  update_buf buffer (set_refcnt n) ;;
  if 0 <? n then ret tt
  else
    numBuffers <- (if attachment buf =? DRI2BufferBackLeft then
                     c_assert (1 <? driNumBufs pARMSOC) ;;
                     ret (to_int (driNumBufs pARMSOC - 1))
                   else ret 1) ;;
    destroy_pixmaps (pPixmaps buf) 0 (Z.to_nat numBuffers) ;;
    modify (upd_buffers (delete buffer)).

Definition ARMSOCDRI2ReferenceBuffer (buffer : addr) : M unit :=
  update_buf buffer (fun buf => set_refcnt (to_int (refcnt buf + 1)) buf).

Definition ARMSOCDRI2CopyRegion (env : Env) (pDraw : Drawable)
  (pDstBuffer pSrcBuffer : addr) : M unit :=
  pSrcDraw <- dri2draw pDraw pSrcBuffer ;;
  pDstDraw <- dri2draw pDraw pDstBuffer ;;
  (match pDstDraw with
   | DrawWindow _ => ret tt
   | DrawPixmap p => _ <- load_pix p ;; ret tt
   end) ;;
  if negb (env_GetScratchGC env) then ret tt
  else emit (EvCopyArea pSrcDraw pDstDraw (d_width pDraw) (d_height pDraw)).

(** [allocNextBuffer] hands the new pixmap and name back through its two
    out-parameters when it answers TRUE; here they are its result, and
    [None] is FALSE. *)
Definition allocNextBuffer (env : Env) (pDraw : Drawable) : M (option (addr * Z)) :=
  pPixmap <- createpix env pDraw ;;
  match pPixmap with
  | None => ret None
  | Some pix =>
      bo <- ARMSOCPixmapBo pix ;;
      match bo with
      | None => DestroyPixmap pix ;; ret None
      | Some _ =>
          ARMSOCRegisterExternalAccess pix ;;
          new_name <- armsoc_bo_name bo ;;
          fb <- armsoc_bo_get_fb bo ;;
          r <- (if fb =? 0 then armsoc_bo_add_fb env bo else ret 0) ;;
          if negb (r =? 0) then
            ARMSOCDeregisterExternalAccess pix ;;
            DestroyPixmap pix ;;
            ret None
          else ret (Some (pix, new_name))
      end
  end.

Definition nextBuffer (env : Env) (pDraw : Drawable) (backBuf : addr) : M unit :=
  if driNumBufs pARMSOC <=? 2 then ret tt
  else
    update_buf backBuf
      (fun r => set_currentPixmap (to_unsigned (currentPixmap r + 1)) r) ;;
    r <- load_buf backBuf ;;
    c_assert (negb (numPixmaps r =? 0)) ;;
    update_buf backBuf
      (fun r => set_currentPixmap (currentPixmap r mod numPixmaps r) r) ;;
    r <- load_buf backBuf ;;
    slot <- array_get (pPixmaps r) (currentPixmap r) ;;
    match slot with
    | Some pix =>
        bo <- ARMSOCPixmapBo pix ;;
        c_assert (non_null bo) ;;
        nm <- armsoc_bo_name bo ;;
        update_buf backBuf (set_name nm)
    | None =>
        res <- allocNextBuffer env pDraw ;;
        match res with
        | Some (pix, nm) =>
            update_buf backBuf
              (fun r => set_name nm
                 (set_pPixmaps (<[Z.to_nat (currentPixmap r) := Some pix]> (pPixmaps r)) r))
        | None =>
            r <- load_buf backBuf ;;
            c_assert (0 <? currentPixmap r) ;;
            update_buf backBuf
              (fun r => set_currentPixmap (to_unsigned (currentPixmap r - 1)) r) ;;
            update_buf backBuf
              (fun r => set_numPixmaps (to_unsigned (currentPixmap r + 1)) r)
        end
    end.

Definition boFromBuffer (buf : addr) : M (option addr) :=
  r <- load_buf buf ;;
  slot <- array_get (pPixmaps r) (currentPixmap r) ;;
  pPixmap <- deref slot ;;
  priv <- load_pix pPixmap ;;
  ret (pix_bo priv).

(** The test [cmd->type != DRI2_BLIT_COMPLETE &&
    (cmd->flags & ARMSOC_SWAP_FAKE_FLIP) == 0] made twice by
    ARMSOCDRI2SwapComplete. *)
Definition real_flip (cmd : ARMSOCDRISwapCmd) : bool :=
  negb (type cmd =? DRI2_BLIT_COMPLETE) &&
  (Z.land (flags cmd) ARMSOC_SWAP_FAKE_FLIP =? 0).

Definition ARMSOCDRI2SwapComplete (env : Env) (cmd : addr) : M unit :=
  update_cmd cmd (fun c => set_swapCount (to_int (swapCount c - 1)) c) ;;
  c <- load_cmd cmd ;;
  if 0 <? swapCount c then ret tt
  else
    old_src_bo <- boFromBuffer (pSrcBuffer c) ;;
    old_dst_bo <- boFromBuffer (pDstBuffer c) ;;
    pDraw <-
      (if Z.land (flags c) ARMSOC_SWAP_FAIL =? 0 then
         status <- dixLookupDrawable (draw_id c) ;;
         match status with
         | Some d =>
             (if real_flip c then
                c_assert (type c =? DRI2_FLIP_COMPLETE) ;;
                _ <- exchangebufs d (pSrcBuffer c) (pDstBuffer c) ;;
                src <- load_buf (pSrcBuffer c) ;;
                if attachment src =? DRI2BufferBackLeft
                then nextBuffer env d (pSrcBuffer c)
                else ret tt
              else ret tt) ;;
             DRI2SwapComplete (client c) d (type c) (func c) (data c) ;;
             (if real_flip c then
                c_assert (type c =? DRI2_FLIP_COMPLETE) ;;
                bo <- boFromBuffer (pDstBuffer c) ;;
                set_scanout_bo bo
              else ret tt) ;;
             ret (Some d)
         | None => ret None
         end
       else ret None) ;;
    ARMSOCDRI2DestroyBuffer pDraw (pSrcBuffer c) ;;
    ARMSOCDRI2DestroyBuffer pDraw (pDstBuffer c) ;;
    armsoc_bo_unreference old_src_bo ;;
    armsoc_bo_unreference old_dst_bo ;;
    modify (upd_pending_flips (fun n => to_int (n - 1))) ;;
    modify (upd_cmds (delete cmd)).

(** The value of [do_flip] that ARMSOCDRI2ScheduleSwap computes from what it
    read off the two memory objects and the drawable. *)
Definition do_flip (src_fb_id dst_fb_id : Z) (flippable : bool)
  (src_w dst_w src_h dst_h : Z) : bool :=
  let do_flip := negb (src_fb_id =? 0) && negb (dst_fb_id =? 0) && flippable in
  let do_flip := do_flip && (src_w =? dst_w) in
  let do_flip := do_flip && (src_h =? dst_h) in
  do_flip.

(** ARMSOCDRI2ScheduleSwap, in the three stretches of its body.  The first
    fills in the command, takes the extra references and decides; it hands
    on the command, [src_fb_id] and [do_flip].  (The widths and heights are
    read here whatever the first conjuncts of [do_flip] say: the reads
    change nothing and the two objects were dereferenced just before.) *)
Definition ScheduleSwap_prepare (cl : Z) (pDraw : Drawable)
  (pDstBuffer pSrcBuffer : addr) (fn dt : Z) : M (addr * Z * bool) :=
  cmd <- fresh_addr ;;
  modify (upd_cmds (insert cmd
    {| type := 0; client := cl; draw_id := d_id pDraw;
       pDstBuffer := pDstBuffer; pSrcBuffer := pSrcBuffer; func := fn;
       swapCount := 0; flags := 0; data := dt |})) ;;
  ARMSOCDRI2ReferenceBuffer pSrcBuffer ;;
  ARMSOCDRI2ReferenceBuffer pDstBuffer ;;
  modify (upd_pending_flips (fun n => to_int (n + 1))) ;;
  src_bo <- boFromBuffer pSrcBuffer ;;
  dst_bo <- boFromBuffer pDstBuffer ;;
  src_fb_id <- armsoc_bo_get_fb src_bo ;;
  dst_fb_id <- armsoc_bo_get_fb dst_bo ;;
  armsoc_bo_reference src_bo ;;
  armsoc_bo_reference dst_bo ;;
  src_w <- armsoc_bo_width src_bo ;;
  dst_w <- armsoc_bo_width dst_bo ;;
  src_h <- armsoc_bo_height src_bo ;;
  dst_h <- armsoc_bo_height dst_bo ;;
  ret (cmd, src_fb_id,
       do_flip src_fb_id dst_fb_id (canflip pDraw) src_w dst_w src_h dst_h).

(** The branch [if (do_flip)]. *)
Definition ScheduleSwap_flip (env : Env) (pDraw : Drawable) (cmd : addr)
  (src_fb_id : Z) : M bool :=
  update_cmd cmd (set_type DRI2_FLIP_COMPLETE) ;;
  armsoc_bo_do_pending_deletions ;;
  r <- drmmode_page_flip env pDraw src_fb_id cmd ;;
  if r <? 0 then
    update_cmd cmd (fun c => set_flags (Z.lor (flags c) ARMSOC_SWAP_FAIL) c) ;;
    update_cmd cmd
      (set_swapCount (if use_page_flip_events pARMSOC
                      then to_int (- to_int (r + 1)) else 0)) ;;
    c <- load_cmd cmd ;;
    (if swapCount c =? 0 then ARMSOCDRI2SwapComplete env cmd else ret tt) ;;
    ret false
  else
    (if r =? 0 then
       update_cmd cmd (fun c => set_flags (Z.lor (flags c) ARMSOC_SWAP_FAKE_FLIP) c)
     else ret tt) ;;
    update_cmd cmd
      (set_swapCount (if use_page_flip_events pARMSOC then r else 0)) ;;
    c <- load_cmd cmd ;;
    (if swapCount c =? 0 then ARMSOCDRI2SwapComplete env cmd else ret tt) ;;
    ret true.

(** The branch [else], the fallback to a blit. *)
Definition ScheduleSwap_blit (env : Env) (pDraw : Drawable)
  (pDstBuffer pSrcBuffer : addr) (cmd : addr) : M bool :=
  ARMSOCDRI2CopyRegion env pDraw pDstBuffer pSrcBuffer ;;
  update_cmd cmd (set_type DRI2_BLIT_COMPLETE) ;;
  ARMSOCDRI2SwapComplete env cmd ;;
  ret true.

Definition ARMSOCDRI2ScheduleSwap (env : Env) (cl : Z) (pDraw : Drawable)
  (pDstBuffer pSrcBuffer : addr) (fn dt : Z) : M bool :=
  if negb (env_calloc env) then ret false
  else
    x <- ScheduleSwap_prepare cl pDraw pDstBuffer pSrcBuffer fn dt ;;
    let '(cmd, src_fb_id, flip) := x in
    if flip then ScheduleSwap_flip env pDraw cmd src_fb_id
    else ScheduleSwap_blit env pDraw pDstBuffer pSrcBuffer cmd.

(** ** The entry points as the DRI2 core and the flip-event handler use them *)

Inductive Op :=
| OpCreateBuffer (pDraw : Drawable) (att fmt : Z)
| OpReuseBufferNotify (pDraw : Drawable) (buffer : addr)
| OpDestroyBuffer (pDraw : option Drawable) (buffer : addr)
| OpReferenceBuffer (buffer : addr)
| OpCopyRegion (pDraw : Drawable) (pDstBuffer pSrcBuffer : addr)
| OpScheduleSwap (cl : Z) (pDraw : Drawable) (pDstBuffer pSrcBuffer : addr) (fn dt : Z)
| OpFlipEvent (cmd : addr)
| OpSetDrawable (id : XID) (d : option Drawable).

Definition exec_op (env : Env) (o : Op) : M unit :=
  match o with
  | OpCreateBuffer pDraw att fmt =>
      _ <- ARMSOCDRI2CreateBuffer env pDraw att fmt ;; ret tt
  | OpReuseBufferNotify pDraw buffer => ARMSOCDRI2ReuseBufferNotify env pDraw buffer
  | OpDestroyBuffer pDraw buffer => ARMSOCDRI2DestroyBuffer pDraw buffer
  | OpReferenceBuffer buffer => ARMSOCDRI2ReferenceBuffer buffer
  | OpCopyRegion pDraw dst src => ARMSOCDRI2CopyRegion env pDraw dst src
  | OpScheduleSwap cl pDraw dst src fn dt =>
      _ <- ARMSOCDRI2ScheduleSwap env cl pDraw dst src fn dt ;; ret tt
  | OpFlipEvent cmd => ARMSOCDRI2SwapComplete env cmd
  | OpSetDrawable id d =>
      modify (upd_drawables (fun m => match d with
                                      | Some x => <[id := x]> m
                                      | None => delete id m
                                      end))
  end.

(** A run: each step is one entry with the collaborators' answers for it. *)
Fixpoint run (steps : list (Env * Op)) (s : State) : option State :=
  match steps with
  | [] => Some s
  | (env, o) :: rest =>
      match exec_op env o s with
      | Some (_, s') => run rest s'
      | None => None
      end
  end.

End Driver.

(** ** Vocabulary of the properties *)

(** The calls of the completion notifier in a trace. *)
Definition is_notify (e : Event) : bool :=
  match e with
  | EvDRI2SwapComplete _ _ _ _ _ => true
  | _ => false
  end.

Definition notifications (t : list Event) : list Event := List.filter is_notify t.

(** The two objects of a swap: each buffer record, the pixmap in its current
    slot, and the memory object of that pixmap, all present and pairwise
    different; the first slot of each ring holds a pixmap that is present. *)
Record swap_heap (s : State) (src dst : addr) (bs bd : ARMSOCDRI2BufferRec)
  (ps pd : addr) (xs xd : Pixmap) (os od : addr) (rs rd : armsoc_bo) : Prop := {
  sh_src : buffers s !! src = Some bs;
  sh_dst : buffers s !! dst = Some bd;
  sh_bufs : src <> dst;
  sh_src_ge : 0 <= currentPixmap bs;
  sh_dst_ge : 0 <= currentPixmap bd;
  sh_src_cur : pPixmaps bs !! Z.to_nat (currentPixmap bs) = Some (Some ps);
  sh_dst_cur : pPixmaps bd !! Z.to_nat (currentPixmap bd) = Some (Some pd);
  sh_src_pix : pixmaps s !! ps = Some xs;
  sh_dst_pix : pixmaps s !! pd = Some xd;
  sh_pixs : ps <> pd;
  sh_src_bo : pix_bo xs = Some os;
  sh_dst_bo : pix_bo xd = Some od;
  sh_src_obj : bos s !! os = Some rs;
  sh_dst_obj : bos s !! od = Some rd;
  sh_objs : os <> od;
  sh_src_first : exists p, pPixmaps bs !! 0%nat = Some (Some p) /\ is_Some (pixmaps s !! p);
  sh_dst_first : exists p, pPixmaps bd !! 0%nat = Some (Some p) /\ is_Some (pixmaps s !! p)
}.

(** One more and one less reference, on a buffer record and on a memory
    object. *)
Definition buf_ref (r : ARMSOCDRI2BufferRec) : ARMSOCDRI2BufferRec :=
  set_refcnt (to_int (refcnt r + 1)) r.
Definition buf_unref (r : ARMSOCDRI2BufferRec) : ARMSOCDRI2BufferRec :=
  set_refcnt (to_int (refcnt r - 1)) r.
Definition bo_ref (r : armsoc_bo) : armsoc_bo :=
  set_bo_refcnt (to_int (bo_refcnt r + 1)) r.
Definition bo_unref (r : armsoc_bo) : armsoc_bo :=
  set_bo_refcnt (to_int (bo_refcnt r - 1)) r.

(** [n] page-flip events for one command: the event handler enters
    ARMSOCDRI2SwapComplete once for each. *)
Fixpoint flip_events (cfg : ARMSOCRec) (env : Env) (cmd : addr) (n : nat) : M unit :=
  match n with
  | O => ret tt
  | S n' => ARMSOCDRI2SwapComplete cfg env cmd ;; flip_events cfg env cmd n'
  end.

(** The command record as ARMSOCDRI2ScheduleSwap fills it in. *)
Definition new_cmd (cl : Z) (pDraw : Drawable) (pDstBuffer pSrcBuffer : addr)
  (fn dt : Z) : ARMSOCDRISwapCmd :=
  {| type := 0; client := cl; draw_id := d_id pDraw;
     pDstBuffer := pDstBuffer; pSrcBuffer := pSrcBuffer; func := fn;
     swapCount := 0; flags := 0; data := dt |}.

(** The state after the first stretch of ARMSOCDRI2ScheduleSwap: the command
    is recorded at a new address, each buffer and each memory object has one
    more reference, and one more flip is in flight. *)
Definition prepared (c : ARMSOCDRISwapCmd) (src dst os od : addr)
  (bs bd : ARMSOCDRI2BufferRec) (rs rd : armsoc_bo) (s : State) : State :=
  upd_bos (insert od (bo_ref rd))
    (upd_bos (insert os (bo_ref rs))
       (upd_pending_flips (fun n => to_int (n + 1))
          (upd_buffers (insert dst (buf_ref bd))
             (upd_buffers (insert src (buf_ref bs))
                (upd_cmds (insert (next_addr s) c)
                   (upd_next_addr S s)))))).

(** What a completion tells the client: nothing after a failed flip or when
    the drawable is gone, and else the command's kind and callback. *)
Definition completion_notice (c : ARMSOCDRISwapCmd) (s : State) : list Event :=
  if Z.land (flags c) ARMSOC_SWAP_FAIL =? 0 then
    match drawables s !! draw_id c with
    | Some d => [EvDRI2SwapComplete (client c) (d_id d) (type c) (func c) (data c)]
    | None => []
    end
  else [].

(** The state a completion leaves when it has nothing to exchange: the
    command is gone, each buffer and each captured memory object has one
    reference less, one flip less is in flight, and [evs] went out. *)
Definition released (cmd src dst os od : addr) (bs bd : ARMSOCDRI2BufferRec)
  (rs rd : armsoc_bo) (c : ARMSOCDRISwapCmd) (evs : list Event) (s : State) : State :=
  upd_cmds (delete cmd)
    (upd_pending_flips (fun n => to_int (n - 1))
       (upd_bos (insert od (bo_unref rd))
          (upd_bos (insert os (bo_unref rs))
             (upd_buffers (insert dst (buf_unref bd))
                (upd_buffers (insert src (buf_unref bs))
                   (upd_trace (fun t => t ++ evs)
                      (upd_cmds (insert cmd (set_swapCount (to_int (swapCount c - 1)) c))
                         s))))))).


(** The reference counts a swap can take one more of without wrap-around,
    and give back without dropping the last one. *)
Definition refs_in_range (bs bd : ARMSOCDRI2BufferRec) (rs rd : armsoc_bo) : Prop :=
  1 <= refcnt bs < INT_MAX /\ 1 <= refcnt bd < INT_MAX /\
  1 <= bo_refcnt rs < INT_MAX /\ 1 <= bo_refcnt rd < INT_MAX.

(** The conditions under which a swap is a flip. *)
Definition flip_eligible (cfg : ARMSOCRec) (pDraw : Drawable) : Prop :=
  NoFlip cfg = false /\ d_type pDraw = DRAWABLE_WINDOW /\ d_DRI2CanFlip pDraw = true.

(** The reference counts at a completion that does not drop a last
    reference. *)
Definition held_in_range (bs bd : ARMSOCDRI2BufferRec) (rs rd : armsoc_bo) : Prop :=
  2 <= refcnt bs <= INT_MAX /\ 2 <= refcnt bd <= INT_MAX /\
  2 <= bo_refcnt rs <= INT_MAX /\ 2 <= bo_refcnt rd <= INT_MAX.

(** What a completion that exchanges nothing does to the state. *)
Record completion_effect (cmd src dst os od : addr) (bs bd : ARMSOCDRI2BufferRec)
  (rs rd : armsoc_bo) (evs : list Event) (s s' : State) : Prop := {
  ce_cmds : cmds s' = delete cmd (cmds s);
  ce_buffers : buffers s' = <[dst := buf_unref bd]> (<[src := buf_unref bs]> (buffers s));
  ce_bos : bos s' = <[od := bo_unref rd]> (<[os := bo_unref rs]> (bos s));
  ce_pixmaps : pixmaps s' = pixmaps s;
  ce_drawables : drawables s' = drawables s;
  ce_pending : pending_flips s' = to_int (pending_flips s - 1);
  ce_scanout : scanout s' = scanout s;
  ce_next : next_addr s' = next_addr s;
  ce_trace : trace s' = trace s ++ evs
}.

(** ** A small screen for the examples: a window with a front buffer and a
    back buffer on a screen configured for triple buffering. *)

Definition ex_cfg (events : bool) : ARMSOCRec :=
  {| NoFlip := false; driNumBufs := 3; use_page_flip_events := events |}.

Definition ex_win : Drawable :=
  {| d_id := 100; d_type := DRAWABLE_WINDOW; d_width := 640; d_height := 480;
     d_depth := 24; d_pix := 1%nat; d_DRI2CanFlip := true |}.

Definition ex_front_bo : armsoc_bo :=
  {| bo_name := 1000; bo_fb_id := 7; bo_width := 640; bo_height := 480;
     bo_refcnt := 1 |}.

Definition ex_back_bo : armsoc_bo :=
  {| bo_name := 1001; bo_fb_id := 9; bo_width := 640; bo_height := 480;
     bo_refcnt := 1 |}.

Definition ex_front_pix : Pixmap :=
  {| pix_refcnt := 2; pix_devKind := 2560; pix_bitsPerPixel := 32;
     pix_bo := Some 0%nat |}.

Definition ex_back_pix : Pixmap :=
  {| pix_refcnt := 1; pix_devKind := 2560; pix_bitsPerPixel := 32;
     pix_bo := Some 3%nat |}.

Definition ex_front : ARMSOCDRI2BufferRec :=
  {| attachment := DRI2BufferFrontLeft; name := 1000; pitch := 2560; cpp := 4;
     format := 0; base_flags := 0; pPixmaps := [Some 1%nat];
     currentPixmap := 0; numPixmaps := 1; refcnt := 1;
     attempted_fb_alloc := false |}.

Definition ex_back : ARMSOCDRI2BufferRec :=
  {| attachment := DRI2BufferBackLeft; name := 1001; pitch := 2560; cpp := 4;
     format := 0; base_flags := 0; pPixmaps := [Some 4%nat; None];
     currentPixmap := 0; numPixmaps := 2; refcnt := 1;
     attempted_fb_alloc := true |}.

(** Before any buffer exists: the window, its pixmap and the scanout object. *)
Definition ex_init : State :=
  {| bos := {[ 0%nat := ex_front_bo ]};
     pixmaps := {[ 1%nat := set_pix_refcnt 1 ex_front_pix ]};
     buffers := ∅; cmds := ∅; drawables := {[ 100 := ex_win ]};
     pending_flips := 0; scanout := Some 0%nat; next_addr := 2%nat;
     trace := [] |}.

(** After the two buffers were created. *)
Definition ex_state : State :=
  {| bos := <[ 3%nat := ex_back_bo ]> {[ 0%nat := ex_front_bo ]};
     pixmaps := <[ 4%nat := ex_back_pix ]> {[ 1%nat := ex_front_pix ]};
     buffers := <[ 5%nat := ex_back ]> {[ 2%nat := ex_front ]};
     cmds := ∅; drawables := {[ 100 := ex_win ]};
     pending_flips := 0; scanout := Some 0%nat; next_addr := 6%nat;
     trace := [] |}.

(** The collaborators' answers: CreatePixmap gives a 640x480 surface with a
    memory object that has no framebuffer yet, attaching one works, and the
    flip issuer answers [flip]. *)
Definition ex_env (flip : Z) : Env :=
  {| env_calloc := true; env_array := true;
     env_CreatePixmap :=
       Some {| np_devKind := 2560; np_bitsPerPixel := 32;
               np_bo := Some {| nb_name := 1001; nb_fb_id := 0;
                                nb_width := 640; nb_height := 480 |} |};
     env_add_fb := Some 9%positive;
     env_page_flip := flip;
     env_GetScratchGC := true |}.

(** A state that differs from another in one command record and in the
    calls that went out. *)
Record cmd_changed (cmd : addr) (c : ARMSOCDRISwapCmd) (evs : list Event)
  (s s' : State) : Prop := {
  cc_cmds : cmds s' = <[cmd := c]> (cmds s);
  cc_buffers : buffers s' = buffers s;
  cc_bos : bos s' = bos s;
  cc_pixmaps : pixmaps s' = pixmaps s;
  cc_drawables : drawables s' = drawables s;
  cc_pending : pending_flips s' = pending_flips s;
  cc_scanout : scanout s' = scanout s;
  cc_next : next_addr s' = next_addr s;
  cc_trace : trace s' = trace s ++ evs
}.

(** The command after the flip was issued with a flag to set: its kind is
    Flip, the flag is or-ed in, and [n] events are awaited. *)
Definition flagged_cmd (c : ARMSOCDRISwapCmd) (flag n : Z) : ARMSOCDRISwapCmd :=
  set_swapCount n
    (set_flags (Z.lor (flags c) flag) (set_type DRI2_FLIP_COMPLETE c)).

(** The events a failed flip leaves outstanding. *)
Definition failed_flip_events (cfg : ARMSOCRec) (r : Z) : Z :=
  if use_page_flip_events cfg then to_int (- to_int (r + 1)) else 0.

(** The command of a real flip on the example screen that awaits one event. *)
Definition ex_flip_cmd : ARMSOCDRISwapCmd :=
  set_swapCount 1 (set_type DRI2_FLIP_COMPLETE (new_cmd 55 ex_win 2%nat 5%nat 66 77)).

(** The example screen with that flip in flight and the window destroyed
    since. *)
Definition ex_gone : State :=
  {| bos := <[ 3%nat := bo_ref ex_back_bo ]> {[ 0%nat := bo_ref ex_front_bo ]};
     pixmaps := <[ 4%nat := ex_back_pix ]> {[ 1%nat := ex_front_pix ]};
     buffers := <[ 5%nat := buf_ref ex_back ]> {[ 2%nat := buf_ref ex_front ]};
     cmds := {[ 6%nat := ex_flip_cmd ]}; drawables := ∅;
     pending_flips := 1; scanout := Some 0%nat; next_addr := 7%nat;
     trace := [EvPendingDeletions; EvPageFlip 100 9 6%nat] |}.


(** ** The ring of a back buffer *)

(** The ring of a buffer record is in order: the current slot lies below the
    number of slots in use, which is no more than the array holds, and the
    first slot holds a pixmap. *)
Definition ring_ok (r : ARMSOCDRI2BufferRec) : Prop :=
  0 <= currentPixmap r < numPixmaps r /\
  numPixmaps r <= Z.of_nat (length (pPixmaps r)) /\
  numPixmaps r <= UINT_MAX /\
  exists p, pPixmaps r !! 0%nat = Some (Some p).

(** The slot an advance goes to. *)
Definition next_slot (r : ARMSOCDRI2BufferRec) : Z :=
  (currentPixmap r + 1) mod numPixmaps r.

(** Every slot in use holds a pixmap that is there with its memory object. *)
Definition ring_full (s : State) (r : ARMSOCDRI2BufferRec) : Prop :=
  forall i, 0 <= i < numPixmaps r ->
    exists pix px bo rb,
      pPixmaps r !! Z.to_nat i = Some (Some pix) /\
      pixmaps s !! pix = Some px /\ pix_bo px = Some bo /\ bos s !! bo = Some rb.

(** [n] advances in a row. *)
Fixpoint nextBuffer_n (cfg : ARMSOCRec) (env : Env) (d : Drawable) (b : addr)
  (n : nat) : M unit :=
  match n with
  | O => ret tt
  | S k => nextBuffer cfg env d b ;; nextBuffer_n cfg env d b k
  end.

(** The answers with which allocNextBuffer fails: no pixmap, a pixmap
    without a memory object, or a memory object without a framebuffer to
    which none can be attached. *)
Definition alloc_fails (env : Env) : Prop :=
  match env_CreatePixmap env with
  | None => True
  | Some np =>
      match np_bo np with
      | None => True
      | Some nb => nb_fb_id nb = 0 /\ env_add_fb env = None
      end
  end.

(** What an allocation attempt leaves alone: the buffer records, the
    commands, the drawables, the counters, every pixmap and memory object
    at an address that was in use, and the notifications sent so far. *)
Record alloc_frame (s s' : State) : Prop := {
  af_buffers : buffers s' = buffers s;
  af_cmds : cmds s' = cmds s;
  af_drawables : drawables s' = drawables s;
  af_pending : pending_flips s' = pending_flips s;
  af_scanout : scanout s' = scanout s;
  af_next : (next_addr s <= next_addr s')%nat;
  af_pixmaps : forall a, (a < next_addr s)%nat -> pixmaps s' !! a = pixmaps s !! a;
  af_bos : forall a, (a < next_addr s)%nat -> bos s' !! a = bos s !! a;
  af_notify : notifications (trace s') = notifications (trace s)
}.

(** The example screen with the second slot of the back buffer's ring
    allocated as well. *)
Definition ex_second_bo : armsoc_bo :=
  {| bo_name := 1002; bo_fb_id := 11; bo_width := 640; bo_height := 480;
     bo_refcnt := 1 |}.

Definition ex_second_pix : Pixmap :=
  {| pix_refcnt := 1; pix_devKind := 2560; pix_bitsPerPixel := 32;
     pix_bo := Some 6%nat |}.

Definition ex_back_full : ARMSOCDRI2BufferRec :=
  set_pPixmaps [Some 4%nat; Some 7%nat] ex_back.

Definition ex_full : State :=
  {| bos := <[ 6%nat := ex_second_bo ]> (bos ex_state);
     pixmaps := <[ 7%nat := ex_second_pix ]> (pixmaps ex_state);
     buffers := <[ 5%nat := ex_back_full ]> (buffers ex_state);
     cmds := ∅; drawables := {[ 100 := ex_win ]};
     pending_flips := 0; scanout := Some 0%nat; next_addr := 8%nat;
     trace := [] |}.

(** Answers with which an allocation fails: there is no pixmap to be had. *)
Definition ex_env_nomem : Env :=
  {| env_calloc := true; env_array := true; env_CreatePixmap := None;
     env_add_fb := None; env_page_flip := 1; env_GetScratchGC := true |}.

(** The example screen after the window was unmapped and the back buffer
    lost its framebuffer. *)
Definition ex_unmapped : State :=
  upd_bos (insert 3%nat (set_bo_fb_id 0 ex_back_bo))
    (upd_buffers (insert 5%nat (set_attempted_fb_alloc false ex_back)) ex_state).

(** ** The invariant of the rings *)

(** Every buffer record lies below the allocator's mark and has its ring in
    order. *)
Definition state_inv (s : State) : Prop :=
  forall b r, buffers s !! b = Some r -> (b < next_addr s)%nat /\ ring_ok r.

(** One step of the driver, seen from the rings: the allocator's mark does
    not go back, the invariant is kept, no ring gets deeper, and a record
    that appears does so at a new address. *)
Record ring_step (s s' : State) : Prop := {
  rs_next : (next_addr s <= next_addr s')%nat;
  rs_inv : state_inv s -> state_inv s';
  rs_mono : state_inv s -> forall b r r',
      buffers s !! b = Some r -> buffers s' !! b = Some r' ->
      numPixmaps r' <= numPixmaps r;
  rs_new : forall b r',
      buffers s !! b = None -> buffers s' !! b = Some r' -> (next_addr s <= b)%nat
}.

(** A step that leaves the buffer records alone. *)
Definition keeps_buffers (s s' : State) : Prop :=
  buffers s' = buffers s /\ (next_addr s <= next_addr s')%nat.

(** Every run of [m] that returns relates the state before to the state
    after by [R]. *)
Definition preserves {A} (R : State -> State -> Prop) (m : M A) : Prop :=
  forall s a s', m s = Some (a, s') -> R s s'.

(** A change of a buffer record that leaves its ring alone. *)
Definition ring_neutral (f : ARMSOCDRI2BufferRec -> ARMSOCDRI2BufferRec) : Prop :=
  forall r, pPixmaps (f r) = pPixmaps r /\ currentPixmap (f r) = currentPixmap r /\
            numPixmaps (f r) = numPixmaps r.

(** The depth a new ring starts with: the configured number of buffers less
    the front buffer for a back buffer under more than double buffering,
    and 1 otherwise. *)
Definition initial_depth (cfg : ARMSOCRec) (att : Z) : Z :=
  if (att =? DRI2BufferBackLeft) && (2 <? driNumBufs cfg)
  then driNumBufs cfg - 1 else 1.

(** The answers with which allocNextBuffer succeeds: a pixmap with a memory
    object that has a framebuffer or can be given one. *)
Definition alloc_succeeds (env : Env) : Prop :=
  exists np nb,
    env_CreatePixmap env = Some np /\ np_bo np = Some nb /\
    (nb_fb_id nb <> 0 \/ is_Some (env_add_fb env)).

(** What an advance of the ring of buffer [b] leaves alone: everything an
    allocation leaves alone, and of the record of [b] its reference count,
    its attachment and its first slot; the other records stay. *)
Record ring_advanced (b : addr) (r : ARMSOCDRI2BufferRec) (s s' : State) : Prop := {
  ra_buffers : exists r',
      buffers s' = <[b := r']> (buffers s) /\ refcnt r' = refcnt r /\
      attachment r' = attachment r /\ pPixmaps r' !! 0%nat = pPixmaps r !! 0%nat;
  ra_cmds : cmds s' = cmds s;
  ra_drawables : drawables s' = drawables s;
  ra_pending : pending_flips s' = pending_flips s;
  ra_scanout : scanout s' = scanout s;
  ra_next : (next_addr s <= next_addr s')%nat;
  ra_pixmaps : forall a, (a < next_addr s)%nat -> pixmaps s' !! a = pixmaps s !! a;
  ra_bos : forall a, (a < next_addr s)%nat -> bos s' !! a = bos s !! a;
  ra_notify : notifications (trace s') = notifications (trace s)
}.

(** The pixmap of the slot an advance goes to, when there is one, is there
    with its memory object. *)
Definition slot_ready (s : State) (r : ARMSOCDRI2BufferRec) : Prop :=
  forall pix,
    pPixmaps r !! Z.to_nat (next_slot r) = Some (Some pix) ->
    exists px bo rb,
      pixmaps s !! pix = Some px /\ pix_bo px = Some bo /\ bos s !! bo = Some rb.

(** Every pixmap and every memory object lies below the allocator's mark. *)
Definition heap_below (s : State) : Prop :=
  (forall a, is_Some (pixmaps s !! a) -> (a < next_addr s)%nat) /\
  (forall a, is_Some (bos s !! a) -> (a < next_addr s)%nat).

(** The state after [exchangebufs]: the two pixmaps have traded their
    memory objects and the two buffer records their names. *)
Definition exchanged (a b pa pb : addr) (ra rb : ARMSOCDRI2BufferRec)
  (xa xb : Pixmap) (s : State) : State :=
  upd_buffers (insert b (set_name (name ra) rb))
    (upd_buffers (insert a (set_name (name rb) ra))
       (upd_pixmaps (insert pb (set_pix_bo (pix_bo xa) xb))
          (upd_pixmaps (insert pa (set_pix_bo (pix_bo xb) xa))
             (upd_trace (fun t => t ++ [EvPixmapExchange pa pb]) s)))).

(** What the completion of a real flip does to the state: the command is
    gone and the client was told once; the pixmaps of the two current slots
    have traded their memory objects and the destination buffer has the
    name the source buffer had; the old source object is the scanout
    object; each buffer and each captured memory object has one reference
    less, and one flip less is in flight. *)
Record flip_completed (cmd src dst ps pd os od : addr)
  (bs bd : ARMSOCDRI2BufferRec) (rs rd : armsoc_bo) (ev : Event)
  (s s' : State) : Prop := {
  fc_cmds : cmds s' = delete cmd (cmds s);
  fc_src : exists r', buffers s' !! src = Some r' /\
                      refcnt r' = to_int (refcnt bs - 1) /\
                      attachment r' = attachment bs;
  fc_dst : buffers s' !! dst = Some (buf_unref (set_name (name bs) bd));
  fc_os : bos s' !! os = Some (bo_unref rs);
  fc_od : bos s' !! od = Some (bo_unref rd);
  fc_ps : (pix_bo <$> pixmaps s' !! ps) = Some (Some od);
  fc_pd : (pix_bo <$> pixmaps s' !! pd) = Some (Some os);
  fc_drawables : drawables s' = drawables s;
  fc_pending : pending_flips s' = to_int (pending_flips s - 1);
  fc_scanout : scanout s' = Some os;
  fc_notify : notifications (trace s') = notifications (trace s) ++ [ev]
}.

(** The drawable and the rings are ready for the exchange of a real flip:
    a front buffer wraps the pixmap of the window, and the ring of a back
    buffer under more than double buffering is in order with the pixmap of
    its next slot, when it has one, there. *)
Definition flip_ready (cfg : ARMSOCRec) (s : State) (d : Drawable)
  (bs bd : ARMSOCDRI2BufferRec) (ps pd : addr) : Prop :=
  (attachment bs = DRI2BufferFrontLeft -> d_pix d = ps) /\
  (attachment bd = DRI2BufferFrontLeft -> d_pix d = pd) /\
  (attachment bs = DRI2BufferBackLeft -> 2 < driNumBufs cfg ->
   ring_ok bs /\ slot_ready s bs).

(** The flip events a schedule leaves outstanding, from the decision and the
    answer [r] of the flip issuer. *)
Definition events_awaited (cfg : ARMSOCRec) (flip : bool) (r : Z) : Z :=
  if flip
  then if use_page_flip_events cfg then (if r <? 0 then - (r + 1) else r) else 0
  else 0.

(** What the client is told about a swap scheduled for drawable [d]:
    nothing after a failed flip or when the drawable is gone by the time of
    the completion, and else once, with the kind of the swap. *)
Definition swap_notice (cl : Z) (d : Drawable) (fn dt : Z) (flip : bool) (r : Z)
  (s : State) : list Event :=
  if flip && (r <? 0) then []
  else match drawables s !! d_id d with
       | Some d' =>
           [EvDRI2SwapComplete cl (d_id d')
              (if flip then DRI2_FLIP_COMPLETE else DRI2_BLIT_COMPLETE) fn dt]
       | None => []
       end.

(** A swap has settled: its command is gone, the client was told [notice],
    and the reference counts of the two buffers and of the two memory
    objects and the in-flight counter stand at the given values. *)
Record swap_settled (cmd src dst os od : addr) (nsrc ndst nos nod pend : Z)
  (notice : list Event) (s s' : State) : Prop := {
  ss_cmds : cmds s' !! cmd = None;
  ss_src : (refcnt <$> buffers s' !! src) = Some nsrc;
  ss_dst : (refcnt <$> buffers s' !! dst) = Some ndst;
  ss_os : (bo_refcnt <$> bos s' !! os) = Some nos;
  ss_od : (bo_refcnt <$> bos s' !! od) = Some nod;
  ss_pending : pending_flips s' = pend;
  ss_notify : notifications (trace s') = notifications (trace s) ++ notice
}.

(** A swap request that the driver can serve: the two buffers with their
    pixmaps and memory objects are there, the counters have room, the
    command record can be allocated, and the drawable and the rings are
    ready should the swap become a real flip. *)
Record swap_request (cfg : ARMSOCRec) (env : Env) (d : Drawable) (src dst : addr)
  (s : State) (bs bd : ARMSOCDRI2BufferRec) (ps pd : addr) (xs xd : Pixmap)
  (os od : addr) (rs rd : armsoc_bo) : Prop := {
  sq_heap : swap_heap s src dst bs bd ps pd xs xd os od rs rd;
  sq_refs : refs_in_range bs bd rs rd;
  sq_pending : - 2 ^ 31 <= pending_flips s < INT_MAX;
  sq_calloc : env_calloc env = true;
  sq_below : heap_below s;
  sq_flip : - 2 ^ 31 <= env_page_flip env <= INT_MAX;
  sq_ready : forall d', drawables s !! d_id d = Some d' ->
                        flip_ready cfg s d' bs bd ps pd
}.

(** ** Vocabulary for the rest of the driver *)

(** The example screen with the real flip of [ex_flip_cmd] in flight: what
    the schedule of a swap leaves when the flip issuer answers [1] and
    page-flip events are in use. *)
Definition ex_flight : State :=
  {| bos := <[ 3%nat := bo_ref ex_back_bo ]> {[ 0%nat := bo_ref ex_front_bo ]};
     pixmaps := <[ 4%nat := ex_back_pix ]> {[ 1%nat := ex_front_pix ]};
     buffers := <[ 5%nat := buf_ref ex_back ]> {[ 2%nat := buf_ref ex_front ]};
     cmds := {[ 6%nat := ex_flip_cmd ]}; drawables := {[ 100 := ex_win ]};
     pending_flips := 1; scanout := Some 0%nat; next_addr := 7%nat;
     trace := [EvPendingDeletions; EvPageFlip 100 9 6%nat] |}.

(** The drawable [dri2draw] answers for a buffer record whose current slot
    holds pixmap [p]: the drawable itself for the front buffer, that
    pixmap otherwise. *)
Definition buf_drawable (d : Drawable) (r : ARMSOCDRI2BufferRec) (p : addr) : DrawRef :=
  if attachment r =? DRI2BufferFrontLeft then DrawWindow d else DrawPixmap p.

(** The call with which ARMSOCDRI2CopyRegion copies: one CopyArea over the
    whole drawable, when a scratch GC is to be had. *)
Definition blit_calls (env : Env) (d : Drawable) (bs bd : ARMSOCDRI2BufferRec)
  (ps pd : addr) : list Event :=
  if env_GetScratchGC env
  then [EvCopyArea (buf_drawable d bs ps) (buf_drawable d bd pd) (d_width d) (d_height d)]
  else [].

(** The example screen's configuration with flipping disabled by the user. *)
Definition ex_cfg_noflip : ARMSOCRec :=
  {| NoFlip := true; driNumBufs := 3; use_page_flip_events := true |}.

(** The calls of an allocNextBuffer that fails, made in a state whose
    allocator stands at [a]: the pixmap is asked for; one that came without
    a memory object is destroyed; one whose memory object could not be given
    a framebuffer was registered before, and is deregistered and then
    destroyed. *)
Definition alloc_failure_calls (cfg : ARMSOCRec) (env : Env) (d : Drawable) (a : addr)
  : list Event :=
  let create := EvCreatePixmap (d_width d) (d_height d) (d_depth d)
                  (if canflip cfg d then ARMSOC_CREATE_PIXMAP_SCANOUT
                   else CREATE_PIXMAP_USAGE_BACKING_PIXMAP) in
  match env_CreatePixmap env with
  | None => [create]
  | Some np =>
      match np_bo np with
      | None => [create; EvDestroyPixmap a]
      | Some _ =>
          [create; EvRegisterExternalAccess (S a); EvAddFb a;
           EvDeregisterExternalAccess (S a); EvDestroyPixmap (S a)]
      end
  end.

(** Answers with which an allocation fails late: the new pixmap has a memory
    object without a framebuffer, and none can be attached. *)
Definition ex_env_nofb : Env :=
  {| env_calloc := true; env_array := true;
     env_CreatePixmap :=
       Some {| np_devKind := 2560; np_bitsPerPixel := 32;
               np_bo := Some {| nb_name := 1002; nb_fb_id := 0;
                                nb_width := 640; nb_height := 480 |} |};
     env_add_fb := None; env_page_flip := 1; env_GetScratchGC := true |}.

(** The calls of an allocNextBuffer that succeeds, for a pixmap that comes
    with memory object [nb], made in a state whose allocator stands at [a]:
    the pixmap is asked for and registered, and a framebuffer is attached
    when the memory object came without one. *)
Definition alloc_success_calls (cfg : ARMSOCRec) (d : Drawable) (nb : NewBo) (a : addr)
  : list Event :=
  [EvCreatePixmap (d_width d) (d_height d) (d_depth d)
     (if canflip cfg d then ARMSOC_CREATE_PIXMAP_SCANOUT
      else CREATE_PIXMAP_USAGE_BACKING_PIXMAP);
   EvRegisterExternalAccess (S a)]
  ++ (if nb_fb_id nb =? 0 then [EvAddFb a] else []).

(** ** The flips in flight *)

(** A step that neither starts nor ends a swap: the same commands are
    alive, the in-flight counter stands where it stood, and the allocator's
    mark has not gone back. *)
Definition same_flights (s s' : State) : Prop :=
  dom (cmds s') = (dom (cmds s) : gset nat) /\
  pending_flips s' = pending_flips s /\
  (next_addr s <= next_addr s')%nat.

(** The in-flight counter counts the commands that are alive, and every one
    of them lies below the allocator's mark. *)
Definition flights_counted (s : State) : Prop :=
  pending_flips s = Z.of_nat (size (cmds s)) /\
  forall c, is_Some (cmds s !! c) -> (c < next_addr s)%nat.

(** What an entry into ARMSOCDRI2SwapComplete for command [cmd] does to the
    flips in flight: the command was alive, and either it still waits and
    nothing moved, or it is gone and the counter is one less. *)
Definition flight_event (cmd : addr) (s s' : State) : Prop :=
  is_Some (cmds s !! cmd) /\
  (same_flights s s' \/
   (dom (cmds s') = (dom (cmds s) ∖ {[cmd]} : gset nat) /\
    pending_flips s' = to_int (pending_flips s - 1) /\
    (next_addr s <= next_addr s')%nat)).

(** What ARMSOCDRI2ScheduleSwap does to the flips in flight: nothing when it
    could not allocate its command; else the command is at the address the
    allocator stood at and the counter went up by one, and when the command
    completed within the call it is gone again and the counter went down by
    one. *)
Definition flight_scheduled (s s' : State) : Prop :=
  same_flights s s' \/
  ((next_addr s < next_addr s')%nat /\
   ((dom (cmds s') = ({[next_addr s]} ∪ dom (cmds s) : gset nat) /\
     pending_flips s' = to_int (pending_flips s + 1)) \/
    (dom (cmds s') = (({[next_addr s]} ∪ dom (cmds s)) ∖ {[next_addr s]} : gset nat) /\
     pending_flips s' = to_int (to_int (pending_flips s + 1) - 1)))).

(** The first stretch of ARMSOCDRI2ScheduleSwap starts a swap: its command
    is at the address the allocator stood at, and the counter is one up. *)
Definition flight_started (s s' : State) : Prop :=
  (next_addr s < next_addr s')%nat /\
  dom (cmds s') = ({[next_addr s]} ∪ dom (cmds s) : gset nat) /\
  pending_flips s' = to_int (pending_flips s + 1).

(** ** The end of the screen *)

(** Modelled from the spec: [wait_for_event()], the blocking poll of the
    modesetting layer ([drmmode_wait_for_event], in another file of the
    driver).  It returns when the events that had arrived are handled; the
    handler of a page-flip event enters ARMSOCDRI2SwapComplete with the
    command the flip was requested for.  [arrived] has these commands in the
    order of their events, each with the answers of the collaborators
    during its completion. *)
Fixpoint drmmode_wait_for_event (cfg : ARMSOCRec) (arrived : list (Env * addr)) : M unit :=
  match arrived with
  | [] => ret tt
  | (env, cmd) :: rest =>
      ARMSOCDRI2SwapComplete cfg env cmd ;; drmmode_wait_for_event cfg rest
  end.

(** ARMSOCDRI2CloseScreen:
    [while (pARMSOC->pending_flips > 0) drmmode_wait_for_event(pScrn);]
    and then [DRI2CloseScreen(pScreen)].  [polls] has what the successive
    calls of drmmode_wait_for_event bring.  The answer is [true] when the
    loop was left and DRI2CloseScreen called, and [false] when the loop
    still waits after the last of [polls]. *)
Fixpoint ARMSOCDRI2CloseScreen (cfg : ARMSOCRec) (polls : list (list (Env * addr)))
  : M bool :=
  match polls with
  | [] => n <- gets pending_flips ;; ret (negb (0 <? n))
  | arrived :: rest =>
      n <- gets pending_flips ;;
      if 0 <? n then
        drmmode_wait_for_event cfg arrived ;; ARMSOCDRI2CloseScreen cfg rest
      else ret true
  end.

(** ** The requests the driver does not serve, and the frame counter *)

(** ARMSOCDRI2ScheduleWaitMSC: "not implemented". *)
Definition ARMSOCDRI2ScheduleWaitMSC (cl : Z) (pDraw : Drawable)
  (target_msc divisor remainder : Z) : M bool :=
  ret false.

(** ** The release of a buffer *)

(** A stretch of the driver that only makes the calls [evs]: the buffer
    records, the commands, the drawables, the in-flight counter and the
    scanout object are what they were.  (Pixmaps and memory objects are in
    the hands of the layers that are called.) *)
Definition calls_only (evs : list Event) (s s' : State) : Prop :=
  trace s' = trace s ++ evs /\ buffers s' = buffers s /\ cmds s' = cmds s /\
  drawables s' = drawables s /\ pending_flips s' = pending_flips s /\
  scanout s' = scanout s.

(** The pixmaps the loop of ARMSOCDRI2DestroyBuffer gets to: those in the
    first [n] slots of the array, up to the first empty slot. *)
Fixpoint released_slots (arr : list (option addr)) (n : nat) : list addr :=
  match n, arr with
  | S n', Some p :: rest => p :: released_slots rest n'
  | _, _ => []
  end.

(** Each of them is deregistered and then destroyed. *)
Definition release_calls (ps : list addr) : list Event :=
  flat_map (fun p => [EvDeregisterExternalAccess p; EvDestroyPixmap p]) ps.

(** [numBuffers] of ARMSOCDRI2DestroyBuffer. *)
Definition release_bound (cfg : ARMSOCRec) (r : ARMSOCDRI2BufferRec) : Z :=
  if attachment r =? DRI2BufferBackLeft then to_int (driNumBufs cfg - 1) else 1.




(** The example screen with the flip in flight and the window destroyed,
    after the DRI2 core has destroyed the two buffers of the window as
    well: the references the schedule took are the last ones. *)
Definition ex_gone_last : State :=
  upd_buffers (fun _ => <[ 5%nat := ex_back ]> {[ 2%nat := ex_front ]}) ex_gone.

(** The calls of an ARMSOCDRI2CreateBuffer that succeeds for an attachment
    other than the front buffer, made in a state whose allocator stands at
    [a]: the pixmap is asked for (a scanout pixmap for a flip-eligible
    drawable), a framebuffer attach is attempted for a flip-eligible
    drawable, and the pixmap is registered. *)
Definition create_calls (cfg : ARMSOCRec) (d : Drawable) (a : addr) : list Event :=
  [EvCreatePixmap (d_width d) (d_height d) (d_depth d)
     (if canflip cfg d then ARMSOC_CREATE_PIXMAP_SCANOUT
      else CREATE_PIXMAP_USAGE_BACKING_PIXMAP)]
  ++ (if canflip cfg d then [EvAddFb a] else [])
  ++ [EvRegisterExternalAccess (S a)].

(** The array of slots a new buffer record gets. *)
Definition initial_ring (cfg : ARMSOCRec) (att : Z) (pix : addr) : list (option addr) :=
  <[0%nat := Some pix]>
    (if (att =? DRI2BufferBackLeft) && (2 <? driNumBufs cfg)
     then replicate (Z.to_nat (driNumBufs cfg - 1)) None
     else [None]).

(** Every buffer record lies below the allocator's mark. *)
Definition buffers_below (s : State) : Prop :=
  forall b, is_Some (buffers s !! b) -> (b < next_addr s)%nat.

(** The answers with which ARMSOCDRI2CreateBuffer fails for an attachment
    other than the front buffer: the record cannot be allocated, there is no
    pixmap to be had, the array of slots cannot be allocated, or the pixmap
    comes without a memory object. *)
Definition creation_fails (env : Env) : Prop :=
  env_calloc env = false \/ env_array env = false \/
  match env_CreatePixmap env with
  | None => True
  | Some np => np_bo np = None
  end.

(** The calls of such a creation, made in a state whose allocator stands at
    [a]: none when the record could not be allocated; else the pixmap is
    asked for, and the one that was had is destroyed. *)
Definition creation_failure_calls (cfg : ARMSOCRec) (env : Env) (d : Drawable) (a : addr)
  : list Event :=
  if negb (env_calloc env) then []
  else
    EvCreatePixmap (d_width d) (d_height d) (d_depth d)
      (if canflip cfg d then ARMSOC_CREATE_PIXMAP_SCANOUT
       else CREATE_PIXMAP_USAGE_BACKING_PIXMAP)
    :: match env_CreatePixmap env with
       | None => []
       | Some np =>
           match np_bo np with
           | None => [EvDestroyPixmap a]
           | Some _ => [EvDestroyPixmap (S a)]
           end
       end.

(** ** The exchange of two buffers *)

(** The pixmap [exchangebufs] works on for a buffer record: the pixmap the
    window has at that moment for the front buffer, whatever the record's
    slot says, and the pixmap of the current slot otherwise. *)
Definition buf_pixmap (d : Drawable) (r : ARMSOCDRI2BufferRec) : option addr :=
  if attachment r =? DRI2BufferFrontLeft then Some (d_pix d)
  else if 0 <=? currentPixmap r
       then mjoin (pPixmaps r !! Z.to_nat (currentPixmap r))
       else None.

(** ** The frame counter *)

(** A [CARD64] holds its value modulo [2 ^ 64]. *)
Definition to_card64 (z : Z) : Z := z mod 2 ^ 64.

(** What drmWaitVBlank fills into [vbl.reply], as far as
    ARMSOCDRI2GetMSC reads it: [tval_sec] and [tval_usec] (each a [long])
    and [sequence] (an [unsigned int]), by their values. *)
Record drmVBlankReply := {
  tval_sec : Z;
  tval_usec : Z;
  sequence : Z
}.

(** ARMSOCDRI2GetMSC.  [vblank_query_supported] is the flag of the
    [drmmode_interface]; [drmWaitVBlank] is what that call returns and
    leaves in the reply.  Each of the two out-parameters is given by what it
    points to before, and [None] for a NULL pointer; the result has the
    return value and what the two point to afterwards. *)
Definition ARMSOCDRI2GetMSC (vblank_query_supported : bool)
  (drmWaitVBlank : Z * drmVBlankReply) (ust msc : option Z)
  : bool * option Z * option Z :=
  if negb vblank_query_supported then (false, ust, msc)
  else
    let '(ret, reply) := drmWaitVBlank in
    if negb (ret =? 0) then (false, ust, msc)
    else
      let ust' := match ust with
                  | Some _ =>
                      Some (to_card64 (to_card64 (to_card64 (tval_sec reply) * 1000000)
                                       + to_card64 (tval_usec reply)))
                  | None => None
                  end in
      let msc' := match msc with
                  | Some _ => Some (to_card64 (sequence reply))
                  | None => None
                  end in
      (true, ust', msc').

(** ** A flip in flight *)

(** The command of a flip that waits for [n] events after the flip issuer
    answered [r]: its kind is Flip, and it is flagged as failed when [r] is
    negative. *)
Definition flight_cmd (cl : Z) (d : Drawable) (dst src : addr) (fn dt r n : Z)
  : ARMSOCDRISwapCmd :=
  {| type := DRI2_FLIP_COMPLETE; client := cl; draw_id := d_id d;
     pDstBuffer := dst; pSrcBuffer := src; func := fn; swapCount := n;
     flags := if r <? 0 then ARMSOC_SWAP_FAIL else 0; data := dt |}.

(** ** The name a buffer exports *)

(** The name of a buffer record is the name of the memory object behind the
    pixmap of its current slot. *)
Definition name_current (s : State) (r : ARMSOCDRI2BufferRec) : Prop :=
  exists pix px bo rb,
    pPixmaps r !! Z.to_nat (currentPixmap r) = Some (Some pix) /\
    pixmaps s !! pix = Some px /\ pix_bo px = Some bo /\ bos s !! bo = Some rb /\
    name r = bo_name rb.

(** ** The commands that are alive *)

(** A step that leaves the swap commands as they are. *)
Definition cmds_kept (s s' : State) : Prop :=
  cmds s' = cmds s /\ (next_addr s <= next_addr s')%nat.

(** Every command that is alive is a flip that waits for at least one more
    event. *)
Definition flights_wait (s : State) : Prop :=
  forall cmd c, cmds s !! cmd = Some c ->
    0 < swapCount c /\ type c = DRI2_FLIP_COMPLETE.

(** The answer of the flip issuer fits an [int]. *)
Definition flip_answer_int (env : Env) : Prop :=
  - 2 ^ 31 <= env_page_flip env <= INT_MAX.

(** ** Running the monad forwards *)

Lemma bind_run {A B} (m : M A) (k : A -> M B) s a s1 r :
  m s = Some (a, s1) -> k a s1 = r -> bind m k s = r.
Proof. intros H1 H2. unfold bind. rewrite H1. exact H2. Qed.

Lemma run_deref {A} (o : option A) a s : o = Some a -> deref o s = Some (a, s).
Proof. intros ->. reflexivity. Qed.

Lemma run_load_buf s b r : buffers s !! b = Some r -> load_buf b s = Some (r, s).
Proof. intros H. unfold load_buf. rewrite H. reflexivity. Qed.

Lemma run_load_pix s p r : pixmaps s !! p = Some r -> load_pix p s = Some (r, s).
Proof. intros H. unfold load_pix. rewrite H. reflexivity. Qed.

Lemma run_load_bo s b r : bos s !! b = Some r -> load_bo b s = Some (r, s).
Proof. intros H. unfold load_bo. rewrite H. reflexivity. Qed.

Lemma run_load_cmd s c r : cmds s !! c = Some r -> load_cmd c s = Some (r, s).
Proof. intros H. unfold load_cmd. rewrite H. reflexivity. Qed.

Lemma run_array_get {A} (a : list A) i x s :
  0 <= i -> a !! Z.to_nat i = Some x -> array_get a i s = Some (x, s).
Proof.
  intros Hi H. unfold array_get.
  destruct (0 <=? i) eqn:E; [| lia]. rewrite H. reflexivity.
Qed.

Lemma run_c_assert b s : b = true -> c_assert b s = Some (tt, s).
Proof. intros ->. reflexivity. Qed.

Ltac side := first [ assumption | congruence | lia ].

Ltac lookups :=
  simpl;
  repeat first
    [ rewrite lookup_insert_eq
    | rewrite lookup_insert_ne by side
    | rewrite lookup_delete_ne by side
    | match goal with
      | H : ?m !! ?k = _ |- context [?m !! ?k] => rewrite H
      end ];
  first [ reflexivity | eassumption ].

(** One tactic walks a computation from a state whose lookups are known. *)
Ltac mrun :=
  lazymatch goal with
  | |- bind _ _ _ = _ => eapply bind_run; [ mrun | cbv beta; mrun ]
  | |- ret _ _ = _ => reflexivity
  | |- modify _ _ = _ => reflexivity
  | |- gets _ _ = _ => reflexivity
  | |- emit _ _ = _ => reflexivity
  | |- fresh_addr _ = _ => reflexivity
  | |- load_buf _ _ = _ => apply run_load_buf; lookups
  | |- load_pix _ _ = _ => apply run_load_pix; lookups
  | |- load_bo _ _ = _ => apply run_load_bo; lookups
  | |- load_cmd _ _ = _ => apply run_load_cmd; lookups
  | |- deref _ _ = _ => apply run_deref; lookups
  | |- array_get _ _ _ = _ => apply run_array_get; [ side | lookups ]
  | |- c_assert _ _ = _ => apply run_c_assert; first [ reflexivity | assumption ]
  | |- update_buf _ _ _ = _ => unfold update_buf; mrun
  | |- update_bo _ _ _ = _ => unfold update_bo; mrun
  | |- update_pix _ _ _ = _ => unfold update_pix; mrun
  | |- update_cmd _ _ _ = _ => unfold update_cmd; mrun
  | |- armsoc_bo_get_fb _ _ = _ => unfold armsoc_bo_get_fb; mrun
  | |- armsoc_bo_name _ _ = _ => unfold armsoc_bo_name; mrun
  | |- armsoc_bo_width _ _ = _ => unfold armsoc_bo_width; mrun
  | |- armsoc_bo_height _ _ = _ => unfold armsoc_bo_height; mrun
  | |- armsoc_bo_reference _ _ = _ => unfold armsoc_bo_reference; mrun
  | |- armsoc_bo_rm_fb _ _ = _ => unfold armsoc_bo_rm_fb; mrun
  | |- armsoc_bo_do_pending_deletions _ = _ => reflexivity
  | |- drmmode_page_flip _ _ _ _ _ = _ => reflexivity
  | |- DRI2SwapComplete _ _ _ _ _ _ = _ => reflexivity
  | |- dixLookupDrawable _ _ = _ => reflexivity
  | |- ARMSOCPixmapBo _ _ = _ => unfold ARMSOCPixmapBo; mrun
  | |- ARMSOCRegisterExternalAccess _ _ = _ => unfold ARMSOCRegisterExternalAccess; mrun
  | |- ARMSOCDeregisterExternalAccess _ _ = _ =>
      unfold ARMSOCDeregisterExternalAccess; mrun
  | |- boFromBuffer _ _ = _ => unfold boFromBuffer; mrun
  | |- ARMSOCDRI2ReferenceBuffer _ _ = _ => unfold ARMSOCDRI2ReferenceBuffer; mrun
  | |- _ => idtac
  end.

(** ** C integers: the cases without wrap-around *)

Lemma to_int_id z : - 2 ^ 31 <= z <= INT_MAX -> to_int z = z.
Proof.
  unfold to_int, INT_MAX. intros H.
  rewrite Z.mod_small by lia. lia.
Qed.

Lemma to_unsigned_id z : 0 <= z <= UINT_MAX -> to_unsigned z = z.
Proof. unfold to_unsigned, UINT_MAX. intros H. apply Z.mod_small. lia. Qed.

(** ** The pieces of a completion *)

Lemma DestroyBuffer_keep cfg d b r p0 s :
  buffers s !! b = Some r ->
  pPixmaps r !! 0%nat = Some (Some p0) ->
  is_Some (pixmaps s !! p0) ->
  0 < to_int (refcnt r - 1) ->
  ARMSOCDRI2DestroyBuffer cfg d b s
  = Some (tt, upd_buffers (insert b (buf_unref r)) s).
Proof.
  intros Hb H0 [x Hx] Hn. unfold ARMSOCDRI2DestroyBuffer.
  do 5 (eapply bind_run; [ mrun | cbv beta ]).
  destruct (0 <? to_int (refcnt r - 1)) eqn:E; [ reflexivity | lia ].
Qed.

Lemma unreference_keep b r s :
  bos s !! b = Some r ->
  to_int (bo_refcnt r - 1) <> 0 ->
  armsoc_bo_unreference (Some b) s = Some (tt, upd_bos (insert b (bo_unref r)) s).
Proof.
  intros Hb Hn. unfold armsoc_bo_unreference.
  do 2 (eapply bind_run; [ mrun | cbv beta ]).
  destruct (to_int (bo_refcnt r - 1) =? 0) eqn:E; [ lia | reflexivity ].
Qed.

Lemma boFromBuffer_run b r p x s :
  buffers s !! b = Some r ->
  0 <= currentPixmap r ->
  pPixmaps r !! Z.to_nat (currentPixmap r) = Some (Some p) ->
  pixmaps s !! p = Some x ->
  boFromBuffer b s = Some (pix_bo x, s).
Proof. intros. mrun. Qed.

Lemma upd_trace_nil s : upd_trace (fun t => t ++ []) s = s.
Proof. destruct s. unfold upd_trace. simpl. rewrite app_nil_r. reflexivity. Qed.

(** A call that leaves events outstanding only counts down. *)
Lemma SwapComplete_early cfg env cmd c s :
  cmds s !! cmd = Some c ->
  0 < to_int (swapCount c - 1) ->
  ARMSOCDRI2SwapComplete cfg env cmd s
  = Some (tt, upd_cmds (insert cmd (set_swapCount (to_int (swapCount c - 1)) c)) s).
Proof.
  intros Hc Hn. unfold ARMSOCDRI2SwapComplete.
  do 2 (eapply bind_run; [ mrun | cbv beta ]).
  simpl. destruct (0 <? to_int (swapCount c - 1)) eqn:E; [ reflexivity | lia ].
Qed.

Section Completion.

Variables (cfg : ARMSOCRec) (env : Env) (cmd : addr) (c : ARMSOCDRISwapCmd).
Variables (s : State) (bs bd : ARMSOCDRI2BufferRec) (ps pd : addr) (xs xd : Pixmap).
Variables (os od : addr) (rs rd : armsoc_bo).

Hypothesis Hcmd : cmds s !! cmd = Some c.
Hypothesis Hcount : to_int (swapCount c - 1) <= 0.
Hypothesis Hheap : swap_heap s (pSrcBuffer c) (pDstBuffer c) bs bd ps pd xs xd os od rs rd.
Hypothesis Hsrc_ref : 0 < to_int (refcnt bs - 1).
Hypothesis Hdst_ref : 0 < to_int (refcnt bd - 1).
Hypothesis Hsrc_obj : to_int (bo_refcnt rs - 1) <> 0.
Hypothesis Hdst_obj : to_int (bo_refcnt rd - 1) <> 0.

(** A failed flip, a drawable that is gone, a blit or a synthetic flip: the
    completion exchanges nothing and publishes nothing. *)
Lemma SwapComplete_plain :
  Z.land (flags c) ARMSOC_SWAP_FAIL <> 0 \/ drawables s !! draw_id c = None
  \/ real_flip c = false ->
  ARMSOCDRI2SwapComplete cfg env cmd s
  = Some (tt, released cmd (pSrcBuffer c) (pDstBuffer c) os od bs bd rs rd c
                (completion_notice c s) s).
Proof.
  intros Hplain. destruct Hheap.
  destruct sh_src_first0 as (p0s & Hp0s & Hl0s).
  destruct sh_dst_first0 as (p0d & Hp0d & Hl0d).
  unfold ARMSOCDRI2SwapComplete.
  do 2 (eapply bind_run; [ mrun | cbv beta ]).
  simpl. destruct (0 <? to_int (swapCount c - 1)) eqn:E; [ lia | ].
  eapply bind_run; [ eapply boFromBuffer_run; eauto | cbv beta ].
  eapply bind_run; [ eapply boFromBuffer_run; eauto | cbv beta ].
  set (s0 := upd_cmds _ s).
  lazymatch goal with
  | |- bind ?m _ _ = _ =>
      assert (Hmid : exists pDraw,
        m s0 = Some (pDraw, upd_trace (fun t => t ++ completion_notice c s) s0))
  end.
  { unfold completion_notice.
    change (flags (set_swapCount (to_int (swapCount c - 1)) c)) with (flags c).
    change (real_flip (set_swapCount (to_int (swapCount c - 1)) c))
      with (real_flip c).
    destruct (Z.land (flags c) ARMSOC_SWAP_FAIL =? 0) eqn:F.
    - unfold bind at 1, dixLookupDrawable, gets. simpl.
      destruct (drawables s !! draw_id c) as [d|] eqn:D.
      + destruct (real_flip c) eqn:R.
        * exfalso. destruct Hplain as [Hf | [Hd | Hr]]; [ lia | | ]; discriminate.
        * exists (Some d). reflexivity.
      + exists None. rewrite upd_trace_nil. reflexivity.
    - exists None. rewrite upd_trace_nil. reflexivity. }
  destruct Hmid as [pDraw Hmid].
  eapply bind_run; [ exact Hmid | cbv beta ].
  eapply bind_run; [ eapply DestroyBuffer_keep; eauto | cbv beta ].
  eapply bind_run.
  { eapply DestroyBuffer_keep; [ lookups | eauto | exact Hl0d | assumption ]. }
  cbv beta.
  rewrite sh_src_bo0, sh_dst_bo0.
  eapply bind_run; [ eapply unreference_keep; [ lookups | assumption ] | cbv beta ].
  eapply bind_run; [ eapply unreference_keep; [ lookups | assumption ] | cbv beta ].
  reflexivity.
Qed.

End Completion.

(** ** The first stretch of a schedule *)

Lemma swap_heap_frame s s' src dst bs bd ps pd xs xd os od rs rd :
  buffers s' = buffers s -> pixmaps s' = pixmaps s -> bos s' = bos s ->
  swap_heap s src dst bs bd ps pd xs xd os od rs rd ->
  swap_heap s' src dst bs bd ps pd xs xd os od rs rd.
Proof.
  intros Hb Hp Ho []. constructor; rewrite ?Hb, ?Hp, ?Ho; assumption.
Qed.

Lemma prepare_run cfg cl d dst src fn dt s bs bd ps pd xs xd os od rs rd :
  swap_heap s src dst bs bd ps pd xs xd os od rs rd ->
  ScheduleSwap_prepare cfg cl d dst src fn dt s
  = Some ((next_addr s, bo_fb_id rs,
           do_flip (bo_fb_id rs) (bo_fb_id rd) (canflip cfg d)
             (bo_width rs) (bo_width rd) (bo_height rs) (bo_height rd)),
          prepared (new_cmd cl d dst src fn dt) src dst os od bs bd rs rd s).
Proof.
  intros []. unfold ScheduleSwap_prepare.
  do 5 (eapply bind_run; [ mrun | cbv beta ]).
  eapply bind_run; [ eapply boFromBuffer_run; [ lookups | .. ]; eauto | cbv beta ].
  eapply bind_run; [ eapply boFromBuffer_run; [ lookups | .. ]; eauto | cbv beta ].
  rewrite sh_src_bo0, sh_dst_bo0.
  do 8 (eapply bind_run; [ mrun | cbv beta ]).
  reflexivity.
Qed.

Lemma prepared_heap c s src dst bs bd ps pd xs xd os od rs rd :
  swap_heap s src dst bs bd ps pd xs xd os od rs rd ->
  swap_heap (prepared c src dst os od bs bd rs rd s) src dst
    (buf_ref bs) (buf_ref bd) ps pd xs xd os od (bo_ref rs) (bo_ref rd).
Proof.
  intros []. constructor; simpl; try assumption; try lookups.
Qed.

Lemma do_flip_true sfb dfb fl sw dw sh dh :
  do_flip sfb dfb fl sw dw sh dh = true
  <-> sfb <> 0 /\ dfb <> 0 /\ fl = true /\ sw = dw /\ sh = dh.
Proof.
  unfold do_flip. rewrite !andb_true_iff, !negb_true_iff.
  rewrite !Z.eqb_eq, !Z.eqb_neq. tauto.
Qed.

Lemma canflip_true cfg d : canflip cfg d = true <-> flip_eligible cfg d.
Proof.
  unfold canflip, flip_eligible. destruct (NoFlip cfg).
  - split; [ discriminate | intros [? _]; discriminate ].
  - rewrite andb_true_iff, Z.eqb_eq. tauto.
Qed.

Lemma released_effect cmd src dst os od bs bd rs rd c evs s :
  completion_effect cmd src dst os od bs bd rs rd evs s
    (released cmd src dst os od bs bd rs rd c evs s).
Proof.
  constructor; simpl; try reflexivity.
  apply delete_insert_eq.
Qed.

Lemma buf_unref_ref r : - 2 ^ 31 <= refcnt r < INT_MAX -> buf_unref (buf_ref r) = r.
Proof.
  intros H. destruct r. unfold buf_unref, buf_ref, set_refcnt, INT_MAX in *.
  simpl in *. f_equal.
  rewrite (to_int_id (_ + 1)) by (unfold INT_MAX; lia).
  rewrite to_int_id by (unfold INT_MAX; lia). lia.
Qed.

Lemma bo_unref_ref r : - 2 ^ 31 <= bo_refcnt r < INT_MAX -> bo_unref (bo_ref r) = r.
Proof.
  intros H. destruct r. unfold bo_unref, bo_ref, set_bo_refcnt, INT_MAX in *.
  simpl in *. f_equal.
  rewrite (to_int_id (_ + 1)) by (unfold INT_MAX; lia).
  rewrite to_int_id by (unfold INT_MAX; lia). lia.
Qed.

Lemma to_int_succ_pred z : - 2 ^ 31 <= z < INT_MAX -> to_int (to_int (z + 1) - 1) = z.
Proof.
  intros H. unfold INT_MAX in H.
  rewrite (to_int_id (_ + 1)) by (unfold INT_MAX; lia).
  rewrite to_int_id by (unfold INT_MAX; lia). lia.
Qed.

(** The example state is what the two CreateBuffer calls build. *)
Lemma ex_state_reached :
  run (ex_cfg true)
    [ (ex_env 0, OpCreateBuffer ex_win DRI2BufferFrontLeft 0);
      (ex_env 0, OpCreateBuffer ex_win DRI2BufferBackLeft 0) ] ex_init
  = Some (upd_trace (fun _ =>
            [ EvRegisterExternalAccess 1%nat;
              EvCreatePixmap 640 480 24 ARMSOC_CREATE_PIXMAP_SCANOUT;
              EvAddFb 3%nat; EvRegisterExternalAccess 4%nat ]) ex_state).
Proof. vm_compute. reflexivity. Qed.

Lemma ex_heap :
  swap_heap ex_state 5%nat 2%nat ex_back ex_front 4%nat 1%nat
    ex_back_pix ex_front_pix 3%nat 0%nat ex_back_bo ex_front_bo.
Proof.
  constructor; try reflexivity; try (simpl; lia); try discriminate.
  - exists 4%nat. split; [ reflexivity | eexists; reflexivity ].
  - exists 1%nat. split; [ reflexivity | eexists; reflexivity ].
Qed.

(** ** The branches of a schedule *)

Lemma ScheduleSwap_branch cfg env cl d dst src fn dt s
  bs bd ps pd xs xd os od rs rd :
  swap_heap s src dst bs bd ps pd xs xd os od rs rd ->
  env_calloc env = true ->
  ARMSOCDRI2ScheduleSwap cfg env cl d dst src fn dt s
  = (if do_flip (bo_fb_id rs) (bo_fb_id rd) (canflip cfg d)
          (bo_width rs) (bo_width rd) (bo_height rs) (bo_height rd)
     then ScheduleSwap_flip cfg env d (next_addr s) (bo_fb_id rs)
     else ScheduleSwap_blit cfg env d dst src (next_addr s))
      (prepared (new_cmd cl d dst src fn dt) src dst os od bs bd rs rd s).
Proof.
  intros Hheap Hc. unfold ARMSOCDRI2ScheduleSwap. rewrite Hc. simpl negb. cbv iota.
  eapply bind_run; [ eapply prepare_run; eassumption | reflexivity ].
Qed.

Lemma flip_issue_failed cfg env d cmd fb c s :
  cmds s !! cmd = Some c ->
  env_page_flip env < 0 ->
  exists sm,
    ScheduleSwap_flip cfg env d cmd fb s
    = ((if failed_flip_events cfg (env_page_flip env) =? 0
        then ARMSOCDRI2SwapComplete cfg env cmd else ret tt) ;; ret false) sm /\
    cmd_changed cmd
      (flagged_cmd c ARMSOC_SWAP_FAIL (failed_flip_events cfg (env_page_flip env)))
      [EvPendingDeletions; EvPageFlip (d_id d) fb cmd] s sm.
Proof.
  intros Hc Hr. eexists. split.
  - unfold ScheduleSwap_flip.
    do 3 (eapply bind_run; [ mrun | cbv beta ]).
    destruct (env_page_flip env <? 0) eqn:E; [ | lia ].
    do 3 (eapply bind_run; [ mrun | cbv beta ]).
    reflexivity.
  - constructor; simpl; try reflexivity.
    + rewrite !insert_insert_eq. reflexivity.
    + rewrite <- app_assoc. reflexivity.
Qed.

Lemma flip_issue_fake cfg env d cmd fb c s :
  cmds s !! cmd = Some c ->
  env_page_flip env = 0 ->
  exists sm,
    ScheduleSwap_flip cfg env d cmd fb s
    = (ARMSOCDRI2SwapComplete cfg env cmd ;; ret true) sm /\
    cmd_changed cmd (flagged_cmd c ARMSOC_SWAP_FAKE_FLIP 0)
      [EvPendingDeletions; EvPageFlip (d_id d) fb cmd] s sm.
Proof.
  intros Hc Hr. eexists. split.
  - unfold ScheduleSwap_flip.
    do 3 (eapply bind_run; [ mrun | cbv beta ]).
    rewrite Hr. simpl (0 <? 0). simpl (0 =? 0). cbv iota.
    do 3 (eapply bind_run; [ mrun | cbv beta ]).
    simpl swapCount.
    replace (if use_page_flip_events cfg then 0 else 0) with 0
      by (destruct (use_page_flip_events cfg); reflexivity).
    simpl (0 =? 0). cbv iota. reflexivity.
  - constructor; simpl; try reflexivity.
    + rewrite !insert_insert_eq.
      destruct (use_page_flip_events cfg); reflexivity.
    + rewrite <- app_assoc. reflexivity.
Qed.

Lemma cmd_changed_heap cmd c evs s s' src dst bs bd ps pd xs xd os od rs rd :
  cmd_changed cmd c evs s s' ->
  swap_heap s src dst bs bd ps pd xs xd os od rs rd ->
  swap_heap s' src dst bs bd ps pd xs xd os od rs rd.
Proof. intros []. apply swap_heap_frame; assumption. Qed.

Lemma completion_notice_frame c c' s s' :
  flags c' = flags c -> draw_id c' = draw_id c -> client c' = client c ->
  type c' = type c -> func c' = func c -> data c' = data c ->
  drawables s' = drawables s ->
  completion_notice c' s' = completion_notice c s.
Proof.
  intros Hf Hd Hc Ht Hfn Hdt Hs. unfold completion_notice.
  rewrite Hf, Hd, Hc, Ht, Hfn, Hdt, Hs. reflexivity.
Qed.

(** The events of a command whose completion exchanges nothing: all but the
    last count down, the last one completes. *)
Lemma flip_events_plain cfg env cmd src dst bs bd ps pd xs xd os od rs rd n :
  forall s c,
    cmds s !! cmd = Some c ->
    pSrcBuffer c = src -> pDstBuffer c = dst ->
    swapCount c = Z.of_nat (S n) -> Z.of_nat (S n) <= INT_MAX ->
    swap_heap s src dst bs bd ps pd xs xd os od rs rd ->
    held_in_range bs bd rs rd ->
    Z.land (flags c) ARMSOC_SWAP_FAIL <> 0 \/ drawables s !! draw_id c = None
    \/ real_flip c = false ->
    exists s',
      flip_events cfg env cmd (S n) s = Some (tt, s') /\
      completion_effect cmd src dst os od bs bd rs rd (completion_notice c s) s s'.
Proof.
  induction n as [| n IH]; intros s c Hc Hs Hd Hn Hmax Hheap Hrange Hplain.
  - eexists. split.
    + simpl. eapply bind_run; [ | reflexivity ].
      subst src dst. destruct Hrange as (? & ? & ? & ?). unfold INT_MAX in *.
      eapply SwapComplete_plain; eauto; rewrite ?Hn; simpl Z.of_nat;
        rewrite to_int_id by (unfold INT_MAX; lia); lia.
    + subst src dst. apply released_effect.
  - set (c' := set_swapCount (to_int (swapCount c - 1)) c).
    assert (Hstep : to_int (swapCount c - 1) = Z.of_nat (S n)).
    { rewrite Hn. unfold INT_MAX in Hmax. rewrite to_int_id by (unfold INT_MAX; lia). lia. }
    destruct (IH (upd_cmds (insert cmd c') s) c') as (s' & Hrun & Heff).
    + simpl. apply lookup_insert_eq.
    + exact Hs.
    + exact Hd.
    + exact Hstep.
    + lia.
    + apply (swap_heap_frame s); [ reflexivity .. | exact Hheap ].
    + exact Hrange.
    + exact Hplain.
    + exists s'. split.
      * change (flip_events cfg env cmd (S (S n)) s)
          with ((ARMSOCDRI2SwapComplete cfg env cmd ;; flip_events cfg env cmd (S n)) s).
        eapply bind_run; [ | exact Hrun ].
        apply SwapComplete_early; [ exact Hc | lia ].
      * destruct Heff. constructor; simpl in *; try assumption.
        rewrite ce_cmds0. apply delete_insert_eq.
Qed.

(** After the first stretch of a schedule and a completion that exchanged
    nothing, the buffers and the memory objects are as they were. *)
Lemma prepared_then_released c0 c cmd evs evs' s sm s' src dst
  bs bd ps pd xs xd os od rs rd :
  swap_heap s src dst bs bd ps pd xs xd os od rs rd ->
  refs_in_range bs bd rs rd ->
  - 2 ^ 31 <= pending_flips s < INT_MAX ->
  cmd_changed cmd c evs (prepared c0 src dst os od bs bd rs rd s) sm ->
  completion_effect cmd src dst os od (buf_ref bs) (buf_ref bd) (bo_ref rs) (bo_ref rd)
    evs' sm s' ->
  cmds s' !! cmd = None /\
  buffers s' = buffers s /\ bos s' = bos s /\ pixmaps s' = pixmaps s /\
  drawables s' = drawables s /\
  pending_flips s' = pending_flips s /\
  scanout s' = scanout s /\
  trace s' = trace s ++ evs ++ evs'.
Proof.
  intros Hheap (Hbs & Hbd & Hrs & Hrd) Hpend [] [].
  destruct Hheap. unfold INT_MAX in *.
  repeat split.
  - rewrite ce_cmds0. apply lookup_delete_eq.
  - rewrite ce_buffers0, cc_buffers0. simpl.
    rewrite !buf_unref_ref by (unfold INT_MAX; lia).
    apply map_eq. intros i.
    destruct (decide (i = dst)) as [-> | Hd]; [ lookups | ].
    rewrite lookup_insert_ne by congruence.
    destruct (decide (i = src)) as [-> | Hs]; [ lookups | ].
    rewrite !lookup_insert_ne by congruence. reflexivity.
  - rewrite ce_bos0, cc_bos0. simpl.
    rewrite !bo_unref_ref by (unfold INT_MAX; lia).
    apply map_eq. intros i.
    destruct (decide (i = od)) as [-> | Hd]; [ lookups | ].
    rewrite lookup_insert_ne by congruence.
    destruct (decide (i = os)) as [-> | Hs]; [ lookups | ].
    rewrite !lookup_insert_ne by congruence. reflexivity.
  - rewrite ce_pixmaps0, cc_pixmaps0. reflexivity.
  - rewrite ce_drawables0, cc_drawables0. reflexivity.
  - rewrite ce_pending0, cc_pending0. simpl.
    apply to_int_succ_pred. unfold INT_MAX. lia.
  - rewrite ce_scanout0, cc_scanout0. reflexivity.
  - rewrite ce_trace0, cc_trace0. simpl. rewrite app_assoc. reflexivity.
Qed.

Lemma refs_held bs bd rs rd :
  refs_in_range bs bd rs rd ->
  held_in_range (buf_ref bs) (buf_ref bd) (bo_ref rs) (bo_ref rd).
Proof.
  unfold refs_in_range, held_in_range, INT_MAX. intros (? & ? & ? & ?). simpl.
  rewrite !to_int_id by (unfold INT_MAX; lia). lia.
Qed.

Lemma held_counts bs bd rs rd :
  held_in_range bs bd rs rd ->
  0 < to_int (refcnt bs - 1) /\ 0 < to_int (refcnt bd - 1) /\
  to_int (bo_refcnt rs - 1) <> 0 /\ to_int (bo_refcnt rd - 1) <> 0.
Proof.
  unfold held_in_range, INT_MAX. intros (? & ? & ? & ?).
  rewrite !to_int_id by (unfold INT_MAX; lia). lia.
Qed.

Lemma failed_flip_events_value cfg r :
  - 2 ^ 31 <= r < 0 ->
  failed_flip_events cfg r = (if use_page_flip_events cfg then - (r + 1) else 0).
Proof.
  intros H. unfold failed_flip_events.
  destruct (use_page_flip_events cfg); [ | reflexivity ].
  rewrite (to_int_id (r + 1)) by (unfold INT_MAX; lia).
  apply to_int_id. unfold INT_MAX. lia.
Qed.

(** ** The ring *)

Lemma notifications_app t u : notifications (t ++ u) = notifications t ++ notifications u.
Proof. apply List.filter_app. Qed.

Lemma alloc_frame_refl s : alloc_frame s s.
Proof. constructor; auto. Qed.

Lemma CreatePixmap_none env w h dp u s :
  env_CreatePixmap env = None ->
  CreatePixmap env w h dp u s
  = Some (None, upd_trace (fun t => t ++ [EvCreatePixmap w h dp u]) s).
Proof. intros H. unfold CreatePixmap. rewrite H. reflexivity. Qed.

Lemma CreatePixmap_bare env w h dp u s np :
  env_CreatePixmap env = Some np -> np_bo np = None ->
  CreatePixmap env w h dp u s
  = Some (Some (next_addr s),
          upd_pixmaps (insert (next_addr s)
            {| pix_refcnt := 1; pix_devKind := np_devKind np;
               pix_bitsPerPixel := np_bitsPerPixel np; pix_bo := None |})
            (upd_next_addr S (upd_trace (fun t => t ++ [EvCreatePixmap w h dp u]) s))).
Proof. intros H1 H2. unfold CreatePixmap. rewrite H1, H2. reflexivity. Qed.

Lemma CreatePixmap_backed env w h dp u s np nb :
  env_CreatePixmap env = Some np -> np_bo np = Some nb ->
  CreatePixmap env w h dp u s
  = Some (Some (S (next_addr s)),
          upd_pixmaps (insert (S (next_addr s))
            {| pix_refcnt := 1; pix_devKind := np_devKind np;
               pix_bitsPerPixel := np_bitsPerPixel np; pix_bo := Some (next_addr s) |})
            (upd_next_addr S
               (upd_bos (insert (next_addr s)
                  {| bo_name := nb_name nb; bo_fb_id := nb_fb_id nb;
                     bo_width := nb_width nb; bo_height := nb_height nb;
                     bo_refcnt := 1 |})
                  (upd_next_addr S
                     (upd_trace (fun t => t ++ [EvCreatePixmap w h dp u]) s))))).
Proof. intros H1 H2. unfold CreatePixmap. rewrite H1, H2. reflexivity. Qed.

Lemma DestroyPixmap_last_bare p x s :
  pixmaps s !! p = Some x -> pix_refcnt x = 1 -> pix_bo x = None ->
  DestroyPixmap p s
  = Some (tt, upd_pixmaps (delete p) (upd_trace (fun t => t ++ [EvDestroyPixmap p]) s)).
Proof.
  intros Hp Hr Hb. unfold DestroyPixmap.
  do 2 (eapply bind_run; [ mrun | cbv beta ]).
  rewrite Hr, Hb. change (to_int (1 - 1) =? 0) with true. cbv iota.
  eapply bind_run; reflexivity.
Qed.

Lemma DestroyPixmap_last_backed p x b rb s :
  pixmaps s !! p = Some x -> pix_refcnt x = 1 -> pix_bo x = Some b ->
  bos s !! b = Some rb -> bo_refcnt rb = 1 ->
  DestroyPixmap p s
  = Some (tt, upd_pixmaps (delete p)
                (upd_bos (delete b) (upd_trace (fun t => t ++ [EvDestroyPixmap p]) s))).
Proof.
  intros Hp Hr Hb Ho Hor. unfold DestroyPixmap.
  do 2 (eapply bind_run; [ mrun | cbv beta ]).
  rewrite Hr, Hb. change (to_int (1 - 1) =? 0) with true. cbv iota.
  eapply bind_run; [ | reflexivity ].
  unfold armsoc_bo_unreference.
  do 2 (eapply bind_run; [ mrun | cbv beta ]).
  rewrite Hor. change (to_int (1 - 1) =? 0) with true. reflexivity.
Qed.

Ltac notify_frame :=
  simpl; rewrite ?notifications_app; simpl; rewrite ?app_nil_r; reflexivity.

Lemma allocNextBuffer_fails cfg env d s :
  alloc_fails env ->
  exists s', allocNextBuffer cfg env d s = Some (None, s') /\ alloc_frame s s'.
Proof.
  unfold alloc_fails. intros Hf. unfold allocNextBuffer, createpix.
  destruct (env_CreatePixmap env) as [np |] eqn:Hnp.
  - destruct (np_bo np) as [nb |] eqn:Hnb.
    + destruct Hf as [Hfb Hadd]. eexists. split.
      * eapply bind_run; [ eapply CreatePixmap_backed; eassumption | cbv beta iota ].
        do 4 (eapply bind_run; [ mrun | cbv beta iota ]).
        simpl. rewrite Hfb. simpl (0 =? 0). cbv iota.
        eapply bind_run.
        { unfold armsoc_bo_add_fb. rewrite Hadd.
          do 3 (eapply bind_run; [ mrun | cbv beta iota ]). reflexivity. }
        cbv beta. simpl negb. cbv iota.
        eapply bind_run; [ mrun | cbv beta ].
        eapply bind_run;
          [ eapply DestroyPixmap_last_backed; [ lookups | reflexivity.. | lookups | reflexivity ]
          | reflexivity ].
      * constructor; simpl; try reflexivity; try lia.
        -- intros a Ha. rewrite lookup_delete_ne, lookup_insert_ne by lia. reflexivity.
        -- intros a Ha. rewrite lookup_delete_ne, lookup_insert_ne by lia. reflexivity.
        -- notify_frame.
    + eexists. split.
      * eapply bind_run; [ eapply CreatePixmap_bare; eassumption | cbv beta iota ].
        eapply bind_run; [ mrun | cbv beta iota ].
        eapply bind_run;
          [ eapply DestroyPixmap_last_bare; [ lookups | reflexivity.. ] | reflexivity ].
      * constructor; simpl; try reflexivity; try lia.
        -- intros a Ha. rewrite lookup_delete_ne, lookup_insert_ne by lia. reflexivity.
        -- notify_frame.
  - eexists. split.
    + eapply bind_run; [ eapply CreatePixmap_none; eassumption | reflexivity ].
    + constructor; simpl; try reflexivity; try lia. notify_frame.
Qed.

Lemma upd_buffers_twice f g s : upd_buffers f (upd_buffers g s) = upd_buffers (fun m => f (g m)) s.
Proof. reflexivity. Qed.

Lemma upd_buffers_insert_twice b r1 r2 s :
  upd_buffers (insert b r2) (upd_buffers (insert b r1) s) = upd_buffers (insert b r2) s.
Proof. unfold upd_buffers. simpl. rewrite insert_insert_eq. reflexivity. Qed.

Lemma upd_buffers_insert_id b r s :
  buffers s !! b = Some r -> upd_buffers (insert b r) s = s.
Proof.
  intros H. destruct s. unfold upd_buffers. simpl in *.
  rewrite insert_id by exact H. reflexivity.
Qed.

Lemma next_slot_range r : ring_ok r -> 0 <= next_slot r < numPixmaps r.
Proof. intros ((? & ?) & _). unfold next_slot. apply Z.mod_pos_bound. lia. Qed.

(** The target slot holds a pixmap: the advance takes its name and nothing
    is allocated. *)
Lemma nextBuffer_reuse cfg env d b r s pix px bo rb :
  2 < driNumBufs cfg ->
  buffers s !! b = Some r ->
  ring_ok r ->
  pPixmaps r !! Z.to_nat (next_slot r) = Some (Some pix) ->
  pixmaps s !! pix = Some px ->
  pix_bo px = Some bo ->
  bos s !! bo = Some rb ->
  nextBuffer cfg env d b s
  = Some (tt, upd_buffers
                (insert b (set_name (bo_name rb) (set_currentPixmap (next_slot r) r))) s).
Proof.
  intros Hn Hb Hok Hslot Hpix Hbo Hrb.
  pose proof (next_slot_range r Hok) as Hrange.
  destruct Hok as ((Hc0 & Hc1) & Hlen & Hmax & _).
  unfold nextBuffer.
  destruct (driNumBufs cfg <=? 2) eqn:E; [ lia | ].
  do 2 (eapply bind_run; [ mrun | cbv beta ]).
  eapply bind_run.
  { apply run_c_assert. simpl. apply negb_true_iff, Z.eqb_neq. lia. }
  cbv beta.
  do 2 (eapply bind_run; [ mrun | cbv beta ]).
  simpl currentPixmap. simpl numPixmaps. simpl pPixmaps.
  rewrite to_unsigned_id by (unfold UINT_MAX in *; lia).
  fold (next_slot r).
  eapply bind_run; [ apply run_array_get; [ lia | exact Hslot ] | cbv beta iota ].
  eapply bind_run; [ mrun | cbv beta ].
  rewrite Hbo.
  do 2 (eapply bind_run; [ mrun | cbv beta ]).
  unfold update_buf. eapply bind_run; [ mrun | cbv beta ].
  unfold modify. rewrite !upd_buffers_insert_twice.
  destruct r; reflexivity.
Qed.

(** The target slot is empty and the allocation fails: back to the slot
    before, and the ring ends there from now on. *)
Lemma nextBuffer_fails cfg env d b r s :
  2 < driNumBufs cfg ->
  buffers s !! b = Some r ->
  ring_ok r ->
  pPixmaps r !! Z.to_nat (next_slot r) = Some None ->
  alloc_fails env ->
  0 < next_slot r /\
  currentPixmap r + 1 < numPixmaps r /\
  exists s',
    nextBuffer cfg env d b s = Some (tt, s') /\
    buffers s' = <[b := set_numPixmaps (currentPixmap r + 1) r]> (buffers s) /\
    (forall a, (a < next_addr s)%nat -> pixmaps s' !! a = pixmaps s !! a) /\
    (forall a, (a < next_addr s)%nat -> bos s' !! a = bos s !! a) /\
    cmds s' = cmds s /\ drawables s' = drawables s /\
    pending_flips s' = pending_flips s /\ scanout s' = scanout s /\
    (next_addr s <= next_addr s')%nat /\
    notifications (trace s') = notifications (trace s).
Proof.
  intros Hn Hb Hok Hslot Hfail.
  pose proof (next_slot_range r Hok) as Hrange.
  destruct Hok as ((Hc0 & Hc1) & Hlen & Hmax & (p0 & Hp0)).
  assert (Hpos : 0 < next_slot r).
  { destruct (Z.eq_dec (next_slot r) 0) as [Hz | Hz]; [ | lia ].
    rewrite Hz in Hslot. change (Z.to_nat 0) with 0%nat in Hslot.
    rewrite Hp0 in Hslot. discriminate. }
  assert (Hnext : next_slot r = currentPixmap r + 1).
  { unfold next_slot in *.
    destruct (Z.eq_dec (currentPixmap r + 1) (numPixmaps r)) as [He | He].
    - rewrite He, Z.mod_same in Hpos by lia. lia.
    - apply Z.mod_small. lia. }
  split; [ exact Hpos | ]. split; [ lia | ].
  set (r1 := set_currentPixmap (next_slot r) r).
  set (s1 := upd_buffers (insert b r1) s).
  destruct (allocNextBuffer_fails cfg env d s1 Hfail) as (s2 & Halloc & Hframe).
  destruct Hframe.
  assert (Hb2 : buffers s2 !! b = Some r1).
  { rewrite af_buffers0. apply lookup_insert_eq. }
  eexists. split.
  - unfold nextBuffer.
    destruct (driNumBufs cfg <=? 2) eqn:E; [ lia | ].
    do 2 (eapply bind_run; [ mrun | cbv beta ]).
    eapply bind_run.
    { apply run_c_assert. simpl. apply negb_true_iff, Z.eqb_neq. lia. }
    cbv beta.
    do 2 (eapply bind_run; [ mrun | cbv beta ]).
    simpl currentPixmap. simpl numPixmaps. simpl pPixmaps.
    rewrite to_unsigned_id by (unfold UINT_MAX in *; lia).
    fold (next_slot r).
    eapply bind_run; [ apply run_array_get; [ lia | exact Hslot ] | cbv beta iota ].
    rewrite !upd_buffers_insert_twice.
    replace (set_currentPixmap (next_slot r)
               (set_currentPixmap (currentPixmap r + 1) r)) with r1
      by (destruct r; reflexivity).
    fold s1.
    eapply bind_run; [ exact Halloc | cbv beta iota ].
    eapply bind_run; [ apply run_load_buf; exact Hb2 | cbv beta ].
    eapply bind_run; [ apply run_c_assert; simpl; lia | cbv beta ].
    eapply bind_run.
    { unfold update_buf. eapply bind_run; [ apply run_load_buf; exact Hb2 | reflexivity ]. }
    cbv beta.
    unfold update_buf. eapply bind_run; [ mrun | reflexivity ].
  - simpl. rewrite af_buffers0. simpl.
    rewrite !insert_insert_eq.
    split.
    { f_equal. rewrite Hnext. unfold UINT_MAX in *.
      rewrite (to_unsigned_id (currentPixmap r + 1 - 1)) by (unfold UINT_MAX; lia).
      rewrite to_unsigned_id by (unfold UINT_MAX; lia).
      subst r1. destruct r. unfold set_numPixmaps, set_currentPixmap. simpl in *.
      f_equal; lia. }
    repeat split; try assumption.
Qed.

Lemma ring_full_next s r :
  ring_ok r -> ring_full s r ->
  exists pix px bo rb,
    pPixmaps r !! Z.to_nat (next_slot r) = Some (Some pix) /\
    pixmaps s !! pix = Some px /\ pix_bo px = Some bo /\ bos s !! bo = Some rb.
Proof. intros Hok Hfull. apply Hfull. apply next_slot_range. exact Hok. Qed.

(** Laps of a ring whose slots are all allocated. *)
Lemma nextBuffer_laps cfg env d b n :
  2 < driNumBufs cfg ->
  forall s r,
    buffers s !! b = Some r -> ring_ok r -> ring_full s r ->
    exists r',
      nextBuffer_n cfg env d b n s = Some (tt, upd_buffers (insert b r') s) /\
      currentPixmap r' = (currentPixmap r + Z.of_nat n) mod numPixmaps r /\
      numPixmaps r' = numPixmaps r /\ pPixmaps r' = pPixmaps r.
Proof.
  intros Hn. induction n as [| n IH]; intros s r Hb Hok Hfull.
  - exists r. split; [ | split; [ | split ]; try reflexivity ].
    + simpl. rewrite upd_buffers_insert_id by exact Hb. reflexivity.
    + destruct Hok as (? & _). rewrite Z.add_0_r, Z.mod_small by lia. reflexivity.
  - destruct (ring_full_next s r Hok Hfull) as (pix & px & bo & rb & Hslot & Hpix & Hbo & Hrb).
    pose proof (nextBuffer_reuse cfg env d b r s pix px bo rb Hn Hb Hok Hslot Hpix Hbo Hrb)
      as Hstep.
    set (r1 := set_name (bo_name rb) (set_currentPixmap (next_slot r) r)) in *.
    set (s1 := upd_buffers (insert b r1) s) in *.
    assert (Hok1 : ring_ok r1).
    { pose proof (next_slot_range r Hok). destruct Hok as (? & ? & ? & ?).
      repeat split; simpl; try lia; assumption. }
    destruct (IH s1 r1) as (r' & Hrun & Hcur & Hnum & Hpix').
    + apply lookup_insert_eq.
    + exact Hok1.
    + exact Hfull.
    + exists r'. split; [ | split; [ | split ] ].
      * simpl. eapply bind_run; [ exact Hstep | ].
        rewrite Hrun. unfold s1. rewrite upd_buffers_insert_twice. reflexivity.
      * rewrite Hcur. simpl. unfold next_slot.
        rewrite Z.add_mod_idemp_l by (destruct Hok; lia).
        f_equal. lia.
      * exact Hnum.
      * exact Hpix'.
Qed.

(** ** What every run preserves *)

Lemma bind_inv {A B} (m : M A) (k : A -> M B) s b s' :
  bind m k s = Some (b, s') -> exists a s1, m s = Some (a, s1) /\ k a s1 = Some (b, s').
Proof.
  unfold bind. destruct (m s) as [[a s1] |]; [ | discriminate ].
  intros H. exists a, s1. split; [ reflexivity | exact H ].
Qed.

Lemma preserves_bind {A B} (R : State -> State -> Prop) (m : M A) (k : A -> M B) :
  (forall s1 s2 s3, R s1 s2 -> R s2 s3 -> R s1 s3) ->
  preserves R m -> (forall a, preserves R (k a)) -> preserves R (bind m k).
Proof.
  intros Htrans Hm Hk s b s' H.
  apply bind_inv in H. destruct H as (a & s1 & H1 & H2).
  eapply Htrans; [ eapply Hm; exact H1 | eapply Hk; exact H2 ].
Qed.

Lemma preserves_ret {A} (R : State -> State -> Prop) (a : A) :
  (forall s, R s s) -> preserves R (ret a).
Proof. intros Hrefl s b s' H. inversion H. apply Hrefl. Qed.

Lemma preserves_fail {A} (R : State -> State -> Prop) : preserves R (@fail A).
Proof. intros s a s' H. discriminate. Qed.

Lemma preserves_gets {A} (R : State -> State -> Prop) (f : State -> A) :
  (forall s, R s s) -> preserves R (gets f).
Proof. intros Hrefl s b s' H. inversion H. apply Hrefl. Qed.

Lemma preserves_modify (R : State -> State -> Prop) f :
  (forall s, R s (f s)) -> preserves R (modify f).
Proof. intros Hf s b s' H. inversion H. apply Hf. Qed.

Lemma preserves_deref {A} (R : State -> State -> Prop) (o : option A) :
  (forall s, R s s) -> preserves R (deref o).
Proof.
  intros Hrefl. destruct o; [ apply preserves_ret; exact Hrefl | apply preserves_fail ].
Qed.

Lemma preserves_load {A} (R : State -> State -> Prop) (f : State -> option A) :
  (forall s, R s s) -> preserves R (fun s => deref (f s) s).
Proof.
  intros Hrefl s a s' H. destruct (f s); [ | discriminate ].
  inversion H. apply Hrefl.
Qed.

Lemma keeps_buffers_refl s : keeps_buffers s s.
Proof. split; [ reflexivity | lia ]. Qed.

Lemma keeps_buffers_trans s1 s2 s3 :
  keeps_buffers s1 s2 -> keeps_buffers s2 s3 -> keeps_buffers s1 s3.
Proof. intros [H1 H2] [H3 H4]. split; [ congruence | lia ]. Qed.

Lemma ring_step_refl s : ring_step s s.
Proof.
  constructor; auto.
  - intros _ b r r' H1 H2. rewrite H1 in H2. inversion H2. lia.
  - intros b r' H1 H2. congruence.
Qed.

Lemma ring_step_trans s1 s2 s3 : ring_step s1 s2 -> ring_step s2 s3 -> ring_step s1 s3.
Proof.
  intros [] []. constructor.
  - lia.
  - auto.
  - intros Hinv b r r3 H1 H3.
    destruct (buffers s2 !! b) as [r2 |] eqn:H2.
    + specialize (rs_mono0 Hinv b r r2 H1 H2).
      specialize (rs_mono1 (rs_inv0 Hinv) b r2 r3 H2 H3). lia.
    + specialize (rs_new1 b r3 H2 H3).
      destruct (Hinv b r H1) as [Hlt _]. lia.
  - intros b r3 H1 H3.
    destruct (buffers s2 !! b) as [r2 |] eqn:H2.
    + exact (rs_new0 b r2 H1 H2).
    + specialize (rs_new1 b r3 H2 H3). lia.
Qed.

Lemma keeps_ring_step s s' : keeps_buffers s s' -> ring_step s s'.
Proof.
  intros [Hb Hn]. constructor.
  - exact Hn.
  - intros Hinv b r H. rewrite Hb in H. destruct (Hinv b r H). split; [ lia | assumption ].
  - intros _ b r r' H1 H2. rewrite Hb, H1 in H2. inversion H2. lia.
  - intros b r' H1 H2. congruence.
Qed.

Lemma preserves_weaken {A} (R R' : State -> State -> Prop) (m : M A) :
  (forall s s', R s s' -> R' s s') -> preserves R m -> preserves R' m.
Proof. intros Hw Hm s a s' H. apply Hw. eapply Hm. exact H. Qed.

Create HintDb pres discriminated.

#[local] Hint Resolve keeps_buffers_refl keeps_buffers_trans ring_step_refl
  ring_step_trans : pres.

(** Walks a computation down to its primitive steps. *)
Ltac pres :=
  lazymatch goal with
  | |- preserves _ (bind _ _) =>
      apply preserves_bind; [ eauto with pres | pres | intro; pres ]
  | |- preserves _ (ret _) => apply preserves_ret; eauto with pres
  | |- preserves _ fail => apply preserves_fail
  | |- preserves _ (gets _) => apply preserves_gets; eauto with pres
  | |- preserves _ (deref _) => apply preserves_deref; eauto with pres
  | |- preserves _ (c_assert ?b) => unfold c_assert; pres
  | |- preserves _ (array_get _ _) => unfold array_get; pres
  | |- preserves _ (load_bo _) => apply preserves_load; eauto with pres
  | |- preserves _ (load_pix _) => apply preserves_load; eauto with pres
  | |- preserves _ (load_buf _) => apply preserves_load; eauto with pres
  | |- preserves _ (load_cmd _) => apply preserves_load; eauto with pres
  | |- preserves _ (emit _) => unfold emit; pres
  | |- preserves _ fresh_addr => unfold fresh_addr; pres
  | |- preserves _ (update_bo _ _) => unfold update_bo; pres
  | |- preserves _ (update_pix _ _) => unfold update_pix; pres
  | |- preserves _ (update_cmd _ _) => unfold update_cmd; pres
  | |- preserves _ (if ?c then _ else _) => destruct c; pres
  | |- preserves _ (match ?x with _ => _ end) => destruct x; pres
  | |- preserves keeps_buffers (modify _) =>
      apply preserves_modify; intro; split; simpl; [ reflexivity | lia ]
  | |- _ => first [ solve [ eauto with pres ] | idtac ]
  end.

Lemma keeps_armsoc_bo_name bo : preserves keeps_buffers (armsoc_bo_name bo).
Proof. unfold armsoc_bo_name. pres. Qed.
Lemma keeps_armsoc_bo_get_fb bo : preserves keeps_buffers (armsoc_bo_get_fb bo).
Proof. unfold armsoc_bo_get_fb. pres. Qed.
Lemma keeps_armsoc_bo_width bo : preserves keeps_buffers (armsoc_bo_width bo).
Proof. unfold armsoc_bo_width. pres. Qed.
Lemma keeps_armsoc_bo_height bo : preserves keeps_buffers (armsoc_bo_height bo).
Proof. unfold armsoc_bo_height. pres. Qed.
Lemma keeps_armsoc_bo_reference bo : preserves keeps_buffers (armsoc_bo_reference bo).
Proof. unfold armsoc_bo_reference. pres. Qed.
Lemma keeps_armsoc_bo_unreference bo : preserves keeps_buffers (armsoc_bo_unreference bo).
Proof. unfold armsoc_bo_unreference. pres. Qed.
Lemma keeps_armsoc_bo_add_fb env bo : preserves keeps_buffers (armsoc_bo_add_fb env bo).
Proof. unfold armsoc_bo_add_fb. pres. Qed.
Lemma keeps_armsoc_bo_rm_fb bo : preserves keeps_buffers (armsoc_bo_rm_fb bo).
Proof. unfold armsoc_bo_rm_fb. pres. Qed.
Lemma keeps_pending_deletions : preserves keeps_buffers armsoc_bo_do_pending_deletions.
Proof. unfold armsoc_bo_do_pending_deletions. pres. Qed.

#[local] Hint Resolve keeps_armsoc_bo_name keeps_armsoc_bo_get_fb keeps_armsoc_bo_width
  keeps_armsoc_bo_height keeps_armsoc_bo_reference keeps_armsoc_bo_unreference
  keeps_armsoc_bo_add_fb keeps_armsoc_bo_rm_fb keeps_pending_deletions : pres.

Lemma keeps_CreatePixmap env w h dp u : preserves keeps_buffers (CreatePixmap env w h dp u).
Proof. unfold CreatePixmap. pres. Qed.
Lemma keeps_DestroyPixmap p : preserves keeps_buffers (DestroyPixmap p).
Proof. unfold DestroyPixmap. pres. Qed.
Lemma keeps_ARMSOCPixmapBo p : preserves keeps_buffers (ARMSOCPixmapBo p).
Proof. unfold ARMSOCPixmapBo. pres. Qed.
Lemma keeps_ARMSOCPixmapExchange a b : preserves keeps_buffers (ARMSOCPixmapExchange a b).
Proof. unfold ARMSOCPixmapExchange. pres. Qed.
Lemma keeps_Register p : preserves keeps_buffers (ARMSOCRegisterExternalAccess p).
Proof. unfold ARMSOCRegisterExternalAccess. pres. Qed.
Lemma keeps_Deregister p : preserves keeps_buffers (ARMSOCDeregisterExternalAccess p).
Proof. unfold ARMSOCDeregisterExternalAccess. pres. Qed.
Lemma keeps_dixLookupDrawable id : preserves keeps_buffers (dixLookupDrawable id).
Proof. unfold dixLookupDrawable. pres. Qed.
Lemma keeps_drmmode_page_flip env d fb c : preserves keeps_buffers (drmmode_page_flip env d fb c).
Proof. unfold drmmode_page_flip. pres. Qed.
Lemma keeps_DRI2SwapComplete cl d k f dt : preserves keeps_buffers (DRI2SwapComplete cl d k f dt).
Proof. unfold DRI2SwapComplete. pres. Qed.
Lemma keeps_set_scanout_bo bo : preserves keeps_buffers (set_scanout_bo bo).
Proof. unfold set_scanout_bo. pres. Qed.

#[local] Hint Resolve keeps_CreatePixmap keeps_DestroyPixmap keeps_ARMSOCPixmapBo
  keeps_ARMSOCPixmapExchange keeps_Register keeps_Deregister keeps_dixLookupDrawable
  keeps_drmmode_page_flip keeps_DRI2SwapComplete keeps_set_scanout_bo : pres.

Lemma keeps_dri2draw d b : preserves keeps_buffers (dri2draw d b).
Proof. unfold dri2draw. pres. Qed.
Lemma keeps_createpix cfg env d : preserves keeps_buffers (createpix cfg env d).
Proof. unfold createpix. pres. Qed.
Lemma keeps_boFromBuffer b : preserves keeps_buffers (boFromBuffer b).
Proof. unfold boFromBuffer. pres. Qed.

#[local] Hint Resolve keeps_dri2draw keeps_createpix keeps_boFromBuffer : pres.

Lemma keeps_allocNextBuffer cfg env d : preserves keeps_buffers (allocNextBuffer cfg env d).
Proof. unfold allocNextBuffer. pres. Qed.

Lemma keeps_CopyRegion env d dst src :
  preserves keeps_buffers (ARMSOCDRI2CopyRegion env d dst src).
Proof. unfold ARMSOCDRI2CopyRegion. pres. Qed.

Lemma keeps_destroy_pixmaps arr n : forall i, preserves keeps_buffers (destroy_pixmaps arr i n).
Proof. induction n as [| n IH]; intros i; simpl; pres; try apply IH. Qed.

#[local] Hint Resolve keeps_allocNextBuffer keeps_CopyRegion keeps_destroy_pixmaps : pres.

Lemma keeps_to_ring {A} (m : M A) : preserves keeps_buffers m -> preserves ring_step m.
Proof. apply preserves_weaken. exact keeps_ring_step. Qed.

Lemma load_buf_inv b s r s1 :
  load_buf b s = Some (r, s1) -> s1 = s /\ buffers s !! b = Some r.
Proof.
  unfold load_buf. destruct (buffers s !! b); [ | discriminate ].
  intros H. inversion H. auto.
Qed.

Lemma update_buf_inv b f s u s1 :
  update_buf b f s = Some (u, s1) ->
  exists r, buffers s !! b = Some r /\ s1 = upd_buffers (insert b (f r)) s.
Proof.
  unfold update_buf. intros H. apply bind_inv in H. destruct H as (r & s0 & H1 & H2).
  apply load_buf_inv in H1. destruct H1 as [-> H1].
  inversion H2. eauto.
Qed.

Lemma c_assert_inv c s u s1 : c_assert c s = Some (u, s1) -> s1 = s /\ c = true.
Proof. destruct c; [ | discriminate ]. intros H. inversion H. auto. Qed.

Lemma array_get_inv {A} (a : list A) i s x s1 :
  array_get a i s = Some (x, s1) -> s1 = s /\ 0 <= i /\ a !! Z.to_nat i = Some x.
Proof.
  unfold array_get. destruct (0 <=? i) eqn:E; [ | discriminate ].
  destruct (a !! Z.to_nat i); [ | discriminate ].
  intros H. inversion H. repeat split. lia.
Qed.

Lemma ring_step_of_insert s s' b r rf :
  buffers s !! b = Some r ->
  buffers s' = <[b := rf]> (buffers s) ->
  (next_addr s <= next_addr s')%nat ->
  (ring_ok r -> ring_ok rf /\ numPixmaps rf <= numPixmaps r) ->
  ring_step s s'.
Proof.
  intros Hb Hs' Hn Hr. constructor.
  - exact Hn.
  - intros Hinv b' r' H. rewrite Hs' in H.
    destruct (decide (b' = b)) as [-> | Hne].
    + rewrite lookup_insert_eq in H. inversion H. subst r'.
      destruct (Hinv b r Hb) as [Hlt Hok]. split; [ lia | apply Hr; exact Hok ].
    + rewrite lookup_insert_ne in H by congruence.
      destruct (Hinv b' r' H). split; [ lia | assumption ].
  - intros Hinv b' r0 r' H0 H. rewrite Hs' in H.
    destruct (decide (b' = b)) as [-> | Hne].
    + rewrite lookup_insert_eq in H. inversion H. subst r'.
      rewrite Hb in H0. inversion H0. subst r0.
      destruct (Hinv b r Hb) as [_ Hok]. apply Hr. exact Hok.
    + rewrite lookup_insert_ne in H by congruence.
      rewrite H0 in H. inversion H. lia.
  - intros b' r' H0 H. rewrite Hs' in H.
    destruct (decide (b' = b)) as [-> | Hne]; [ congruence | ].
    rewrite lookup_insert_ne in H by congruence. congruence.
Qed.

Lemma ring_step_update_neutral b f :
  ring_neutral f -> preserves ring_step (update_buf b f).
Proof.
  intros Hf s u s' H. apply update_buf_inv in H. destruct H as (r & Hb & ->).
  apply (ring_step_of_insert s _ b r (f r) Hb); [ reflexivity | simpl; lia | ].
  destruct (Hf r) as (Hp & Hc & Hn).
  unfold ring_ok. rewrite Hp, Hc, Hn. intros H. split; [ exact H | lia ].
Qed.

Lemma ring_step_delete b s : ring_step s (upd_buffers (delete b) s).
Proof.
  constructor; unfold state_inv; simpl.
  - lia.
  - intros Hinv b' r' H. apply lookup_delete_Some in H. destruct H as [_ H].
    exact (Hinv b' r' H).
  - intros _ b' r r' H0 H. apply lookup_delete_Some in H. destruct H as [_ H].
    rewrite H0 in H. inversion H. lia.
  - intros b' r' H0 H. apply lookup_delete_Some in H. destruct H as [_ H].
    rewrite H0 in H. discriminate.
Qed.

Lemma ring_step_fresh_insert {A} r (k : addr -> M A) :
  ring_ok r ->
  (forall buf, preserves ring_step (k buf)) ->
  preserves ring_step
    (buf <- fresh_addr ;; modify (upd_buffers (insert buf r)) ;; k buf).
Proof.
  intros Hok Hk s a s' H.
  apply bind_inv in H. destruct H as (buf & s1 & H1 & H).
  inversion H1. subst buf s1. clear H1.
  apply bind_inv in H. destruct H as (u & s2 & H2 & H).
  inversion H2. subst s2. clear H2.
  eapply ring_step_trans; [ | eapply Hk; exact H ].
  constructor; unfold state_inv; simpl.
  - lia.
  - intros Hinv b r' Hb.
    destruct (decide (b = next_addr s)) as [-> | Hne].
    + rewrite lookup_insert_eq in Hb. inversion Hb. subst r'. split; [ lia | exact Hok ].
    + rewrite lookup_insert_ne in Hb by congruence.
      destruct (Hinv b r' Hb). split; [ lia | assumption ].
  - intros Hinv b r0 r' H0 Hb.
    destruct (decide (b = next_addr s)) as [-> | Hne].
    + destruct (Hinv _ _ H0). lia.
    + rewrite lookup_insert_ne in Hb by congruence.
      rewrite H0 in Hb. inversion Hb. lia.
  - intros b r' H0 Hb.
    destruct (decide (b = next_addr s)) as [-> | Hne]; [ lia | ].
    rewrite lookup_insert_ne in Hb by congruence. rewrite H0 in Hb. discriminate.
Qed.

Lemma neutral_set_name v : ring_neutral (set_name v).
Proof. intros r. auto. Qed.
Lemma neutral_set_refcnt (f : ARMSOCDRI2BufferRec -> Z) :
  ring_neutral (fun r => set_refcnt (f r) r).
Proof. intros r. auto. Qed.
Lemma neutral_set_refcnt_const v : ring_neutral (set_refcnt v).
Proof. intros r. auto. Qed.
Lemma neutral_set_attempted v : ring_neutral (set_attempted_fb_alloc v).
Proof. intros r. auto. Qed.

#[local] Hint Resolve neutral_set_name neutral_set_refcnt neutral_set_refcnt_const
  neutral_set_attempted : pres.

Ltac ring_pres :=
  lazymatch goal with
  | |- preserves ring_step (bind fresh_addr
                             (fun buf => bind (modify (upd_buffers (insert buf _))) _)) =>
      apply ring_step_fresh_insert; [ | intro; ring_pres ]
  | |- preserves _ (bind _ _) =>
      apply preserves_bind; [ eauto with pres | ring_pres | intro; ring_pres ]
  | |- preserves _ (ret _) => apply preserves_ret; eauto with pres
  | |- preserves _ fail => apply preserves_fail
  | |- preserves _ (if ?c then _ else _) => destruct c; ring_pres
  | |- preserves _ (match ?x with _ => _ end) => destruct x; ring_pres
  | |- preserves ring_step (update_buf _ _) =>
      first [ apply ring_step_update_neutral; solve [ eauto with pres ] | idtac ]
  | |- preserves ring_step (modify (upd_buffers (delete _))) =>
      apply preserves_modify; intro; apply ring_step_delete
  | |- preserves ring_step ?m =>
      first [ solve [ eauto with pres ]
            | solve [ apply keeps_to_ring; pres ]
            | idtac ]
  end.

Lemma ring_step_ReferenceBuffer b : preserves ring_step (ARMSOCDRI2ReferenceBuffer b).
Proof. unfold ARMSOCDRI2ReferenceBuffer. ring_pres. Qed.

Lemma ring_step_exchangebufs d a b : preserves ring_step (exchangebufs d a b).
Proof. unfold exchangebufs. ring_pres. Qed.

Lemma ring_step_DestroyBuffer cfg d b : preserves ring_step (ARMSOCDRI2DestroyBuffer cfg d b).
Proof. unfold ARMSOCDRI2DestroyBuffer. ring_pres. Qed.

Lemma ring_step_ReuseBufferNotify cfg env d b :
  preserves ring_step (ARMSOCDRI2ReuseBufferNotify cfg env d b).
Proof. unfold ARMSOCDRI2ReuseBufferNotify. ring_pres. Qed.

#[local] Hint Resolve ring_step_ReferenceBuffer ring_step_exchangebufs
  ring_step_DestroyBuffer ring_step_ReuseBufferNotify : pres.

Lemma ring_step_nextBuffer cfg env d b : preserves ring_step (nextBuffer cfg env d b).
Proof.
  intros s u s' H. unfold nextBuffer in H.
  destruct (driNumBufs cfg <=? 2); [ inversion H; apply ring_step_refl | ].
  apply bind_inv in H. destruct H as (? & s1 & H1 & H).
  apply update_buf_inv in H1. destruct H1 as (r & Hb & ->).
  apply bind_inv in H. destruct H as (r1 & ? & H1 & H).
  apply load_buf_inv in H1. destruct H1 as [-> H1]. simpl in H1.
  rewrite lookup_insert_eq in H1. inversion H1. subst r1. clear H1.
  apply bind_inv in H. destruct H as (? & ? & H1 & H).
  apply c_assert_inv in H1. destruct H1 as [-> Hnz]. simpl in Hnz.
  apply negb_true_iff, Z.eqb_neq in Hnz.
  apply bind_inv in H. destruct H as (? & s2 & H1 & H).
  apply update_buf_inv in H1. destruct H1 as (r1 & H1 & ->). simpl in H1.
  rewrite lookup_insert_eq in H1. inversion H1. subst r1. clear H1.
  apply bind_inv in H. destruct H as (r2 & ? & H1 & H).
  apply load_buf_inv in H1. destruct H1 as [-> H1]. simpl in H1.
  rewrite lookup_insert_eq in H1. inversion H1. subst r2. clear H1.
  apply bind_inv in H. destruct H as (slot & ? & H1 & H).
  apply array_get_inv in H1. destruct H1 as (-> & Hge & Hslot).
  simpl in Hge, Hslot.
  rewrite upd_buffers_insert_twice in H.
  set (t := to_unsigned (currentPixmap r + 1) mod numPixmaps r) in *.
  set (rt := set_currentPixmap t (set_currentPixmap (to_unsigned (currentPixmap r + 1)) r)) in *.
  assert (Ht : ring_ok r -> t = next_slot r /\ 0 <= t < numPixmaps r).
  { intros Hok. pose proof (next_slot_range r Hok) as Hr.
    destruct Hok as ((? & ?) & ? & ? & _). unfold t.
    rewrite to_unsigned_id by (unfold UINT_MAX in *; lia). fold (next_slot r). auto. }
  destruct slot as [pix |].
  - apply bind_inv in H. destruct H as (bo & s3 & H1 & H).
    apply keeps_ARMSOCPixmapBo in H1. destruct H1 as [Hb3 Hn3].
    apply bind_inv in H. destruct H as (? & ? & H1 & H).
    apply c_assert_inv in H1. destruct H1 as [-> _].
    apply bind_inv in H. destruct H as (nm & s4 & H1 & H).
    apply keeps_armsoc_bo_name in H1. destruct H1 as [Hb4 Hn4].
    apply update_buf_inv in H. destruct H as (r4 & H4 & ->).
    rewrite Hb4, Hb3 in H4. simpl in H4. rewrite lookup_insert_eq in H4.
    inversion H4. subst r4. clear H4.
    apply (ring_step_of_insert s _ b r (set_name nm rt) Hb).
    + simpl. rewrite Hb4, Hb3. simpl. apply insert_insert_eq.
    + simpl in *. lia.
    + intros Hok. destruct (Ht Hok) as [_ Hr].
      destruct Hok as (? & ? & ? & ?). simpl. split; [ | lia ].
      repeat split; simpl; try lia; assumption.
  - apply bind_inv in H. destruct H as (res & s3 & H1 & H).
    apply keeps_allocNextBuffer in H1. destruct H1 as [Hb3 Hn3].
    destruct res as [[pix nm] |].
    + apply update_buf_inv in H. destruct H as (r4 & H4 & ->).
      rewrite Hb3 in H4. simpl in H4. rewrite lookup_insert_eq in H4.
      inversion H4. subst r4. clear H4.
      eapply (ring_step_of_insert s _ b r _ Hb).
      * simpl. rewrite Hb3. simpl. apply insert_insert_eq.
      * simpl in *. lia.
      * intros Hok. destruct (Ht Hok) as [_ Hr].
        destruct Hok as (? & ? & ? & (p0 & Hp0)). simpl. split; [ | lia ].
        repeat split; simpl; try lia.
        -- rewrite length_insert. lia.
        -- fold t. destruct (decide (Z.to_nat t = 0%nat)) as [He | Hne].
           ++ rewrite He. exists pix. apply list_lookup_insert_eq.
              apply lookup_lt_Some in Hp0. exact Hp0.
           ++ exists p0. rewrite list_lookup_insert_ne by congruence. exact Hp0.
    + apply bind_inv in H. destruct H as (r4 & ? & H1 & H).
      apply load_buf_inv in H1. destruct H1 as [-> H4].
      rewrite Hb3 in H4. simpl in H4. rewrite lookup_insert_eq in H4.
      inversion H4. subst r4. clear H4.
      apply bind_inv in H. destruct H as (? & ? & H1 & H).
      apply c_assert_inv in H1. destruct H1 as [-> Hpos]. simpl in Hpos.
      apply bind_inv in H. destruct H as (? & s4 & H1 & H).
      apply update_buf_inv in H1. destruct H1 as (r4 & H4 & ->).
      rewrite Hb3 in H4. simpl in H4. rewrite lookup_insert_eq in H4.
      inversion H4. subst r4. clear H4.
      apply update_buf_inv in H. destruct H as (r5 & H5 & ->).
      simpl in H5. rewrite lookup_insert_eq in H5. inversion H5. subst r5. clear H5.
      eapply (ring_step_of_insert s _ b r _ Hb).
      * simpl. rewrite Hb3. simpl. rewrite !insert_insert_eq. reflexivity.
      * simpl in *. lia.
      * intros Hok. destruct (Ht Hok) as [_ Hr].
        destruct Hok as (? & ? & ? & ?). simpl. fold t. unfold UINT_MAX in *.
        apply Z.ltb_lt in Hpos. fold t in Hpos.
        rewrite (to_unsigned_id (t - 1)) by (unfold UINT_MAX; lia).
        rewrite to_unsigned_id by (unfold UINT_MAX; lia).
        split; [ | lia ].
        unfold ring_ok, UINT_MAX. simpl. repeat split; try lia; assumption.
Qed.

#[local] Hint Resolve ring_step_nextBuffer : pres.

Lemma ring_step_SwapComplete cfg env cmd :
  preserves ring_step (ARMSOCDRI2SwapComplete cfg env cmd).
Proof. unfold ARMSOCDRI2SwapComplete. ring_pres. Qed.

#[local] Hint Resolve ring_step_SwapComplete : pres.

Lemma ring_step_ScheduleSwap cfg env cl d dst src fn dt :
  preserves ring_step (ARMSOCDRI2ScheduleSwap cfg env cl d dst src fn dt).
Proof.
  unfold ARMSOCDRI2ScheduleSwap, ScheduleSwap_prepare, ScheduleSwap_flip,
    ScheduleSwap_blit.
  ring_pres.
Qed.

Lemma keeps_CreateBuffer_fail p att : preserves keeps_buffers (CreateBuffer_fail p att).
Proof. unfold CreateBuffer_fail. pres. Qed.

(** A run of ARMSOCDRI2CreateBuffer either answers NULL and leaves the
    buffer records alone, or adds one record at a new address. *)
Lemma CreateBuffer_cases cfg env d att fmt s res s' :
  driNumBufs cfg <= UINT_MAX ->
  ARMSOCDRI2CreateBuffer cfg env d att fmt s = Some (res, s') ->
  (res = None /\ keeps_buffers s s') \/
  (exists b r,
     res = Some b /\ (next_addr s <= b < next_addr s')%nat /\
     buffers s' = <[b := r]> (buffers s) /\
     attachment r = att /\ currentPixmap r = 0 /\
     numPixmaps r = initial_depth cfg att /\ refcnt r = 1 /\ ring_ok r).
Proof.
  intros Hcfg H. unfold ARMSOCDRI2CreateBuffer in H.
  destruct (negb (env_calloc env)).
  { left. inversion H. split; [ reflexivity | apply keeps_buffers_refl ]. }
  apply bind_inv in H. destruct H as (pPixmap & s1 & H1 & H).
  assert (K1 : keeps_buffers s s1).
  { lazymatch type of H1 with
    | ?m s = _ => assert (P : preserves keeps_buffers m) by (cbv zeta; pres)
    end.
    exact (P _ _ _ H1). }
  clear H1.
  assert (Hfailpath : forall st,
            keeps_buffers s st ->
            CreateBuffer_fail pPixmap att st = Some (res, s') ->
            res = None /\ keeps_buffers s s').
  { intros st Kst Hf. split.
    - unfold CreateBuffer_fail in Hf. apply bind_inv in Hf.
      destruct Hf as (? & ? & _ & Hf). inversion Hf. reflexivity.
    - eapply keeps_buffers_trans; [ exact Kst | ].
      eapply keeps_CreateBuffer_fail. exact Hf. }
  destruct pPixmap as [pix |].
  2: { apply bind_inv in H. destruct H as (? & ? & H1 & H).
       apply c_assert_inv in H1. destruct H1 as [-> _].
       left. eapply Hfailpath; eassumption. }
  destruct (negb (env_array env)).
  { left. eapply Hfailpath; eassumption. }
  apply bind_inv in H. destruct H as (? & ? & H1 & H).
  apply c_assert_inv in H1. destruct H1 as [-> Hlen].
  apply bool_decide_eq_true in Hlen.
  apply bind_inv in H. destruct H as (bo & s2 & H1 & H).
  apply keeps_ARMSOCPixmapBo in H1.
  pose proof (keeps_buffers_trans _ _ _ K1 H1) as K2. clear H1.
  destruct bo as [bo |].
  2: { left. eapply Hfailpath; eassumption. }
  apply bind_inv in H. destruct H as (px & s3 & H1 & H).
  assert (s3 = s2) as ->.
  { unfold load_pix in H1. destruct (pixmaps s2 !! pix); [ | discriminate ].
    inversion H1. reflexivity. }
  clear H1.
  apply bind_inv in H. destruct H as (nm & s3 & H1 & H).
  apply keeps_armsoc_bo_name in H1.
  pose proof (keeps_buffers_trans _ _ _ K2 H1) as K3. clear H1.
  apply bind_inv in H. destruct H as (buf & s4 & H1 & H).
  inversion H1. subst buf s4. clear H1.
  apply bind_inv in H. destruct H as (? & s4 & H1 & H).
  inversion H1. subst s4. clear H1.
  apply bind_inv in H. destruct H as (? & s5 & H1 & H).
  apply bind_inv in H. destruct H as (? & s6 & Hreg & H).
  apply keeps_Register in Hreg. destruct Hreg as [Hb6 Hn6].
  inversion H. subst res s'. clear H.
  destruct K3 as [Hb3 Hn3].
  set (ring := (att =? DRI2BufferBackLeft) && (2 <? driNumBufs cfg)) in *.
  set (arr := if ring then replicate (Z.to_nat (driNumBufs cfg - 1)) None
              else [@None nat]) in *.
  set (r0 := {| attachment := att; name := nm; pitch := to_unsigned (pix_devKind px);
                cpp := pix_bitsPerPixel px / 8; format := fmt; base_flags := 0;
                pPixmaps := <[0%nat := Some pix]> arr; currentPixmap := 0;
                numPixmaps := if ring then to_unsigned (driNumBufs cfg - 1) else 1;
                refcnt := 1; attempted_fb_alloc := false |}) in *.
  assert (Hdepth : numPixmaps r0 = initial_depth cfg att).
  { unfold r0, initial_depth. simpl. fold ring. destruct ring eqn:E; [ | reflexivity ].
    unfold ring in E. apply andb_true_iff in E. destruct E as [_ E].
    apply Z.ltb_lt in E. apply to_unsigned_id. lia. }
  assert (Hok : ring_ok r0).
  { unfold ring_ok. rewrite Hdepth. unfold r0, initial_depth. simpl.
    rewrite length_insert. fold ring. unfold arr.
    destruct ring eqn:E.
    - unfold ring in E. apply andb_true_iff in E. destruct E as [_ E].
      apply Z.ltb_lt in E. rewrite length_replicate.
      repeat split; try lia.
      exists pix. apply list_lookup_insert_eq. rewrite length_replicate. lia.
    - unfold UINT_MAX. simpl. repeat split; try lia. exists pix. reflexivity. }
  set (s4 := upd_buffers (insert (next_addr s3) r0) (upd_next_addr S s3)) in *.
  assert (Htail : exists r,
            buffers s5 = <[next_addr s3 := r]> (buffers s) /\
            (next_addr s3 < next_addr s5)%nat /\
            attachment r = att /\ currentPixmap r = 0 /\
            numPixmaps r = initial_depth cfg att /\ refcnt r = 1 /\ ring_ok r).
  { destruct (canflip cfg d && negb (att =? DRI2BufferFrontLeft)).
    - apply bind_inv in H1. destruct H1 as (? & s7 & H1 & Hupd).
      apply keeps_armsoc_bo_add_fb in H1. destruct H1 as [Hb7 Hn7].
      apply update_buf_inv in Hupd. destruct Hupd as (r7 & H7 & ->).
      rewrite Hb7 in H7. unfold s4 in H7. simpl in H7.
      rewrite lookup_insert_eq in H7. inversion H7. subst r7. clear H7.
      exists (set_attempted_fb_alloc true r0). simpl.
      rewrite Hb7. unfold s4 in *. simpl in *. rewrite insert_insert_eq, Hb3.
      split; [ reflexivity | ]. split; [ lia | ].
      split; [ reflexivity | ]. split; [ reflexivity | ].
      split; [ exact Hdepth | ]. split; [ reflexivity | exact Hok ].
    - inversion H1. subst s5. exists r0. unfold s4. simpl. rewrite Hb3.
      split; [ reflexivity | ]. split; [ lia | ].
      split; [ reflexivity | ]. split; [ reflexivity | ].
      split; [ exact Hdepth | ]. split; [ reflexivity | exact Hok ]. }
  destruct Htail as (r & Hbuf & Hnext & Hatt & Hcur & Hnum & Href & Hrok).
  right. exists (next_addr s3), r.
  destruct K2 as [_ Hn2].
  split; [ reflexivity | ].
  split; [ lia | ].
  split; [ rewrite Hb6; exact Hbuf | ].
  tauto.
Qed.

Lemma ring_step_CreateBuffer cfg env d att fmt :
  driNumBufs cfg <= UINT_MAX ->
  preserves ring_step (ARMSOCDRI2CreateBuffer cfg env d att fmt).
Proof.
  intros Hcfg s res s' H.
  destruct (CreateBuffer_cases cfg env d att fmt s res s' Hcfg H)
    as [[_ K] | (b & r & _ & Hb & Hbuf & _ & _ & _ & _ & Hok)].
  - apply keeps_ring_step. exact K.
  - constructor.
    + lia.
    + intros Hinv b' r' H'. rewrite Hbuf in H'.
      destruct (decide (b' = b)) as [-> | Hne].
      * rewrite lookup_insert_eq in H'. inversion H'. subst r'. split; [ lia | exact Hok ].
      * rewrite lookup_insert_ne in H' by congruence.
        destruct (Hinv b' r' H'). split; [ lia | assumption ].
    + intros Hinv b' r0 r' H0 H'. rewrite Hbuf in H'.
      destruct (decide (b' = b)) as [-> | Hne].
      * destruct (Hinv b r0 H0). lia.
      * rewrite lookup_insert_ne in H' by congruence. rewrite H0 in H'.
        inversion H'. lia.
    + intros b' r' H0 H'. rewrite Hbuf in H'.
      destruct (decide (b' = b)) as [-> | Hne]; [ lia | ].
      rewrite lookup_insert_ne in H' by congruence. congruence.
Qed.

Lemma ring_step_exec_op cfg env o :
  driNumBufs cfg <= UINT_MAX -> preserves ring_step (exec_op cfg env o).
Proof.
  intros Hcfg. destruct o; simpl.
  - apply preserves_bind; [ eauto with pres | | intro; apply preserves_ret; eauto with pres ].
    apply ring_step_CreateBuffer. exact Hcfg.
  - eauto with pres.
  - eauto with pres.
  - eauto with pres.
  - apply keeps_to_ring. eauto with pres.
  - apply preserves_bind; [ eauto with pres | | intro; apply preserves_ret; eauto with pres ].
    apply ring_step_ScheduleSwap.
  - eauto with pres.
  - apply keeps_to_ring. apply preserves_modify. intro. split; simpl; [ reflexivity | lia ].
Qed.

Lemma ring_step_run cfg steps :
  driNumBufs cfg <= UINT_MAX ->
  forall s s', run cfg steps s = Some s' -> ring_step s s'.
Proof.
  intros Hcfg. induction steps as [| [env o] rest IH]; intros s s' H; simpl in H.
  - inversion H. apply ring_step_refl.
  - destruct (exec_op cfg env o s) as [[u s1] |] eqn:E; [ | discriminate ].
    eapply ring_step_trans; [ | apply IH; exact H ].
    eapply ring_step_exec_op; eassumption.
Qed.

(** ** The advance of a ring, whatever the allocator answers *)

Lemma alloc_outcome env : alloc_fails env \/ alloc_succeeds env.
Proof.
  unfold alloc_fails, alloc_succeeds.
  destruct (env_CreatePixmap env) as [np |]; [ | left; exact I ].
  destruct (np_bo np) as [nb |] eqn:Hnb; [ | left; exact I ].
  destruct (Z.eq_dec (nb_fb_id nb) 0) as [Hz | Hz].
  - destruct (env_add_fb env) as [fb |] eqn:Hadd.
    + right. exists np, nb. repeat split; try assumption. right. eexists. reflexivity.
    + left. split; [ exact Hz | reflexivity ].
  - right. exists np, nb. repeat split; try assumption. left. exact Hz.
Qed.

Lemma allocNextBuffer_succeeds cfg env d s :
  alloc_succeeds env ->
  exists s' nm,
    allocNextBuffer cfg env d s = Some (Some (S (next_addr s), nm), s') /\
    alloc_frame s s'.
Proof.
  intros (np & nb & Hnp & Hnb & Hfb). unfold allocNextBuffer, createpix.
  destruct (Z.eq_dec (nb_fb_id nb) 0) as [Hz | Hz].
  - destruct Hfb as [Hfb | [fb Hadd]]; [ contradiction | ].
    eexists _, _. split.
    + eapply bind_run; [ eapply CreatePixmap_backed; eassumption | cbv beta iota ].
      do 4 (eapply bind_run; [ mrun | cbv beta iota ]).
      simpl. rewrite Hz. simpl (0 =? 0). cbv iota.
      eapply bind_run.
      { unfold armsoc_bo_add_fb. rewrite Hadd.
        do 3 (eapply bind_run; [ mrun | cbv beta iota ]). reflexivity. }
      cbv beta. simpl negb. cbv iota. reflexivity.
    + constructor; simpl; try reflexivity; try lia.
      * intros a Ha. rewrite lookup_insert_ne by lia. reflexivity.
      * intros a Ha. rewrite !lookup_insert_ne by lia. reflexivity.
      * notify_frame.
  - eexists _, _. split.
    + eapply bind_run; [ eapply CreatePixmap_backed; eassumption | cbv beta iota ].
      do 4 (eapply bind_run; [ mrun | cbv beta iota ]).
      simpl. apply Z.eqb_neq in Hz. rewrite Hz. cbv iota.
      eapply bind_run; [ reflexivity | ].
      cbv beta. simpl negb. cbv iota. reflexivity.
    + constructor; simpl; try reflexivity; try lia.
      * intros a Ha. rewrite lookup_insert_ne by lia. reflexivity.
      * intros a Ha. rewrite !lookup_insert_ne by lia. reflexivity.
      * notify_frame.
Qed.

Lemma ring_slot_present r : ring_ok r -> is_Some (pPixmaps r !! Z.to_nat (next_slot r)).
Proof.
  intros Hok. pose proof (next_slot_range r Hok).
  destruct Hok as (? & ? & _). apply lookup_lt_is_Some. lia.
Qed.

Lemma nextBuffer_total cfg env d b r s :
  buffers s !! b = Some r ->
  (2 < driNumBufs cfg -> ring_ok r /\ slot_ready s r) ->
  exists s', nextBuffer cfg env d b s = Some (tt, s') /\ ring_advanced b r s s'.
Proof.
  intros Hb Hring.
  destruct (Z.le_gt_cases (driNumBufs cfg) 2) as [Hle | Hgt].
  { exists s. split.
    - unfold nextBuffer. apply Z.leb_le in Hle. rewrite Hle. reflexivity.
    - constructor; auto. exists r. rewrite insert_id by exact Hb. auto. }
  assert (Hn : 2 < driNumBufs cfg) by lia.
  destruct (Hring Hn) as [Hok Hready].
  destruct (ring_slot_present r Hok) as [slot Hslot].
  destruct slot as [pix |].
  - destruct (Hready pix Hslot) as (px & bo & rb & Hpix & Hbo & Hrb).
    eexists. split.
    + eapply nextBuffer_reuse; eassumption.
    + constructor; simpl; auto.
      eexists. split; [ reflexivity | ]. simpl. auto.
  - destruct (alloc_outcome env) as [Hfail | Hsucc].
    + destruct (nextBuffer_fails cfg env d b r s Hn Hb Hok Hslot Hfail)
        as (_ & _ & s' & Hrun & Hbuf & Hpix & Hbos & Hcmds & Hdraw & Hpend & Hscan
            & Hnext & Hnot).
      exists s'. split; [ exact Hrun | ].
      constructor; auto.
      eexists. split; [ exact Hbuf | ]. simpl. auto.
    + pose proof (next_slot_range r Hok) as Hrange.
      assert (Hpos : 0 < next_slot r).
      { destruct Hok as (_ & _ & _ & (p0 & Hp0)).
        destruct (Z.eq_dec (next_slot r) 0) as [Hz | Hz]; [ | lia ].
        rewrite Hz in Hslot. change (Z.to_nat 0) with 0%nat in Hslot.
        rewrite Hp0 in Hslot. discriminate. }
      destruct Hok as ((Hc0 & Hc1) & Hlen & Hmax & (p0 & Hp0)).
      set (r1 := set_currentPixmap (next_slot r) r).
      set (s1 := upd_buffers (insert b r1) s).
      destruct (allocNextBuffer_succeeds cfg env d s1 Hsucc) as (s2 & nm & Halloc & Hframe).
      destruct Hframe.
      assert (Hb2 : buffers s2 !! b = Some r1).
      { rewrite af_buffers0. apply lookup_insert_eq. }
      eexists. split.
      * unfold nextBuffer.
        destruct (driNumBufs cfg <=? 2) eqn:E; [ lia | ].
        do 2 (eapply bind_run; [ mrun | cbv beta ]).
        eapply bind_run.
        { apply run_c_assert. simpl. apply negb_true_iff, Z.eqb_neq. lia. }
        cbv beta.
        do 2 (eapply bind_run; [ mrun | cbv beta ]).
        simpl currentPixmap. simpl numPixmaps. simpl pPixmaps.
        rewrite to_unsigned_id by (unfold UINT_MAX in *; lia).
        fold (next_slot r).
        eapply bind_run; [ apply run_array_get; [ lia | exact Hslot ] | cbv beta iota ].
        rewrite !upd_buffers_insert_twice.
        replace (set_currentPixmap (next_slot r)
                   (set_currentPixmap (currentPixmap r + 1) r)) with r1
          by (destruct r; reflexivity).
        fold s1.
        eapply bind_run; [ exact Halloc | cbv beta iota ].
        unfold update_buf. eapply bind_run; [ apply run_load_buf; exact Hb2 | reflexivity ].
      * constructor; simpl; try assumption.
        eexists. split.
        { rewrite af_buffers0. simpl. rewrite insert_insert_eq. reflexivity. }
        simpl. repeat split.
        rewrite list_lookup_insert_ne by lia. reflexivity.
Qed.

(** ** The completion of a real flip *)

Lemma dri2draw_run d b r p s :
  buffers s !! b = Some r ->
  0 <= currentPixmap r ->
  pPixmaps r !! Z.to_nat (currentPixmap r) = Some (Some p) ->
  (attachment r = DRI2BufferFrontLeft -> d_pix d = p) ->
  exists dr, dri2draw d b s = Some (dr, s) /\ draw2pix dr = p.
Proof.
  intros Hb Hge Hcur Hfront. unfold dri2draw.
  destruct (attachment r =? DRI2BufferFrontLeft) eqn:E.
  - exists (DrawWindow d). split.
    + eapply bind_run; [ mrun | cbv beta ]. rewrite E. reflexivity.
    + apply Hfront. apply Z.eqb_eq. exact E.
  - exists (DrawPixmap p). split; [ | reflexivity ].
    eapply bind_run; [ mrun | cbv beta ]. rewrite E.
    do 2 (eapply bind_run; [ mrun | cbv beta ]). reflexivity.
Qed.

Lemma exchangebufs_run d a b ra rb pa pb xa xb s :
  buffers s !! a = Some ra -> buffers s !! b = Some rb -> a <> b ->
  0 <= currentPixmap ra -> 0 <= currentPixmap rb ->
  pPixmaps ra !! Z.to_nat (currentPixmap ra) = Some (Some pa) ->
  pPixmaps rb !! Z.to_nat (currentPixmap rb) = Some (Some pb) ->
  (attachment ra = DRI2BufferFrontLeft -> d_pix d = pa) ->
  (attachment rb = DRI2BufferFrontLeft -> d_pix d = pb) ->
  pixmaps s !! pa = Some xa -> pixmaps s !! pb = Some xb -> pa <> pb ->
  exchangebufs d a b s = Some (true, exchanged a b pa pb ra rb xa xb s).
Proof.
  intros Ha Hb Hab Hga Hgb Hca Hcb Hfa Hfb Hxa Hxb Hpab.
  destruct (dri2draw_run d a ra pa s Ha Hga Hca Hfa) as (da & Hda & Hpa).
  destruct (dri2draw_run d b rb pb s Hb Hgb Hcb Hfb) as (db & Hdb & Hpb).
  unfold exchangebufs.
  eapply bind_run; [ exact Hda | cbv beta ].
  eapply bind_run; [ exact Hdb | cbv beta zeta ].
  rewrite Hpa, Hpb.
  eapply bind_run.
  { unfold ARMSOCPixmapExchange.
    do 4 (eapply bind_run; [ mrun | cbv beta ]). mrun. }
  cbv beta.
  do 4 (eapply bind_run; [ mrun | cbv beta ]).
  reflexivity.
Qed.

Lemma set_scanout_run b r s :
  bos s !! b = Some r ->
  set_scanout_bo (Some b) s
  = Some (tt, upd_scanout (Some b) (upd_trace (fun t => t ++ [EvSetScanout b]) s)).
Proof.
  intros Hb. unfold set_scanout_bo.
  do 3 (eapply bind_run; [ mrun | cbv beta ]). reflexivity.
Qed.

Section RealCompletion.

Variables (cfg : ARMSOCRec) (env : Env) (cmd : addr) (c : ARMSOCDRISwapCmd).
Variables (s : State) (bs bd : ARMSOCDRI2BufferRec) (ps pd : addr) (xs xd : Pixmap).
Variables (os od : addr) (rs rd : armsoc_bo) (d : Drawable).

Hypothesis Hcmd : cmds s !! cmd = Some c.
Hypothesis Hcount : to_int (swapCount c - 1) <= 0.
Hypothesis Hheap : swap_heap s (pSrcBuffer c) (pDstBuffer c) bs bd ps pd xs xd os od rs rd.
Hypothesis Hsrc_ref : 0 < to_int (refcnt bs - 1).
Hypothesis Hdst_ref : 0 < to_int (refcnt bd - 1).
Hypothesis Hsrc_obj : to_int (bo_refcnt rs - 1) <> 0.
Hypothesis Hdst_obj : to_int (bo_refcnt rd - 1) <> 0.
Hypothesis Hfail : Z.land (flags c) ARMSOC_SWAP_FAIL = 0.
Hypothesis Hdraw : drawables s !! draw_id c = Some d.
Hypothesis Hreal : real_flip c = true.
Hypothesis Htype : type c = DRI2_FLIP_COMPLETE.
Hypothesis Hready : flip_ready cfg s d bs bd ps pd.
Hypothesis Hbelow : heap_below s.

Lemma SwapComplete_real :
  exists s',
    ARMSOCDRI2SwapComplete cfg env cmd s = Some (tt, s') /\
    flip_completed cmd (pSrcBuffer c) (pDstBuffer c) ps pd os od bs bd rs rd
      (EvDRI2SwapComplete (client c) (d_id d) (type c) (func c) (data c)) s s'.
Proof.
  destruct Hheap.
  destruct sh_src_first0 as (p0s & Hp0s & Hl0s).
  destruct sh_dst_first0 as (p0d & Hp0d & Hl0d).
  destruct Hready as (Hfs & Hfd & Hring).
  destruct Hbelow as [Hbp Hbo].
  set (src := pSrcBuffer c) in *. set (dst := pDstBuffer c) in *.
  set (c' := set_swapCount (to_int (swapCount c - 1)) c).
  set (s0 := upd_cmds (insert cmd c') s).
  set (sx := exchanged src dst ps pd bs bd xs xd s0).
  set (rx := set_name (name bd) bs).
  (* the ring of the source buffer *)
  assert (Hadv : exists sn,
            (if attachment rx =? DRI2BufferBackLeft
             then nextBuffer cfg env d src else ret tt) sx = Some (tt, sn) /\
            ring_advanced src rx sx sn).
  { assert (Hsx : buffers sx !! src = Some rx).
    { unfold sx, exchanged. simpl. rewrite lookup_insert_ne by congruence.
      apply lookup_insert_eq. }
    destruct (attachment rx =? DRI2BufferBackLeft) eqn:E.
    - apply (nextBuffer_total cfg env d src rx sx Hsx).
      intros Hn. apply Z.eqb_eq in E. destruct (Hring E Hn) as [Hok Hslot].
      split; [ exact Hok | ].
      intros pix Hpix. destruct (Hslot pix Hpix) as (px & bo & rb & H1 & H2 & H3).
      unfold sx, exchanged. simpl.
      destruct (decide (pix = pd)) as [-> | Hnd].
      + rewrite lookup_insert_eq. exists (set_pix_bo (pix_bo xs) xd), os, rs.
        simpl. auto.
      + rewrite lookup_insert_ne by congruence.
        destruct (decide (pix = ps)) as [-> | Hns].
        * rewrite lookup_insert_eq. exists (set_pix_bo (pix_bo xd) xs), od, rd.
          simpl. auto.
        * rewrite lookup_insert_ne by congruence. exists px, bo, rb. auto.
    - exists sx. split; [ reflexivity | ].
      constructor; auto. exists rx. rewrite insert_id by exact Hsx. auto. }
  destruct Hadv as (sn & Hnext & Hadv).
  destruct Hadv. destruct ra_buffers0 as (rn & Hbn & Hrn_ref & Hrn_att & Hrn_first).
  (* what the later steps read *)
  assert (Hlive : forall a, is_Some (pixmaps s !! a) -> is_Some (pixmaps sn !! a)).
  { intros a Ha. rewrite ra_pixmaps0 by (apply Hbp; exact Ha).
    unfold sx, exchanged. simpl.
    destruct (decide (a = pd)) as [-> | Hnd]; [ rewrite lookup_insert_eq; eauto | ].
    rewrite lookup_insert_ne by congruence.
    destruct (decide (a = ps)) as [-> | Hns]; [ rewrite lookup_insert_eq; eauto | ].
    rewrite lookup_insert_ne by congruence. exact Ha. }
  assert (Hsrc_n : buffers sn !! src = Some rn).
  { rewrite Hbn. apply lookup_insert_eq. }
  assert (Hdst_n : buffers sn !! dst = Some (set_name (name bs) bd)).
  { rewrite Hbn. rewrite lookup_insert_ne by congruence.
    unfold sx, exchanged. simpl. apply lookup_insert_eq. }
  assert (Hpd_n : pixmaps sn !! pd = Some (set_pix_bo (pix_bo xs) xd)).
  { rewrite ra_pixmaps0 by (apply Hbp; eauto).
    unfold sx, exchanged. simpl. apply lookup_insert_eq. }
  assert (Hps_n : pixmaps sn !! ps = Some (set_pix_bo (pix_bo xd) xs)).
  { rewrite ra_pixmaps0 by (apply Hbp; eauto).
    unfold sx, exchanged. simpl. rewrite lookup_insert_ne by congruence.
    apply lookup_insert_eq. }
  assert (Hos_n : bos sn !! os = Some rs).
  { rewrite ra_bos0 by (apply Hbo; eauto). exact sh_src_obj0. }
  assert (Hod_n : bos sn !! od = Some rd).
  { rewrite ra_bos0 by (apply Hbo; eauto). exact sh_dst_obj0. }
  assert (Hcmd_n : cmds sn = <[cmd := c']> (cmds s)).
  { rewrite ra_cmds0. reflexivity. }
  eexists. split.
  - unfold ARMSOCDRI2SwapComplete.
    do 2 (eapply bind_run; [ mrun | cbv beta ]).
    fold c'. fold s0.
    change (swapCount c') with (to_int (swapCount c - 1)).
    destruct (0 <? to_int (swapCount c - 1)) eqn:E; [ lia | ].
    change (pSrcBuffer c') with src. change (pDstBuffer c') with dst.
    eapply bind_run; [ eapply (boFromBuffer_run src bs ps xs s0); eauto | cbv beta ].
    eapply bind_run; [ eapply (boFromBuffer_run dst bd pd xd s0); eauto | cbv beta ].
    change (flags c') with (flags c). rewrite Hfail. simpl (0 =? 0). cbv iota.
    change (real_flip c') with (real_flip c). rewrite Hreal.
    change (type c') with (type c). change (draw_id c') with (draw_id c).
    change (client c') with (client c). change (func c') with (func c).
    change (data c') with (data c).
    eapply bind_run with (a := Some d).
    { eapply bind_run.
      { unfold dixLookupDrawable, gets. simpl. rewrite Hdraw. reflexivity. }
      cbv beta iota.
      eapply bind_run.
      { eapply bind_run; [ apply run_c_assert; rewrite Htype; reflexivity | cbv beta ].
        eapply bind_run.
        { eapply (exchangebufs_run d src dst bs bd ps pd xs xd s0); eauto. }
        cbv beta. fold sx.
        eapply bind_run.
        { apply run_load_buf. unfold sx, exchanged. simpl.
          rewrite lookup_insert_ne by congruence. apply lookup_insert_eq. }
        cbv beta. fold rx. exact Hnext. }
      cbv beta.
      eapply bind_run; [ reflexivity | cbv beta ].
      eapply bind_run.
      { eapply bind_run; [ apply run_c_assert; rewrite Htype; reflexivity | cbv beta ].
        eapply bind_run.
        { eapply (boFromBuffer_run dst (set_name (name bs) bd) pd); simpl; eauto. }
        cbv beta. simpl pix_bo. rewrite sh_src_bo0.
        eapply set_scanout_run. simpl. exact Hos_n. }
      cbv beta. reflexivity. }
    cbv beta.
    eapply bind_run.
    { eapply (DestroyBuffer_keep cfg (Some d) src rn p0s); simpl.
      - exact Hsrc_n.
      - rewrite Hrn_first. exact Hp0s.
      - apply Hlive. exact Hl0s.
      - rewrite Hrn_ref. exact Hsrc_ref. }
    cbv beta.
    eapply bind_run.
    { eapply (DestroyBuffer_keep cfg (Some d) dst (set_name (name bs) bd) p0d); simpl.
      - rewrite lookup_insert_ne by congruence. exact Hdst_n.
      - exact Hp0d.
      - apply Hlive. exact Hl0d.
      - exact Hdst_ref. }
    cbv beta.
    rewrite ?sh_src_bo0, ?sh_dst_bo0.
    eapply bind_run; [ eapply unreference_keep; [ simpl; exact Hos_n | assumption ] | cbv beta ].
    eapply bind_run.
    { eapply unreference_keep; [ simpl; rewrite lookup_insert_ne by congruence; exact Hod_n
                               | assumption ]. }
    cbv beta.
    eapply bind_run; reflexivity.
  - constructor; simpl.
    + rewrite Hcmd_n. apply delete_insert_eq.
    + exists (buf_unref rn). split.
      * rewrite lookup_insert_ne by congruence. apply lookup_insert_eq.
      * simpl. rewrite Hrn_ref, Hrn_att. auto.
    + apply lookup_insert_eq.
    + rewrite lookup_insert_ne by congruence. apply lookup_insert_eq.
    + apply lookup_insert_eq.
    + rewrite Hps_n. simpl. rewrite sh_dst_bo0. reflexivity.
    + rewrite Hpd_n. simpl. rewrite sh_src_bo0. reflexivity.
    + rewrite ra_drawables0. reflexivity.
    + rewrite ra_pending0. reflexivity.
    + reflexivity.
    + rewrite !notifications_app, ra_notify0. unfold sx, exchanged. simpl.
      rewrite notifications_app. simpl. rewrite !app_nil_r. reflexivity.
Qed.

End RealCompletion.

(** ** A schedule from its first call to the completion *)

Lemma upd_cmds_insert_id cmd c s :
  cmds s !! cmd = Some c -> upd_cmds (insert cmd c) s = s.
Proof.
  intros H. destruct s. unfold upd_cmds. simpl in *.
  rewrite insert_id by exact H. reflexivity.
Qed.

Lemma upd_cmds_insert_twice cmd c1 c2 s :
  upd_cmds (insert cmd c2) (upd_cmds (insert cmd c1) s) = upd_cmds (insert cmd c2) s.
Proof. unfold upd_cmds. simpl. rewrite insert_insert_eq. reflexivity. Qed.

(** All events but the last count down. *)
Lemma flip_events_countdown cfg env cmd n :
  forall s c,
    cmds s !! cmd = Some c ->
    swapCount c = Z.of_nat (S n) -> Z.of_nat (S n) <= INT_MAX ->
    flip_events cfg env cmd (S n) s
    = (ARMSOCDRI2SwapComplete cfg env cmd ;; ret tt)
        (upd_cmds (insert cmd (set_swapCount 1 c)) s).
Proof.
  induction n as [| n IH]; intros s c Hc Hn Hmax.
  - replace (set_swapCount 1 c) with c by (destruct c; simpl in *; subst; reflexivity).
    rewrite upd_cmds_insert_id by exact Hc. reflexivity.
  - change (flip_events cfg env cmd (S (S n)) s)
      with ((ARMSOCDRI2SwapComplete cfg env cmd ;; flip_events cfg env cmd (S n)) s).
    unfold INT_MAX in Hmax.
    assert (Hstep : to_int (swapCount c - 1) = Z.of_nat (S n)).
    { rewrite Hn. rewrite to_int_id by (unfold INT_MAX; lia). lia. }
    eapply bind_run; [ apply SwapComplete_early; [ exact Hc | lia ] | ].
    rewrite (IH _ (set_swapCount (to_int (swapCount c - 1)) c)).
    + rewrite upd_cmds_insert_twice. reflexivity.
    + apply lookup_insert_eq.
    + exact Hstep.
    + unfold INT_MAX. lia.
Qed.

Lemma flip_issue_real cfg env d cmd fb c s :
  cmds s !! cmd = Some c ->
  0 < env_page_flip env ->
  exists sm,
    ScheduleSwap_flip cfg env d cmd fb s
    = ((if (if use_page_flip_events cfg then env_page_flip env else 0) =? 0
        then ARMSOCDRI2SwapComplete cfg env cmd else ret tt) ;; ret true) sm /\
    cmd_changed cmd
      (set_swapCount (if use_page_flip_events cfg then env_page_flip env else 0)
         (set_type DRI2_FLIP_COMPLETE c))
      [EvPendingDeletions; EvPageFlip (d_id d) fb cmd] s sm.
Proof.
  intros Hc Hr. eexists. split.
  - unfold ScheduleSwap_flip.
    do 3 (eapply bind_run; [ mrun | cbv beta ]).
    destruct (env_page_flip env <? 0) eqn:E; [ lia | ].
    destruct (env_page_flip env =? 0) eqn:E0; [ lia | ].
    do 3 (eapply bind_run; [ mrun | cbv beta ]).
    reflexivity.
  - constructor; simpl; try reflexivity.
    + rewrite !insert_insert_eq. reflexivity.
    + rewrite <- app_assoc. reflexivity.
Qed.

Lemma CopyRegion_run env d dst src bs bd ps pd xs xd os od rs rd s :
  swap_heap s src dst bs bd ps pd xs xd os od rs rd ->
  exists evs,
    ARMSOCDRI2CopyRegion env d dst src s = Some (tt, upd_trace (fun t => t ++ evs) s) /\
    notifications evs = [].
Proof.
  intros []. unfold ARMSOCDRI2CopyRegion.
  assert (Hs : exists dr, dri2draw d src s = Some (dr, s)).
  { unfold dri2draw. destruct (attachment bs =? DRI2BufferFrontLeft) eqn:E.
    - eexists. eapply bind_run; [ mrun | cbv beta ]. rewrite E. reflexivity.
    - eexists. eapply bind_run; [ mrun | cbv beta ]. rewrite E.
      do 2 (eapply bind_run; [ mrun | cbv beta ]). reflexivity. }
  assert (Hd : exists dr, dri2draw d dst s = Some (dr, s) /\
                          match dr with
                          | DrawWindow _ => True
                          | DrawPixmap p => p = pd
                          end).
  { unfold dri2draw. destruct (attachment bd =? DRI2BufferFrontLeft) eqn:E.
    - exists (DrawWindow d). split; [ | exact I ].
      eapply bind_run; [ mrun | cbv beta ]. rewrite E. reflexivity.
    - exists (DrawPixmap pd). split; [ | reflexivity ].
      eapply bind_run; [ mrun | cbv beta ]. rewrite E.
      do 2 (eapply bind_run; [ mrun | cbv beta ]). reflexivity. }
  destruct Hs as (drs & Hs). destruct Hd as (drd & Hd & Hdp).
  assert (Hmid : (match drd with
                  | DrawWindow _ => ret tt
                  | DrawPixmap p => _ <- load_pix p ;; ret tt
                  end) s = Some (tt, s)).
  { destruct drd as [w | p]; [ reflexivity | ]. subst p.
    eapply bind_run; [ mrun | reflexivity ]. }
  destruct (env_GetScratchGC env) eqn:G.
  - eexists. split.
    + eapply bind_run; [ exact Hs | cbv beta ].
      eapply bind_run; [ exact Hd | cbv beta ].
      eapply bind_run; [ exact Hmid | cbv beta ].
      reflexivity.
    + reflexivity.
  - exists []. split.
    + eapply bind_run; [ exact Hs | cbv beta ].
      eapply bind_run; [ exact Hd | cbv beta ].
      eapply bind_run; [ exact Hmid | cbv beta ].
      rewrite upd_trace_nil. reflexivity.
    + reflexivity.
Qed.

Lemma notifications_app_notice t c s :
  notifications (t ++ completion_notice c s)
  = notifications t ++ completion_notice c s.
Proof.
  rewrite notifications_app. f_equal. unfold completion_notice.
  destruct (Z.land (flags c) ARMSOC_SWAP_FAIL =? 0); [ | reflexivity ].
  destruct (drawables s !! draw_id c); reflexivity.
Qed.

(** Every completion settles its swap. *)
Lemma SwapComplete_settles cfg env cmd c s bs bd ps pd xs xd os od rs rd :
  cmds s !! cmd = Some c ->
  to_int (swapCount c - 1) <= 0 ->
  swap_heap s (pSrcBuffer c) (pDstBuffer c) bs bd ps pd xs xd os od rs rd ->
  held_in_range bs bd rs rd ->
  heap_below s ->
  (Z.land (flags c) ARMSOC_SWAP_FAIL = 0 -> real_flip c = true ->
   forall d, drawables s !! draw_id c = Some d ->
             type c = DRI2_FLIP_COMPLETE /\ flip_ready cfg s d bs bd ps pd) ->
  exists s',
    ARMSOCDRI2SwapComplete cfg env cmd s = Some (tt, s') /\
    swap_settled cmd (pSrcBuffer c) (pDstBuffer c) os od
      (to_int (refcnt bs - 1)) (to_int (refcnt bd - 1))
      (to_int (bo_refcnt rs - 1)) (to_int (bo_refcnt rd - 1))
      (to_int (pending_flips s - 1)) (completion_notice c s) s s'.
Proof.
  intros Hc Hcount Hheap Hheld Hbelow Hready.
  destruct (held_counts _ _ _ _ Hheld) as (Hr1 & Hr2 & Hr3 & Hr4).
  assert (Hplain : Z.land (flags c) ARMSOC_SWAP_FAIL <> 0
                   \/ drawables s !! draw_id c = None \/ real_flip c = false ->
            exists s',
              ARMSOCDRI2SwapComplete cfg env cmd s = Some (tt, s') /\
              swap_settled cmd (pSrcBuffer c) (pDstBuffer c) os od
                (to_int (refcnt bs - 1)) (to_int (refcnt bd - 1))
                (to_int (bo_refcnt rs - 1)) (to_int (bo_refcnt rd - 1))
                (to_int (pending_flips s - 1)) (completion_notice c s) s s').
  { intros Hp. eexists. split.
    - apply (SwapComplete_plain cfg env cmd c s bs bd ps pd xs xd os od rs rd);
        assumption.
    - destruct Hheap. constructor; simpl.
      + apply lookup_delete_eq.
      + rewrite lookup_insert_ne by congruence. rewrite lookup_insert_eq. reflexivity.
      + rewrite lookup_insert_eq. reflexivity.
      + rewrite lookup_insert_ne by congruence. rewrite lookup_insert_eq. reflexivity.
      + rewrite lookup_insert_eq. reflexivity.
      + reflexivity.
      + apply notifications_app_notice. }
  destruct (Z.eq_dec (Z.land (flags c) ARMSOC_SWAP_FAIL) 0) as [Hf | Hf];
    [ | apply Hplain; left; exact Hf ].
  destruct (drawables s !! draw_id c) as [d |] eqn:Hd;
    [ | apply Hplain; right; left; reflexivity ].
  destruct (real_flip c) eqn:Hreal; [ | apply Hplain; right; right; reflexivity ].
  destruct (Hready Hf eq_refl d eq_refl) as [Htype Hfr].
  destruct (SwapComplete_real cfg env cmd c s bs bd ps pd xs xd os od rs rd d
              Hc Hcount Hheap Hr1 Hr2 Hr3 Hr4 Hf Hd Hreal Htype Hfr Hbelow)
    as (s' & Hrun & Hdone).
  exists s'. split; [ exact Hrun | ].
  destruct Hdone. destruct fc_src0 as (r' & Hsrc & Href & _).
  constructor.
  - rewrite fc_cmds0. apply lookup_delete_eq.
  - rewrite Hsrc. simpl. rewrite Href. reflexivity.
  - rewrite fc_dst0. reflexivity.
  - rewrite fc_os0. reflexivity.
  - rewrite fc_od0. reflexivity.
  - exact fc_pending0.
  - rewrite fc_notify0. unfold completion_notice.
    apply Z.eqb_eq in Hf. rewrite Hf, Hd. reflexivity.
Qed.

Lemma flip_ready_frame cfg s s' d bs bd bs' bd' ps pd :
  pixmaps s' = pixmaps s ->
  (forall b, is_Some (bos s !! b) -> is_Some (bos s' !! b)) ->
  attachment bs' = attachment bs -> attachment bd' = attachment bd ->
  pPixmaps bs' = pPixmaps bs -> currentPixmap bs' = currentPixmap bs ->
  numPixmaps bs' = numPixmaps bs ->
  flip_ready cfg s d bs bd ps pd ->
  flip_ready cfg s' d bs' bd' ps pd.
Proof.
  intros Hp Hb Has Had Hpp Hcp Hnp (H1 & H2 & H3).
  unfold flip_ready. rewrite Has, Had. split; [ exact H1 | ]. split; [ exact H2 | ].
  intros Hback Hn. destruct (H3 Hback Hn) as [Hok Hslot]. split.
  - unfold ring_ok in *. rewrite Hpp, Hcp, Hnp. exact Hok.
  - unfold slot_ready, next_slot in *. rewrite Hpp, Hcp, Hnp, Hp.
    intros pix Hpix. destruct (Hslot pix Hpix) as (px & bo & rb & Hx & Hbo & Hrb).
    destruct (Hb bo) as [rb' Hrb']; [ eauto | ].
    exists px, bo, rb'. auto.
Qed.

(** From the state in which the flip was issued (or the blit made) to the
    settled swap: the completion runs at once when no event is awaited and
    after the awaited events otherwise. *)
Lemma issued_settles cfg env cmd c (res : bool) s bs bd ps pd xs xd os od rs rd :
  cmds s !! cmd = Some c ->
  0 <= swapCount c <= INT_MAX ->
  swap_heap s (pSrcBuffer c) (pDstBuffer c) bs bd ps pd xs xd os od rs rd ->
  held_in_range bs bd rs rd ->
  heap_below s ->
  (Z.land (flags c) ARMSOC_SWAP_FAIL = 0 -> real_flip c = true ->
   forall d, drawables s !! draw_id c = Some d ->
             type c = DRI2_FLIP_COMPLETE /\ flip_ready cfg s d bs bd ps pd) ->
  exists s1 s2,
    ((if swapCount c =? 0 then ARMSOCDRI2SwapComplete cfg env cmd else ret tt) ;;
     ret res) s = Some (res, s1) /\
    (0 < swapCount c -> s1 = s) /\
    flip_events cfg env cmd (Z.to_nat (swapCount c)) s1 = Some (tt, s2) /\
    swap_settled cmd (pSrcBuffer c) (pDstBuffer c) os od
      (to_int (refcnt bs - 1)) (to_int (refcnt bd - 1))
      (to_int (bo_refcnt rs - 1)) (to_int (bo_refcnt rd - 1))
      (to_int (pending_flips s - 1)) (completion_notice c s) s s2.
Proof.
  intros Hc Hn Hheap Hheld Hbelow Hready.
  destruct (swapCount c =? 0) eqn:E.
  - apply Z.eqb_eq in E.
    destruct (SwapComplete_settles cfg env cmd c s bs bd ps pd xs xd os od rs rd
                Hc) as (s' & Hrun & Hset); try assumption.
    { rewrite E. rewrite to_int_id by (unfold INT_MAX; lia). lia. }
    exists s', s'. split; [ eapply bind_run; [ exact Hrun | reflexivity ] | ].
    split; [ lia | ]. split; [ rewrite E; reflexivity | exact Hset ].
  - apply Z.eqb_neq in E.
    destruct (Z.to_nat (swapCount c)) as [| k] eqn:K; [ lia | ].
    set (c1 := set_swapCount 1 c).
    set (s1 := upd_cmds (insert cmd c1) s).
    assert (Hc1 : cmds s1 !! cmd = Some c1) by apply lookup_insert_eq.
    assert (Hcount1 : to_int (swapCount c1 - 1) <= 0).
    { simpl. rewrite to_int_id by (unfold INT_MAX; lia). lia. }
    assert (Hheap1 : swap_heap s1 (pSrcBuffer c1) (pDstBuffer c1) bs bd ps pd xs xd
                       os od rs rd).
    { apply (swap_heap_frame s); [ reflexivity .. | exact Hheap ]. }
    destruct (SwapComplete_settles cfg env cmd c1 s1 bs bd ps pd xs xd os od rs rd
                Hc1 Hcount1 Hheap1 Hheld Hbelow Hready) as (s' & Hrun & Hset).
    exists s, s'. split; [ reflexivity | ]. split; [ reflexivity | ]. split.
    + rewrite (flip_events_countdown cfg env cmd k s c Hc) by lia.
      eapply bind_run; [ exact Hrun | reflexivity ].
    + destruct Hset. constructor; assumption.
Qed.

Section Schedule.

Variables (cfg : ARMSOCRec) (env : Env) (cl : Z) (d : Drawable) (dst src : addr).
Variables (fn dt : Z) (s : State) (bs bd : ARMSOCDRI2BufferRec) (ps pd : addr).
Variables (xs xd : Pixmap) (os od : addr) (rs rd : armsoc_bo).

Hypothesis Hreq : swap_request cfg env d src dst s bs bd ps pd xs xd os od rs rd.

Let cmd := next_addr s.
Let c0 := new_cmd cl d dst src fn dt.
Let s0 := prepared c0 src dst os od bs bd rs rd s.

Lemma after_issue c evs (res : bool) sm :
  cmd_changed cmd c evs s0 sm ->
  notifications evs = [] ->
  0 <= swapCount c <= INT_MAX ->
  pSrcBuffer c = src -> pDstBuffer c = dst -> draw_id c = d_id d ->
  (real_flip c = true -> type c = DRI2_FLIP_COMPLETE) ->
  exists s1 s2,
    ((if swapCount c =? 0 then ARMSOCDRI2SwapComplete cfg env cmd else ret tt) ;;
     ret res) sm = Some (res, s1) /\
    (0 < swapCount c ->
     cmds s1 !! cmd = Some c /\
     (refcnt <$> buffers s1 !! src) = Some (refcnt bs + 1) /\
     (refcnt <$> buffers s1 !! dst) = Some (refcnt bd + 1) /\
     pending_flips s1 = pending_flips s + 1 /\
     notifications (trace s1) = notifications (trace s)) /\
    flip_events cfg env cmd (Z.to_nat (swapCount c)) s1 = Some (tt, s2) /\
    swap_settled cmd src dst os od (refcnt bs) (refcnt bd)
      (bo_refcnt rs) (bo_refcnt rd) (pending_flips s) (completion_notice c sm) s s2.
Proof.
  intros Hsm Hevs Hn Hsrc Hdst Hid Htype.
  destruct Hreq. pose proof sq_heap0 as Hheap. destruct sq_heap0.
  pose proof sq_refs0 as (Hr1 & Hr2 & Hr3 & Hr4). unfold INT_MAX in *.
  assert (Hc : cmds sm !! cmd = Some c).
  { rewrite (cc_cmds _ _ _ _ _ Hsm). apply lookup_insert_eq. }
  assert (Hheapm : swap_heap sm (pSrcBuffer c) (pDstBuffer c) (buf_ref bs) (buf_ref bd)
                     ps pd xs xd os od (bo_ref rs) (bo_ref rd)).
  { rewrite Hsrc, Hdst. eapply cmd_changed_heap; [ exact Hsm | ].
    apply prepared_heap. exact Hheap. }
  assert (Hbos : forall a, is_Some (bos sm !! a) <-> is_Some (bos s !! a)).
  { intros a. rewrite (cc_bos _ _ _ _ _ Hsm). simpl.
    destruct (decide (a = od)) as [-> | Hnd].
    { rewrite lookup_insert_eq. split; eauto. }
    rewrite lookup_insert_ne by congruence.
    destruct (decide (a = os)) as [-> | Hns].
    { rewrite lookup_insert_eq. split; eauto. }
    rewrite lookup_insert_ne by congruence. reflexivity. }
  assert (Hbelowm : heap_below sm).
  { destruct sq_below0 as [Hp Hb]. split.
    - intros a Ha. rewrite (cc_pixmaps _ _ _ _ _ Hsm) in Ha.
      rewrite (cc_next _ _ _ _ _ Hsm). simpl in *. specialize (Hp a Ha). lia.
    - intros a Ha. apply Hbos in Ha.
      rewrite (cc_next _ _ _ _ _ Hsm). simpl in *. specialize (Hb a Ha). lia. }
  assert (Hreadym : Z.land (flags c) ARMSOC_SWAP_FAIL = 0 -> real_flip c = true ->
            forall d', drawables sm !! draw_id c = Some d' ->
              type c = DRI2_FLIP_COMPLETE /\
              flip_ready cfg sm d' (buf_ref bs) (buf_ref bd) ps pd).
  { intros _ Hreal d' Hd'. split; [ exact (Htype Hreal) | ].
    rewrite (cc_drawables _ _ _ _ _ Hsm), Hid in Hd'. simpl in Hd'.
    apply (flip_ready_frame cfg s sm d' bs bd); try reflexivity.
    - rewrite (cc_pixmaps _ _ _ _ _ Hsm). reflexivity.
    - intros b Hb. apply Hbos. exact Hb.
    - apply sq_ready0. exact Hd'. }
  destruct (issued_settles cfg env cmd c res sm (buf_ref bs) (buf_ref bd) ps pd xs xd
              os od (bo_ref rs) (bo_ref rd) Hc ltac:(unfold INT_MAX; lia) Hheapm
              (refs_held _ _ _ _ sq_refs0) Hbelowm Hreadym)
    as (s1 & s2 & Hrun & Hwait & Hevents & Hset).
  exists s1, s2. split; [ exact Hrun | ]. split; [ | split; [ exact Hevents | ] ].
  - intros Hpos. rewrite (Hwait Hpos). split; [ exact Hc | ].
    rewrite (cc_buffers _ _ _ _ _ Hsm), (cc_pending _ _ _ _ _ Hsm),
      (cc_trace _ _ _ _ _ Hsm). simpl.
    rewrite lookup_insert_ne by congruence. rewrite !lookup_insert_eq. simpl.
    rewrite !to_int_id by (unfold INT_MAX; lia).
    rewrite notifications_app, Hevs, app_nil_r. auto.
  - destruct Hset. rewrite Hsrc, Hdst in *. constructor.
    + exact ss_cmds0.
    + rewrite ss_src0. f_equal. apply to_int_succ_pred. unfold INT_MAX. lia.
    + rewrite ss_dst0. f_equal. apply to_int_succ_pred. unfold INT_MAX. lia.
    + rewrite ss_os0. f_equal. apply to_int_succ_pred. unfold INT_MAX. lia.
    + rewrite ss_od0. f_equal. apply to_int_succ_pred. unfold INT_MAX. lia.
    + rewrite ss_pending0, (cc_pending _ _ _ _ _ Hsm). simpl.
      apply to_int_succ_pred. unfold INT_MAX. lia.
    + rewrite ss_notify0, (cc_trace _ _ _ _ _ Hsm). simpl.
      rewrite notifications_app, Hevs, app_nil_r. reflexivity.
Qed.

(** A schedule, and the events it waits for, settle the swap on every
    path. *)
Lemma swap_runs :
  let flip := do_flip (bo_fb_id rs) (bo_fb_id rd) (canflip cfg d)
                (bo_width rs) (bo_width rd) (bo_height rs) (bo_height rd) in
  let r := env_page_flip env in
  let n := events_awaited cfg flip r in
  exists s1 s2,
    ARMSOCDRI2ScheduleSwap cfg env cl d dst src fn dt s
    = Some (negb (flip && (r <? 0)), s1) /\
    (0 < n ->
     is_Some (cmds s1 !! cmd) /\
     (refcnt <$> buffers s1 !! src) = Some (refcnt bs + 1) /\
     (refcnt <$> buffers s1 !! dst) = Some (refcnt bd + 1) /\
     pending_flips s1 = pending_flips s + 1 /\
     notifications (trace s1) = notifications (trace s)) /\
    flip_events cfg env cmd (Z.to_nat n) s1 = Some (tt, s2) /\
    swap_settled cmd src dst os od (refcnt bs) (refcnt bd)
      (bo_refcnt rs) (bo_refcnt rd) (pending_flips s)
      (swap_notice cl d fn dt flip r s) s s2.
Proof.
  intros flip r n.
  pose proof (sq_heap _ _ _ _ _ _ _ _ _ _ _ _ _ _ _ _ Hreq) as Hheap.
  pose proof (sq_calloc _ _ _ _ _ _ _ _ _ _ _ _ _ _ _ _ Hreq) as Hcalloc.
  pose proof (sq_flip _ _ _ _ _ _ _ _ _ _ _ _ _ _ _ _ Hreq) as Hr.
  fold r in Hr. unfold INT_MAX in Hr.
  rewrite (ScheduleSwap_branch cfg env cl d dst src fn dt s _ _ _ _ _ _ _ _ _ _
             Hheap Hcalloc).
  fold flip. fold c0. fold s0. fold cmd.
  assert (Hc0 : cmds s0 !! cmd = Some c0) by apply lookup_insert_eq.
  assert (Hd0 : drawables s0 = drawables s) by reflexivity.
  destruct flip eqn:Hflip.
  - (* the flip branch *)
    destruct (Z.lt_trichotomy r 0) as [Hneg | [Hzero | Hpos]].
    + destruct (flip_issue_failed cfg env d cmd (bo_fb_id rs) c0 s0 Hc0 Hneg)
        as (sm & Hissue & Hsm).
      fold r in Hissue, Hsm.
      rewrite (failed_flip_events_value cfg r) in Hissue, Hsm by lia.
      set (k := if use_page_flip_events cfg then - (r + 1) else 0) in *.
      assert (Hk : n = k).
      { unfold n, events_awaited, k. destruct (r <? 0) eqn:E; [ reflexivity | lia ]. }
      assert (Hn : 0 <= swapCount (flagged_cmd c0 ARMSOC_SWAP_FAIL k) <= INT_MAX).
      { simpl. unfold k, INT_MAX. destruct (use_page_flip_events cfg); lia. }
      destruct (after_issue (flagged_cmd c0 ARMSOC_SWAP_FAIL k) _ false sm Hsm
                  eq_refl Hn eq_refl eq_refl eq_refl ltac:(reflexivity))
        as (s1 & s2 & Hrun & Hwait & Hevents & Hset).
      exists s1, s2. rewrite Hissue. simpl swapCount in *.
      assert (Hres : negb (true && (r <? 0)) = false).
      { destruct (r <? 0) eqn:E; [ reflexivity | lia ]. }
      rewrite Hres, Hk. split; [ exact Hrun | ].
      split; [ intros Hp; destruct (Hwait Hp) as (H1 & H2); split; eauto | ].
      split; [ exact Hevents | ].
      replace (swap_notice cl d fn dt true r s) with (@nil Event).
      * exact Hset.
      * unfold swap_notice. destruct (r <? 0) eqn:E; [ reflexivity | lia ].
    + destruct (flip_issue_fake cfg env d cmd (bo_fb_id rs) c0 s0 Hc0 Hzero)
        as (sm & Hissue & Hsm).
      assert (Hk : n = 0).
      { unfold n, events_awaited. rewrite Hzero.
        destruct (use_page_flip_events cfg); reflexivity. }
      assert (Hn : 0 <= swapCount (flagged_cmd c0 ARMSOC_SWAP_FAKE_FLIP 0) <= INT_MAX).
      { simpl. unfold INT_MAX. lia. }
      destruct (after_issue (flagged_cmd c0 ARMSOC_SWAP_FAKE_FLIP 0) _ true sm Hsm
                  eq_refl Hn eq_refl eq_refl eq_refl ltac:(reflexivity))
        as (s1 & s2 & Hrun & Hwait & Hevents & Hset).
      exists s1, s2. rewrite Hissue. simpl swapCount in *.
      rewrite Hzero. simpl negb. rewrite Hk. split; [ exact Hrun | ].
      split; [ intros Hp; lia | ].
      split; [ exact Hevents | ].
      replace (swap_notice cl d fn dt true 0 s)
        with (completion_notice (flagged_cmd c0 ARMSOC_SWAP_FAKE_FLIP 0) sm).
      * exact Hset.
      * unfold swap_notice, completion_notice. simpl.
        rewrite (cc_drawables _ _ _ _ _ Hsm). reflexivity.
    + destruct (flip_issue_real cfg env d cmd (bo_fb_id rs) c0 s0 Hc0 Hpos)
        as (sm & Hissue & Hsm).
      fold r in Hissue, Hsm.
      set (k := if use_page_flip_events cfg then r else 0) in *.
      assert (Hk : n = k).
      { unfold n, events_awaited, k. destruct (r <? 0) eqn:E; [ lia | reflexivity ]. }
      assert (Hn : 0 <= swapCount (set_swapCount k (set_type DRI2_FLIP_COMPLETE c0))
                   <= INT_MAX).
      { simpl. unfold k, INT_MAX. destruct (use_page_flip_events cfg); lia. }
      destruct (after_issue (set_swapCount k (set_type DRI2_FLIP_COMPLETE c0)) _ true
                  sm Hsm eq_refl Hn eq_refl eq_refl eq_refl ltac:(reflexivity))
        as (s1 & s2 & Hrun & Hwait & Hevents & Hset).
      exists s1, s2. rewrite Hissue. simpl swapCount in *.
      assert (Hres : negb (true && (r <? 0)) = true).
      { destruct (r <? 0) eqn:E; [ lia | reflexivity ]. }
      rewrite Hres, Hk. split; [ exact Hrun | ].
      split; [ intros Hp; destruct (Hwait Hp) as (H1 & H2); split; eauto | ].
      split; [ exact Hevents | ].
      replace (swap_notice cl d fn dt true r s)
        with (completion_notice (set_swapCount k (set_type DRI2_FLIP_COMPLETE c0)) sm).
      * exact Hset.
      * unfold swap_notice, completion_notice. simpl.
        rewrite (cc_drawables _ _ _ _ _ Hsm).
        destruct (r <? 0) eqn:E; [ lia | reflexivity ].
  - (* the blit branch *)
    assert (Hk : n = 0) by reflexivity.
    destruct (CopyRegion_run env d dst src _ _ _ _ _ _ _ _ _ _ s0
                (prepared_heap c0 s src dst _ _ _ _ _ _ _ _ _ _ Hheap))
      as (evs & Hcopy & Hevs).
    set (cB := set_type DRI2_BLIT_COMPLETE c0).
    set (sm := upd_cmds (insert cmd cB) (upd_trace (fun t => t ++ evs) s0)).
    assert (Hsm : cmd_changed cmd cB evs s0 sm).
    { constructor; reflexivity. }
    assert (Hn : 0 <= swapCount cB <= INT_MAX).
    { simpl. unfold INT_MAX. lia. }
    destruct (after_issue cB evs true sm Hsm Hevs Hn eq_refl eq_refl eq_refl
                ltac:(discriminate))
      as (s1 & s2 & Hrun & Hwait & Hevents & Hset).
    exists s1, s2. simpl negb. rewrite Hk. split.
    + unfold ScheduleSwap_blit.
      eapply bind_run; [ exact Hcopy | cbv beta ].
      eapply bind_run; [ mrun | cbv beta ].
      exact Hrun.
    + split; [ intros Hp; lia | ]. split; [ exact Hevents | ].
      replace (swap_notice cl d fn dt false r s) with (completion_notice cB sm).
      * exact Hset.
      * unfold swap_notice, completion_notice. reflexivity.
Qed.

End Schedule.

(** The example screen can serve a swap request, whatever the flip issuer
    answers. *)
Lemma ex_request events r :
  - 2 ^ 31 <= r <= INT_MAX ->
  swap_request (ex_cfg events) (ex_env r) ex_win 5%nat 2%nat ex_state
    ex_back ex_front 4%nat 1%nat ex_back_pix ex_front_pix 3%nat 0%nat
    ex_back_bo ex_front_bo.
Proof.
  intros Hr. constructor.
  - exact ex_heap.
  - vm_compute. intuition discriminate.
  - vm_compute. intuition discriminate.
  - reflexivity.
  - split; intros a [x Hx]; simpl in Hx |- *;
      apply lookup_insert_Some in Hx.
    all: destruct Hx as [[<- _] | [_ Hx]]; [ lia | ].
    all: apply lookup_singleton_Some in Hx; destruct Hx as [<- _]; lia.
  - exact Hr.
  - intros d' Hd'. simpl in Hd'. apply lookup_singleton_Some in Hd'.
    destruct Hd' as [_ <-]. split; [ | split ].
    + intros H. discriminate H.
    + intros _. reflexivity.
    + intros _ _. split.
      * repeat split; try (simpl; lia); try (vm_compute; intuition discriminate).
        exists 4%nat. reflexivity.
      * intros pix Hpix. vm_compute in Hpix. discriminate Hpix.
Qed.
(** *** Stretches that only make calls *)

Lemma calls_only_refl s : calls_only [] s s.
Proof. unfold calls_only. rewrite app_nil_r. repeat split. Qed.

Lemma calls_only_trans e1 e2 s1 s2 s3 :
  calls_only e1 s1 s2 -> calls_only e2 s2 s3 -> calls_only (e1 ++ e2) s1 s3.
Proof.
  unfold calls_only. intros (H1 & H2 & H3 & H4 & H5 & H6) (K1 & K2 & K3 & K4 & K5 & K6).
  rewrite K1, H1, app_assoc. repeat split; congruence.
Qed.

Lemma quiet_trans s1 s2 s3 :
  calls_only [] s1 s2 -> calls_only [] s2 s3 -> calls_only [] s1 s3.
Proof. apply (calls_only_trans [] []). Qed.

(** Walks a computation that makes no call down to its primitive steps. *)
Ltac qpres :=
  lazymatch goal with
  | |- preserves _ (bind _ _) =>
      apply preserves_bind; [ exact quiet_trans | qpres | intro; qpres ]
  | |- preserves _ (ret _) => apply preserves_ret; exact calls_only_refl
  | |- preserves _ fail => apply preserves_fail
  | |- preserves _ (gets _) => apply preserves_gets; exact calls_only_refl
  | |- preserves _ (deref _) => apply preserves_deref; exact calls_only_refl
  | |- preserves _ (c_assert ?b) => unfold c_assert; qpres
  | |- preserves _ (array_get _ _) => unfold array_get; qpres
  | |- preserves _ (load_bo _) => apply preserves_load; exact calls_only_refl
  | |- preserves _ (load_pix _) => apply preserves_load; exact calls_only_refl
  | |- preserves _ (load_buf _) => apply preserves_load; exact calls_only_refl
  | |- preserves _ (load_cmd _) => apply preserves_load; exact calls_only_refl
  | |- preserves _ (update_bo _ _) => unfold update_bo; qpres
  | |- preserves _ (update_pix _ _) => unfold update_pix; qpres
  | |- preserves _ (if ?c then _ else _) => destruct c; qpres
  | |- preserves _ (match ?x with _ => _ end) => destruct x; qpres
  | |- preserves (calls_only []) (modify _) =>
      apply preserves_modify; intro; unfold calls_only; simpl;
      rewrite app_nil_r; repeat split
  | |- _ => idtac
  end.

Lemma emit_calls e : preserves (calls_only [e]) (emit e).
Proof.
  intros s u s' H. unfold emit, modify in H. injection H as _ <-.
  unfold calls_only. simpl. repeat split.
Qed.

Lemma calls_bind {A B} e1 e2 (m : M A) (k : A -> M B) :
  preserves (calls_only e1) m -> (forall a, preserves (calls_only e2) (k a)) ->
  preserves (calls_only (e1 ++ e2)) (bind m k).
Proof.
  intros Hm Hk s b s' H. apply bind_inv in H. destruct H as (a & s1 & H1 & H2).
  eapply calls_only_trans; [ eapply Hm; exact H1 | eapply Hk; exact H2 ].
Qed.

Lemma DestroyPixmap_calls p : preserves (calls_only [EvDestroyPixmap p]) (DestroyPixmap p).
Proof.
  unfold DestroyPixmap.
  apply (calls_bind [EvDestroyPixmap p] []); [ apply emit_calls | intros _ ].
  unfold armsoc_bo_unreference. qpres.
Qed.

Lemma Deregister_calls p :
  preserves (calls_only [EvDeregisterExternalAccess p]) (ARMSOCDeregisterExternalAccess p).
Proof.
  unfold ARMSOCDeregisterExternalAccess.
  apply (calls_bind [] [EvDeregisterExternalAccess p]); [ qpres | intros _ ].
  apply emit_calls.
Qed.

Lemma destroy_pixmaps_calls arr todo :
  forall i, 0 <= i ->
    preserves (calls_only (release_calls (released_slots (drop (Z.to_nat i) arr) todo)))
      (destroy_pixmaps arr i todo).
Proof.
  induction todo as [| todo IH]; intros i Hi s u s' H.
  - simpl in H. unfold ret in H. injection H as _ <-.
    destruct (drop (Z.to_nat i) arr); apply calls_only_refl.
  - simpl in H. apply bind_inv in H. destruct H as (slot & s1 & H1 & H).
    apply array_get_inv in H1. destruct H1 as (-> & _ & Hslot).
    rewrite (drop_S _ _ _ Hslot).
    destruct slot as [pix |].
    + simpl released_slots.
      change (release_calls (pix :: ?l))
        with ([EvDeregisterExternalAccess pix] ++ [EvDestroyPixmap pix] ++ release_calls l).
      revert H. apply calls_bind; [ apply Deregister_calls | intros _ ].
      apply calls_bind; [ apply DestroyPixmap_calls | intros _ ].
      replace (S (Z.to_nat i)) with (Z.to_nat (i + 1)) by lia.
      apply IH. lia.
    + unfold ret in H. injection H as _ <-. apply calls_only_refl.
Qed.

Lemma update_cmd_inv c f s u s1 :
  update_cmd c f s = Some (u, s1) ->
  exists r, cmds s !! c = Some r /\ s1 = upd_cmds (insert c (f r)) s.
Proof.
  unfold update_cmd. intros H. apply bind_inv in H. destruct H as (r & s0 & H1 & H2).
  unfold load_cmd in H1. destruct (cmds s !! c) as [r0 |]; [ | discriminate ].
  simpl in H1. injection H1 as Hr Hs. subst r0 s0.
  unfold modify in H2. injection H2 as _ Hs. subst s1.
  exists r. split; reflexivity.
Qed.

Lemma load_cmd_inv c s r s1 :
  load_cmd c s = Some (r, s1) -> s1 = s /\ cmds s !! c = Some r.
Proof.
  unfold load_cmd. destruct (cmds s !! c) as [r0 |]; [ | discriminate ].
  simpl. intros H. injection H as -> ->. split; reflexivity.
Qed.




(** ** The properties of the swap protocol *)

(** C10: when ARMSOCDRI2ScheduleSwap cannot allocate its command record it
    answers FALSE and leaves the state as it found it: no reference count
    of a buffer or of a memory object moved, the in-flight counter is the
    same, and no call went out (no flip request, no copy). *)
Theorem ScheduleSwap_alloc_failure cfg env cl d dst src fn dt s :
  env_calloc env = false ->
  ARMSOCDRI2ScheduleSwap cfg env cl d dst src fn dt s = Some (false, s).
Proof.
  intros H. unfold ARMSOCDRI2ScheduleSwap. rewrite H. reflexivity.
Qed.

Lemma ScheduleSwap_alloc_failure_witness :
  ARMSOCDRI2ScheduleSwap (ex_cfg true)
    {| env_calloc := false; env_array := true; env_CreatePixmap := None;
       env_add_fb := None; env_page_flip := 1; env_GetScratchGC := true |}
    55 ex_win 2%nat 5%nat 66 77 ex_state
  = Some (false, ex_state).
Proof.
  apply (ScheduleSwap_alloc_failure (ex_cfg true)). reflexivity.
Defined.

(** C3: ARMSOCDRI2ScheduleSwap takes its flip branch exactly when [do_flip]
    is true, and [do_flip] is true exactly when the memory objects behind
    the source and the destination buffer both have a framebuffer, the
    drawable is flip-eligible (flipping not disabled, a window, flip-capable
    for the DRI2 core) and the two memory objects have the same width and
    the same height; a difference in width or height gives the blit
    branch. *)
Theorem ScheduleSwap_do_flip cfg env cl d dst src fn dt s
  bs bd ps pd xs xd os od rs rd :
  swap_heap s src dst bs bd ps pd xs xd os od rs rd ->
  env_calloc env = true ->
  exists cmd flip s1,
    ScheduleSwap_prepare cfg cl d dst src fn dt s
    = Some ((cmd, bo_fb_id rs, flip), s1) /\
    ARMSOCDRI2ScheduleSwap cfg env cl d dst src fn dt s
    = (if flip then ScheduleSwap_flip cfg env d cmd (bo_fb_id rs)
       else ScheduleSwap_blit cfg env d dst src cmd) s1 /\
    (flip = true <->
       (bo_fb_id rs <> 0 /\ bo_fb_id rd <> 0) /\
       flip_eligible cfg d /\
       (bo_width rs = bo_width rd /\ bo_height rs = bo_height rd)) /\
    (bo_width rs <> bo_width rd \/ bo_height rs <> bo_height rd -> flip = false).
Proof.
  intros Hheap Hc.
  pose proof (prepare_run cfg cl d dst src fn dt s _ _ _ _ _ _ _ _ _ _ Hheap) as Hp.
  eexists _, _, _. split; [ exact Hp | ]. split.
  - unfold ARMSOCDRI2ScheduleSwap. rewrite Hc. simpl negb. cbv iota.
    eapply bind_run; [ exact Hp | reflexivity ].
  - split.
    + rewrite do_flip_true, canflip_true. tauto.
    + intros Hne.
      destruct (do_flip _ _ _ _ _ _ _) eqn:E; [ | reflexivity ].
      apply do_flip_true in E. lia.
Qed.

Lemma ScheduleSwap_do_flip_witness :
  exists cmd flip s1,
    ScheduleSwap_prepare (ex_cfg true) 55 ex_win 2%nat 5%nat 66 77 ex_state
    = Some ((cmd, bo_fb_id ex_back_bo, flip), s1) /\
    ARMSOCDRI2ScheduleSwap (ex_cfg true) (ex_env 1) 55 ex_win 2%nat 5%nat 66 77 ex_state
    = (if flip then ScheduleSwap_flip (ex_cfg true) (ex_env 1) ex_win cmd (bo_fb_id ex_back_bo)
       else ScheduleSwap_blit (ex_cfg true) (ex_env 1) ex_win 2%nat 5%nat cmd) s1 /\
    (flip = true <->
       (bo_fb_id ex_back_bo <> 0 /\ bo_fb_id ex_front_bo <> 0) /\
       flip_eligible (ex_cfg true) ex_win /\
       (bo_width ex_back_bo = bo_width ex_front_bo /\
        bo_height ex_back_bo = bo_height ex_front_bo)) /\
    (bo_width ex_back_bo <> bo_width ex_front_bo \/
     bo_height ex_back_bo <> bo_height ex_front_bo -> flip = false).
Proof.
  apply (ScheduleSwap_do_flip (ex_cfg true) (ex_env 1) 55 ex_win 2%nat 5%nat 66 77
           ex_state ex_back ex_front 4%nat 1%nat ex_back_pix ex_front_pix
           3%nat 0%nat ex_back_bo ex_front_bo).
  - exact ex_heap.
  - reflexivity.
Defined.

(** C4, as the code has it: when the flip issuer answers a negative [r], the
    command is flagged ARMSOC_SWAP_FAIL and ARMSOCDRI2ScheduleSwap answers
    FALSE.  The command goes through ARMSOCDRI2SwapComplete at once when
    page-flip events are not in use or [r = -1], and otherwise once the
    [-(r + 1)] events of the flips that were queued have come in; until
    then it holds its references and counts as in flight.  Its completion
    exchanges nothing, tells the client nothing and publishes nothing
    (buffers, pixmaps, scanout as before the schedule, and only the flush
    and the flip request went out), gives back the extra reference on each
    buffer and on each memory object, and counts the flip out. *)
Theorem failed_flip_completion cfg env cl d dst src fn dt s
  bs bd ps pd xs xd os od rs rd :
  swap_heap s src dst bs bd ps pd xs xd os od rs rd ->
  refs_in_range bs bd rs rd ->
  - 2 ^ 31 <= pending_flips s < INT_MAX ->
  env_calloc env = true ->
  do_flip (bo_fb_id rs) (bo_fb_id rd) (canflip cfg d)
    (bo_width rs) (bo_width rd) (bo_height rs) (bo_height rd) = true ->
  - 2 ^ 31 <= env_page_flip env < 0 ->
  let cmd := next_addr s in
  let n := if use_page_flip_events cfg then - (env_page_flip env + 1) else 0 in
  exists sm c s1 s2,
    cmds sm !! cmd = Some c /\
    Z.land (flags c) ARMSOC_SWAP_FAIL <> 0 /\
    swapCount c = n /\
    ARMSOCDRI2ScheduleSwap cfg env cl d dst src fn dt s
    = ((if n =? 0 then ARMSOCDRI2SwapComplete cfg env cmd else ret tt) ;;
       ret false) sm /\
    ARMSOCDRI2ScheduleSwap cfg env cl d dst src fn dt s = Some (false, s1) /\
    (0 < n ->
       cmds s1 !! cmd = Some c /\
       pending_flips s1 = pending_flips s + 1 /\
       buffers s1 !! src = Some (buf_ref bs) /\
       buffers s1 !! dst = Some (buf_ref bd)) /\
    flip_events cfg env cmd (Z.to_nat n) s1 = Some (tt, s2) /\
    cmds s2 !! cmd = None /\
    buffers s2 = buffers s /\ bos s2 = bos s /\ pixmaps s2 = pixmaps s /\
    pending_flips s2 = pending_flips s /\
    scanout s2 = scanout s /\
    trace s2 = trace s ++ [EvPendingDeletions; EvPageFlip (d_id d) (bo_fb_id rs) cmd].
Proof.
  intros Hheap Hrange Hpend Hcalloc Hflip Hr cmd n.
  pose proof (ScheduleSwap_branch cfg env cl d dst src fn dt s _ _ _ _ _ _ _ _ _ _
                Hheap Hcalloc) as Hsched.
  rewrite Hflip in Hsched.
  set (c0 := new_cmd cl d dst src fn dt) in *.
  set (s0 := prepared c0 src dst os od bs bd rs rd s) in *.
  assert (Hc0 : cmds s0 !! cmd = Some c0) by apply lookup_insert_eq.
  destruct (flip_issue_failed cfg env d cmd (bo_fb_id rs) c0 s0 Hc0 (proj2 Hr))
    as (sm & Hissue & Hsm).
  rewrite failed_flip_events_value in Hissue, Hsm by exact Hr.
  fold n in Hissue, Hsm.
  set (c := flagged_cmd c0 ARMSOC_SWAP_FAIL n) in *.
  assert (Hc : cmds sm !! cmd = Some c).
  { rewrite (cc_cmds _ _ _ _ _ Hsm). apply lookup_insert_eq. }
  assert (Hheapm : swap_heap sm src dst (buf_ref bs) (buf_ref bd) ps pd xs xd os od
                     (bo_ref rs) (bo_ref rd)).
  { eapply cmd_changed_heap; [ exact Hsm | ]. apply prepared_heap. exact Hheap. }
  pose proof (refs_held _ _ _ _ Hrange) as Hheld.
  assert (Hfail : Z.land (flags c) ARMSOC_SWAP_FAIL <> 0) by (simpl; discriminate).
  assert (Hnotice : completion_notice c sm = []).
  { unfold completion_notice.
    destruct (Z.land (flags c) ARMSOC_SWAP_FAIL =? 0) eqn:E; [ lia | reflexivity ]. }
  assert (Hn : 0 <= n <= INT_MAX).
  { unfold n, INT_MAX. destruct (use_page_flip_events cfg); lia. }
  assert (Hdone : exists s1 s2,
    ((if n =? 0 then ARMSOCDRI2SwapComplete cfg env cmd else ret tt) ;; ret false) sm
    = Some (false, s1) /\
    (0 < n -> s1 = sm) /\
    flip_events cfg env cmd (Z.to_nat n) s1 = Some (tt, s2) /\
    completion_effect cmd src dst os od (buf_ref bs) (buf_ref bd) (bo_ref rs) (bo_ref rd)
      [] sm s2).
  { destruct (n =? 0) eqn:E.
    - assert (n = 0) as Hn0 by lia.
      destruct (held_counts _ _ _ _ Hheld) as (? & ? & ? & ?).
      eexists _, _. split; [ | split; [ | split ] ].
      + eapply bind_run; [ | reflexivity ].
        eapply (SwapComplete_plain cfg env cmd c sm); eauto.
        simpl. rewrite Hn0. rewrite to_int_id by (unfold INT_MAX; lia). lia.
      + lia.
      + rewrite Hn0. reflexivity.
      + rewrite Hnotice. apply released_effect.
    - destruct (Z.to_nat n) as [| k] eqn:K; [ lia | ].
      destruct (flip_events_plain cfg env cmd src dst (buf_ref bs) (buf_ref bd)
                  ps pd xs xd os od (bo_ref rs) (bo_ref rd) k sm c
                  Hc eq_refl eq_refl) as (s2 & Hrun & Heff); eauto.
      + simpl. lia.
      + lia.
      + exists sm, s2. split; [ reflexivity | ]. split; [ reflexivity | ].
        split; [ exact Hrun | ]. rewrite Hnotice in Heff. exact Heff. }
  destruct Hdone as (s1 & s2 & Hrun1 & Hwait & Hrun2 & Heff).
  destruct (prepared_then_released c0 c cmd _ _ s sm s2 src dst _ _ _ _ _ _ _ _ _ _
              Hheap Hrange Hpend Hsm Heff)
    as (Hcmds & Hbufs & Hbos & Hpix & _ & Hpf & Hscan & Htrace).
  exists sm, c, s1, s2.
  split; [ exact Hc | ]. split; [ exact Hfail | ]. split; [ reflexivity | ].
  split; [ rewrite Hsched; exact Hissue | ].
  split; [ rewrite Hsched; etransitivity; [ exact Hissue | exact Hrun1 ] | ].
  split.
  { intros Hpos. rewrite (Hwait Hpos). split; [ exact Hc | ].
    destruct Hsm. rewrite cc_pending0, cc_buffers0. simpl.
    destruct Hheap. unfold INT_MAX in *.
    split; [ apply to_int_id; unfold INT_MAX; lia | ].
    split; lookups. }
  split; [ exact Hrun2 | ].
  rewrite app_nil_r in Htrace. tauto.
Qed.

Lemma failed_flip_completion_witness :
  exists s1 s2,
    ARMSOCDRI2ScheduleSwap (ex_cfg true) (ex_env (-2)) 55 ex_win 2%nat 5%nat 66 77 ex_state
    = Some (false, s1) /\
    flip_events (ex_cfg true) (ex_env (-2)) 6%nat 1 s1 = Some (tt, s2) /\
    buffers s2 = buffers ex_state /\ bos s2 = bos ex_state /\
    pending_flips s2 = pending_flips ex_state.
Proof.
  destruct (failed_flip_completion (ex_cfg true) (ex_env (-2)) 55 ex_win 2%nat 5%nat
              66 77 ex_state ex_back ex_front 4%nat 1%nat ex_back_pix ex_front_pix
              3%nat 0%nat ex_back_bo ex_front_bo)
    as (sm & c & s1 & s2 & _ & _ & _ & _ & H1 & _ & H2 & _ & H3 & H4 & _ & H5 & _).
  - exact ex_heap.
  - vm_compute. intuition discriminate.
  - vm_compute. intuition discriminate.
  - reflexivity.
  - reflexivity.
  - vm_compute. intuition discriminate.
  - exists s1, s2. repeat split; assumption.
Defined.

(** C4 as stated fails: with page-flip events in use and the answer [-2] of
    the flip issuer, ARMSOCDRI2ScheduleSwap returns with the failed command
    still waiting for one event; the flip is still counted as in flight and
    both buffers still carry the extra reference. *)
Lemma failed_flip_not_immediate :
  exists s1 c,
    ARMSOCDRI2ScheduleSwap (ex_cfg true) (ex_env (-2)) 55 ex_win 2%nat 5%nat 66 77 ex_state
    = Some (false, s1) /\
    cmds s1 !! 6%nat = Some c /\
    Z.land (flags c) ARMSOC_SWAP_FAIL <> 0 /\
    swapCount c = 1 /\
    pending_flips s1 = pending_flips ex_state + 1 /\
    (refcnt <$> buffers s1 !! 5%nat) = Some (refcnt ex_back + 1) /\
    (refcnt <$> buffers s1 !! 2%nat) = Some (refcnt ex_front + 1).
Proof.
  eexists _, _. split; [ vm_compute; reflexivity | ].
  split; [ vm_compute; reflexivity | ].
  vm_compute. intuition discriminate.
Qed.

(** C2, as the code has it: when the flip issuer answers [0], the command is
    flagged ARMSOC_SWAP_FAKE_FLIP and goes through ARMSOCDRI2SwapComplete
    inside ARMSOCDRI2ScheduleSwap, which answers TRUE.  That completion
    tells the client (kind Flip) when the drawable id resolves and gives
    back what the schedule took, but it exchanges nothing, advances no ring
    and publishes nothing: every buffer record (name, slots, current slot),
    every pixmap and the scanout object are as before the schedule. *)
Theorem synthetic_flip_completion cfg env cl d dst src fn dt s
  bs bd ps pd xs xd os od rs rd :
  swap_heap s src dst bs bd ps pd xs xd os od rs rd ->
  refs_in_range bs bd rs rd ->
  - 2 ^ 31 <= pending_flips s < INT_MAX ->
  env_calloc env = true ->
  do_flip (bo_fb_id rs) (bo_fb_id rd) (canflip cfg d)
    (bo_width rs) (bo_width rd) (bo_height rs) (bo_height rd) = true ->
  env_page_flip env = 0 ->
  let cmd := next_addr s in
  exists sm c s',
    cmds sm !! cmd = Some c /\
    Z.land (flags c) ARMSOC_SWAP_FAKE_FLIP <> 0 /\
    type c = DRI2_FLIP_COMPLETE /\
    ARMSOCDRI2ScheduleSwap cfg env cl d dst src fn dt s
    = (ARMSOCDRI2SwapComplete cfg env cmd ;; ret true) sm /\
    ARMSOCDRI2ScheduleSwap cfg env cl d dst src fn dt s = Some (true, s') /\
    cmds s' !! cmd = None /\
    buffers s' = buffers s /\ bos s' = bos s /\ pixmaps s' = pixmaps s /\
    pending_flips s' = pending_flips s /\
    scanout s' = scanout s /\
    trace s' = trace s
               ++ [EvPendingDeletions; EvPageFlip (d_id d) (bo_fb_id rs) cmd]
               ++ match drawables s !! d_id d with
                  | Some d' => [EvDRI2SwapComplete cl (d_id d') DRI2_FLIP_COMPLETE fn dt]
                  | None => []
                  end.
Proof.
  intros Hheap Hrange Hpend Hcalloc Hflip Hr cmd.
  pose proof (ScheduleSwap_branch cfg env cl d dst src fn dt s _ _ _ _ _ _ _ _ _ _
                Hheap Hcalloc) as Hsched.
  rewrite Hflip in Hsched.
  set (c0 := new_cmd cl d dst src fn dt) in *.
  set (s0 := prepared c0 src dst os od bs bd rs rd s) in *.
  assert (Hc0 : cmds s0 !! cmd = Some c0) by apply lookup_insert_eq.
  destruct (flip_issue_fake cfg env d cmd (bo_fb_id rs) c0 s0 Hc0 Hr)
    as (sm & Hissue & Hsm).
  set (c := flagged_cmd c0 ARMSOC_SWAP_FAKE_FLIP 0) in *.
  assert (Hc : cmds sm !! cmd = Some c).
  { rewrite (cc_cmds _ _ _ _ _ Hsm). apply lookup_insert_eq. }
  assert (Hheapm : swap_heap sm src dst (buf_ref bs) (buf_ref bd) ps pd xs xd os od
                     (bo_ref rs) (bo_ref rd)).
  { eapply cmd_changed_heap; [ exact Hsm | ]. apply prepared_heap. exact Hheap. }
  pose proof (refs_held _ _ _ _ Hrange) as Hheld.
  destruct (held_counts _ _ _ _ Hheld) as (? & ? & ? & ?).
  assert (Hrun : ARMSOCDRI2SwapComplete cfg env cmd sm
                 = Some (tt, released cmd src dst os od (buf_ref bs) (buf_ref bd)
                               (bo_ref rs) (bo_ref rd) c (completion_notice c sm) sm)).
  { apply (SwapComplete_plain cfg env cmd c sm (buf_ref bs) (buf_ref bd) ps pd xs xd
             os od (bo_ref rs) (bo_ref rd) Hc); try assumption.
    - simpl. rewrite to_int_id by (unfold INT_MAX; lia). lia.
    - right. right. reflexivity. }
  pose proof (released_effect cmd src dst os od (buf_ref bs) (buf_ref bd)
                (bo_ref rs) (bo_ref rd) c (completion_notice c sm) sm) as Heff.
  destruct (prepared_then_released c0 c cmd _ _ s sm _ src dst _ _ _ _ _ _ _ _ _ _
              Hheap Hrange Hpend Hsm Heff)
    as (Hcmds & Hbufs & Hbos & Hpix & _ & Hpf & Hscan & Htrace).
  eexists sm, c, _.
  split; [ exact Hc | ]. split; [ simpl; discriminate | ]. split; [ reflexivity | ].
  split; [ rewrite Hsched; exact Hissue | ].
  split.
  { rewrite Hsched. etransitivity; [ exact Hissue | ].
    eapply bind_run; [ exact Hrun | reflexivity ]. }
  split; [ exact Hcmds | ]. split; [ exact Hbufs | ]. split; [ exact Hbos | ].
  split; [ exact Hpix | ]. split; [ exact Hpf | ]. split; [ exact Hscan | ].
  rewrite Htrace. unfold completion_notice. simpl.
  rewrite (cc_drawables _ _ _ _ _ Hsm). simpl. reflexivity.
Qed.

Lemma synthetic_flip_completion_witness :
  exists s',
    ARMSOCDRI2ScheduleSwap (ex_cfg true) (ex_env 0) 55 ex_win 2%nat 5%nat 66 77 ex_state
    = Some (true, s') /\
    buffers s' = buffers ex_state /\ pixmaps s' = pixmaps ex_state /\
    scanout s' = scanout ex_state /\
    trace s' = [EvPendingDeletions; EvPageFlip 100 9 6%nat;
                EvDRI2SwapComplete 55 100 DRI2_FLIP_COMPLETE 66 77].
Proof.
  destruct (synthetic_flip_completion (ex_cfg true) (ex_env 0) 55 ex_win 2%nat 5%nat
              66 77 ex_state ex_back ex_front 4%nat 1%nat ex_back_pix ex_front_pix
              3%nat 0%nat ex_back_bo ex_front_bo)
    as (sm & c & s' & _ & _ & _ & _ & H1 & _ & H2 & _ & H3 & _ & H4 & H5).
  - exact ex_heap.
  - vm_compute. intuition discriminate.
  - vm_compute. intuition discriminate.
  - reflexivity.
  - reflexivity.
  - reflexivity.
  - exists s'. repeat split; assumption.
Defined.

(** C2 as stated fails: on the example screen a flip for which the flip
    issuer answers [0] completes inside the schedule, and afterwards the
    back buffer still has its name and its current slot, the front buffer
    its name, and the two pixmaps their memory objects, where a real flip
    (answer [1], events not in use) gives the front buffer the name of the
    back buffer, exchanges the memory objects, moves the back buffer to its
    next slot and publishes the new scanout object. *)
Lemma synthetic_flip_no_exchange :
  (exists s',
     ARMSOCDRI2ScheduleSwap (ex_cfg false) (ex_env 0) 55 ex_win 2%nat 5%nat 66 77 ex_state
     = Some (true, s') /\
     cmds s' = ∅ /\
     ((fun r => (name r, currentPixmap r)) <$> buffers s' !! 5%nat) = Some (1001, 0) /\
     (name <$> buffers s' !! 2%nat) = Some 1000 /\
     (pix_bo <$> pixmaps s' !! 4%nat) = Some (Some 3%nat) /\
     (pix_bo <$> pixmaps s' !! 1%nat) = Some (Some 0%nat) /\
     scanout s' = Some 0%nat) /\
  (exists s',
     ARMSOCDRI2ScheduleSwap (ex_cfg false) (ex_env 1) 55 ex_win 2%nat 5%nat 66 77 ex_state
     = Some (true, s') /\
     cmds s' = ∅ /\
     (currentPixmap <$> buffers s' !! 5%nat) = Some 1 /\
     (name <$> buffers s' !! 2%nat) = Some 1001 /\
     (pix_bo <$> pixmaps s' !! 4%nat) = Some (Some 0%nat) /\
     (pix_bo <$> pixmaps s' !! 1%nat) = Some (Some 3%nat) /\
     scanout s' = Some 3%nat).
Proof.
  split; eexists; (split; [ vm_compute; reflexivity | ]);
    vm_compute; repeat split; reflexivity.
Qed.


Lemma ex_gone_heap :
  swap_heap ex_gone 5%nat 2%nat (buf_ref ex_back) (buf_ref ex_front) 4%nat 1%nat
    ex_back_pix ex_front_pix 3%nat 0%nat (bo_ref ex_back_bo) (bo_ref ex_front_bo).
Proof.
  constructor; try reflexivity; try (simpl; lia); try discriminate.
  - exists 4%nat. split; [ reflexivity | eexists; reflexivity ].
  - exists 1%nat. split; [ reflexivity | eexists; reflexivity ].
Qed.

Lemma ex_gone_last_reached :
  run (ex_cfg true)
    [ (ex_env 1, OpDestroyBuffer None 5%nat); (ex_env 1, OpDestroyBuffer None 2%nat) ]
    ex_gone
  = Some ex_gone_last.
Proof. vm_compute. reflexivity. Qed.




(** C6: an advance of the ring of a buffer on a screen configured for more
    than double buffering goes to slot [(currentPixmap + 1) mod numPixmaps].
    When that slot holds a pixmap, the advance makes it current and
    publishes the name of its memory object, and changes nothing else: no
    allocation.  So [n] advances through a ring of depth K whose slots are
    all allocated end at slot [(currentPixmap + n) mod K], with the ring as
    it was.  When the slot is empty, it is not slot 0, and when the
    allocation for it fails, [currentPixmap] is back at the slot before and
    [numPixmaps] is cut down to [currentPixmap + 1]. *)
Theorem nextBuffer_ring_advance cfg env d b r s :
  2 < driNumBufs cfg ->
  buffers s !! b = Some r ->
  ring_ok r ->
  (forall pix px bo rb,
     pPixmaps r !! Z.to_nat (next_slot r) = Some (Some pix) ->
     pixmaps s !! pix = Some px -> pix_bo px = Some bo -> bos s !! bo = Some rb ->
     nextBuffer cfg env d b s
     = Some (tt, upd_buffers
                   (insert b (set_name (bo_name rb)
                                (set_currentPixmap
                                   ((currentPixmap r + 1) mod numPixmaps r) r))) s)) /\
  (ring_full s r ->
   forall n, exists r',
     nextBuffer_n cfg env d b n s = Some (tt, upd_buffers (insert b r') s) /\
     currentPixmap r' = (currentPixmap r + Z.of_nat n) mod numPixmaps r /\
     numPixmaps r' = numPixmaps r /\ pPixmaps r' = pPixmaps r) /\
  (pPixmaps r !! Z.to_nat ((currentPixmap r + 1) mod numPixmaps r) = Some None ->
   0 < (currentPixmap r + 1) mod numPixmaps r /\
   (alloc_fails env ->
    exists s' r',
      nextBuffer cfg env d b s = Some (tt, s') /\
      buffers s' !! b = Some r' /\
      currentPixmap r' = currentPixmap r /\
      numPixmaps r' = currentPixmap r + 1 /\
      numPixmaps r' < numPixmaps r)).
Proof.
  intros Hn Hb Hok. split; [ | split ].
  - intros pix px bo rb Hslot Hpix Hbo Hrb.
    exact (nextBuffer_reuse cfg env d b r s pix px bo rb Hn Hb Hok Hslot Hpix Hbo Hrb).
  - intros Hfull n. exact (nextBuffer_laps cfg env d b n Hn s r Hb Hok Hfull).
  - intros Hslot. split.
    + destruct (Z.eq_dec ((currentPixmap r + 1) mod numPixmaps r) 0) as [Hz | Hz].
      * destruct Hok as (_ & _ & _ & (p0 & Hp0)).
        rewrite Hz in Hslot. change (Z.to_nat 0) with 0%nat in Hslot.
        rewrite Hp0 in Hslot. discriminate.
      * pose proof (next_slot_range r Hok). unfold next_slot in *. lia.
    + intros Hfail.
      destruct (nextBuffer_fails cfg env d b r s Hn Hb Hok Hslot Hfail)
        as (_ & Hlt & s' & Hrun & Hbufs & _).
      exists s', (set_numPixmaps (currentPixmap r + 1) r).
      split; [ exact Hrun | ]. split; [ rewrite Hbufs; apply lookup_insert_eq | ].
      simpl. repeat split; try reflexivity. exact Hlt.
Qed.

Lemma ex_full_ring : ring_full ex_full ex_back_full.
Proof.
  intros i Hi. simpl in Hi.
  assert (i = 0 \/ i = 1) as [-> | ->] by lia.
  - exists 4%nat, ex_back_pix, 3%nat, ex_back_bo. repeat split; reflexivity.
  - exists 7%nat, ex_second_pix, 6%nat, ex_second_bo. repeat split; reflexivity.
Qed.

Lemma nextBuffer_ring_advance_witness :
  (exists r',
     nextBuffer_n (ex_cfg true) (ex_env 1) ex_win 5%nat 3 ex_full
     = Some (tt, upd_buffers (insert 5%nat r') ex_full) /\
     currentPixmap r' = 1 /\ numPixmaps r' = 2) /\
  (exists s' r',
     nextBuffer (ex_cfg true) ex_env_nomem ex_win 5%nat ex_state = Some (tt, s') /\
     buffers s' !! 5%nat = Some r' /\ currentPixmap r' = 0 /\ numPixmaps r' = 1).
Proof.
  split.
  - destruct (nextBuffer_ring_advance (ex_cfg true) (ex_env 1) ex_win 5%nat
                ex_back_full ex_full) as (_ & Hlap & _).
    + reflexivity.
    + reflexivity.
    + repeat split; try (simpl; lia); try (vm_compute; intuition discriminate).
      exists 4%nat. reflexivity.
    + destruct (Hlap ex_full_ring 3%nat) as (r' & Hrun & Hcur & Hnum & _).
      exists r'. repeat split; assumption.
  - destruct (nextBuffer_ring_advance (ex_cfg true) ex_env_nomem ex_win 5%nat
                ex_back ex_state) as (_ & _ & Hfail).
    + reflexivity.
    + reflexivity.
    + repeat split; try (simpl; lia); try (vm_compute; intuition discriminate).
      exists 4%nat. reflexivity.
    + destruct (Hfail eq_refl) as (_ & Hf).
      destruct (Hf I) as (s' & r' & Hrun & Hb & Hcur & Hnum & _).
      exists s', r'. repeat split; assumption.
Defined.



(** C7: the number of slots in use of a ring never grows.  A new buffer
    record starts with [driNumBufs - 1] slots when it is a back buffer on a
    screen configured for more than double buffering and with 1 otherwise,
    at slot 0.  Along every run of the driver's entry points from a state
    without buffer records, the current slot of every record lies below its
    number of slots, and a record found again later in the run has no more
    slots than before, with its current slot still below their number. *)
Theorem ring_depth_never_grows cfg :
  driNumBufs cfg <= UINT_MAX ->
  (forall env d att fmt s b s',
     ARMSOCDRI2CreateBuffer cfg env d att fmt s = Some (Some b, s') ->
     exists r,
       buffers s' !! b = Some r /\ currentPixmap r = 0 /\
       numPixmaps r = (if (att =? DRI2BufferBackLeft) && (2 <? driNumBufs cfg)
                       then driNumBufs cfg - 1 else 1)) /\
  (forall steps1 steps2 s0 s1 s2,
     buffers s0 = ∅ ->
     run cfg steps1 s0 = Some s1 ->
     run cfg steps2 s1 = Some s2 ->
     forall b r1,
       buffers s1 !! b = Some r1 ->
       0 <= currentPixmap r1 < numPixmaps r1 /\
       forall r2,
         buffers s2 !! b = Some r2 ->
         numPixmaps r2 <= numPixmaps r1 /\ 0 <= currentPixmap r2 < numPixmaps r2).
Proof.
  intros Hcfg. split.
  - intros env d att fmt s b s' H.
    destruct (CreateBuffer_cases cfg env d att fmt s (Some b) s' Hcfg H)
      as [[Hn _] | (b' & r & Hb & _ & Hbuf & _ & Hcur & Hnum & _)];
      [ discriminate | ].
    inversion Hb. subst b'. exists r.
    split; [ rewrite Hbuf; apply lookup_insert_eq | ].
    split; [ exact Hcur | exact Hnum ].
  - intros steps1 steps2 s0 s1 s2 Hempty Hrun1 Hrun2 b r1 Hb1.
    assert (Hinv0 : state_inv s0).
    { intros b' r' H'. rewrite Hempty, lookup_empty in H'. discriminate. }
    pose proof (ring_step_run cfg steps1 Hcfg s0 s1 Hrun1) as Hstep1.
    pose proof (ring_step_run cfg steps2 Hcfg s1 s2 Hrun2) as Hstep2.
    pose proof (rs_inv _ _ Hstep1 Hinv0) as Hinv1.
    pose proof (rs_inv _ _ Hstep2 Hinv1) as Hinv2.
    split.
    + destruct (Hinv1 b r1 Hb1) as [_ (Hc & _)]. exact Hc.
    + intros r2 Hb2. split.
      * exact (rs_mono _ _ Hstep2 Hinv1 b r1 r2 Hb1 Hb2).
      * destruct (Hinv2 b r2 Hb2) as [_ (Hc & _)]. exact Hc.
Qed.

Lemma ring_depth_never_grows_witness :
  exists s1 s2 r1 r2,
    run (ex_cfg false)
      [ (ex_env 0, OpCreateBuffer ex_win DRI2BufferFrontLeft 0);
        (ex_env 0, OpCreateBuffer ex_win DRI2BufferBackLeft 0) ] ex_init = Some s1 /\
    run (ex_cfg false)
      [ (ex_env_nomem, OpScheduleSwap 55 ex_win 2%nat 5%nat 66 77) ] s1 = Some s2 /\
    buffers s1 !! 5%nat = Some r1 /\ buffers s2 !! 5%nat = Some r2 /\
    numPixmaps r1 = 2 /\ numPixmaps r2 = 1 /\
    numPixmaps r2 <= numPixmaps r1 /\ 0 <= currentPixmap r2 < numPixmaps r2.
Proof.
  eexists _, _, _, _.
  split; [ vm_compute; reflexivity | ].
  split; [ vm_compute; reflexivity | ].
  split; [ vm_compute; reflexivity | ].
  split; [ vm_compute; reflexivity | ].
  split; [ reflexivity | ]. split; [ reflexivity | ].
  destruct (ring_depth_never_grows (ex_cfg false)) as [_ Hrun].
  { vm_compute. discriminate. }
  refine (proj2 (Hrun
            [ (ex_env 0, OpCreateBuffer ex_win DRI2BufferFrontLeft 0);
              (ex_env 0, OpCreateBuffer ex_win DRI2BufferBackLeft 0) ]
            [ (ex_env_nomem, OpScheduleSwap 55 ex_win 2%nat 5%nat 66 77) ]
            ex_init _ _ eq_refl _ _ 5%nat _ _) _ _).
  - vm_compute. reflexivity.
  - vm_compute. reflexivity.
  - vm_compute. reflexivity.
  - vm_compute. reflexivity.
Defined.

(** C1, as the code has it: a swap that ARMSOCDRI2ScheduleSwap accepts is
    completed once, within the call or when the last of the page-flip events
    it waits for has arrived, and until then the client is told nothing.  The
    completion calls DRI2SwapComplete once, with the command's client,
    drawable, kind, callback and data, when the swap is a blit or a flip that
    was issued (a synthetic flip included) and the drawable is still found
    under its id; after a failed flip, and for a drawable that is gone, it
    does not call it. *)
Theorem swap_notified_at_most_once cfg env cl d dst src fn dt s
    bs bd ps pd xs xd os od rs rd :
  swap_request cfg env d src dst s bs bd ps pd xs xd os od rs rd ->
  let flip := do_flip (bo_fb_id rs) (bo_fb_id rd) (canflip cfg d)
                (bo_width rs) (bo_width rd) (bo_height rs) (bo_height rd) in
  let r := env_page_flip env in
  let n := events_awaited cfg flip r in
  exists s1 s2,
    ARMSOCDRI2ScheduleSwap cfg env cl d dst src fn dt s
    = Some (negb (flip && (r <? 0)), s1) /\
    (0 < n -> is_Some (cmds s1 !! next_addr s) /\
              notifications (trace s1) = notifications (trace s)) /\
    flip_events cfg env (next_addr s) (Z.to_nat n) s1 = Some (tt, s2) /\
    cmds s2 !! next_addr s = None /\
    notifications (trace s2)
    = notifications (trace s) ++
      (if flip && (r <? 0) then []
       else match drawables s !! d_id d with
            | Some d' =>
                [EvDRI2SwapComplete cl (d_id d')
                   (if flip then DRI2_FLIP_COMPLETE else DRI2_BLIT_COMPLETE) fn dt]
            | None => []
            end).
Proof.
  intros Hreq flip r n.
  destruct (swap_runs cfg env cl d dst src fn dt s bs bd ps pd xs xd os od rs rd Hreq)
    as (s1 & s2 & Hrun & Hwait & Hev & Hdone).
  exists s1, s2. split; [ exact Hrun | ].
  split.
  - intros Hn. destruct (Hwait Hn) as (Hc & _ & _ & _ & Ht). split; assumption.
  - split; [ exact Hev | ]. split.
    + exact (ss_cmds _ _ _ _ _ _ _ _ _ _ _ _ _ Hdone).
    + exact (ss_notify _ _ _ _ _ _ _ _ _ _ _ _ _ Hdone).
Qed.

Lemma swap_notified_at_most_once_witness :
  exists s1 s2,
    ARMSOCDRI2ScheduleSwap (ex_cfg true) (ex_env 1) 55 ex_win 2%nat 5%nat 66 77 ex_state
    = Some (true, s1) /\
    notifications (trace s1) = [] /\
    flip_events (ex_cfg true) (ex_env 1) 6%nat 1 s1 = Some (tt, s2) /\
    cmds s2 !! 6%nat = None /\
    notifications (trace s2)
    = [EvDRI2SwapComplete 55 (d_id ex_win) DRI2_FLIP_COMPLETE 66 77].
Proof.
  assert (Hr : - 2 ^ 31 <= 1 <= INT_MAX) by (unfold INT_MAX; lia).
  destruct (swap_notified_at_most_once (ex_cfg true) (ex_env 1) 55 ex_win 2%nat 5%nat
              66 77 ex_state ex_back ex_front 4%nat 1%nat ex_back_pix ex_front_pix
              3%nat 0%nat ex_back_bo ex_front_bo (ex_request true 1 Hr))
    as (s1 & s2 & H1 & H2 & H3 & H4 & H5).
  exists s1, s2. split; [ exact H1 | ].
  split; [ apply H2; reflexivity | ].
  split; [ exact H3 | ]. split; [ exact H4 | exact H5 ].
Defined.

(** C1 as stated fails: on the example screen a flip that the flip issuer
    refuses is completed within ARMSOCDRI2ScheduleSwap, which reports failure
    and frees the command, and DRI2SwapComplete has not been called. *)
Lemma failed_flip_not_notified :
  exists s1,
    ARMSOCDRI2ScheduleSwap (ex_cfg false) (ex_env (-1)) 55 ex_win 2%nat 5%nat 66 77 ex_state
    = Some (false, s1) /\
    cmds s1 !! 6%nat = None /\
    notifications (trace s1) = [].
Proof.
  eexists. split; [ vm_compute; reflexivity | ].
  split; vm_compute; reflexivity.
Qed.

(** C8: the references of a swap are paired.  The first stretch of
    ARMSOCDRI2ScheduleSwap adds one reference to each of the two buffers and
    to each of their memory objects; while the command waits for page-flip
    events both buffers still carry it; and once the command has completed,
    within the call or at the last awaited event, on whichever path, the
    reference counts of both buffers and of both memory objects are what they
    were before the call. *)
Theorem swap_references_paired cfg env cl d dst src fn dt s
    bs bd ps pd xs xd os od rs rd :
  swap_request cfg env d src dst s bs bd ps pd xs xd os od rs rd ->
  let flip := do_flip (bo_fb_id rs) (bo_fb_id rd) (canflip cfg d)
                (bo_width rs) (bo_width rd) (bo_height rs) (bo_height rd) in
  let n := events_awaited cfg flip (env_page_flip env) in
  (exists s0,
     ScheduleSwap_prepare cfg cl d dst src fn dt s
     = Some ((next_addr s, bo_fb_id rs, flip), s0) /\
     (refcnt <$> buffers s0 !! src) = Some (refcnt bs + 1) /\
     (refcnt <$> buffers s0 !! dst) = Some (refcnt bd + 1) /\
     (bo_refcnt <$> bos s0 !! os) = Some (bo_refcnt rs + 1) /\
     (bo_refcnt <$> bos s0 !! od) = Some (bo_refcnt rd + 1)) /\
  (exists s1 s2,
     ARMSOCDRI2ScheduleSwap cfg env cl d dst src fn dt s
     = Some (negb (flip && (env_page_flip env <? 0)), s1) /\
     (0 < n -> is_Some (cmds s1 !! next_addr s) /\
               (refcnt <$> buffers s1 !! src) = Some (refcnt bs + 1) /\
               (refcnt <$> buffers s1 !! dst) = Some (refcnt bd + 1)) /\
     flip_events cfg env (next_addr s) (Z.to_nat n) s1 = Some (tt, s2) /\
     cmds s2 !! next_addr s = None /\
     (refcnt <$> buffers s2 !! src) = Some (refcnt bs) /\
     (refcnt <$> buffers s2 !! dst) = Some (refcnt bd) /\
     (bo_refcnt <$> bos s2 !! os) = Some (bo_refcnt rs) /\
     (bo_refcnt <$> bos s2 !! od) = Some (bo_refcnt rd)).
Proof.
  intros Hreq flip n. split.
  - destruct Hreq as [Hheap (Hbs & Hbd & Hrs & Hrd) _ _ _ _ _].
    eexists. split; [ exact (prepare_run cfg cl d dst src fn dt s _ _ _ _ _ _ _ _ _ _ Hheap) | ].
    pose proof (prepared_heap (new_cmd cl d dst src fn dt) _ _ _ _ _ _ _ _ _ _ _ _ _ Hheap)
      as Hp.
    rewrite (sh_src _ _ _ _ _ _ _ _ _ _ _ _ _ Hp), (sh_dst _ _ _ _ _ _ _ _ _ _ _ _ _ Hp),
      (sh_src_obj _ _ _ _ _ _ _ _ _ _ _ _ _ Hp), (sh_dst_obj _ _ _ _ _ _ _ _ _ _ _ _ _ Hp).
    simpl. rewrite !to_int_id by (unfold INT_MAX in *; lia). auto.
  - destruct (swap_runs cfg env cl d dst src fn dt s bs bd ps pd xs xd os od rs rd Hreq)
      as (s1 & s2 & Hrun & Hwait & Hev & Hdone).
    exists s1, s2. split; [ exact Hrun | ].
    split.
    + intros Hn. destruct (Hwait Hn) as (Hc & Hs & Hd & _). auto.
    + split; [ exact Hev | ]. destruct Hdone. auto 10.
Qed.

Lemma swap_references_paired_witness :
  (exists s0,
     ScheduleSwap_prepare (ex_cfg true) 55 ex_win 2%nat 5%nat 66 77 ex_state
     = Some ((6%nat, bo_fb_id ex_back_bo, true), s0) /\
     (refcnt <$> buffers s0 !! 5%nat) = Some 2 /\
     (refcnt <$> buffers s0 !! 2%nat) = Some 2) /\
  (exists s1 s2,
     ARMSOCDRI2ScheduleSwap (ex_cfg true) (ex_env 1) 55 ex_win 2%nat 5%nat 66 77 ex_state
     = Some (true, s1) /\
     (refcnt <$> buffers s1 !! 5%nat) = Some 2 /\
     (refcnt <$> buffers s1 !! 2%nat) = Some 2 /\
     flip_events (ex_cfg true) (ex_env 1) 6%nat 1 s1 = Some (tt, s2) /\
     (refcnt <$> buffers s2 !! 5%nat) = Some 1 /\
     (refcnt <$> buffers s2 !! 2%nat) = Some 1).
Proof.
  assert (Hr : - 2 ^ 31 <= 1 <= INT_MAX) by (unfold INT_MAX; lia).
  destruct (swap_references_paired (ex_cfg true) (ex_env 1) 55 ex_win 2%nat 5%nat
              66 77 ex_state ex_back ex_front 4%nat 1%nat ex_back_pix ex_front_pix
              3%nat 0%nat ex_back_bo ex_front_bo (ex_request true 1 Hr))
    as [(s0 & Hp & Hs0 & Hd0 & _) (s1 & s2 & H1 & H2 & H3 & _ & Hs2 & Hd2 & _)].
  split.
  - exists s0. split; [ exact Hp | ]. split; [ exact Hs0 | exact Hd0 ].
  - destruct (H2 eq_refl) as (_ & Hs1 & Hd1).
    exists s1, s2. split; [ exact H1 | ].
    split; [ exact Hs1 | ]. split; [ exact Hd1 | ].
    split; [ exact H3 | ]. split; [ exact Hs2 | exact Hd2 ].
Defined.

(** ** Further properties of the driver *)

(** *** Flip events *)

Lemma set_swapCount_same c : set_swapCount (swapCount c) c = c.
Proof. destruct c; reflexivity. Qed.

(** X1: the page-flip events of a command that waits for more of them only
    count down.  Of a command that awaits [n] events, the first [k < n]
    leave everything as it is but the command's counter, which stands at
    [n - k]: nothing is exchanged, nobody is told, no reference is given
    back and the flip stays in flight. *)
Theorem flip_events_count_down cfg env cmd (k : nat) :
  forall s c,
    cmds s !! cmd = Some c ->
    Z.of_nat k < swapCount c <= INT_MAX ->
    flip_events cfg env cmd k s
    = Some (tt, upd_cmds (insert cmd (set_swapCount (swapCount c - Z.of_nat k) c)) s).
Proof.
  induction k as [| k IH]; intros s c Hc Hn.
  - simpl. rewrite Z.sub_0_r, set_swapCount_same, upd_cmds_insert_id by exact Hc.
    reflexivity.
  - change (flip_events cfg env cmd (S k) s)
      with ((ARMSOCDRI2SwapComplete cfg env cmd ;; flip_events cfg env cmd k) s).
    assert (Hstep : to_int (swapCount c - 1) = swapCount c - 1).
    { apply to_int_id. unfold INT_MAX in *. lia. }
    eapply bind_run; [ apply SwapComplete_early; [ exact Hc | lia ] | ].
    rewrite Hstep.
    rewrite (IH _ (set_swapCount (swapCount c - 1) c)).
    + rewrite upd_cmds_insert_twice. simpl.
      replace (swapCount c - 1 - Z.of_nat k) with (swapCount c - Z.of_nat (S k)) by lia.
      destruct c; reflexivity.
    + apply lookup_insert_eq.
    + simpl. lia.
Qed.

Lemma flip_events_count_down_witness :
  flip_events (ex_cfg true) (ex_env 3) 6%nat 2
    (upd_cmds (insert 6%nat (set_swapCount 3 ex_flip_cmd)) ex_flight)
  = Some (tt, upd_cmds (insert 6%nat (set_swapCount 1 ex_flip_cmd)) ex_flight).
Proof.
  rewrite (flip_events_count_down (ex_cfg true) (ex_env 3) 6%nat 2 _
             (set_swapCount 3 ex_flip_cmd)).
  - rewrite upd_cmds_insert_twice. reflexivity.
  - apply lookup_insert_eq.
  - vm_compute. intuition discriminate.
Defined.

(** *** The completion of a real flip *)






(** *** The fallback to a blit *)

Lemma dri2draw_exact d b r p s :
  buffers s !! b = Some r ->
  0 <= currentPixmap r ->
  pPixmaps r !! Z.to_nat (currentPixmap r) = Some (Some p) ->
  dri2draw d b s = Some (buf_drawable d r p, s).
Proof.
  intros Hb Hge Hcur. unfold dri2draw, buf_drawable.
  eapply bind_run; [ mrun | cbv beta ].
  destruct (attachment r =? DRI2BufferFrontLeft); [ reflexivity | ].
  do 2 (eapply bind_run; [ mrun | cbv beta ]). reflexivity.
Qed.

Lemma CopyRegion_exact env d dst src bs bd ps pd xs xd os od rs rd s :
  swap_heap s src dst bs bd ps pd xs xd os od rs rd ->
  ARMSOCDRI2CopyRegion env d dst src s
  = Some (tt, upd_trace (fun t => t ++ blit_calls env d bs bd ps pd) s).
Proof.
  intros []. unfold ARMSOCDRI2CopyRegion, blit_calls.
  eapply bind_run; [ apply (dri2draw_exact d src bs ps); assumption | cbv beta ].
  eapply bind_run; [ apply (dri2draw_exact d dst bd pd); assumption | cbv beta ].
  eapply bind_run.
  { unfold buf_drawable. destruct (attachment bd =? DRI2BufferFrontLeft);
      [ reflexivity | eapply bind_run; [ mrun | reflexivity ] ]. }
  cbv beta. destruct (env_GetScratchGC env); simpl.
  - reflexivity.
  - rewrite upd_trace_nil. reflexivity.
Qed.

(** X3: a swap that cannot flip is a copy.  When [do_flip] is false,
    ARMSOCDRI2ScheduleSwap copies the whole drawable from the source
    buffer's drawable to the destination buffer's (the window itself for
    the front buffer), tells the client of a blit when the drawable is
    found under its id, and answers TRUE, all within the call; the command
    is freed and the buffer records, pixmaps, memory objects, in-flight
    counter and scanout object are as before.  No flip is requested.  When
    no scratch GC is to be had nothing is copied, and the client is told of
    the blit all the same. *)
Theorem blit_swap cfg env cl d dst src fn dt s bs bd ps pd xs xd os od rs rd :
  swap_heap s src dst bs bd ps pd xs xd os od rs rd ->
  refs_in_range bs bd rs rd ->
  - 2 ^ 31 <= pending_flips s < INT_MAX ->
  env_calloc env = true ->
  do_flip (bo_fb_id rs) (bo_fb_id rd) (canflip cfg d)
    (bo_width rs) (bo_width rd) (bo_height rs) (bo_height rd) = false ->
  exists s',
    ARMSOCDRI2ScheduleSwap cfg env cl d dst src fn dt s = Some (true, s') /\
    cmds s' !! next_addr s = None /\
    buffers s' = buffers s /\ bos s' = bos s /\ pixmaps s' = pixmaps s /\
    pending_flips s' = pending_flips s /\
    scanout s' = scanout s /\
    trace s' = trace s
               ++ blit_calls env d bs bd ps pd
               ++ match drawables s !! d_id d with
                  | Some d' => [EvDRI2SwapComplete cl (d_id d') DRI2_BLIT_COMPLETE fn dt]
                  | None => []
                  end.
Proof.
  intros Hheap Hrange Hpend Hcalloc Hflip.
  pose proof (ScheduleSwap_branch cfg env cl d dst src fn dt s _ _ _ _ _ _ _ _ _ _
                Hheap Hcalloc) as Hsched.
  rewrite Hflip in Hsched.
  set (cmd := next_addr s) in *.
  set (c0 := new_cmd cl d dst src fn dt) in *.
  set (s0 := prepared c0 src dst os od bs bd rs rd s) in *.
  pose proof (prepared_heap c0 s src dst _ _ _ _ _ _ _ _ _ _ Hheap) as Hheap0.
  fold s0 in Hheap0.
  set (evs := blit_calls env d bs bd ps pd).
  set (c := set_type DRI2_BLIT_COMPLETE c0).
  set (sm := upd_cmds (insert cmd c) (upd_trace (fun t => t ++ evs) s0)).
  assert (Hsm : cmd_changed cmd c evs s0 sm).
  { constructor; reflexivity. }
  assert (Hc : cmds sm !! cmd = Some c) by apply lookup_insert_eq.
  assert (Hheapm : swap_heap sm src dst (buf_ref bs) (buf_ref bd) ps pd xs xd os od
                     (bo_ref rs) (bo_ref rd)).
  { eapply cmd_changed_heap; [ exact Hsm | exact Hheap0 ]. }
  pose proof (refs_held _ _ _ _ Hrange) as Hheld.
  destruct (held_counts _ _ _ _ Hheld) as (? & ? & ? & ?).
  assert (Hrun : ARMSOCDRI2SwapComplete cfg env cmd sm
                 = Some (tt, released cmd src dst os od (buf_ref bs) (buf_ref bd)
                               (bo_ref rs) (bo_ref rd) c (completion_notice c sm) sm)).
  { apply (SwapComplete_plain cfg env cmd c sm (buf_ref bs) (buf_ref bd) ps pd xs xd
             os od (bo_ref rs) (bo_ref rd) Hc); try assumption.
    - simpl. rewrite to_int_id by (unfold INT_MAX; lia). lia.
    - right. right. reflexivity. }
  pose proof (released_effect cmd src dst os od (buf_ref bs) (buf_ref bd)
                (bo_ref rs) (bo_ref rd) c (completion_notice c sm) sm) as Heff.
  destruct (prepared_then_released c0 c cmd _ _ s sm _ src dst _ _ _ _ _ _ _ _ _ _
              Hheap Hrange Hpend Hsm Heff)
    as (Hcmds & Hbufs & Hbos & Hpix & _ & Hpf & Hscan & Htrace).
  eexists. split.
  { rewrite Hsched. unfold ScheduleSwap_blit.
    eapply bind_run; [ apply (CopyRegion_exact env d dst src _ _ _ _ _ _ _ _ _ _ s0 Hheap0)
                     | cbv beta ].
    eapply bind_run.
    { unfold update_cmd. eapply bind_run; [ apply run_load_cmd; apply lookup_insert_eq | ].
      reflexivity. }
    cbv beta. eapply bind_run; [ exact Hrun | reflexivity ]. }
  split; [ exact Hcmds | ]. split; [ exact Hbufs | ]. split; [ exact Hbos | ].
  split; [ exact Hpix | ]. split; [ exact Hpf | ]. split; [ exact Hscan | ].
  rewrite Htrace. unfold completion_notice. simpl. reflexivity.
Qed.

Lemma blit_swap_witness :
  exists s',
    ARMSOCDRI2ScheduleSwap ex_cfg_noflip (ex_env 1) 55 ex_win 2%nat 5%nat 66 77 ex_state
    = Some (true, s') /\
    buffers s' = buffers ex_state /\ bos s' = bos ex_state /\
    pending_flips s' = 0 /\
    trace s' = [EvCopyArea (DrawPixmap 4%nat) (DrawWindow ex_win) 640 480;
                EvDRI2SwapComplete 55 100 DRI2_BLIT_COMPLETE 66 77].
Proof.
  destruct (blit_swap ex_cfg_noflip (ex_env 1) 55 ex_win 2%nat 5%nat 66 77 ex_state
              ex_back ex_front 4%nat 1%nat ex_back_pix ex_front_pix
              3%nat 0%nat ex_back_bo ex_front_bo)
    as (s' & Hrun & _ & Hb & Ho & _ & Hp & _ & Ht).
  - exact ex_heap.
  - vm_compute. intuition discriminate.
  - vm_compute. intuition discriminate.
  - reflexivity.
  - reflexivity.
  - exists s'. split; [ exact Hrun | ]. split; [ exact Hb | ].
    split; [ exact Ho | ]. split; [ exact Hp | exact Ht ].
Defined.

(** *** The allocation of a further slot *)

(** X4: an allocNextBuffer that fails cleans up after itself.  With answers
    of the collaborators under which the allocation fails it returns FALSE,
    and what it made it has undone: the pixmap it got is destroyed, after
    being deregistered exactly when it had been registered, so that the
    pixmaps, the memory objects, the buffer records and the commands are
    what they were. *)
Theorem allocNextBuffer_failure_cleans_up cfg env d s :
  alloc_fails env ->
  heap_below s ->
  exists s',
    allocNextBuffer cfg env d s = Some (None, s') /\
    trace s' = trace s ++ alloc_failure_calls cfg env d (next_addr s) /\
    pixmaps s' = pixmaps s /\ bos s' = bos s /\
    buffers s' = buffers s /\ cmds s' = cmds s.
Proof.
  unfold alloc_fails, alloc_failure_calls. intros Hf [Hbp Hbo].
  assert (Hp0 : pixmaps s !! next_addr s = None).
  { destruct (pixmaps s !! next_addr s) eqn:E; [ | reflexivity ].
    specialize (Hbp (next_addr s)). rewrite E in Hbp.
    exfalso. assert (next_addr s < next_addr s)%nat by (apply Hbp; eauto). lia. }
  assert (Hp1 : pixmaps s !! S (next_addr s) = None).
  { destruct (pixmaps s !! S (next_addr s)) eqn:E; [ | reflexivity ].
    specialize (Hbp (S (next_addr s))). rewrite E in Hbp.
    exfalso. assert (S (next_addr s) < next_addr s)%nat by (apply Hbp; eauto). lia. }
  assert (Hb0 : bos s !! next_addr s = None).
  { destruct (bos s !! next_addr s) eqn:E; [ | reflexivity ].
    specialize (Hbo (next_addr s)). rewrite E in Hbo.
    exfalso. assert (next_addr s < next_addr s)%nat by (apply Hbo; eauto). lia. }
  unfold allocNextBuffer, createpix.
  destruct (env_CreatePixmap env) as [np |] eqn:Hnp.
  - destruct (np_bo np) as [nb |] eqn:Hnb.
    + destruct Hf as [Hfb Hadd]. eexists. split.
      * eapply bind_run; [ eapply CreatePixmap_backed; eassumption | cbv beta iota ].
        do 4 (eapply bind_run; [ mrun | cbv beta iota ]).
        simpl. rewrite Hfb. simpl (0 =? 0). cbv iota.
        eapply bind_run.
        { unfold armsoc_bo_add_fb. rewrite Hadd.
          do 3 (eapply bind_run; [ mrun | cbv beta iota ]). reflexivity. }
        cbv beta. simpl negb. cbv iota.
        eapply bind_run; [ mrun | cbv beta ].
        eapply bind_run;
          [ eapply DestroyPixmap_last_backed; [ lookups | reflexivity.. | lookups | reflexivity ]
          | reflexivity ].
      * simpl. rewrite <- !app_assoc. simpl.
        rewrite !delete_insert_id by assumption. auto.
    + eexists. split.
      * eapply bind_run; [ eapply CreatePixmap_bare; eassumption | cbv beta iota ].
        eapply bind_run; [ mrun | cbv beta iota ].
        eapply bind_run;
          [ eapply DestroyPixmap_last_bare; [ lookups | reflexivity.. ] | reflexivity ].
      * simpl. rewrite <- !app_assoc. simpl.
        rewrite !delete_insert_id by assumption. auto.
  - eexists. split.
    + eapply bind_run; [ eapply CreatePixmap_none; eassumption | reflexivity ].
    + simpl. auto.
Qed.

Lemma ex_state_below : heap_below ex_state.
Proof.
  split; intros a [x Hx]; simpl in Hx |- *; apply lookup_insert_Some in Hx.
  all: destruct Hx as [[<- _] | [_ Hx]]; [ lia | ].
  all: apply lookup_singleton_Some in Hx; destruct Hx as [<- _]; lia.
Qed.

Lemma allocNextBuffer_failure_cleans_up_witness :
  exists s',
    allocNextBuffer (ex_cfg true) ex_env_nofb ex_win ex_state = Some (None, s') /\
    trace s' = [EvCreatePixmap 640 480 24 ARMSOC_CREATE_PIXMAP_SCANOUT;
                EvRegisterExternalAccess 7%nat; EvAddFb 6%nat;
                EvDeregisterExternalAccess 7%nat; EvDestroyPixmap 7%nat] /\
    pixmaps s' = pixmaps ex_state /\ bos s' = bos ex_state.
Proof.
  destruct (allocNextBuffer_failure_cleans_up (ex_cfg true) ex_env_nofb ex_win ex_state)
    as (s' & Hrun & Ht & Hp & Hb & _).
  - split; reflexivity.
  - exact ex_state_below.
  - exists s'. split; [ exact Hrun | ]. split; [ exact Ht | ].
    split; [ exact Hp | exact Hb ].
Defined.

Lemma allocNextBuffer_gives cfg env d s np nb :
  env_CreatePixmap env = Some np -> np_bo np = Some nb ->
  nb_fb_id nb <> 0 \/ is_Some (env_add_fb env) ->
  exists s' x rb,
    allocNextBuffer cfg env d s = Some (Some (S (next_addr s), nb_name nb), s') /\
    pixmaps s' !! S (next_addr s) = Some x /\
    pix_refcnt x = 1 /\ pix_bo x = Some (next_addr s) /\
    bos s' !! next_addr s = Some rb /\
    bo_fb_id rb <> 0 /\ bo_name rb = nb_name nb /\ bo_refcnt rb = 1 /\
    trace s' = trace s ++ alloc_success_calls cfg d nb (next_addr s) /\
    alloc_frame s s'.
Proof.
  intros Hnp Hnb Hfb. unfold allocNextBuffer, createpix, alloc_success_calls.
  destruct (Z.eq_dec (nb_fb_id nb) 0) as [Hz | Hz].
  - destruct Hfb as [Hfb | [fb Hadd]]; [ contradiction | ].
    eexists _, _, _. split.
    + eapply bind_run; [ eapply CreatePixmap_backed; eassumption | cbv beta iota ].
      do 4 (eapply bind_run; [ mrun | cbv beta iota ]).
      simpl. rewrite Hz. simpl (0 =? 0). cbv iota.
      eapply bind_run.
      { unfold armsoc_bo_add_fb. rewrite Hadd.
        do 3 (eapply bind_run; [ mrun | cbv beta iota ]). reflexivity. }
      cbv beta. simpl negb. cbv iota. reflexivity.
    + simpl. rewrite Hz. simpl (0 =? 0). cbv iota.
      split; [ apply lookup_insert_eq | ]. split; [ reflexivity | ].
      split; [ reflexivity | ]. split; [ apply lookup_insert_eq | ].
      split; [ simpl; discriminate | ]. split; [ reflexivity | ].
      split; [ reflexivity | ].
      split; [ rewrite <- !app_assoc; reflexivity | ].
      constructor; simpl; try reflexivity; try lia.
      * intros a Ha. rewrite lookup_insert_ne by lia. reflexivity.
      * intros a Ha. rewrite !lookup_insert_ne by lia. reflexivity.
      * notify_frame.
  - eexists _, _, _. split.
    + eapply bind_run; [ eapply CreatePixmap_backed; eassumption | cbv beta iota ].
      do 4 (eapply bind_run; [ mrun | cbv beta iota ]).
      simpl. apply Z.eqb_neq in Hz. rewrite Hz. cbv iota.
      eapply bind_run; [ reflexivity | ].
      cbv beta. simpl negb. cbv iota. reflexivity.
    + simpl. pose proof Hz as Hz'. apply Z.eqb_neq in Hz'. rewrite Hz'. cbv iota.
      split; [ apply lookup_insert_eq | ]. split; [ reflexivity | ].
      split; [ reflexivity | ]. split; [ apply lookup_insert_eq | ].
      split; [ exact Hz | ]. split; [ reflexivity | ].
      split; [ reflexivity | ].
      split; [ rewrite <- !app_assoc; reflexivity | ].
      constructor; simpl; try reflexivity; try lia.
      * intros a Ha. rewrite lookup_insert_ne by lia. reflexivity.
      * intros a Ha. rewrite !lookup_insert_ne by lia. reflexivity.
      * notify_frame.
Qed.

(** X5: what an allocNextBuffer that succeeds hands over.  With answers of
    the collaborators under which the allocation works it returns TRUE with
    a pixmap that is new, holds one reference, was registered for external
    access and has a memory object with a framebuffer (the one it came
    with, and then no attach is attempted, or the one attached now),
    together with the name of that memory object; what was there before is
    left alone. *)
Theorem allocNextBuffer_success cfg env d s np nb :
  env_CreatePixmap env = Some np -> np_bo np = Some nb ->
  nb_fb_id nb <> 0 \/ is_Some (env_add_fb env) ->
  exists s' x rb,
    allocNextBuffer cfg env d s = Some (Some (S (next_addr s), nb_name nb), s') /\
    pixmaps s' !! S (next_addr s) = Some x /\
    pix_refcnt x = 1 /\ pix_bo x = Some (next_addr s) /\
    bos s' !! next_addr s = Some rb /\
    bo_fb_id rb <> 0 /\ bo_name rb = nb_name nb /\ bo_refcnt rb = 1 /\
    trace s' = trace s ++ alloc_success_calls cfg d nb (next_addr s) /\
    alloc_frame s s'.
Proof. apply allocNextBuffer_gives. Qed.

Lemma allocNextBuffer_success_witness :
  exists s',
    allocNextBuffer (ex_cfg true) (ex_env 1) ex_win ex_state
    = Some (Some (7%nat, 1001), s') /\
    (bo_fb_id <$> bos s' !! 6%nat) = Some 9 /\
    trace s' = [EvCreatePixmap 640 480 24 ARMSOC_CREATE_PIXMAP_SCANOUT;
                EvRegisterExternalAccess 7%nat; EvAddFb 6%nat].
Proof.
  destruct (allocNextBuffer_success (ex_cfg true) (ex_env 1) ex_win ex_state
              _ _ eq_refl eq_refl)
    as (s' & x & rb & Hrun & _ & _ & _ & Hb & _ & _ & _ & Ht & _).
  - right. eexists. reflexivity.
  - exists s'. split; [ exact Hrun | ]. split; [ | exact Ht ].
    revert Hrun. vm_compute. intros Hrun. inversion Hrun. reflexivity.
Defined.

(** *** The flips in flight *)

Lemma same_flights_refl s : same_flights s s.
Proof. split; [ reflexivity | split; [ reflexivity | lia ] ]. Qed.

Lemma same_flights_trans s1 s2 s3 :
  same_flights s1 s2 -> same_flights s2 s3 -> same_flights s1 s3.
Proof.
  intros (H1 & H2 & H3) (H4 & H5 & H6).
  split; [ congruence | split; [ congruence | lia ] ].
Qed.

Lemma same_flights_update_cmd c f : preserves same_flights (update_cmd c f).
Proof.
  intros s a s' H. unfold update_cmd in H.
  apply bind_inv in H. destruct H as (r & s1 & H1 & H2).
  unfold load_cmd in H1. destruct (cmds s !! c) as [r0 |] eqn:E; [ | discriminate ].
  simpl in H1. injection H1 as Hr Hs. subst r0 s1.
  unfold modify in H2. injection H2 as _ Hs. subst s'.
  split; [ | split; [ reflexivity | simpl; lia ] ].
  simpl. rewrite dom_insert_L.
  apply subseteq_union_1_L, singleton_subseteq_l, elem_of_dom. eauto.
Qed.

Create HintDb flights discriminated.

#[local] Hint Resolve same_flights_refl same_flights_trans same_flights_update_cmd
  : flights.

(** Walks a computation that starts and ends no swap down to its primitive
    steps. *)
Ltac fpres :=
  lazymatch goal with
  | |- preserves _ (bind _ _) =>
      apply preserves_bind; [ exact same_flights_trans | fpres | intro; fpres ]
  | |- preserves _ (ret _) => apply preserves_ret; exact same_flights_refl
  | |- preserves _ fail => apply preserves_fail
  | |- preserves _ (gets _) => apply preserves_gets; exact same_flights_refl
  | |- preserves _ (deref _) => apply preserves_deref; exact same_flights_refl
  | |- preserves _ (c_assert ?b) => unfold c_assert; fpres
  | |- preserves _ (array_get _ _) => unfold array_get; fpres
  | |- preserves _ (load_bo _) => apply preserves_load; exact same_flights_refl
  | |- preserves _ (load_pix _) => apply preserves_load; exact same_flights_refl
  | |- preserves _ (load_buf _) => apply preserves_load; exact same_flights_refl
  | |- preserves _ (load_cmd _) => apply preserves_load; exact same_flights_refl
  | |- preserves _ (emit _) => unfold emit; fpres
  | |- preserves _ fresh_addr => unfold fresh_addr; fpres
  | |- preserves _ (update_bo _ _) => unfold update_bo; fpres
  | |- preserves _ (update_pix _ _) => unfold update_pix; fpres
  | |- preserves _ (update_buf _ _) => unfold update_buf; fpres
  | |- preserves _ (update_cmd _ _) => apply same_flights_update_cmd
  | |- preserves _ (if ?c then _ else _) => destruct c; fpres
  | |- preserves _ (match ?x with _ => _ end) => destruct x; fpres
  | |- preserves same_flights (modify _) =>
      apply preserves_modify; intro; split;
      [ reflexivity | split; [ reflexivity | simpl; lia ] ]
  | |- _ => first [ solve [ eauto with flights ] | idtac ]
  end.

Lemma flights_armsoc_bo_name bo : preserves same_flights (armsoc_bo_name bo).
Proof. unfold armsoc_bo_name. fpres. Qed.
Lemma flights_armsoc_bo_get_fb bo : preserves same_flights (armsoc_bo_get_fb bo).
Proof. unfold armsoc_bo_get_fb. fpres. Qed.
Lemma flights_armsoc_bo_width bo : preserves same_flights (armsoc_bo_width bo).
Proof. unfold armsoc_bo_width. fpres. Qed.
Lemma flights_armsoc_bo_height bo : preserves same_flights (armsoc_bo_height bo).
Proof. unfold armsoc_bo_height. fpres. Qed.
Lemma flights_armsoc_bo_reference bo : preserves same_flights (armsoc_bo_reference bo).
Proof. unfold armsoc_bo_reference. fpres. Qed.
Lemma flights_armsoc_bo_unreference bo : preserves same_flights (armsoc_bo_unreference bo).
Proof. unfold armsoc_bo_unreference. fpres. Qed.
Lemma flights_armsoc_bo_add_fb env bo : preserves same_flights (armsoc_bo_add_fb env bo).
Proof. unfold armsoc_bo_add_fb. fpres. Qed.
Lemma flights_armsoc_bo_rm_fb bo : preserves same_flights (armsoc_bo_rm_fb bo).
Proof. unfold armsoc_bo_rm_fb. fpres. Qed.
Lemma flights_pending_deletions : preserves same_flights armsoc_bo_do_pending_deletions.
Proof. unfold armsoc_bo_do_pending_deletions. fpres. Qed.
Lemma flights_CreatePixmap env w h dp u : preserves same_flights (CreatePixmap env w h dp u).
Proof. unfold CreatePixmap. fpres. Qed.
Lemma flights_DestroyPixmap p : preserves same_flights (DestroyPixmap p).
Proof. unfold DestroyPixmap, armsoc_bo_unreference. fpres. Qed.
Lemma flights_ARMSOCPixmapBo p : preserves same_flights (ARMSOCPixmapBo p).
Proof. unfold ARMSOCPixmapBo. fpres. Qed.
Lemma flights_ARMSOCPixmapExchange a b : preserves same_flights (ARMSOCPixmapExchange a b).
Proof. unfold ARMSOCPixmapExchange. fpres. Qed.
Lemma flights_Register p : preserves same_flights (ARMSOCRegisterExternalAccess p).
Proof. unfold ARMSOCRegisterExternalAccess. fpres. Qed.
Lemma flights_Deregister p : preserves same_flights (ARMSOCDeregisterExternalAccess p).
Proof. unfold ARMSOCDeregisterExternalAccess. fpres. Qed.
Lemma flights_dixLookupDrawable id : preserves same_flights (dixLookupDrawable id).
Proof. unfold dixLookupDrawable. fpres. Qed.
Lemma flights_drmmode_page_flip env d fb c :
  preserves same_flights (drmmode_page_flip env d fb c).
Proof. unfold drmmode_page_flip. fpres. Qed.
Lemma flights_DRI2SwapComplete cl d k f dt :
  preserves same_flights (DRI2SwapComplete cl d k f dt).
Proof. unfold DRI2SwapComplete. fpres. Qed.
Lemma flights_set_scanout_bo bo : preserves same_flights (set_scanout_bo bo).
Proof. unfold set_scanout_bo. fpres. Qed.

#[local] Hint Resolve flights_armsoc_bo_name flights_armsoc_bo_get_fb
  flights_armsoc_bo_width flights_armsoc_bo_height flights_armsoc_bo_reference
  flights_armsoc_bo_unreference flights_armsoc_bo_add_fb flights_armsoc_bo_rm_fb
  flights_pending_deletions flights_CreatePixmap flights_DestroyPixmap
  flights_ARMSOCPixmapBo flights_ARMSOCPixmapExchange flights_Register
  flights_Deregister flights_dixLookupDrawable flights_drmmode_page_flip
  flights_DRI2SwapComplete flights_set_scanout_bo : flights.

Lemma flights_dri2draw d b : preserves same_flights (dri2draw d b).
Proof. unfold dri2draw. fpres. Qed.
Lemma flights_createpix cfg env d : preserves same_flights (createpix cfg env d).
Proof. unfold createpix. fpres. Qed.
Lemma flights_boFromBuffer b : preserves same_flights (boFromBuffer b).
Proof. unfold boFromBuffer. fpres. Qed.

#[local] Hint Resolve flights_dri2draw flights_createpix flights_boFromBuffer : flights.

Lemma flights_exchangebufs d a b : preserves same_flights (exchangebufs d a b).
Proof. unfold exchangebufs. fpres. Qed.
Lemma flights_allocNextBuffer cfg env d : preserves same_flights (allocNextBuffer cfg env d).
Proof. unfold allocNextBuffer. fpres. Qed.
Lemma flights_CopyRegion env d dst src :
  preserves same_flights (ARMSOCDRI2CopyRegion env d dst src).
Proof. unfold ARMSOCDRI2CopyRegion. fpres. Qed.
Lemma flights_destroy_pixmaps arr n :
  forall i, preserves same_flights (destroy_pixmaps arr i n).
Proof. induction n as [| n IH]; intros i; simpl; fpres; try apply IH. Qed.
Lemma flights_ReferenceBuffer b : preserves same_flights (ARMSOCDRI2ReferenceBuffer b).
Proof. unfold ARMSOCDRI2ReferenceBuffer. fpres. Qed.

#[local] Hint Resolve flights_exchangebufs flights_allocNextBuffer flights_CopyRegion
  flights_destroy_pixmaps flights_ReferenceBuffer : flights.

Lemma flights_nextBuffer cfg env d b : preserves same_flights (nextBuffer cfg env d b).
Proof. unfold nextBuffer. fpres. Qed.
Lemma flights_DestroyBuffer cfg d b : preserves same_flights (ARMSOCDRI2DestroyBuffer cfg d b).
Proof. unfold ARMSOCDRI2DestroyBuffer. fpres. Qed.
Lemma flights_ReuseBufferNotify cfg env d b :
  preserves same_flights (ARMSOCDRI2ReuseBufferNotify cfg env d b).
Proof. unfold ARMSOCDRI2ReuseBufferNotify. fpres. Qed.
Lemma flights_CreateBuffer_fail p att : preserves same_flights (CreateBuffer_fail p att).
Proof. unfold CreateBuffer_fail. fpres. Qed.

#[local] Hint Resolve flights_nextBuffer flights_DestroyBuffer flights_ReuseBufferNotify
  flights_CreateBuffer_fail : flights.

Lemma flights_CreateBuffer cfg env d att fmt :
  preserves same_flights (ARMSOCDRI2CreateBuffer cfg env d att fmt).
Proof. unfold ARMSOCDRI2CreateBuffer. fpres. Qed.

(** Takes the first step off a run and records that it started and ended
    no swap. *)
Ltac flight_step H Hacc :=
  let a := fresh "a" in
  let sn := fresh "sn" in
  let Hm := fresh "Hm" in
  apply bind_inv in H; destruct H as (a & sn & Hm & H);
  lazymatch type of Hm with
  | ?m _ = _ =>
      let Hp := fresh "Hp" in
      assert (Hp : preserves same_flights m) by fpres;
      apply Hp in Hm; clear Hp;
      pose proof (same_flights_trans _ _ _ Hacc Hm) as Hm';
      clear Hacc Hm; rename Hm' into Hacc
  end.

Lemma flight_event_SwapComplete cfg env cmd :
  preserves (flight_event cmd) (ARMSOCDRI2SwapComplete cfg env cmd).
Proof.
  intros s u s' H. unfold ARMSOCDRI2SwapComplete in H.
  apply bind_inv in H. destruct H as (u1 & s1 & H1 & H).
  apply update_cmd_inv in H1. destruct H1 as (c0 & Hc0 & ->).
  apply bind_inv in H. destruct H as (c & s2 & H2 & H).
  apply load_cmd_inv in H2. destruct H2 as [-> Hc].
  set (s1 := upd_cmds (insert cmd (set_swapCount (to_int (swapCount c0 - 1)) c0)) s) in *.
  assert (Hs1 : same_flights s s1).
  { split; [ | split; [ reflexivity | simpl; lia ] ].
    simpl. rewrite dom_insert_L.
    apply subseteq_union_1_L, singleton_subseteq_l, elem_of_dom. eauto. }
  split; [ eauto | ].
  destruct (0 <? swapCount c).
  - left. unfold ret in H. injection H as _ <-. exact Hs1.
  - right.
    do 7 flight_step H Hs1.
    apply bind_inv in H. destruct H as (u8 & s8 & H8 & H).
    unfold modify in H8, H. injection H8 as _ <-. injection H as _ <-.
    destruct Hs1 as (Hd & Hp & Hn). simpl.
    split; [ rewrite dom_delete_L, Hd; reflexivity | ].
    split; [ rewrite Hp; reflexivity | exact Hn ].
Qed.

Lemma fresh_addr_inv s a s1 :
  fresh_addr s = Some (a, s1) -> a = next_addr s /\ s1 = upd_next_addr S s.
Proof.
  unfold fresh_addr, bind, gets, modify, ret. intros H. injection H as <- <-.
  split; reflexivity.
Qed.

Lemma flight_started_same s s0 s1 :
  flight_started s s0 -> same_flights s0 s1 -> flight_started s s1.
Proof.
  intros (H1 & H2 & H3) (H4 & H5 & H6).
  split; [ lia | split; congruence ].
Qed.

Lemma flight_started_prepare cfg cl d dst src fn dt s cmd fb flip s0 :
  ScheduleSwap_prepare cfg cl d dst src fn dt s = Some ((cmd, fb, flip), s0) ->
  cmd = next_addr s /\ flight_started s s0.
Proof.
  intros H. unfold ScheduleSwap_prepare in H.
  apply bind_inv in H. destruct H as (c & s1 & H1 & H).
  apply fresh_addr_inv in H1. destruct H1 as [-> ->].
  apply bind_inv in H. destruct H as (u2 & s2 & H2 & H).
  unfold modify in H2. injection H2 as _ <-.
  apply bind_inv in H. destruct H as (u3 & s3 & H3 & H).
  apply flights_ReferenceBuffer in H3.
  apply bind_inv in H. destruct H as (u4 & s4 & H4 & H).
  apply flights_ReferenceBuffer in H4.
  pose proof (same_flights_trans _ _ _ H3 H4) as H34. clear H3 H4.
  apply bind_inv in H. destruct H as (u5 & s5 & H5 & H).
  unfold modify in H5. injection H5 as _ <-.
  assert (Hs : flight_started s (upd_pending_flips (fun n => to_int (n + 1)) s4)).
  { destruct H34 as (Hd & Hp & Hn). unfold flight_started. simpl in *.
    split; [ lia | ]. split; [ rewrite Hd, dom_insert_L; reflexivity | ].
    rewrite Hp. reflexivity. }
  clear H34.
  set (s5 := upd_pending_flips _ s4) in *.
  pose proof (same_flights_refl s5) as Hacc.
  do 10 flight_step H Hacc.
  unfold ret in H. injection H as <- _ _ <-.
  split; [ reflexivity | ].
  eapply flight_started_same; eassumption.
Qed.

Lemma flight_scheduled_completion cfg env s s0 s' (cmd : addr) (b : bool) (res : bool) :
  flight_started s s0 -> cmd = next_addr s ->
  ((if b then ARMSOCDRI2SwapComplete cfg env cmd else ret tt) ;; ret res) s0
  = Some (res, s') ->
  flight_scheduled s s'.
Proof.
  intros (Hn & Hd & Hp) -> H.
  apply bind_inv in H. destruct H as (u & s1 & H1 & H).
  unfold ret in H. injection H as <-.
  right. destruct b.
  - apply flight_event_SwapComplete in H1.
    destruct H1 as [_ [(Hd1 & Hp1 & Hn1) | (Hd1 & Hp1 & Hn1)]].
    + split; [ lia | ]. left. split; congruence.
    + split; [ lia | ]. right. split; congruence.
  - unfold ret in H1. injection H1 as _ <-.
    split; [ lia | ]. left. split; assumption.
Qed.

Lemma flight_scheduled_ScheduleSwap cfg env cl d dst src fn dt :
  preserves flight_scheduled (ARMSOCDRI2ScheduleSwap cfg env cl d dst src fn dt).
Proof.
  intros s res s' H. unfold ARMSOCDRI2ScheduleSwap in H.
  destruct (negb (env_calloc env)).
  { unfold ret in H. injection H as _ <-. left. apply same_flights_refl. }
  apply bind_inv in H. destruct H as ([[cmd fb] flip] & s0 & H0 & H).
  apply flight_started_prepare in H0. destruct H0 as [Hcmd Hstart].
  destruct flip.
  - unfold ScheduleSwap_flip in H.
    pose proof (same_flights_refl s0) as Hacc.
    do 2 flight_step H Hacc.
    apply bind_inv in H. destruct H as (r & s3 & H3 & H).
    apply flights_drmmode_page_flip in H3.
    pose proof (same_flights_trans _ _ _ Hacc H3) as Hacc'. clear Hacc H3.
    destruct (r <? 0).
    + do 2 flight_step H Hacc'.
      apply bind_inv in H. destruct H as (c & s6 & H6 & H).
      apply load_cmd_inv in H6. destruct H6 as [-> _].
      assert (Hres : res = false).
      { apply bind_inv in H. destruct H as (? & ? & _ & H).
        unfold ret in H. injection H as <- _. reflexivity. }
      subst res.
      eapply flight_scheduled_completion; [ | exact Hcmd | exact H ].
      eapply flight_started_same; eassumption.
    + flight_step H Hacc'. flight_step H Hacc'.
      apply bind_inv in H. destruct H as (c & s6 & H6 & H).
      apply load_cmd_inv in H6. destruct H6 as [-> _].
      assert (Hres : res = true).
      { apply bind_inv in H. destruct H as (? & ? & _ & H).
        unfold ret in H. injection H as <- _. reflexivity. }
      subst res.
      eapply flight_scheduled_completion; [ | exact Hcmd | exact H ].
      eapply flight_started_same; eassumption.
  - unfold ScheduleSwap_blit in H.
    pose proof (same_flights_refl s0) as Hacc.
    do 2 flight_step H Hacc.
    assert (Hres : res = true).
    { apply bind_inv in H. destruct H as (? & ? & _ & H).
      unfold ret in H. injection H as <- _. reflexivity. }
    subst res.
    eapply (flight_scheduled_completion cfg env s _ s' cmd true);
      [ | exact Hcmd | exact H ].
    eapply flight_started_same; eassumption.
Qed.

Lemma size_cmds_dom (s : State) : size (dom (cmds s) : gset nat) = size (cmds s).
Proof. apply size_dom. Qed.

Lemma counted_same s s' :
  flights_counted s -> same_flights s s' ->
  flights_counted s' /\ size (cmds s') = size (cmds s).
Proof.
  intros [Hp Hb] (Hd & Hp' & Hn).
  assert (Hsize : size (cmds s') = size (cmds s)).
  { rewrite <- !size_cmds_dom, Hd. reflexivity. }
  split; [ | exact Hsize ]. split.
  - rewrite Hp', Hsize. exact Hp.
  - intros c Hc. apply elem_of_dom in Hc. rewrite Hd in Hc. apply elem_of_dom in Hc.
    specialize (Hb c Hc). lia.
Qed.

Lemma counted_event cmd s s' :
  flights_counted s -> Z.of_nat (size (cmds s)) <= INT_MAX ->
  flight_event cmd s s' ->
  flights_counted s' /\ (size (cmds s') <= size (cmds s))%nat.
Proof.
  intros Hc Hmax [Hin [Hsame | (Hd & Hp' & Hn)]].
  - destruct (counted_same s s' Hc Hsame) as [H1 H2]. split; [ exact H1 | lia ].
  - destruct Hc as [Hp Hb].
    assert (Hcmd : cmd ∈ (dom (cmds s) : gset nat)) by (apply elem_of_dom; exact Hin).
    assert (Hsize : (size (cmds s') = size (cmds s) - 1)%nat).
    { rewrite <- !size_cmds_dom, Hd.
      rewrite size_difference by (apply singleton_subseteq_l; exact Hcmd).
      rewrite size_singleton. reflexivity. }
    assert (Hpos : (0 < size (cmds s))%nat).
    { rewrite <- size_cmds_dom.
      pose proof (subseteq_size ({[cmd]} : gset nat) (dom (cmds s))
                    ltac:(apply singleton_subseteq_l; exact Hcmd)) as Hle.
      rewrite size_singleton in Hle. lia. }
    split; [ | lia ]. split.
    + rewrite Hp', Hp, Hsize. unfold INT_MAX in Hmax.
      rewrite to_int_id by (unfold INT_MAX; lia). lia.
    + intros c Hc. apply elem_of_dom in Hc. rewrite Hd in Hc.
      apply elem_of_difference in Hc. destruct Hc as [Hc _].
      apply elem_of_dom in Hc. specialize (Hb c Hc). lia.
Qed.

Lemma counted_scheduled s s' :
  flights_counted s -> Z.of_nat (size (cmds s)) < INT_MAX ->
  flight_scheduled s s' ->
  flights_counted s' /\ (size (cmds s') <= size (cmds s) + 1)%nat.
Proof.
  intros Hc Hmax [Hsame | [Hn Hcase]].
  - destruct (counted_same s s' Hc Hsame) as [H1 H2]. split; [ exact H1 | lia ].
  - destruct Hc as [Hp Hb].
    assert (Hfresh : next_addr s ∉ (dom (cmds s) : gset nat)).
    { intros Hin. apply elem_of_dom in Hin. specialize (Hb _ Hin). lia. }
    assert (Hone : (size ({[next_addr s]} ∪ dom (cmds s) : gset nat)
                    = size (cmds s) + 1)%nat).
    { rewrite size_union by (apply disjoint_singleton_l; exact Hfresh).
      rewrite size_singleton, size_cmds_dom. lia. }
    unfold INT_MAX in Hmax.
    destruct Hcase as [[Hd Hp'] | [Hd Hp']].
    + assert (Hsize : (size (cmds s') = size (cmds s) + 1)%nat).
      { rewrite <- (size_cmds_dom s'), Hd. exact Hone. }
      split; [ | lia ]. split.
      * rewrite Hp', Hp, Hsize. rewrite to_int_id by (unfold INT_MAX; lia). lia.
      * intros c Hc. apply elem_of_dom in Hc. rewrite Hd in Hc.
        apply elem_of_union in Hc. destruct Hc as [Hc | Hc].
        -- apply elem_of_singleton in Hc. subst c. exact Hn.
        -- apply elem_of_dom in Hc. specialize (Hb c Hc). lia.
    + assert (Hd' : dom (cmds s') = (dom (cmds s) : gset nat)).
      { rewrite Hd, difference_union_distr_l_L, difference_diag_L, union_empty_l_L.
        apply difference_disjoint_L. symmetry. apply disjoint_singleton_l. exact Hfresh. }
      assert (Hsize : size (cmds s') = size (cmds s)).
      { rewrite <- !size_cmds_dom, Hd'. reflexivity. }
      split; [ | lia ]. split.
      * rewrite Hp', Hp, Hsize.
        rewrite (to_int_id (Z.of_nat (size (cmds s)) + 1)) by (unfold INT_MAX; lia).
        rewrite to_int_id by (unfold INT_MAX; lia). lia.
      * intros c Hc. apply elem_of_dom in Hc. rewrite Hd' in Hc.
        apply elem_of_dom in Hc. specialize (Hb c Hc). lia.
Qed.

Lemma counted_exec_op cfg env o s u s' :
  flights_counted s -> Z.of_nat (size (cmds s)) < INT_MAX ->
  exec_op cfg env o s = Some (u, s') ->
  flights_counted s' /\ (size (cmds s') <= size (cmds s) + 1)%nat.
Proof.
  intros Hc Hmax H.
  assert (Hsame : forall m : M unit,
             preserves same_flights m -> m s = Some (u, s') ->
             flights_counted s' /\ (size (cmds s') <= size (cmds s) + 1)%nat).
  { intros m Hm Hrun. apply Hm in Hrun.
    destruct (counted_same s s' Hc Hrun) as [H1 H2]. split; [ exact H1 | lia ]. }
  destruct o; simpl in H.
  - eapply Hsame; [ | exact H ].
    apply preserves_bind;
      [ exact same_flights_trans | apply flights_CreateBuffer | intro; fpres ].
  - eapply Hsame; [ | exact H ]. apply flights_ReuseBufferNotify.
  - eapply Hsame; [ | exact H ]. apply flights_DestroyBuffer.
  - eapply Hsame; [ | exact H ]. apply flights_ReferenceBuffer.
  - eapply Hsame; [ | exact H ]. apply flights_CopyRegion.
  - apply bind_inv in H. destruct H as (res & s1 & H1 & H).
    unfold ret in H. injection H as _ <-.
    apply flight_scheduled_ScheduleSwap in H1.
    apply counted_scheduled; assumption.
  - apply flight_event_SwapComplete in H.
    destruct (counted_event cmd s s' Hc ltac:(lia) H) as [H1 H2]. split; [ exact H1 | lia ].
  - eapply Hsame; [ | exact H ]. fpres.
Qed.

(** X6: the in-flight counter counts the swap commands that are alive.
    From a state in which [pending_flips] is the number of live commands
    (and these lie below the allocator's mark), whatever entry points are
    called and whatever flip events arrive, [pending_flips] is the number of
    live commands afterwards too: every command that
    ARMSOCDRI2ScheduleSwap allocates is counted once and counted out by the
    completion that frees it, and by nothing else.  (The run is kept short
    of [INT_MAX] steps so that the counter cannot wrap.) *)
Theorem pending_flips_counts_commands cfg steps :
  forall s0 s,
    flights_counted s0 ->
    Z.of_nat (size (cmds s0)) + Z.of_nat (length steps) <= INT_MAX ->
    run cfg steps s0 = Some s ->
    pending_flips s = Z.of_nat (size (cmds s)) /\
    (forall c, is_Some (cmds s !! c) -> (c < next_addr s)%nat) /\
    (size (cmds s) <= size (cmds s0) + length steps)%nat.
Proof.
  induction steps as [| [env o] steps IH]; intros s0 s Hc Hmax Hrun.
  - simpl in Hrun. injection Hrun as <-. destruct Hc. repeat split; auto. lia.
  - simpl in Hrun. simpl length in Hmax.
    destruct (exec_op cfg env o s0) as [[u s1] |] eqn:E; [ | discriminate ].
    destruct (counted_exec_op cfg env o s0 u s1 Hc ltac:(lia) E) as [Hc1 Hsz].
    destruct (IH s1 s Hc1 ltac:(lia) Hrun) as (H1 & H2 & H3).
    split; [ exact H1 | ]. split; [ exact H2 | ]. simpl length. lia.
Qed.

Lemma ex_flight_reached :
  run (ex_cfg true) [ (ex_env 1, OpScheduleSwap 55 ex_win 2%nat 5%nat 66 77) ] ex_state
  = Some ex_flight.
Proof. vm_compute. reflexivity. Qed.

Lemma ex_state_counted : flights_counted ex_state.
Proof.
  split; [ reflexivity | ].
  intros c [x Hx]. simpl in Hx. rewrite lookup_empty in Hx. discriminate Hx.
Qed.

Lemma pending_flips_counts_commands_witness :
  pending_flips ex_flight = Z.of_nat (size (cmds ex_flight)) /\
  pending_flips ex_flight = 1.
Proof.
  destruct (pending_flips_counts_commands (ex_cfg true)
              [ (ex_env 1, OpScheduleSwap 55 ex_win 2%nat 5%nat 66 77) ]
              ex_state ex_flight ex_state_counted)
    as (H & _ & _).
  - vm_compute. discriminate.
  - exact ex_flight_reached.
  - split; [ exact H | reflexivity ].
Defined.

(** *** The end of the screen *)

Lemma counted_wait_for_event cfg arrived :
  forall s u s',
    flights_counted s -> Z.of_nat (size (cmds s)) <= INT_MAX ->
    drmmode_wait_for_event cfg arrived s = Some (u, s') ->
    flights_counted s' /\ (size (cmds s') <= size (cmds s))%nat.
Proof.
  induction arrived as [| [env cmd] rest IH]; intros s u s' Hc Hmax H.
  - simpl in H. unfold ret in H. injection H as _ <-. split; [ exact Hc | lia ].
  - simpl in H. apply bind_inv in H. destruct H as (u1 & s1 & H1 & H).
    apply flight_event_SwapComplete in H1.
    destruct (counted_event cmd s s1 Hc Hmax H1) as [Hc1 Hsz1].
    destruct (IH s1 u s' Hc1 ltac:(lia) H) as [Hc' Hsz']. split; [ exact Hc' | lia ].
Qed.

(** X7: ARMSOCDRI2CloseScreen lets no swap command outlive the screen.
    Entered in a state in which the in-flight counter counts the live
    commands, it goes on to DRI2CloseScreen only when no command is alive
    any more: every one of them was completed and freed by the flip events
    it waited for, and the counter is back at 0.  As long as a command is
    alive it keeps waiting.  With no flip in flight it does not wait at
    all. *)
Theorem CloseScreen_drains cfg polls :
  forall s closed s',
    flights_counted s -> Z.of_nat (size (cmds s)) <= INT_MAX ->
    ARMSOCDRI2CloseScreen cfg polls s = Some (closed, s') ->
    (closed = true -> cmds s' = ∅ /\ pending_flips s' = 0) /\
    (closed = false -> cmds s' <> ∅) /\
    (cmds s = ∅ -> closed = true /\ s' = s).
Proof.
  assert (Hzero : forall s, flights_counted s -> (0 <? pending_flips s) = false ->
                            cmds s = ∅ /\ pending_flips s = 0).
  { intros s [Hp _] Hle. apply Z.ltb_ge in Hle.
    assert (Hs : size (cmds s) = 0%nat) by lia.
    split; [ apply map_size_empty_inv; exact Hs | lia ]. }
  assert (Hpos : forall s, flights_counted s -> (0 <? pending_flips s) = true ->
                           cmds s <> ∅).
  { intros s [Hp _] Hlt He. apply Z.ltb_lt in Hlt.
    rewrite He, map_size_empty in Hp. simpl in Hp. lia. }
  induction polls as [| arrived rest IH]; intros s closed s' Hc Hmax H.
  - simpl in H. unfold bind, gets, ret in H. injection H as <- <-.
    destruct (0 <? pending_flips s) eqn:E; simpl.
    + split; [ discriminate | ]. split; [ intros _; apply Hpos; assumption | ].
      intros He. exfalso. exact (Hpos s Hc E He).
    + split; [ intros _; apply Hzero; assumption | ].
      split; [ discriminate | ]. intros _. split; reflexivity.
  - simpl in H. unfold bind at 1, gets in H.
    destruct (0 <? pending_flips s) eqn:E.
    + apply bind_inv in H. destruct H as (u & s1 & H1 & H).
      destruct (counted_wait_for_event cfg arrived s u s1 Hc Hmax H1) as [Hc1 Hsz].
      destruct (IH s1 closed s' Hc1 ltac:(lia) H) as (IH1 & IH2 & _).
      split; [ exact IH1 | ]. split; [ exact IH2 | ].
      intros He. exfalso. exact (Hpos s Hc E He).
    + unfold ret in H. injection H as <- <-.
      split; [ intros _; apply Hzero; assumption | ].
      split; [ discriminate | ]. intros _. split; reflexivity.
Qed.

Lemma CloseScreen_drains_witness :
  exists s',
    ARMSOCDRI2CloseScreen (ex_cfg true) [ [ (ex_env 1, 6%nat) ] ] ex_flight
    = Some (true, s') /\
    cmds s' = ∅ /\ pending_flips s' = 0.
Proof.
  destruct (ARMSOCDRI2CloseScreen (ex_cfg true) [ [ (ex_env 1, 6%nat) ] ] ex_flight)
    as [[closed s'] |] eqn:E; [ | vm_compute in E; discriminate E ].
  assert (Hclosed : closed = true).
  { revert E. vm_compute. intros E. injection E as <- _. reflexivity. }
  subst closed.
  destruct (CloseScreen_drains (ex_cfg true) [ [ (ex_env 1, 6%nat) ] ] ex_flight true s')
    as (H & _ & _).
  - split; [ reflexivity | ].
    intros c [x Hx]. simpl in Hx. apply lookup_singleton_Some in Hx.
    destruct Hx as [<- _]. simpl. lia.
  - vm_compute. discriminate.
  - exact E.
  - exists s'. split; [ reflexivity | ]. exact (H eq_refl).
Defined.

Lemma wait_for_event_flip_events cfg env cmd n s :
  drmmode_wait_for_event cfg (replicate n (env, cmd)) s = flip_events cfg env cmd n s.
Proof.
  revert s. induction n as [| n IH]; intros s; [ reflexivity | ].
  simpl. unfold bind. destruct (ARMSOCDRI2SwapComplete cfg env cmd s) as [[u s1] |];
    [ apply IH | reflexivity ].
Qed.

(** X8: a screen that is closed while a swap is in flight waits for it.
    After a swap was scheduled with no other flip in flight,
    ARMSOCDRI2CloseScreen, once the flip events the swap awaits have
    arrived, leaves its loop and goes on to DRI2CloseScreen, and the swap
    has settled by then: the command is freed, the client was told what a
    completion tells it, and the reference counts of the two buffers and of
    their memory objects are what they were before the schedule. *)
Theorem CloseScreen_after_schedule cfg env cl d dst src fn dt s
    bs bd ps pd xs xd os od rs rd :
  swap_request cfg env d src dst s bs bd ps pd xs xd os od rs rd ->
  pending_flips s = 0 ->
  let flip := do_flip (bo_fb_id rs) (bo_fb_id rd) (canflip cfg d)
                (bo_width rs) (bo_width rd) (bo_height rs) (bo_height rd) in
  let r := env_page_flip env in
  let n := Z.to_nat (events_awaited cfg flip r) in
  exists s1 s2,
    ARMSOCDRI2ScheduleSwap cfg env cl d dst src fn dt s
    = Some (negb (flip && (r <? 0)), s1) /\
    ARMSOCDRI2CloseScreen cfg [ replicate n (env, next_addr s) ] s1 = Some (true, s2) /\
    swap_settled (next_addr s) src dst os od (refcnt bs) (refcnt bd)
      (bo_refcnt rs) (bo_refcnt rd) 0 (swap_notice cl d fn dt flip r s) s s2.
Proof.
  intros Hreq Hp0 flip r n.
  destruct (swap_runs cfg env cl d dst src fn dt s bs bd ps pd xs xd os od rs rd Hreq)
    as (s1 & s2 & Hrun & Hwait & Hev & Hdone).
  fold flip r in Hrun, Hwait, Hev, Hdone. rewrite Hp0 in Hdone.
  exists s1, s2.
  split; [ exact Hrun | ]. split; [ | exact Hdone ].
  destruct (Z.lt_ge_cases 0 (events_awaited cfg flip r)) as [Hn | Hn].
  - destruct (Hwait Hn) as (_ & _ & _ & Hp1 & _).
    simpl. unfold bind at 1, gets. rewrite Hp1, Hp0. simpl (0 <? 0 + 1). cbv iota.
    eapply bind_run.
    { rewrite wait_for_event_flip_events. exact Hev. }
    unfold bind, gets, ret. rewrite (ss_pending _ _ _ _ _ _ _ _ _ _ _ _ _ Hdone).
    reflexivity.
  - assert (Hz : n = 0%nat) by (unfold n; lia).
    fold n in Hev. rewrite Hz in Hev |- *. simpl in Hev. injection Hev as <-.
    simpl. unfold bind at 1, gets.
    rewrite (ss_pending _ _ _ _ _ _ _ _ _ _ _ _ _ Hdone). reflexivity.
Qed.

Lemma CloseScreen_after_schedule_witness :
  exists s1 s2,
    ARMSOCDRI2ScheduleSwap (ex_cfg true) (ex_env 2) 55 ex_win 2%nat 5%nat 66 77 ex_state
    = Some (true, s1) /\
    ARMSOCDRI2CloseScreen (ex_cfg true) [ [ (ex_env 2, 6%nat); (ex_env 2, 6%nat) ] ] s1
    = Some (true, s2) /\
    cmds s2 !! 6%nat = None /\ pending_flips s2 = 0.
Proof.
  assert (Hr : - 2 ^ 31 <= 2 <= INT_MAX) by (unfold INT_MAX; lia).
  destruct (CloseScreen_after_schedule (ex_cfg true) (ex_env 2) 55 ex_win 2%nat 5%nat
              66 77 ex_state ex_back ex_front 4%nat 1%nat ex_back_pix ex_front_pix
              3%nat 0%nat ex_back_bo ex_front_bo (ex_request true 2 Hr) eq_refl)
    as (s1 & s2 & H1 & H2 & []).
  exists s1, s2. split; [ exact H1 | ]. split; [ exact H2 | ].
  split; assumption.
Defined.

(** *** Buffers: creation, reuse and release *)

(** X9: a reuse notification settles the lazy framebuffer state: a second
    notification for the same drawable, right after the first, changes
    nothing and makes no call.  In particular the one attempt to attach a
    framebuffer to a window that became flip-eligible is not repeated while
    the window stays as it is, also when the attempt failed; and a
    framebuffer that was detached from a window that is no longer
    flip-eligible is not detached again. *)
Theorem ReuseBufferNotify_settles cfg env env' d b r p0 px bo rb s :
  buffers s !! b = Some r ->
  pPixmaps r !! 0%nat = Some (Some p0) ->
  pixmaps s !! p0 = Some px -> pix_bo px = Some bo -> bos s !! bo = Some rb ->
  exists s1,
    ARMSOCDRI2ReuseBufferNotify cfg env d b s = Some (tt, s1) /\
    ARMSOCDRI2ReuseBufferNotify cfg env' d b s1 = Some (tt, s1).
Proof.
  intros Hb Hp0 Hpx Hbo Hrb.
  destruct (attachment r =? DRI2BufferFrontLeft) eqn:Hfront.
  { exists s. assert (Hrun : forall e, ARMSOCDRI2ReuseBufferNotify cfg e d b s = Some (tt, s)).
    { intros e. unfold ARMSOCDRI2ReuseBufferNotify.
      eapply bind_run; [ mrun | cbv beta ]. rewrite Hfront. reflexivity. }
    split; apply Hrun. }
  destruct (canflip cfg d) eqn:Hcf;
    destruct (attempted_fb_alloc r) eqn:Hat;
    destruct (bo_fb_id rb =? 0) eqn:Hfb;
    destruct (env_add_fb env) as [fb |] eqn:Hadd;
    (eexists; split;
     [ unfold ARMSOCDRI2ReuseBufferNotify;
       eapply bind_run; [ mrun | cbv beta ]; rewrite Hfront;
       do 4 (eapply bind_run; [ mrun | cbv beta ]);
       rewrite Hbo, Hcf, Hat, Hfb; simpl;
       unfold armsoc_bo_add_fb; rewrite ?Hadd;
       repeat (eapply bind_run; [ mrun | cbv beta ]); first [ reflexivity | mrun ]
     | ]).
  all: unfold ARMSOCDRI2ReuseBufferNotify.
  all: eapply bind_run; [ mrun | cbv beta ].
  all: unfold set_attempted_fb_alloc; cbn [attachment pPixmaps attempted_fb_alloc].
  all: rewrite ?Hfront.
  all: do 4 (eapply bind_run; [ mrun | cbv beta ]).
  all: rewrite ?Hbo, ?Hcf; simpl; rewrite ?Hat, ?Hfb; simpl.
  all: reflexivity.
Qed.

Lemma ReuseBufferNotify_settles_witness :
  exists s1,
    ARMSOCDRI2ReuseBufferNotify (ex_cfg true) ex_env_nofb ex_win 5%nat ex_unmapped
    = Some (tt, s1) /\
    trace s1 = [EvAddFb 3%nat] /\
    ARMSOCDRI2ReuseBufferNotify (ex_cfg true) (ex_env 1) ex_win 5%nat s1 = Some (tt, s1).
Proof.
  destruct (ReuseBufferNotify_settles (ex_cfg true) ex_env_nofb (ex_env 1) ex_win 5%nat
              (set_attempted_fb_alloc false ex_back) 4%nat ex_back_pix 3%nat
              (set_bo_fb_id 0 ex_back_bo) ex_unmapped)
    as (s1 & H1 & H2); try reflexivity.
  exists s1. split; [ exact H1 | ]. split; [ | exact H2 ].
  revert H1. vm_compute. intros H1. injection H1 as <-. reflexivity.
Defined.

(** X10: a reference that is given back leaves no mark.
    ARMSOCDRI2ReferenceBuffer followed by ARMSOCDRI2DestroyBuffer on a
    buffer that was alive (with room in its counter) leaves the whole state
    as it was: the release only takes the count down again, destroys no
    pixmap and does not free the record. *)
Theorem reference_then_destroy cfg d b r p0 s :
  buffers s !! b = Some r ->
  pPixmaps r !! 0%nat = Some (Some p0) ->
  is_Some (pixmaps s !! p0) ->
  1 <= refcnt r < INT_MAX ->
  (ARMSOCDRI2ReferenceBuffer b ;; ARMSOCDRI2DestroyBuffer cfg d b) s = Some (tt, s).
Proof.
  intros Hb Hp0 Hpix Hr. unfold INT_MAX in Hr.
  eapply bind_run; [ mrun | cbv beta ].
  fold (buf_ref r).
  rewrite (DestroyBuffer_keep cfg d b (buf_ref r) p0).
  - rewrite upd_buffers_insert_twice.
    rewrite buf_unref_ref by (unfold INT_MAX; lia).
    rewrite upd_buffers_insert_id by exact Hb. reflexivity.
  - apply lookup_insert_eq.
  - exact Hp0.
  - exact Hpix.
  - simpl. rewrite (to_int_id (refcnt r + 1)) by (unfold INT_MAX; lia).
    rewrite to_int_id by (unfold INT_MAX; lia). lia.
Qed.

Lemma reference_then_destroy_witness :
  (ARMSOCDRI2ReferenceBuffer 5%nat ;; ARMSOCDRI2DestroyBuffer (ex_cfg true) (Some ex_win) 5%nat)
    ex_state
  = Some (tt, ex_state).
Proof.
  apply (reference_then_destroy (ex_cfg true) (Some ex_win) 5%nat ex_back 4%nat ex_state).
  - reflexivity.
  - reflexivity.
  - eexists. reflexivity.
  - vm_compute. intuition discriminate.
Defined.

(** X11: the release of the last reference.  When
    ARMSOCDRI2DestroyBuffer takes the reference count of a buffer to zero
    (or below) and returns, the record is freed, and before that the pixmaps
    of the ring were released slot by slot from slot 0, each deregistered
    and then destroyed, up to the first empty slot and at most
    [driNumBufs - 1] of them for a back buffer and one for any other
    buffer; nothing else was called and no swap command, counter or scanout
    object was touched.  For a back buffer this needs more than one
    configured buffer. *)
Theorem DestroyBuffer_last_reference cfg d b r s s' :
  buffers s !! b = Some r ->
  - 2 ^ 31 < refcnt r <= 1 ->
  ARMSOCDRI2DestroyBuffer cfg d b s = Some (tt, s') ->
  buffers s' = delete b (buffers s) /\
  trace s' = trace s
             ++ release_calls (released_slots (pPixmaps r)
                                 (Z.to_nat (release_bound cfg r))) /\
  cmds s' = cmds s /\ drawables s' = drawables s /\
  pending_flips s' = pending_flips s /\ scanout s' = scanout s /\
  (attachment r = DRI2BufferBackLeft -> 1 < driNumBufs cfg).
Proof.
  intros Hb Hr H. unfold ARMSOCDRI2DestroyBuffer in H.
  apply bind_inv in H. destruct H as (buf & s1 & H1 & H).
  apply load_buf_inv in H1. destruct H1 as [-> Hb'].
  rewrite Hb in Hb'. injection Hb' as <-.
  apply bind_inv in H. destruct H as (slot & s1 & H1 & H).
  apply array_get_inv in H1. destruct H1 as (-> & _ & _).
  apply bind_inv in H. destruct H as (pix & s1 & H1 & H).
  destruct slot as [p |]; [ | discriminate H1 ].
  unfold deref, ret in H1. injection H1 as <- <-.
  apply bind_inv in H. destruct H as (x & s1 & H1 & H).
  unfold load_pix in H1. destruct (pixmaps s !! p); [ | discriminate H1 ].
  unfold deref, ret in H1. injection H1 as _ <-.
  apply bind_inv in H. destruct H as (u & s1 & H1 & H).
  apply update_buf_inv in H1. destruct H1 as (r' & Hb' & ->).
  rewrite Hb in Hb'. injection Hb' as <-.
  assert (Hn : to_int (refcnt r - 1) = refcnt r - 1).
  { apply to_int_id. unfold INT_MAX. lia. }
  rewrite Hn in H.
  destruct (0 <? refcnt r - 1) eqn:E; [ lia | ].
  set (s1 := upd_buffers (insert b (set_refcnt (refcnt r - 1) r)) s) in *.
  apply bind_inv in H. destruct H as (numBuffers & s2 & H2 & H).
  assert (Hnum : s2 = s1 /\ numBuffers = release_bound cfg r /\
                 (attachment r = DRI2BufferBackLeft -> 1 < driNumBufs cfg)).
  { unfold release_bound. destruct (attachment r =? DRI2BufferBackLeft) eqn:A.
    - apply bind_inv in H2. destruct H2 as (u2 & s3 & H3 & H2).
      apply c_assert_inv in H3. destruct H3 as [-> Hd].
      unfold ret in H2. injection H2 as <- <-.
      repeat split. intros _. lia.
    - unfold ret in H2. injection H2 as <- <-.
      repeat split. intros Ha. rewrite Ha in A. discriminate A. }
  destruct Hnum as (-> & -> & Hcfg).
  apply bind_inv in H. destruct H as (u3 & s3 & H3 & H).
  apply (destroy_pixmaps_calls _ _ 0 ltac:(lia)) in H3.
  unfold modify in H. injection H as <-.
  destruct H3 as (Ht & Hbufs & Hc & Hd & Hp & Hsc). simpl in *.
  split; [ rewrite Hbufs; apply delete_insert_eq | ].
  split; [ exact Ht | ]. auto.
Qed.

Lemma DestroyBuffer_last_reference_witness :
  exists s',
    ARMSOCDRI2DestroyBuffer (ex_cfg true) (Some ex_win) 5%nat ex_state = Some (tt, s') /\
    buffers s' = delete 5%nat (buffers ex_state) /\
    trace s' = [EvDeregisterExternalAccess 4%nat; EvDestroyPixmap 4%nat].
Proof.
  destruct (ARMSOCDRI2DestroyBuffer (ex_cfg true) (Some ex_win) 5%nat ex_state)
    as [[[] s'] |] eqn:E; [ | vm_compute in E; discriminate E ].
  destruct (DestroyBuffer_last_reference (ex_cfg true) (Some ex_win) 5%nat ex_back
              ex_state s') as (Hb & Ht & _).
  - reflexivity.
  - vm_compute. intuition discriminate.
  - exact E.
  - exists s'. split; [ reflexivity | ]. split; [ exact Hb | exact Ht ].
Defined.

Lemma CreateBuffer_front_run cfg env d fmt s x bo rb :
  env_calloc env = true -> env_array env = true ->
  pixmaps s !! d_pix d = Some x -> pix_bo x = Some bo -> bos s !! bo = Some rb ->
  - 2 ^ 31 <= pix_refcnt x < INT_MAX ->
  exists s',
    ARMSOCDRI2CreateBuffer cfg env d DRI2BufferFrontLeft fmt s
    = Some (Some (next_addr s), s') /\
    buffers s' = <[next_addr s :=
                    {| attachment := DRI2BufferFrontLeft; name := bo_name rb;
                       pitch := to_unsigned (pix_devKind x); cpp := pix_bitsPerPixel x / 8;
                       format := fmt; base_flags := 0;
                       pPixmaps := [Some (d_pix d)]; currentPixmap := 0;
                       numPixmaps := 1; refcnt := 1;
                       attempted_fb_alloc := false |}]> (buffers s) /\
    pixmaps s' = <[d_pix d := set_pix_refcnt (pix_refcnt x + 1) x]> (pixmaps s) /\
    bos s' = bos s /\
    trace s' = trace s ++ [EvRegisterExternalAccess (d_pix d)].
Proof.
  intros Hc Ha Hx Hbo Hrb Hr. unfold INT_MAX in Hr.
  eexists. split.
  - unfold ARMSOCDRI2CreateBuffer. rewrite Hc, Ha. simpl negb. cbv iota.
    change (DRI2BufferFrontLeft =? DRI2BufferFrontLeft) with true. cbv iota.
    eapply bind_run; [ mrun | cbv beta iota ].
    change (DRI2BufferFrontLeft =? DRI2BufferBackLeft) with false.
    simpl andb. cbv iota zeta.
    eapply bind_run; [ apply run_c_assert; reflexivity | cbv beta ].
    eapply bind_run; [ mrun | cbv beta iota ].
    unfold set_pix_refcnt at 1. cbn [pix_bo draw2pix]. rewrite Hbo.
    do 4 (eapply bind_run; [ mrun | cbv beta iota ]).
    rewrite andb_false_r.
    eapply bind_run; [ reflexivity | cbv beta ].
    eapply bind_run; [ mrun | cbv beta ].
    reflexivity.
  - simpl. rewrite to_int_id by (unfold INT_MAX; lia).
    repeat split; reflexivity.
Qed.

(** X12: the front buffer wraps the pixmap of its window.
    ARMSOCDRI2CreateBuffer for the attachment FrontLeft creates no pixmap:
    the record's single slot holds the pixmap the window has, on which it
    takes one reference; the record takes its pitch from that pixmap (the
    pixmap's pitch brought into the range of the [unsigned int] that holds
    it), its bytes per pixel from the pixmap's bits per pixel and its name
    from the pixmap's memory object, and starts with one reference.  No
    framebuffer is attached and none is attempted, also when the window is
    flip-eligible; the one call made registers the pixmap for external
    access. *)
Theorem CreateBuffer_front cfg env d fmt s x bo rb :
  env_calloc env = true -> env_array env = true ->
  pixmaps s !! d_pix d = Some x -> pix_bo x = Some bo -> bos s !! bo = Some rb ->
  - 2 ^ 31 <= pix_refcnt x < INT_MAX ->
  exists s',
    ARMSOCDRI2CreateBuffer cfg env d DRI2BufferFrontLeft fmt s
    = Some (Some (next_addr s), s') /\
    buffers s' = <[next_addr s :=
                    {| attachment := DRI2BufferFrontLeft; name := bo_name rb;
                       pitch := to_unsigned (pix_devKind x); cpp := pix_bitsPerPixel x / 8;
                       format := fmt; base_flags := 0;
                       pPixmaps := [Some (d_pix d)]; currentPixmap := 0;
                       numPixmaps := 1; refcnt := 1;
                       attempted_fb_alloc := false |}]> (buffers s) /\
    pixmaps s' = <[d_pix d := set_pix_refcnt (pix_refcnt x + 1) x]> (pixmaps s) /\
    bos s' = bos s /\
    trace s' = trace s ++ [EvRegisterExternalAccess (d_pix d)].
Proof. exact (CreateBuffer_front_run cfg env d fmt s x bo rb). Qed.

Lemma CreateBuffer_front_witness :
  exists s',
    ARMSOCDRI2CreateBuffer (ex_cfg true) (ex_env 1) ex_win DRI2BufferFrontLeft 0 ex_init
    = Some (Some 2%nat, s') /\
    buffers s' = {[ 2%nat := ex_front ]} /\
    trace s' = [EvRegisterExternalAccess 1%nat].
Proof.
  destruct (CreateBuffer_front (ex_cfg true) (ex_env 1) ex_win 0 ex_init
              (set_pix_refcnt 1 ex_front_pix) 0%nat ex_front_bo)
    as (s' & Hrun & Hb & _ & _ & Ht); try reflexivity.
  - vm_compute. intuition discriminate.
  - exists s'. split; [ exact Hrun | ]. split; [ exact Hb | exact Ht ].
Defined.

(** X13: a buffer other than the front buffer that is created for a
    flip-eligible drawable.  ARMSOCDRI2CreateBuffer asks for a scanout
    pixmap, makes one attempt to attach a framebuffer to its memory object
    and sets [attempted_fb_alloc], and registers the pixmap.  The creation
    succeeds whether or not the attach does: when it fails the memory object
    keeps the framebuffer id it came with and the buffer is there all the
    same (swaps on it fall back to blits).  The record starts at slot 0
    with one reference, the ring depth of its attachment and the name of
    the memory object. *)
Theorem CreateBuffer_flippable cfg env d att fmt s np nb :
  att <> DRI2BufferFrontLeft ->
  canflip cfg d = true ->
  env_calloc env = true -> env_array env = true ->
  env_CreatePixmap env = Some np -> np_bo np = Some nb ->
  let bo := next_addr s in
  let pix := S (next_addr s) in
  let b := S (S (next_addr s)) in
  exists s' r o,
    ARMSOCDRI2CreateBuffer cfg env d att fmt s = Some (Some b, s') /\
    buffers s' = <[b := r]> (buffers s) /\
    attachment r = att /\ attempted_fb_alloc r = true /\ refcnt r = 1 /\
    name r = nb_name nb /\ currentPixmap r = 0 /\
    pPixmaps r !! 0%nat = Some (Some pix) /\
    numPixmaps r = (if (att =? DRI2BufferBackLeft) && (2 <? driNumBufs cfg)
                    then to_unsigned (driNumBufs cfg - 1) else 1) /\
    (pix_bo <$> pixmaps s' !! pix) = Some (Some bo) /\
    bos s' !! bo = Some o /\
    bo_fb_id o = match env_add_fb env with
                 | Some fb => Z.pos fb
                 | None => nb_fb_id nb
                 end /\
    trace s' = trace s
               ++ [EvCreatePixmap (d_width d) (d_height d) (d_depth d)
                     ARMSOC_CREATE_PIXMAP_SCANOUT;
                   EvAddFb bo; EvRegisterExternalAccess pix].
Proof.
  intros Hatt Hcf Hc Ha Hnp Hnb bo pix b.
  assert (Hfront : (att =? DRI2BufferFrontLeft) = false) by (apply Z.eqb_neq; exact Hatt).
  set (ring := (att =? DRI2BufferBackLeft) && (2 <? driNumBufs cfg)).
  set (arr := if ring then replicate (Z.to_nat (driNumBufs cfg - 1)) None
              else [@None addr]).
  assert (Hlen : (0 < length arr)%nat).
  { unfold arr, ring. destruct (att =? DRI2BufferBackLeft); simpl; [ | lia ].
    destruct (2 <? driNumBufs cfg) eqn:E; simpl; [ | lia ].
    rewrite length_replicate. lia. }
  destruct (env_add_fb env) as [fb |] eqn:Hadd.
  - eexists _, _, _. split.
    + unfold ARMSOCDRI2CreateBuffer. rewrite Hc, Hfront, Ha. simpl negb. cbv iota.
      eapply bind_run.
      { unfold createpix. rewrite Hcf. eapply CreatePixmap_backed; eassumption. }
      cbv beta iota. fold ring. fold arr.
      eapply bind_run.
      { apply run_c_assert. apply bool_decide_eq_true. exact Hlen. }
      cbv beta.
      eapply bind_run; [ mrun | cbv beta iota ].
      do 4 (eapply bind_run; [ mrun | cbv beta iota ]).
      rewrite Hcf. simpl andb. cbv iota.
      eapply bind_run.
      { unfold armsoc_bo_add_fb. rewrite Hadd.
        repeat (eapply bind_run; [ mrun | cbv beta iota ]). mrun. }
      cbv beta.
      eapply bind_run; [ mrun | cbv beta ].
      reflexivity.
    + simpl. rewrite !insert_insert_eq, !lookup_insert_eq.
      repeat split; try reflexivity.
      * simpl. apply list_lookup_insert_eq. exact Hlen.
      * rewrite <- !app_assoc. reflexivity.
  - eexists _, _, _. split.
    + unfold ARMSOCDRI2CreateBuffer. rewrite Hc, Hfront, Ha. simpl negb. cbv iota.
      eapply bind_run.
      { unfold createpix. rewrite Hcf. eapply CreatePixmap_backed; eassumption. }
      cbv beta iota. fold ring. fold arr.
      eapply bind_run.
      { apply run_c_assert. apply bool_decide_eq_true. exact Hlen. }
      cbv beta.
      eapply bind_run; [ mrun | cbv beta iota ].
      do 4 (eapply bind_run; [ mrun | cbv beta iota ]).
      rewrite Hcf. simpl andb. cbv iota.
      eapply bind_run.
      { unfold armsoc_bo_add_fb. rewrite Hadd.
        repeat (eapply bind_run; [ mrun | cbv beta iota ]). mrun. }
      cbv beta.
      eapply bind_run; [ mrun | cbv beta ].
      reflexivity.
    + simpl. rewrite !insert_insert_eq, !lookup_insert_eq.
      repeat split; try reflexivity.
      * simpl. apply list_lookup_insert_eq. exact Hlen.
      * rewrite <- !app_assoc. reflexivity.
Qed.

Lemma CreateBuffer_flippable_witness :
  exists s',
    ARMSOCDRI2CreateBuffer (ex_cfg true) ex_env_nofb ex_win DRI2BufferBackLeft 0 ex_init
    = Some (Some 4%nat, s') /\
    (attempted_fb_alloc <$> buffers s' !! 4%nat) = Some true /\
    (numPixmaps <$> buffers s' !! 4%nat) = Some 2 /\
    (bo_fb_id <$> bos s' !! 2%nat) = Some 0 /\
    trace s' = [EvCreatePixmap 640 480 24 ARMSOC_CREATE_PIXMAP_SCANOUT;
                EvAddFb 2%nat; EvRegisterExternalAccess 3%nat].
Proof.
  destruct (CreateBuffer_flippable (ex_cfg true) ex_env_nofb ex_win DRI2BufferBackLeft 0
              ex_init _ _ ltac:(discriminate) eq_refl eq_refl eq_refl eq_refl eq_refl)
    as (s' & r & o & Hrun & Hb & _ & Hat & _ & _ & _ & _ & Hn & _ & Ho & Hfb & Ht).
  exists s'. split; [ exact Hrun | ].
  change (next_addr ex_init) with 2%nat in Ho.
  rewrite Hb, lookup_insert_eq, Ho. simpl. rewrite Hat, Hn, Hfb.
  repeat split. exact Ht.
Defined.

(** The last reference of a buffer whose ring has one pixmap, which nobody
    else holds: the pixmap and its memory object go with the record. *)
Lemma DestroyBuffer_single cfg d b r pix rest x bo o (todo : nat) s :
  buffers s !! b = Some r ->
  refcnt r = 1 ->
  pPixmaps r = Some pix :: rest ->
  (rest = [] /\ todo = 0%nat) \/ (exists rest', rest = None :: rest') ->
  release_bound cfg r = Z.of_nat (S todo) ->
  (attachment r = DRI2BufferBackLeft -> 1 < driNumBufs cfg) ->
  pixmaps s !! pix = Some x -> pix_refcnt x = 1 -> pix_bo x = Some bo ->
  bos s !! bo = Some o -> bo_refcnt o = 1 ->
  ARMSOCDRI2DestroyBuffer cfg d b s
  = Some (tt, upd_buffers (delete b)
                (upd_pixmaps (delete pix)
                   (upd_bos (delete bo)
                      (upd_trace (fun t => (t ++ [EvDeregisterExternalAccess pix])
                                           ++ [EvDestroyPixmap pix]) s)))).
Proof.
  intros Hb Hr Harr Hrest Hbound Hcfg Hx Hxr Hxb Ho Hor.
  unfold ARMSOCDRI2DestroyBuffer.
  eapply bind_run; [ mrun | cbv beta ].
  rewrite Harr.
  do 4 (eapply bind_run; [ mrun | cbv beta ]).
  rewrite Hr. change (to_int (1 - 1)) with 0. simpl (0 <? 0). cbv iota.
  eapply bind_run.
  { instantiate (1 := upd_buffers (insert b (set_refcnt 0 r)) s).
    instantiate (1 := Z.of_nat (S todo)).
    unfold release_bound in Hbound.
    destruct (attachment r =? DRI2BufferBackLeft) eqn:A.
    - apply Z.eqb_eq in A. specialize (Hcfg A).
      eapply bind_run; [ apply run_c_assert; apply Z.ltb_lt; exact Hcfg | ].
      rewrite Hbound. reflexivity.
    - rewrite Hbound. reflexivity. }
  cbv beta. rewrite Nat2Z.id.
  eapply bind_run.
  { simpl destroy_pixmaps. eapply bind_run; [ reflexivity | cbv beta iota ].
    eapply bind_run; [ mrun | cbv beta ].
    eapply bind_run.
    { eapply DestroyPixmap_last_backed; [ lookups | eassumption.. | lookups | assumption ]. }
    cbv beta.
    instantiate (1 := upd_pixmaps (delete pix)
                        (upd_bos (delete bo)
                           (upd_trace (fun t => t ++ [EvDestroyPixmap pix])
                              (upd_trace (fun t => t ++ [EvDeregisterExternalAccess pix])
                                 (upd_buffers (insert b (set_refcnt 0 r)) s))))).
    destruct Hrest as [[-> ->] | [rest' ->]]; [ reflexivity | ].
    destruct todo; reflexivity. }
  cbv beta. unfold modify. simpl. unfold upd_buffers, upd_pixmaps, upd_bos, upd_trace.
  simpl. rewrite delete_insert_eq. reflexivity.
Qed.

(** The creation of a buffer other than the front buffer, when the pixmap
    comes with a memory object. *)
Lemma CreateBuffer_backed cfg env d att fmt s np nb :
  att <> DRI2BufferFrontLeft ->
  env_calloc env = true -> env_array env = true ->
  env_CreatePixmap env = Some np -> np_bo np = Some nb ->
  let bo := next_addr s in
  let pix := S (next_addr s) in
  let b := S (S (next_addr s)) in
  exists s' r x o,
    ARMSOCDRI2CreateBuffer cfg env d att fmt s = Some (Some b, s') /\
    buffers s' = <[b := r]> (buffers s) /\
    pixmaps s' = <[pix := x]> (pixmaps s) /\
    bos s' = <[bo := o]> (bos s) /\
    cmds s' = cmds s /\ drawables s' = drawables s /\
    pending_flips s' = pending_flips s /\ scanout s' = scanout s /\
    attachment r = att /\ refcnt r = 1 /\
    pPixmaps r = initial_ring cfg att pix /\
    attempted_fb_alloc r = canflip cfg d /\
    pix_refcnt x = 1 /\ pix_bo x = Some bo /\ bo_refcnt o = 1 /\
    trace s' = trace s ++ create_calls cfg d bo.
Proof.
  intros Hatt Hc Ha Hnp Hnb bo pix b. unfold initial_ring, create_calls.
  assert (Hfront : (att =? DRI2BufferFrontLeft) = false) by (apply Z.eqb_neq; exact Hatt).
  set (ring := (att =? DRI2BufferBackLeft) && (2 <? driNumBufs cfg)).
  set (arr := if ring then replicate (Z.to_nat (driNumBufs cfg - 1)) None
              else [@None addr]).
  assert (Hlen : (0 < length arr)%nat).
  { unfold arr, ring. destruct (att =? DRI2BufferBackLeft); simpl; [ | lia ].
    destruct (2 <? driNumBufs cfg) eqn:E; simpl; [ | lia ].
    rewrite length_replicate. lia. }
  destruct (canflip cfg d) eqn:Hcf; destruct (env_add_fb env) as [fb |] eqn:Hadd.
  all: eexists _, _, _, _; split;
    [ unfold ARMSOCDRI2CreateBuffer; rewrite Hc, Hfront, Ha; simpl negb; cbv iota;
      eapply bind_run;
      [ unfold createpix; rewrite Hcf; eapply CreatePixmap_backed; eassumption | ];
      cbv beta iota; fold ring; fold arr;
      eapply bind_run; [ apply run_c_assert; apply bool_decide_eq_true; exact Hlen | ];
      cbv beta;
      eapply bind_run; [ mrun | cbv beta iota ];
      do 4 (eapply bind_run; [ mrun | cbv beta iota ]);
      rewrite Hcf; simpl andb; cbv iota;
      eapply bind_run;
      [ unfold armsoc_bo_add_fb; rewrite ?Hadd;
        repeat (eapply bind_run; [ mrun | cbv beta iota ]); first [ reflexivity | mrun ]
      | ];
      cbv beta;
      eapply bind_run; [ mrun | cbv beta ];
      reflexivity
    | simpl; rewrite ?insert_insert_eq, <- ?app_assoc; repeat split; reflexivity ].
Qed.

Lemma above_mark_None {A} (m : gmap nat A) (n a : nat) :
  (forall k, is_Some (m !! k) -> (k < n)%nat) -> (n <= a)%nat -> m !! a = None.
Proof.
  intros Hm Ha. destruct (m !! a) eqn:E; [ | reflexivity ].
  exfalso. assert (a < n)%nat by (apply Hm; rewrite E; eauto). lia.
Qed.

(** X14: a buffer that is created and destroyed again leaves nothing
    behind.  ARMSOCDRI2CreateBuffer for an attachment other than the front
    buffer followed by ARMSOCDRI2DestroyBuffer of the new buffer destroys
    the pixmap the creation made, after deregistering it, and with it goes
    its memory object; the buffer records, pixmaps and memory objects are
    what they were before the creation.  (A back buffer needs at least two
    configured buffers for this.) *)
Theorem create_then_destroy cfg env d dd att fmt s np nb :
  att <> DRI2BufferFrontLeft ->
  env_calloc env = true -> env_array env = true ->
  env_CreatePixmap env = Some np -> np_bo np = Some nb ->
  2 <= driNumBufs cfg <= INT_MAX ->
  heap_below s -> buffers_below s ->
  let bo := next_addr s in
  let pix := S (next_addr s) in
  let b := S (S (next_addr s)) in
  exists s1 s2,
    ARMSOCDRI2CreateBuffer cfg env d att fmt s = Some (Some b, s1) /\
    ARMSOCDRI2DestroyBuffer cfg dd b s1 = Some (tt, s2) /\
    buffers s2 = buffers s /\ pixmaps s2 = pixmaps s /\ bos s2 = bos s /\
    trace s2 = trace s ++ create_calls cfg d bo
               ++ [EvDeregisterExternalAccess pix; EvDestroyPixmap pix].
Proof.
  intros Hatt Hc Ha Hnp Hnb Hcfg [Hbp Hbb] Hbuf bo pix b.
  destruct (CreateBuffer_backed cfg env d att fmt s np nb Hatt Hc Ha Hnp Hnb)
    as (s1 & r & x & o & Hrun & Hb1 & Hp1 & Ho1 & _ & _ & _ & _ &
        Hra & Hrr & Hrp & _ & Hxr & Hxb & Hor & Ht1).
  fold bo pix b in Hrun, Hb1, Hp1, Ho1, Hrp, Hxb, Ht1.
  set (ring := (att =? DRI2BufferBackLeft) && (2 <? driNumBufs cfg)) in *.
  unfold INT_MAX in Hcfg.
  assert (Hshape : exists rest (todo : nat),
             pPixmaps r = Some pix :: rest /\
             ((rest = [] /\ todo = 0%nat) \/ (exists rest', rest = None :: rest')) /\
             release_bound cfg r = Z.of_nat (S todo)).
  { rewrite Hrp. unfold initial_ring, release_bound. rewrite Hra. fold ring.
    destruct (att =? DRI2BufferBackLeft) eqn:A; simpl in ring.
    - destruct (2 <? driNumBufs cfg) eqn:E; subst ring; cbv iota.
      + apply Z.ltb_lt in E.
        destruct (Z.to_nat (driNumBufs cfg - 1)) as [| [| k]] eqn:K; try lia.
        exists (None :: replicate k None), (S k). split; [ reflexivity | ].
        split; [ right; eexists; reflexivity | ].
        rewrite to_int_id by (unfold INT_MAX; lia). lia.
      + apply Z.ltb_ge in E. exists [], 0%nat. split; [ reflexivity | ].
        split; [ left; split; reflexivity | ].
        replace (driNumBufs cfg) with 2 by lia. reflexivity.
    - subst ring. exists [], 0%nat. split; [ reflexivity | ].
      split; [ left; split; reflexivity | reflexivity ]. }
  destruct Hshape as (rest & todo & Harr & Hrest & Hbound).
  exists s1. eexists. split; [ exact Hrun | ]. split.
  - eapply (DestroyBuffer_single cfg dd b r pix rest x bo o todo s1);
      try eassumption.
    + rewrite Hb1. apply lookup_insert_eq.
    + intros _. lia.
    + rewrite Hp1. apply lookup_insert_eq.
    + rewrite Ho1. apply lookup_insert_eq.
  - simpl. rewrite Hb1, Hp1, Ho1, Ht1.
    rewrite !delete_insert_id.
    + rewrite <- !app_assoc. repeat split.
      unfold create_calls. simpl. rewrite <- ?app_assoc. reflexivity.
    + apply (above_mark_None _ (next_addr s)); [ exact Hbb | unfold bo; lia ].
    + apply (above_mark_None _ (next_addr s)); [ exact Hbp | unfold pix; lia ].
    + apply (above_mark_None _ (next_addr s)); [ exact Hbuf | unfold b; lia ].
Qed.

Lemma ex_init_below : heap_below ex_init /\ buffers_below ex_init.
Proof.
  split; [ split | ]; intros a [x Hx]; simpl in Hx |- *.
  - apply lookup_singleton_Some in Hx. destruct Hx as [<- _]. lia.
  - apply lookup_singleton_Some in Hx. destruct Hx as [<- _]. lia.
  - rewrite lookup_empty in Hx. discriminate Hx.
Qed.

Lemma create_then_destroy_witness :
  exists s1 s2,
    ARMSOCDRI2CreateBuffer (ex_cfg true) (ex_env 1) ex_win DRI2BufferBackLeft 0 ex_init
    = Some (Some 4%nat, s1) /\
    ARMSOCDRI2DestroyBuffer (ex_cfg true) None 4%nat s1 = Some (tt, s2) /\
    buffers s2 = ∅ /\ pixmaps s2 = pixmaps ex_init /\ bos s2 = bos ex_init /\
    trace s2 = [EvCreatePixmap 640 480 24 ARMSOC_CREATE_PIXMAP_SCANOUT; EvAddFb 2%nat;
                EvRegisterExternalAccess 3%nat; EvDeregisterExternalAccess 3%nat;
                EvDestroyPixmap 3%nat].
Proof.
  destruct ex_init_below as [Hh Hb].
  destruct (create_then_destroy (ex_cfg true) (ex_env 1) ex_win None DRI2BufferBackLeft 0
              ex_init _ _ ltac:(discriminate) eq_refl eq_refl eq_refl eq_refl
              ltac:(vm_compute; intuition discriminate) Hh Hb)
    as (s1 & s2 & H1 & H2 & H3 & H4 & H5 & H6).
  exists s1, s2. repeat split; assumption.
Defined.

(** The last reference of a buffer with a single slot whose pixmap others
    hold too: the pixmap loses one reference and stays. *)
Lemma DestroyBuffer_shared cfg d b r pix x s :
  buffers s !! b = Some r ->
  refcnt r = 1 ->
  pPixmaps r = [Some pix] ->
  attachment r <> DRI2BufferBackLeft ->
  pixmaps s !! pix = Some x ->
  to_int (pix_refcnt x - 1) <> 0 ->
  ARMSOCDRI2DestroyBuffer cfg d b s
  = Some (tt, upd_buffers (delete b)
                (upd_pixmaps (insert pix (set_pix_refcnt (to_int (pix_refcnt x - 1)) x))
                   (upd_trace (fun t => (t ++ [EvDeregisterExternalAccess pix])
                                        ++ [EvDestroyPixmap pix]) s))).
Proof.
  intros Hb Hr Harr Hatt Hx Hxr.
  unfold ARMSOCDRI2DestroyBuffer.
  eapply bind_run; [ mrun | cbv beta ].
  rewrite Harr.
  do 4 (eapply bind_run; [ mrun | cbv beta ]).
  rewrite Hr. change (to_int (1 - 1)) with 0. simpl (0 <? 0). cbv iota.
  apply Z.eqb_neq in Hatt. rewrite Hatt.
  eapply bind_run; [ reflexivity | cbv beta ].
  eapply bind_run.
  { simpl destroy_pixmaps. eapply bind_run; [ reflexivity | cbv beta iota ].
    eapply bind_run; [ mrun | cbv beta ].
    eapply bind_run; [ | reflexivity ].
    unfold DestroyPixmap.
    do 2 (eapply bind_run; [ mrun | cbv beta ]).
    apply Z.eqb_neq in Hxr. rewrite Hxr. reflexivity. }
  cbv beta. unfold modify. simpl. unfold upd_buffers, upd_pixmaps, upd_trace.
  simpl. rewrite delete_insert_eq. reflexivity.
Qed.

(** X15: a front buffer that is created and destroyed again gives the
    window's pixmap back as it was.  ARMSOCDRI2CreateBuffer for FrontLeft
    followed by ARMSOCDRI2DestroyBuffer of the new buffer drops the one
    reference the creation took on the pixmap of the window, which stays
    alive with the reference count it had; the buffer records, pixmaps and
    memory objects are what they were before the creation. *)
Theorem front_create_then_destroy cfg env d dd fmt s x bo rb :
  env_calloc env = true -> env_array env = true ->
  pixmaps s !! d_pix d = Some x -> pix_bo x = Some bo -> bos s !! bo = Some rb ->
  1 <= pix_refcnt x < INT_MAX ->
  buffers_below s ->
  exists s1 s2,
    ARMSOCDRI2CreateBuffer cfg env d DRI2BufferFrontLeft fmt s
    = Some (Some (next_addr s), s1) /\
    (pix_refcnt <$> pixmaps s1 !! d_pix d) = Some (pix_refcnt x + 1) /\
    ARMSOCDRI2DestroyBuffer cfg dd (next_addr s) s1 = Some (tt, s2) /\
    buffers s2 = buffers s /\ pixmaps s2 = pixmaps s /\ bos s2 = bos s /\
    trace s2 = trace s ++ [EvRegisterExternalAccess (d_pix d);
                           EvDeregisterExternalAccess (d_pix d);
                           EvDestroyPixmap (d_pix d)].
Proof.
  intros Hc Ha Hx Hbo Hrb Hr Hbuf. unfold INT_MAX in Hr.
  destruct (CreateBuffer_front_run cfg env d fmt s x bo rb Hc Ha Hx Hbo Hrb
              ltac:(unfold INT_MAX; lia))
    as (s1 & Hrun & Hb1 & Hp1 & Ho1 & Ht1).
  exists s1. eexists. split; [ exact Hrun | ].
  split; [ rewrite Hp1, lookup_insert_eq; reflexivity | ].
  split.
  - eapply (DestroyBuffer_shared cfg dd (next_addr s) _ (d_pix d)
              (set_pix_refcnt (pix_refcnt x + 1) x) s1).
    + rewrite Hb1. apply lookup_insert_eq.
    + reflexivity.
    + reflexivity.
    + discriminate.
    + rewrite Hp1. apply lookup_insert_eq.
    + simpl. rewrite to_int_id by (unfold INT_MAX; lia). lia.
  - simpl. rewrite Hb1, Hp1, Ho1, Ht1.
    rewrite delete_insert_id
      by (apply (above_mark_None _ (next_addr s)); [ exact Hbuf | lia ]).
    rewrite insert_insert_eq.
    replace (set_pix_refcnt (to_int (pix_refcnt x + 1 - 1))
               (set_pix_refcnt (pix_refcnt x + 1) x)) with x.
    + rewrite insert_id by exact Hx. rewrite <- !app_assoc. repeat split.
    + rewrite to_int_id by (unfold INT_MAX; lia).
      replace (pix_refcnt x + 1 - 1) with (pix_refcnt x) by lia.
      destruct x; reflexivity.
Qed.

Lemma front_create_then_destroy_witness :
  exists s1 s2,
    ARMSOCDRI2CreateBuffer (ex_cfg true) (ex_env 1) ex_win DRI2BufferFrontLeft 0 ex_init
    = Some (Some 2%nat, s1) /\
    (pix_refcnt <$> pixmaps s1 !! 1%nat) = Some 2 /\
    ARMSOCDRI2DestroyBuffer (ex_cfg true) None 2%nat s1 = Some (tt, s2) /\
    buffers s2 = ∅ /\ pixmaps s2 = pixmaps ex_init.
Proof.
  destruct ex_init_below as [_ Hb].
  destruct (front_create_then_destroy (ex_cfg true) (ex_env 1) ex_win None 0 ex_init
              (set_pix_refcnt 1 ex_front_pix) 0%nat ex_front_bo
              eq_refl eq_refl eq_refl eq_refl eq_refl
              ltac:(vm_compute; intuition discriminate) Hb)
    as (s1 & s2 & H1 & H2 & H3 & H4 & H5 & _).
  exists s1, s2. repeat split; assumption.
Defined.

(** X16: an ARMSOCDRI2CreateBuffer that fails leaves nothing behind.  For
    an attachment other than the front buffer, when the record or the
    array of slots cannot be allocated, when there is no pixmap to be had
    or when the pixmap comes without a memory object, the answer is NULL,
    no buffer record was added and no framebuffer attach was attempted; a
    pixmap that had been created by then is destroyed again, so that the
    pixmaps and memory objects are what they were. *)
Theorem CreateBuffer_failure cfg env d att fmt s :
  att <> DRI2BufferFrontLeft ->
  creation_fails env ->
  heap_below s ->
  exists s',
    ARMSOCDRI2CreateBuffer cfg env d att fmt s = Some (None, s') /\
    buffers s' = buffers s /\ pixmaps s' = pixmaps s /\ bos s' = bos s /\
    trace s' = trace s ++ creation_failure_calls cfg env d (next_addr s).
Proof.
  intros Hatt Hfail [Hbp Hbb]. unfold creation_failure_calls.
  assert (Hfront : (att =? DRI2BufferFrontLeft) = false) by (apply Z.eqb_neq; exact Hatt).
  assert (Hp0 : pixmaps s !! next_addr s = None)
    by (apply (above_mark_None _ (next_addr s)); [ exact Hbp | lia ]).
  assert (Hp1 : pixmaps s !! S (next_addr s) = None)
    by (apply (above_mark_None _ (next_addr s)); [ exact Hbp | lia ]).
  assert (Hb0 : bos s !! next_addr s = None)
    by (apply (above_mark_None _ (next_addr s)); [ exact Hbb | lia ]).
  unfold ARMSOCDRI2CreateBuffer.
  destruct (env_calloc env) eqn:Hc; simpl negb; cbv iota.
  2: { exists s. rewrite app_nil_r. repeat split. }
  rewrite Hfront. unfold createpix.
  destruct (env_CreatePixmap env) as [np |] eqn:Hnp.
  2: { eexists. split.
       - eapply bind_run; [ eapply CreatePixmap_none; exact Hnp | cbv beta iota ].
         eapply bind_run; [ apply run_c_assert; reflexivity | ].
         reflexivity.
       - simpl. repeat split. }
  destruct (np_bo np) as [nb |] eqn:Hnb.
  - assert (Ha : env_array env = false).
    { destruct Hfail as [Hf | [Hf | Hf]];
        [ congruence | exact Hf | rewrite Hnp, Hnb in Hf; discriminate Hf ]. }
    eexists. split.
    + eapply bind_run; [ eapply CreatePixmap_backed; eassumption | cbv beta iota ].
      rewrite Ha. simpl negb. cbv iota.
      unfold CreateBuffer_fail. rewrite Hfront. simpl negb. cbv iota.
      eapply bind_run;
        [ eapply DestroyPixmap_last_backed; [ lookups | reflexivity.. | lookups | reflexivity ]
        | reflexivity ].
    + simpl. rewrite !delete_insert_id by assumption.
      rewrite <- !app_assoc. repeat split.
  - destruct (env_array env) eqn:Ha.
    + eexists. split.
      * eapply bind_run; [ eapply CreatePixmap_bare; eassumption | cbv beta iota ].
        simpl negb. cbv iota zeta.
        eapply bind_run.
        { apply run_c_assert. apply bool_decide_eq_true.
          destruct ((att =? DRI2BufferBackLeft) && (2 <? driNumBufs cfg)) eqn:E;
            [ | simpl; lia ].
          apply andb_true_iff in E. destruct E as [_ E]. apply Z.ltb_lt in E.
          rewrite length_replicate. lia. }
        cbv beta.
        eapply bind_run; [ mrun | cbv beta iota ].
        simpl pix_bo. cbv iota.
        unfold CreateBuffer_fail. rewrite Hfront. simpl negb. cbv iota.
        eapply bind_run;
          [ eapply DestroyPixmap_last_bare; [ lookups | reflexivity.. ] | reflexivity ].
      * simpl. rewrite !delete_insert_id by assumption.
        rewrite <- !app_assoc. repeat split.
    + eexists. split.
      * eapply bind_run; [ eapply CreatePixmap_bare; eassumption | cbv beta iota ].
        simpl negb. cbv iota.
        unfold CreateBuffer_fail. rewrite Hfront. simpl negb. cbv iota.
        eapply bind_run;
          [ eapply DestroyPixmap_last_bare; [ lookups | reflexivity.. ] | reflexivity ].
      * simpl. rewrite !delete_insert_id by assumption.
        rewrite <- !app_assoc. repeat split.
Qed.

Lemma CreateBuffer_failure_witness :
  exists s',
    ARMSOCDRI2CreateBuffer (ex_cfg true)
      {| env_calloc := true; env_array := false;
         env_CreatePixmap := env_CreatePixmap (ex_env 1);
         env_add_fb := Some 9%positive; env_page_flip := 1; env_GetScratchGC := true |}
      ex_win DRI2BufferBackLeft 0 ex_state
    = Some (None, s') /\
    buffers s' = buffers ex_state /\ pixmaps s' = pixmaps ex_state /\
    bos s' = bos ex_state /\
    trace s' = [EvCreatePixmap 640 480 24 ARMSOC_CREATE_PIXMAP_SCANOUT;
                EvDestroyPixmap 7%nat].
Proof.
  destruct (CreateBuffer_failure (ex_cfg true)
              {| env_calloc := true; env_array := false;
                 env_CreatePixmap := env_CreatePixmap (ex_env 1);
                 env_add_fb := Some 9%positive; env_page_flip := 1;
                 env_GetScratchGC := true |}
              ex_win DRI2BufferBackLeft 0 ex_state)
    as (s' & H1 & H2 & H3 & H4 & H5).
  - discriminate.
  - right. left. reflexivity.
  - exact ex_state_below.
  - exists s'. repeat split; assumption.
Defined.

(** *** The exchange of two buffers *)

Lemma dri2draw_pixmap d b r p s :
  buffers s !! b = Some r ->
  buf_pixmap d r = Some p ->
  exists dr, dri2draw d b s = Some (dr, s) /\ draw2pix dr = p.
Proof.
  intros Hb Hp. unfold buf_pixmap in Hp. unfold dri2draw.
  destruct (attachment r =? DRI2BufferFrontLeft) eqn:E.
  - injection Hp as <-. exists (DrawWindow d). split; [ | reflexivity ].
    eapply bind_run; [ mrun | cbv beta ]. rewrite E. reflexivity.
  - destruct (0 <=? currentPixmap r) eqn:G; [ | discriminate Hp ].
    apply Z.leb_le in G.
    destruct (pPixmaps r !! Z.to_nat (currentPixmap r)) as [[q |] |] eqn:L;
      try discriminate Hp.
    simpl in Hp. injection Hp as <-.
    exists (DrawPixmap q). split; [ | reflexivity ].
    eapply bind_run; [ mrun | cbv beta ]. rewrite E.
    do 2 (eapply bind_run; [ mrun | cbv beta ]). reflexivity.
Qed.

Lemma exchangebufs_pixmaps d a b ra rb pa pb xa xb s :
  buffers s !! a = Some ra -> buffers s !! b = Some rb -> a <> b ->
  buf_pixmap d ra = Some pa -> buf_pixmap d rb = Some pb ->
  pixmaps s !! pa = Some xa -> pixmaps s !! pb = Some xb -> pa <> pb ->
  exchangebufs d a b s = Some (true, exchanged a b pa pb ra rb xa xb s).
Proof.
  intros Ha Hb Hab Hpa Hpb Hxa Hxb Hpab.
  destruct (dri2draw_pixmap d a ra pa s Ha Hpa) as (da & Hda & Ea).
  destruct (dri2draw_pixmap d b rb pb s Hb Hpb) as (db & Hdb & Eb).
  unfold exchangebufs.
  eapply bind_run; [ exact Hda | cbv beta ].
  eapply bind_run; [ exact Hdb | cbv beta zeta ].
  rewrite Ea, Eb.
  eapply bind_run.
  { unfold ARMSOCPixmapExchange.
    do 4 (eapply bind_run; [ mrun | cbv beta ]). mrun. }
  cbv beta.
  do 4 (eapply bind_run; [ mrun | cbv beta ]).
  reflexivity.
Qed.

(** X17: [exchangebufs] trades the identities of two buffers, and doing it
    again trades them back.  The two buffer records exchange their names
    and the two pixmaps behind them their memory objects, where the pixmap
    behind a front buffer is the one the window has at that moment and not
    the one the record was created with; nothing else in the records or
    among the memory objects changes.  A second exchange of the same two
    buffers restores the buffer records and the pixmaps. *)
Theorem exchangebufs_involution d a b ra rb pa pb xa xb s :
  buffers s !! a = Some ra -> buffers s !! b = Some rb -> a <> b ->
  buf_pixmap d ra = Some pa -> buf_pixmap d rb = Some pb ->
  pixmaps s !! pa = Some xa -> pixmaps s !! pb = Some xb -> pa <> pb ->
  exists s1 s2,
    exchangebufs d a b s = Some (true, s1) /\
    buffers s1 = <[b := set_name (name ra) rb]> (<[a := set_name (name rb) ra]> (buffers s)) /\
    pixmaps s1 = <[pb := set_pix_bo (pix_bo xa) xb]>
                   (<[pa := set_pix_bo (pix_bo xb) xa]> (pixmaps s)) /\
    bos s1 = bos s /\
    trace s1 = trace s ++ [EvPixmapExchange pa pb] /\
    exchangebufs d a b s1 = Some (true, s2) /\
    buffers s2 = buffers s /\ pixmaps s2 = pixmaps s /\ bos s2 = bos s.
Proof.
  intros Ha Hb Hab Hpa Hpb Hxa Hxb Hpab.
  eexists _, _.
  split; [ apply (exchangebufs_pixmaps d a b ra rb pa pb xa xb); assumption | ].
  split; [ reflexivity | ]. split; [ reflexivity | ]. split; [ reflexivity | ].
  split; [ reflexivity | ].
  split.
  - apply (exchangebufs_pixmaps d a b (set_name (name rb) ra) (set_name (name ra) rb)
             pa pb (set_pix_bo (pix_bo xb) xa) (set_pix_bo (pix_bo xa) xb)).
    + simpl. rewrite lookup_insert_ne by congruence. apply lookup_insert_eq.
    + simpl. apply lookup_insert_eq.
    + exact Hab.
    + exact Hpa.
    + exact Hpb.
    + simpl. rewrite lookup_insert_ne by congruence. apply lookup_insert_eq.
    + simpl. apply lookup_insert_eq.
    + exact Hpab.
  - simpl. split; [ | split; [ | reflexivity ] ].
    + apply map_eq. intros i.
      destruct (decide (i = b)) as [-> | Hib].
      * rewrite lookup_insert_eq, Hb. destruct rb; reflexivity.
      * rewrite lookup_insert_ne by congruence.
        destruct (decide (i = a)) as [-> | Hia].
        -- rewrite lookup_insert_eq, Ha. destruct ra; reflexivity.
        -- rewrite !lookup_insert_ne by congruence. reflexivity.
    + apply map_eq. intros i.
      destruct (decide (i = pb)) as [-> | Hib].
      * rewrite lookup_insert_eq, Hxb. destruct xb; reflexivity.
      * rewrite lookup_insert_ne by congruence.
        destruct (decide (i = pa)) as [-> | Hia].
        -- rewrite lookup_insert_eq, Hxa. destruct xa; reflexivity.
        -- rewrite !lookup_insert_ne by congruence. reflexivity.
Qed.

Lemma exchangebufs_involution_witness :
  exists s1 s2,
    exchangebufs ex_win 5%nat 2%nat ex_state = Some (true, s1) /\
    (name <$> buffers s1 !! 5%nat) = Some 1000 /\
    (name <$> buffers s1 !! 2%nat) = Some 1001 /\
    (pix_bo <$> pixmaps s1 !! 4%nat) = Some (Some 0%nat) /\
    (pix_bo <$> pixmaps s1 !! 1%nat) = Some (Some 3%nat) /\
    exchangebufs ex_win 5%nat 2%nat s1 = Some (true, s2) /\
    buffers s2 = buffers ex_state /\ pixmaps s2 = pixmaps ex_state.
Proof.
  destruct (exchangebufs_involution ex_win 5%nat 2%nat ex_back ex_front 4%nat 1%nat
              ex_back_pix ex_front_pix ex_state)
    as (s1 & s2 & H1 & Hb & Hp & _ & _ & H2 & Hb2 & Hp2 & _);
    try reflexivity; try discriminate.
  exists s1, s2. split; [ exact H1 | ].
  rewrite Hb, Hp.
  repeat split; try reflexivity; assumption.
Defined.

(** *** The frame counter *)

Lemma to_card64_sum a b :
  to_card64 (to_card64 (to_card64 a * 1000000) + to_card64 b)
  = to_card64 (a * 1000000 + b).
Proof.
  unfold to_card64.
  rewrite Zmult_mod_idemp_l, Zplus_mod_idemp_l, Zplus_mod_idemp_r. reflexivity.
Qed.

(** X18: what ARMSOCDRI2GetMSC reports.  It answers TRUE exactly when the
    interface supports the vblank query and drmWaitVBlank returned 0.  When
    it answers FALSE what the two out-parameters point to is untouched.
    When it answers TRUE, a non-NULL [ust] receives the time of the reply
    in microseconds, [tval_sec * 1000000 + tval_usec], the exact number
    whenever that fits 64 bits, and a non-NULL [msc] receives the sequence
    number; a NULL out-parameter is skipped. *)
Theorem GetMSC_reports supported ret reply ust msc :
  0 <= tval_sec reply * 1000000 + tval_usec reply < 2 ^ 64 ->
  0 <= sequence reply < 2 ^ 32 ->
  let '(ok, ust', msc') := ARMSOCDRI2GetMSC supported (ret, reply) ust msc in
  (ok = true <-> supported = true /\ ret = 0) /\
  (ok = false -> ust' = ust /\ msc' = msc) /\
  (ok = true ->
   ust' = (fun _ => tval_sec reply * 1000000 + tval_usec reply) <$> ust /\
   msc' = (fun _ => sequence reply) <$> msc).
Proof.
  intros Ht Hs. unfold ARMSOCDRI2GetMSC.
  destruct supported; simpl negb; cbv iota.
  - destruct (ret =? 0) eqn:E; simpl negb; cbv iota.
    + apply Z.eqb_eq in E. split; [ tauto | ]. split; [ discriminate | ]. intros _.
      rewrite to_card64_sum. unfold to_card64.
      rewrite !Z.mod_small by lia.
      split; [ destruct ust | destruct msc ]; reflexivity.
    + apply Z.eqb_neq in E. split; [ | split; [ auto | discriminate ] ].
      split; [ discriminate | ]. intros [_ H]. contradiction.
  - split; [ | split; [ auto | discriminate ] ].
    split; [ discriminate | ]. intros [H _]. discriminate H.
Qed.

Lemma GetMSC_reports_witness :
  ARMSOCDRI2GetMSC true (0, {| tval_sec := 12; tval_usec := 345678; sequence := 720 |})
    (Some 0) None
  = (true, Some 12345678, None).
Proof.
  pose proof (GetMSC_reports true 0
                {| tval_sec := 12; tval_usec := 345678; sequence := 720 |} (Some 0) None
                ltac:(vm_compute; intuition discriminate)
                ltac:(vm_compute; intuition discriminate)) as H.
  destruct (ARMSOCDRI2GetMSC true
              (0, {| tval_sec := 12; tval_usec := 345678; sequence := 720 |})
              (Some 0) None) as [[ok ust'] msc'].
  destruct H as (H1 & _ & H3).
  assert (Hok : ok = true) by (apply H1; split; reflexivity).
  destruct (H3 Hok) as [-> ->]. rewrite Hok. reflexivity.
Defined.

(** *** A flip in flight *)

(** X19: what ARMSOCDRI2ScheduleSwap leaves in flight.  When the swap is a
    flip, page-flip events are in use and the flip issuer's answer [r]
    leaves events to wait for ([r] of them for a flip that was issued,
    [-(r + 1)] for one that failed with [r < -1]), the call returns at once,
    with TRUE for an issued flip and FALSE for a failed one.  It has flushed
    the pending deletions and then requested one flip, of the drawable to
    the framebuffer of the source buffer's memory object with the command
    as its context; the command is alive with the number of events to wait
    for; each of the two buffers and of their memory objects carries one
    more reference and one more flip is counted in flight.  Nothing was
    exchanged, published or told to the client yet. *)
Theorem flip_left_in_flight cfg env cl d dst src fn dt s
    bs bd ps pd xs xd os od rs rd :
  swap_heap s src dst bs bd ps pd xs xd os od rs rd ->
  refs_in_range bs bd rs rd ->
  - 2 ^ 31 <= pending_flips s < INT_MAX ->
  env_calloc env = true ->
  do_flip (bo_fb_id rs) (bo_fb_id rd) (canflip cfg d)
    (bo_width rs) (bo_width rd) (bo_height rs) (bo_height rd) = true ->
  use_page_flip_events cfg = true ->
  let r := env_page_flip env in
  let n := if r <? 0 then - (r + 1) else r in
  - 2 ^ 31 <= r <= INT_MAX -> 0 < n ->
  exists s1,
    ARMSOCDRI2ScheduleSwap cfg env cl d dst src fn dt s = Some (negb (r <? 0), s1) /\
    cmds s1 = <[next_addr s := flight_cmd cl d dst src fn dt r n]> (cmds s) /\
    buffers s1 = <[dst := buf_ref bd]> (<[src := buf_ref bs]> (buffers s)) /\
    bos s1 = <[od := bo_ref rd]> (<[os := bo_ref rs]> (bos s)) /\
    pixmaps s1 = pixmaps s /\ drawables s1 = drawables s /\
    pending_flips s1 = pending_flips s + 1 /\
    scanout s1 = scanout s /\
    trace s1 = trace s
               ++ [EvPendingDeletions; EvPageFlip (d_id d) (bo_fb_id rs) (next_addr s)].
Proof.
  intros Hheap Hrange Hpend Hcalloc Hflip Hev r n Hr Hn.
  pose proof (ScheduleSwap_branch cfg env cl d dst src fn dt s _ _ _ _ _ _ _ _ _ _
                Hheap Hcalloc) as Hsched.
  rewrite Hflip in Hsched.
  set (cmd := next_addr s) in *.
  set (c0 := new_cmd cl d dst src fn dt) in *.
  set (s0 := prepared c0 src dst os od bs bd rs rd s) in *.
  assert (Hc0 : cmds s0 !! cmd = Some c0) by apply lookup_insert_eq.
  unfold INT_MAX in *.
  destruct (r <? 0) eqn:E.
  - pose proof E as E'. apply Z.ltb_lt in E.
    destruct (flip_issue_failed cfg env d cmd (bo_fb_id rs) c0 s0 Hc0 E)
      as (sm & Hissue & []).
    assert (Hcount : failed_flip_events cfg (env_page_flip env) = n).
    { rewrite failed_flip_events_value by (fold r; lia). rewrite Hev. reflexivity. }
    rewrite Hcount in *.
    exists sm. split.
    + rewrite Hsched, Hissue.
      destruct (n =? 0) eqn:N; [ apply Z.eqb_eq in N; lia | reflexivity ].
    + rewrite cc_cmds0, cc_buffers0, cc_bos0, cc_pixmaps0, cc_drawables0,
        cc_pending0, cc_scanout0, cc_trace0. simpl.
      rewrite insert_insert_eq, to_int_id by (unfold INT_MAX; lia).
      repeat split. f_equal. unfold flight_cmd. rewrite E'. reflexivity.
  - pose proof E as E'. apply Z.ltb_ge in E.
    assert (Hpos : 0 < env_page_flip env) by (fold r; lia).
    destruct (flip_issue_real cfg env d cmd (bo_fb_id rs) c0 s0 Hc0 Hpos)
      as (sm & Hissue & []).
    rewrite Hev in *. fold r in Hissue, cc_cmds0.
    exists sm. split.
    + rewrite Hsched, Hissue.
      destruct (r =? 0) eqn:N; [ apply Z.eqb_eq in N; lia | reflexivity ].
    + rewrite cc_cmds0, cc_buffers0, cc_bos0, cc_pixmaps0, cc_drawables0,
        cc_pending0, cc_scanout0, cc_trace0. simpl.
      rewrite insert_insert_eq, to_int_id by (unfold INT_MAX; lia).
      repeat split. f_equal. unfold flight_cmd. rewrite E'. reflexivity.
Qed.

Lemma flip_left_in_flight_witness :
  ARMSOCDRI2ScheduleSwap (ex_cfg true) (ex_env 1) 55 ex_win 2%nat 5%nat 66 77 ex_state
  = Some (true, ex_flight).
Proof.
  destruct (flip_left_in_flight (ex_cfg true) (ex_env 1) 55 ex_win 2%nat 5%nat 66 77
              ex_state ex_back ex_front 4%nat 1%nat ex_back_pix ex_front_pix
              3%nat 0%nat ex_back_bo ex_front_bo)
    as (s1 & H1 & _).
  - exact ex_heap.
  - vm_compute. intuition discriminate.
  - vm_compute. intuition discriminate.
  - reflexivity.
  - reflexivity.
  - reflexivity.
  - vm_compute. intuition discriminate.
  - reflexivity.
  - rewrite H1. revert H1. vm_compute. intros H1. injection H1 as <-. reflexivity.
Defined.

(** *** The ring: an advance into an empty slot, and the exported name *)

Lemma empty_slot_positive r :
  ring_ok r -> pPixmaps r !! Z.to_nat (next_slot r) = Some None -> 0 < next_slot r.
Proof.
  intros Hok Hslot. pose proof (next_slot_range r Hok) as Hrange.
  destruct Hok as (_ & _ & _ & (p0 & Hp0)).
  destruct (Z.eq_dec (next_slot r) 0) as [Hz | Hz]; [ | lia ].
  rewrite Hz in Hslot. change (Z.to_nat 0) with 0%nat in Hslot.
  rewrite Hp0 in Hslot. discriminate.
Qed.

Lemma nextBuffer_alloc_run cfg env d b r s np nb :
  2 < driNumBufs cfg ->
  buffers s !! b = Some r ->
  ring_ok r ->
  pPixmaps r !! Z.to_nat (next_slot r) = Some None ->
  env_CreatePixmap env = Some np -> np_bo np = Some nb ->
  nb_fb_id nb <> 0 \/ is_Some (env_add_fb env) ->
  let bo := next_addr s in
  let pix := S (next_addr s) in
  exists s' x rb,
    nextBuffer cfg env d b s = Some (tt, s') /\
    buffers s' = <[b := set_name (nb_name nb)
                          (set_pPixmaps (<[Z.to_nat (next_slot r) := Some pix]> (pPixmaps r))
                             (set_currentPixmap (next_slot r) r))]> (buffers s) /\
    pixmaps s' !! pix = Some x /\ pix_refcnt x = 1 /\ pix_bo x = Some bo /\
    bos s' !! bo = Some rb /\ bo_fb_id rb <> 0 /\ bo_name rb = nb_name nb /\
    trace s' = trace s ++ alloc_success_calls cfg d nb bo /\
    (forall a, (a < next_addr s)%nat -> pixmaps s' !! a = pixmaps s !! a) /\
    (forall a, (a < next_addr s)%nat -> bos s' !! a = bos s !! a) /\
    cmds s' = cmds s /\ pending_flips s' = pending_flips s /\ scanout s' = scanout s.
Proof.
  intros Hn Hb Hok Hslot Hnp Hnb Hfb bo pix.
  pose proof (next_slot_range r Hok) as Hrange.
  pose proof (empty_slot_positive r Hok Hslot) as Hpos.
  destruct Hok as ((Hc0 & Hc1) & Hlen & Hmax & (p0 & Hp0)).
  set (r1 := set_currentPixmap (next_slot r) r).
  set (s1 := upd_buffers (insert b r1) s).
  destruct (allocNextBuffer_gives cfg env d s1 np nb Hnp Hnb Hfb)
    as (s2 & x & rb & Halloc & Hx & Hxr & Hxb & Hrb & Hfbz & Hnm & _ & Ht & []).
  assert (Hb2 : buffers s2 !! b = Some r1).
  { rewrite af_buffers0. apply lookup_insert_eq. }
  exists (upd_buffers (insert b (set_name (nb_name nb)
             (set_pPixmaps (<[Z.to_nat (currentPixmap r1) := Some pix]> (pPixmaps r1)) r1)))
            s2), x, rb.
  split.
  - unfold nextBuffer.
    destruct (driNumBufs cfg <=? 2) eqn:E; [ lia | ].
    do 2 (eapply bind_run; [ mrun | cbv beta ]).
    eapply bind_run.
    { apply run_c_assert. simpl. apply negb_true_iff, Z.eqb_neq. lia. }
    cbv beta.
    do 2 (eapply bind_run; [ mrun | cbv beta ]).
    simpl currentPixmap. simpl numPixmaps. simpl pPixmaps.
    rewrite to_unsigned_id by (unfold UINT_MAX in *; lia).
    fold (next_slot r).
    eapply bind_run; [ apply run_array_get; [ lia | exact Hslot ] | cbv beta iota ].
    rewrite !upd_buffers_insert_twice.
    replace (set_currentPixmap (next_slot r)
               (set_currentPixmap (currentPixmap r + 1) r)) with r1
      by (destruct r; reflexivity).
    fold s1.
    eapply bind_run; [ exact Halloc | cbv beta iota ].
    unfold update_buf. eapply bind_run; [ apply run_load_buf; exact Hb2 | reflexivity ].
  - simpl. rewrite af_buffers0. simpl. rewrite insert_insert_eq.
    split; [ reflexivity | ].
    split; [ exact Hx | ]. split; [ exact Hxr | ]. split; [ exact Hxb | ].
    split; [ exact Hrb | ]. split; [ exact Hfbz | ]. split; [ exact Hnm | ].
    split; [ exact Ht | ]. auto.
Qed.

(** X20: an advance of the ring into an empty slot that can be filled.
    When the slot after the current one is empty and the collaborators
    answer so that the allocation works, [nextBuffer] makes that slot
    current, puts a new pixmap into it, which it has registered and whose
    memory object has a framebuffer, and takes the name of that memory
    object as the buffer's name.  The depth of the ring, the other slots and
    the reference count of the record stay, and so does everything that was
    there before. *)
Theorem nextBuffer_fills_slot cfg env d b r s np nb :
  2 < driNumBufs cfg ->
  buffers s !! b = Some r ->
  ring_ok r ->
  pPixmaps r !! Z.to_nat (next_slot r) = Some None ->
  env_CreatePixmap env = Some np -> np_bo np = Some nb ->
  nb_fb_id nb <> 0 \/ is_Some (env_add_fb env) ->
  let bo := next_addr s in
  let pix := S (next_addr s) in
  exists s' r' x rb,
    nextBuffer cfg env d b s = Some (tt, s') /\
    buffers s' = <[b := r']> (buffers s) /\
    currentPixmap r' = next_slot r /\
    pPixmaps r' = <[Z.to_nat (next_slot r) := Some pix]> (pPixmaps r) /\
    name r' = nb_name nb /\
    numPixmaps r' = numPixmaps r /\ refcnt r' = refcnt r /\
    attachment r' = attachment r /\
    pixmaps s' !! pix = Some x /\ pix_bo x = Some bo /\
    bos s' !! bo = Some rb /\ bo_fb_id rb <> 0 /\ bo_name rb = nb_name nb /\
    trace s' = trace s ++ alloc_success_calls cfg d nb bo /\
    (forall a, (a < next_addr s)%nat -> pixmaps s' !! a = pixmaps s !! a) /\
    (forall a, (a < next_addr s)%nat -> bos s' !! a = bos s !! a).
Proof.
  intros Hn Hb Hok Hslot Hnp Hnb Hfb bo pix.
  destruct (nextBuffer_alloc_run cfg env d b r s np nb Hn Hb Hok Hslot Hnp Hnb Hfb)
    as (s' & x & rb & Hrun & Hbufs & Hx & _ & Hxb & Hrb & Hfbz & Hnm & Ht & Hp & Ho & _).
  eexists s', _, x, rb. split; [ exact Hrun | ]. split; [ exact Hbufs | ].
  simpl. repeat split; assumption.
Qed.

Lemma nextBuffer_fills_slot_witness :
  exists s' r',
    nextBuffer (ex_cfg true) (ex_env 1) ex_win 5%nat ex_state = Some (tt, s') /\
    buffers s' !! 5%nat = Some r' /\
    currentPixmap r' = 1 /\ pPixmaps r' = [Some 4%nat; Some 7%nat] /\ name r' = 1001.
Proof.
  destruct (nextBuffer_fills_slot (ex_cfg true) (ex_env 1) ex_win 5%nat ex_back ex_state
              {| np_devKind := 2560; np_bitsPerPixel := 32;
                 np_bo := Some {| nb_name := 1001; nb_fb_id := 0;
                                  nb_width := 640; nb_height := 480 |} |}
              {| nb_name := 1001; nb_fb_id := 0; nb_width := 640; nb_height := 480 |})
    as (s' & r' & x & rb & Hrun & Hb & Hc & Hp & Hnm & _); try reflexivity.
  - repeat split; try (simpl; lia); try (vm_compute; intuition discriminate).
    exists 4%nat. reflexivity.
  - right. eexists. reflexivity.
  - exists s', r'. split; [ exact Hrun | ].
    split; [ rewrite Hb; apply lookup_insert_eq | ].
    split; [ exact Hc | ]. split; [ exact Hp | exact Hnm ].
Defined.

(** X21: the name a buffer exports stays the name of the memory object
    behind its current slot across every advance of its ring.  Whether
    [nextBuffer] does nothing (double buffering), reuses the pixmap of the
    next slot, fills an empty slot, or falls back to the slot it was at
    because the allocation failed, the record's name afterwards is the name
    of the memory object of the pixmap in the slot that is then current, if
    it was so before. *)
Theorem nextBuffer_keeps_name cfg env d b r s :
  buffers s !! b = Some r ->
  (2 < driNumBufs cfg -> ring_ok r /\ slot_ready s r) ->
  heap_below s ->
  name_current s r ->
  exists s' r',
    nextBuffer cfg env d b s = Some (tt, s') /\
    buffers s' !! b = Some r' /\
    name_current s' r'.
Proof.
  intros Hb Hring [Hbp Hbo] Hname.
  destruct (Z.le_gt_cases (driNumBufs cfg) 2) as [Hle | Hgt].
  { exists s, r. split; [ | split; assumption ].
    unfold nextBuffer. apply Z.leb_le in Hle. rewrite Hle. reflexivity. }
  assert (Hn : 2 < driNumBufs cfg) by lia.
  destruct (Hring Hn) as [Hok Hready].
  destruct (ring_slot_present r Hok) as [slot Hslot].
  destruct slot as [pix |].
  - destruct (Hready pix Hslot) as (px & bo & rb & Hpix & Hpbo & Hrb).
    eexists _, _. split; [ eapply nextBuffer_reuse; eassumption | ].
    split; [ apply lookup_insert_eq | ].
    exists pix, px, bo, rb. simpl. auto.
  - destruct Hname as (pix & px & bo & rb & Hcur & Hpix & Hpbo & Hrb & Hnm).
    assert (Hpl : (pix < next_addr s)%nat) by (apply Hbp; eauto).
    assert (Hbl : (bo < next_addr s)%nat) by (apply Hbo; eauto).
    destruct (alloc_outcome env) as [Hfail | (np & nb & Hnp & Hnb & Hfb)].
    + destruct (nextBuffer_fails cfg env d b r s Hn Hb Hok Hslot Hfail)
        as (_ & _ & s' & Hrun & Hbuf & Hpix' & Hbos' & _).
      exists s', (set_numPixmaps (currentPixmap r + 1) r).
      split; [ exact Hrun | ]. split; [ rewrite Hbuf; apply lookup_insert_eq | ].
      exists pix, px, bo, rb. simpl.
      rewrite (Hpix' pix Hpl), (Hbos' bo Hbl). auto.
    + destruct (nextBuffer_alloc_run cfg env d b r s np nb Hn Hb Hok Hslot Hnp Hnb Hfb)
        as (s' & x & ro & Hrun & Hbufs & Hx & _ & Hxb & Hro & _ & Hnm' & _).
      eexists s', _. split; [ exact Hrun | ].
      split; [ rewrite Hbufs; apply lookup_insert_eq | ].
      exists (S (next_addr s)), x, (next_addr s), ro. simpl.
      split; [ | auto ].
      apply list_lookup_insert_eq.
      pose proof (next_slot_range r Hok). destruct Hok as (_ & Hlen & _). lia.
Qed.

Lemma nextBuffer_keeps_name_witness :
  exists s' r',
    nextBuffer (ex_cfg true) ex_env_nofb ex_win 5%nat ex_state = Some (tt, s') /\
    buffers s' !! 5%nat = Some r' /\ name_current s' r'.
Proof.
  apply (nextBuffer_keeps_name (ex_cfg true) ex_env_nofb ex_win 5%nat ex_back ex_state).
  - reflexivity.
  - intros _. split.
    + repeat split; try (simpl; lia); try (vm_compute; intuition discriminate).
      exists 4%nat. reflexivity.
    + intros pix Hpix. vm_compute in Hpix. discriminate Hpix.
  - exact ex_state_below.
  - exists 4%nat, ex_back_pix, 3%nat, ex_back_bo. repeat split.
Defined.

(** *** Buffers that are destroyed while their flip is in flight *)

(** The last reference of a buffer whose ring has one pixmap, from what the
    release of that pixmap does. *)
Lemma DestroyBuffer_one cfg d b r pix rest (todo : nat) s s2 :
  buffers s !! b = Some r ->
  refcnt r = 1 ->
  pPixmaps r = Some pix :: rest ->
  (rest = [] /\ todo = 0%nat) \/ (exists rest', rest = None :: rest') ->
  release_bound cfg r = Z.of_nat (S todo) ->
  (attachment r = DRI2BufferBackLeft -> 1 < driNumBufs cfg) ->
  is_Some (pixmaps s !! pix) ->
  (ARMSOCDeregisterExternalAccess pix ;; DestroyPixmap pix)
    (upd_buffers (insert b (set_refcnt 0 r)) s) = Some (tt, s2) ->
  ARMSOCDRI2DestroyBuffer cfg d b s = Some (tt, upd_buffers (delete b) s2).
Proof.
  intros Hb Hr Harr Hrest Hbound Hcfg [x Hx] Hrel.
  unfold ARMSOCDRI2DestroyBuffer.
  eapply bind_run; [ mrun | cbv beta ].
  rewrite Harr.
  do 4 (eapply bind_run; [ mrun | cbv beta ]).
  rewrite Hr. change (to_int (1 - 1)) with 0. simpl (0 <? 0). cbv iota.
  eapply bind_run.
  { instantiate (1 := upd_buffers (insert b (set_refcnt 0 r)) s).
    instantiate (1 := Z.of_nat (S todo)).
    unfold release_bound in Hbound.
    destruct (attachment r =? DRI2BufferBackLeft) eqn:A.
    - apply Z.eqb_eq in A. specialize (Hcfg A).
      eapply bind_run; [ apply run_c_assert; apply Z.ltb_lt; exact Hcfg | ].
      rewrite Hbound. reflexivity.
    - rewrite Hbound. reflexivity. }
  cbv beta. rewrite Nat2Z.id.
  eapply bind_run; [ | reflexivity ].
  simpl destroy_pixmaps. eapply bind_run; [ reflexivity | cbv beta iota ].
  apply bind_inv in Hrel. destruct Hrel as (u1 & s1 & H1 & H2).
  eapply bind_run; [ exact H1 | cbv beta ].
  eapply bind_run; [ exact H2 | cbv beta ].
  destruct Hrest as [[-> ->] | [rest' ->]]; [ reflexivity | ].
  destruct todo; reflexivity.
Qed.

Section LastCompletion.

Variables (cfg : ARMSOCRec) (env : Env) (cmd : addr) (c : ARMSOCDRISwapCmd).
Variables (s : State) (bs bd : ARMSOCDRI2BufferRec) (ps pd : addr) (xs xd : Pixmap).
Variables (os od : addr) (rs rd : armsoc_bo) (rest : list (option addr)) (todo : nat).

Hypothesis Hcmd : cmds s !! cmd = Some c.
Hypothesis Hcount : to_int (swapCount c - 1) <= 0.
Hypothesis Hheap : swap_heap s (pSrcBuffer c) (pDstBuffer c) bs bd ps pd xs xd os od rs rd.
Hypothesis Hplain :
  Z.land (flags c) ARMSOC_SWAP_FAIL <> 0 \/ drawables s !! draw_id c = None
  \/ real_flip c = false.
Hypothesis Hsrc_ref : refcnt bs = 1.
Hypothesis Hdst_ref : refcnt bd = 1.
Hypothesis Hsrc_ring : pPixmaps bs = Some ps :: rest.
Hypothesis Hsrc_rest : (rest = [] /\ todo = 0%nat) \/ (exists rest', rest = None :: rest').
Hypothesis Hsrc_bound : release_bound cfg bs = Z.of_nat (S todo).
Hypothesis Hsrc_cfg : attachment bs = DRI2BufferBackLeft -> 1 < driNumBufs cfg.
Hypothesis Hdst_ring : pPixmaps bd = [Some pd].
Hypothesis Hdst_att : attachment bd <> DRI2BufferBackLeft.
Hypothesis Hxs : pix_refcnt xs = 1.
Hypothesis Hxd : 2 <= pix_refcnt xd <= INT_MAX.
Hypothesis Hrs : bo_refcnt rs = 2.
Hypothesis Hrd : 2 <= bo_refcnt rd <= INT_MAX.

Lemma SwapComplete_last :
  exists s',
    ARMSOCDRI2SwapComplete cfg env cmd s = Some (tt, s') /\
    cmds s' = delete cmd (cmds s) /\
    buffers s' = delete (pDstBuffer c) (delete (pSrcBuffer c) (buffers s)) /\
    pixmaps s' = <[pd := set_pix_refcnt (pix_refcnt xd - 1) xd]> (delete ps (pixmaps s)) /\
    bos s' = <[od := bo_unref rd]> (delete os (bos s)) /\
    drawables s' = drawables s /\
    pending_flips s' = to_int (pending_flips s - 1) /\
    scanout s' = scanout s /\
    trace s' = trace s ++ completion_notice c s
               ++ [EvDeregisterExternalAccess ps; EvDestroyPixmap ps;
                   EvDeregisterExternalAccess pd; EvDestroyPixmap pd].
Proof.
  destruct Hheap.
  set (src := pSrcBuffer c) in *. set (dst := pDstBuffer c) in *.
  unfold INT_MAX in *.
  eexists. split.
  - unfold ARMSOCDRI2SwapComplete.
    do 2 (eapply bind_run; [ mrun | cbv beta ]).
    simpl. destruct (0 <? to_int (swapCount c - 1)) eqn:E; [ lia | ].
    eapply bind_run; [ eapply boFromBuffer_run; eauto | cbv beta ].
    eapply bind_run; [ eapply boFromBuffer_run; eauto | cbv beta ].
    set (s0 := upd_cmds _ s).
    lazymatch goal with
    | |- bind ?m _ _ = _ =>
        assert (Hmid : exists pDraw,
          m s0 = Some (pDraw, upd_trace (fun t => t ++ completion_notice c s) s0))
    end.
    { unfold completion_notice.
      change (flags (set_swapCount (to_int (swapCount c - 1)) c)) with (flags c).
      change (real_flip (set_swapCount (to_int (swapCount c - 1)) c))
        with (real_flip c).
      destruct (Z.land (flags c) ARMSOC_SWAP_FAIL =? 0) eqn:F.
      - unfold bind at 1, dixLookupDrawable, gets. simpl.
        destruct (drawables s !! draw_id c) as [d|] eqn:D.
        + destruct (real_flip c) eqn:R.
          * exfalso. destruct Hplain as [Hf | [Hd | Hr]]; [ lia | | ]; discriminate.
          * exists (Some d). reflexivity.
        + exists None. rewrite upd_trace_nil. reflexivity.
      - exists None. rewrite upd_trace_nil. reflexivity. }
    destruct Hmid as [pDraw Hmid].
    eapply bind_run; [ exact Hmid | cbv beta ].
    fold src dst.
    eapply bind_run.
    { eapply (DestroyBuffer_one cfg pDraw src bs ps rest todo); try eassumption.
      - exists xs. exact sh_src_pix0.
      - unfold s0.
        eapply bind_run; [ mrun | cbv beta ].
        unfold DestroyPixmap.
        do 2 (eapply bind_run; [ mrun | cbv beta ]).
        rewrite Hxs, sh_src_bo0. change (to_int (1 - 1) =? 0) with true. cbv iota.
        eapply bind_run; [ | reflexivity ].
        eapply unreference_keep; [ lookups | ].
        rewrite Hrs. discriminate. }
    cbv beta.
    eapply bind_run.
    { eapply (DestroyBuffer_shared cfg pDraw dst bd pd xd); try eassumption.
      - simpl. rewrite lookup_delete_ne by congruence.
        rewrite lookup_insert_ne by congruence. exact sh_dst0.
      - simpl. rewrite lookup_delete_ne by congruence. exact sh_dst_pix0.
      - rewrite to_int_id by (unfold INT_MAX; lia). lia. }
    cbv beta.
    rewrite sh_src_bo0, sh_dst_bo0.
    eapply bind_run.
    { unfold armsoc_bo_unreference.
      do 2 (eapply bind_run; [ mrun | cbv beta ]).
      simpl. rewrite Hrs. change (to_int (to_int (2 - 1) - 1) =? 0) with true.
      reflexivity. }
    cbv beta.
    eapply bind_run.
    { eapply unreference_keep.
      - simpl. rewrite lookup_delete_ne by congruence.
        rewrite lookup_insert_ne by congruence. exact sh_dst_obj0.
      - rewrite to_int_id by (unfold INT_MAX; lia). lia. }
    cbv beta. reflexivity.
  - simpl.
    rewrite (to_int_id (pix_refcnt xd - 1)) by (unfold INT_MAX; lia).
    split; [ apply delete_insert_eq | ].
    split; [ rewrite delete_insert_eq; reflexivity | ].
    split; [ reflexivity | ].
    split; [ rewrite delete_insert_eq; reflexivity | ].
    rewrite <- !app_assoc. repeat split.
Qed.

End LastCompletion.

(** X22: buffers that the client gives up while their flip is in flight
    live until the flip completes.  In a state with a flip in flight whose
    two buffers carry the reference of the DRI2 core and the one the
    schedule took, the core's ARMSOCDRI2DestroyBuffer on each buffer only
    takes the counts down: both records stay, and nothing is released.  The
    completion that the last flip event then brings, for a flip that failed
    or a drawable that is gone, runs on the records that are still there and
    frees them: the back buffer's pixmap is destroyed and its memory object
    goes with the reference the schedule held, the front buffer's pixmap and
    memory object lose one reference each, the command is freed and the
    flip counted out; nobody is told. *)
Theorem buffers_destroyed_in_flight cfg env dd cmd c s
    bs bd ps pd xs xd os od rs rd rest (todo : nat) :
  cmds s !! cmd = Some c ->
  - 2 ^ 31 < swapCount c <= 1 ->
  swap_heap s (pSrcBuffer c) (pDstBuffer c) bs bd ps pd xs xd os od rs rd ->
  Z.land (flags c) ARMSOC_SWAP_FAIL <> 0 \/ drawables s !! draw_id c = None ->
  refcnt bs = 2 -> refcnt bd = 2 ->
  pPixmaps bs = Some ps :: rest ->
  (rest = [] /\ todo = 0%nat) \/ (exists rest', rest = None :: rest') ->
  release_bound cfg bs = Z.of_nat (S todo) ->
  (attachment bs = DRI2BufferBackLeft -> 1 < driNumBufs cfg) ->
  pPixmaps bd = [Some pd] -> attachment bd <> DRI2BufferBackLeft ->
  pix_refcnt xs = 1 -> 2 <= pix_refcnt xd <= INT_MAX ->
  bo_refcnt rs = 2 -> 2 <= bo_refcnt rd <= INT_MAX ->
  let src := pSrcBuffer c in
  let dst := pDstBuffer c in
  exists s1 s2,
    (ARMSOCDRI2DestroyBuffer cfg dd src ;; ARMSOCDRI2DestroyBuffer cfg dd dst) s
    = Some (tt, s1) /\
    (refcnt <$> buffers s1 !! src) = Some 1 /\
    (refcnt <$> buffers s1 !! dst) = Some 1 /\
    pixmaps s1 = pixmaps s /\ bos s1 = bos s /\ trace s1 = trace s /\
    ARMSOCDRI2SwapComplete cfg env cmd s1 = Some (tt, s2) /\
    cmds s2 = delete cmd (cmds s) /\
    buffers s2 = delete dst (delete src (buffers s)) /\
    pixmaps s2 = <[pd := set_pix_refcnt (pix_refcnt xd - 1) xd]> (delete ps (pixmaps s)) /\
    bos s2 = <[od := bo_unref rd]> (delete os (bos s)) /\
    pending_flips s2 = to_int (pending_flips s - 1) /\
    scanout s2 = scanout s /\
    trace s2 = trace s ++ [EvDeregisterExternalAccess ps; EvDestroyPixmap ps;
                           EvDeregisterExternalAccess pd; EvDestroyPixmap pd].
Proof.
  intros Hc Hn Hheap Hgone Hbs Hbd Hring Hrest Hbound Hcfg Hdring Hdatt
    Hxs Hxd Hrs Hrd src dst.
  pose proof Hheap as Hheap0. destruct Hheap0.
  fold src dst in sh_src0, sh_dst0, sh_bufs0.
  set (s1 := upd_buffers (insert dst (buf_unref bd))
               (upd_buffers (insert src (buf_unref bs)) s)).
  assert (Hrun1 : (ARMSOCDRI2DestroyBuffer cfg dd src ;; ARMSOCDRI2DestroyBuffer cfg dd dst) s
                  = Some (tt, s1)).
  { eapply bind_run.
    - apply (DestroyBuffer_keep cfg dd src bs ps); try assumption.
      + rewrite Hring. reflexivity.
      + eauto.
      + rewrite Hbs. reflexivity.
    - cbv beta. apply (DestroyBuffer_keep cfg dd dst bd pd).
      + simpl. rewrite lookup_insert_ne by congruence. exact sh_dst0.
      + rewrite Hdring. reflexivity.
      + simpl. eauto.
      + rewrite Hbd. reflexivity. }
  assert (Hheap1 : swap_heap s1 src dst (buf_unref bs) (buf_unref bd)
                     ps pd xs xd os od rs rd).
  { constructor; simpl; try assumption.
    - rewrite lookup_insert_ne by congruence. apply lookup_insert_eq.
    - apply lookup_insert_eq. }
  assert (Hnotice : completion_notice c s1 = []).
  { unfold completion_notice. simpl.
    destruct (Z.land (flags c) ARMSOC_SWAP_FAIL =? 0) eqn:F; [ | reflexivity ].
    apply Z.eqb_eq in F. destruct Hgone as [Hf | Hd]; [ contradiction | ].
    rewrite Hd. reflexivity. }
  destruct (SwapComplete_last cfg env cmd c s1 (buf_unref bs) (buf_unref bd)
              ps pd xs xd os od rs rd rest todo)
    as (s2 & Hrun2 & H1 & H2 & H3 & H4 & H5 & H6 & H7 & H8); try assumption.
  - rewrite to_int_id by (unfold INT_MAX; lia). lia.
  - destruct Hgone as [Hf | Hd]; [ left; exact Hf | right; left; exact Hd ].
  - simpl. rewrite Hbs. reflexivity.
  - simpl. rewrite Hbd. reflexivity.
  - exists s1, s2. split; [ exact Hrun1 | ].
    split; [ simpl; rewrite lookup_insert_ne by congruence;
             rewrite lookup_insert_eq; simpl; rewrite Hbs; reflexivity | ].
    split; [ simpl; rewrite lookup_insert_eq; simpl; rewrite Hbd; reflexivity | ].
    split; [ reflexivity | ]. split; [ reflexivity | ]. split; [ reflexivity | ].
    split; [ exact Hrun2 | ].
    split; [ exact H1 | ].
    split.
    { rewrite H2. simpl. fold src dst.
      rewrite delete_insert_ne by congruence.
      rewrite !delete_insert_eq. reflexivity. }
    split; [ exact H3 | ]. split; [ exact H4 | ].
    split; [ exact H6 | ]. split; [ exact H7 | ].
    rewrite H8, Hnotice. reflexivity.
Qed.

Lemma buffers_destroyed_in_flight_witness :
  exists s1 s2,
    (ARMSOCDRI2DestroyBuffer (ex_cfg true) None 5%nat ;;
     ARMSOCDRI2DestroyBuffer (ex_cfg true) None 2%nat) ex_gone = Some (tt, s1) /\
    (refcnt <$> buffers s1 !! 5%nat) = Some 1 /\
    ARMSOCDRI2SwapComplete (ex_cfg true) (ex_env 1) 6%nat s1 = Some (tt, s2) /\
    buffers s2 !! 5%nat = None /\ buffers s2 !! 2%nat = None /\
    pixmaps s2 !! 4%nat = None /\ bos s2 !! 3%nat = None /\
    pending_flips s2 = 0.
Proof.
  destruct (buffers_destroyed_in_flight (ex_cfg true) (ex_env 1) None 6%nat ex_flip_cmd
              ex_gone (buf_ref ex_back) (buf_ref ex_front) 4%nat 1%nat
              ex_back_pix ex_front_pix 3%nat 0%nat (bo_ref ex_back_bo) (bo_ref ex_front_bo)
              [None] 1%nat)
    as (s1 & s2 & H1 & H2 & _ & _ & _ & _ & H3 & _ & H4 & H5 & H6 & H7 & _).
  - reflexivity.
  - vm_compute. intuition discriminate.
  - exact ex_gone_heap.
  - right. reflexivity.
  - reflexivity.
  - reflexivity.
  - reflexivity.
  - right. eexists. reflexivity.
  - reflexivity.
  - intros _. reflexivity.
  - reflexivity.
  - discriminate.
  - reflexivity.
  - vm_compute. intuition discriminate.
  - reflexivity.
  - vm_compute. intuition discriminate.
  - exists s1, s2. split; [ exact H1 | ]. split; [ exact H2 | ].
    split; [ exact H3 | ].
    rewrite H4, H5, H6, H7. repeat split.
Defined.

(** *** The commands that are alive *)

Lemma cmds_kept_refl s : cmds_kept s s.
Proof. split; [ reflexivity | lia ]. Qed.

Lemma cmds_kept_trans s1 s2 s3 : cmds_kept s1 s2 -> cmds_kept s2 s3 -> cmds_kept s1 s3.
Proof. intros [H1 H2] [H3 H4]. split; [ congruence | lia ]. Qed.

Create HintDb kept discriminated.

#[local] Hint Resolve cmds_kept_refl cmds_kept_trans : kept.

(** Walks a computation that leaves the swap commands alone down to its
    primitive steps. *)
Ltac cpres :=
  lazymatch goal with
  | |- preserves _ (bind _ _) =>
      apply preserves_bind; [ exact cmds_kept_trans | cpres | intro; cpres ]
  | |- preserves _ (ret _) => apply preserves_ret; exact cmds_kept_refl
  | |- preserves _ fail => apply preserves_fail
  | |- preserves _ (gets _) => apply preserves_gets; exact cmds_kept_refl
  | |- preserves _ (deref _) => apply preserves_deref; exact cmds_kept_refl
  | |- preserves _ (c_assert ?b) => unfold c_assert; cpres
  | |- preserves _ (array_get _ _) => unfold array_get; cpres
  | |- preserves _ (load_bo _) => apply preserves_load; exact cmds_kept_refl
  | |- preserves _ (load_pix _) => apply preserves_load; exact cmds_kept_refl
  | |- preserves _ (load_buf _) => apply preserves_load; exact cmds_kept_refl
  | |- preserves _ (load_cmd _) => apply preserves_load; exact cmds_kept_refl
  | |- preserves _ (emit _) => unfold emit; cpres
  | |- preserves _ fresh_addr => unfold fresh_addr; cpres
  | |- preserves _ (update_bo _ _) => unfold update_bo; cpres
  | |- preserves _ (update_pix _ _) => unfold update_pix; cpres
  | |- preserves _ (update_buf _ _) => unfold update_buf; cpres
  | |- preserves _ (if ?c then _ else _) => destruct c; cpres
  | |- preserves _ (match ?x with _ => _ end) => destruct x; cpres
  | |- preserves cmds_kept (modify _) =>
      apply preserves_modify; intro; split; [ reflexivity | simpl; lia ]
  | |- _ => first [ solve [ eauto with kept ] | idtac ]
  end.

Lemma kept_armsoc_bo_name bo : preserves cmds_kept (armsoc_bo_name bo).
Proof. unfold armsoc_bo_name. cpres. Qed.
Lemma kept_armsoc_bo_get_fb bo : preserves cmds_kept (armsoc_bo_get_fb bo).
Proof. unfold armsoc_bo_get_fb. cpres. Qed.
Lemma kept_armsoc_bo_width bo : preserves cmds_kept (armsoc_bo_width bo).
Proof. unfold armsoc_bo_width. cpres. Qed.
Lemma kept_armsoc_bo_height bo : preserves cmds_kept (armsoc_bo_height bo).
Proof. unfold armsoc_bo_height. cpres. Qed.
Lemma kept_armsoc_bo_reference bo : preserves cmds_kept (armsoc_bo_reference bo).
Proof. unfold armsoc_bo_reference. cpres. Qed.
Lemma kept_armsoc_bo_unreference bo : preserves cmds_kept (armsoc_bo_unreference bo).
Proof. unfold armsoc_bo_unreference. cpres. Qed.
Lemma kept_armsoc_bo_add_fb env bo : preserves cmds_kept (armsoc_bo_add_fb env bo).
Proof. unfold armsoc_bo_add_fb. cpres. Qed.
Lemma kept_armsoc_bo_rm_fb bo : preserves cmds_kept (armsoc_bo_rm_fb bo).
Proof. unfold armsoc_bo_rm_fb. cpres. Qed.
Lemma kept_pending_deletions : preserves cmds_kept armsoc_bo_do_pending_deletions.
Proof. unfold armsoc_bo_do_pending_deletions. cpres. Qed.
Lemma kept_CreatePixmap env w h dp u : preserves cmds_kept (CreatePixmap env w h dp u).
Proof. unfold CreatePixmap. cpres. Qed.
Lemma kept_DestroyPixmap p : preserves cmds_kept (DestroyPixmap p).
Proof. unfold DestroyPixmap, armsoc_bo_unreference. cpres. Qed.
Lemma kept_ARMSOCPixmapBo p : preserves cmds_kept (ARMSOCPixmapBo p).
Proof. unfold ARMSOCPixmapBo. cpres. Qed.
Lemma kept_ARMSOCPixmapExchange a b : preserves cmds_kept (ARMSOCPixmapExchange a b).
Proof. unfold ARMSOCPixmapExchange. cpres. Qed.
Lemma kept_Register p : preserves cmds_kept (ARMSOCRegisterExternalAccess p).
Proof. unfold ARMSOCRegisterExternalAccess. cpres. Qed.
Lemma kept_Deregister p : preserves cmds_kept (ARMSOCDeregisterExternalAccess p).
Proof. unfold ARMSOCDeregisterExternalAccess. cpres. Qed.
Lemma kept_dixLookupDrawable id : preserves cmds_kept (dixLookupDrawable id).
Proof. unfold dixLookupDrawable. cpres. Qed.
Lemma kept_drmmode_page_flip env d fb c :
  preserves cmds_kept (drmmode_page_flip env d fb c).
Proof. unfold drmmode_page_flip. cpres. Qed.
Lemma kept_DRI2SwapComplete cl d k f dt :
  preserves cmds_kept (DRI2SwapComplete cl d k f dt).
Proof. unfold DRI2SwapComplete. cpres. Qed.
Lemma kept_set_scanout_bo bo : preserves cmds_kept (set_scanout_bo bo).
Proof. unfold set_scanout_bo. cpres. Qed.

#[local] Hint Resolve kept_armsoc_bo_name kept_armsoc_bo_get_fb
  kept_armsoc_bo_width kept_armsoc_bo_height kept_armsoc_bo_reference
  kept_armsoc_bo_unreference kept_armsoc_bo_add_fb kept_armsoc_bo_rm_fb
  kept_pending_deletions kept_CreatePixmap kept_DestroyPixmap
  kept_ARMSOCPixmapBo kept_ARMSOCPixmapExchange kept_Register
  kept_Deregister kept_dixLookupDrawable kept_drmmode_page_flip
  kept_DRI2SwapComplete kept_set_scanout_bo : kept.

Lemma kept_dri2draw d b : preserves cmds_kept (dri2draw d b).
Proof. unfold dri2draw. cpres. Qed.
Lemma kept_createpix cfg env d : preserves cmds_kept (createpix cfg env d).
Proof. unfold createpix. cpres. Qed.
Lemma kept_boFromBuffer b : preserves cmds_kept (boFromBuffer b).
Proof. unfold boFromBuffer. cpres. Qed.

#[local] Hint Resolve kept_dri2draw kept_createpix kept_boFromBuffer : kept.

Lemma kept_exchangebufs d a b : preserves cmds_kept (exchangebufs d a b).
Proof. unfold exchangebufs. cpres. Qed.
Lemma kept_allocNextBuffer cfg env d : preserves cmds_kept (allocNextBuffer cfg env d).
Proof. unfold allocNextBuffer. cpres. Qed.
Lemma kept_CopyRegion env d dst src :
  preserves cmds_kept (ARMSOCDRI2CopyRegion env d dst src).
Proof. unfold ARMSOCDRI2CopyRegion. cpres. Qed.
Lemma kept_destroy_pixmaps arr n :
  forall i, preserves cmds_kept (destroy_pixmaps arr i n).
Proof. induction n as [| n IH]; intros i; simpl; cpres; try apply IH. Qed.
Lemma kept_ReferenceBuffer b : preserves cmds_kept (ARMSOCDRI2ReferenceBuffer b).
Proof. unfold ARMSOCDRI2ReferenceBuffer. cpres. Qed.

#[local] Hint Resolve kept_exchangebufs kept_allocNextBuffer kept_CopyRegion
  kept_destroy_pixmaps kept_ReferenceBuffer : kept.

Lemma kept_nextBuffer cfg env d b : preserves cmds_kept (nextBuffer cfg env d b).
Proof. unfold nextBuffer. cpres. Qed.
Lemma kept_DestroyBuffer cfg d b : preserves cmds_kept (ARMSOCDRI2DestroyBuffer cfg d b).
Proof. unfold ARMSOCDRI2DestroyBuffer. cpres. Qed.
Lemma kept_ReuseBufferNotify cfg env d b :
  preserves cmds_kept (ARMSOCDRI2ReuseBufferNotify cfg env d b).
Proof. unfold ARMSOCDRI2ReuseBufferNotify. cpres. Qed.
Lemma kept_CreateBuffer_fail p att : preserves cmds_kept (CreateBuffer_fail p att).
Proof. unfold CreateBuffer_fail. cpres. Qed.

#[local] Hint Resolve kept_nextBuffer kept_DestroyBuffer kept_ReuseBufferNotify
  kept_CreateBuffer_fail : kept.

Lemma kept_CreateBuffer cfg env d att fmt :
  preserves cmds_kept (ARMSOCDRI2CreateBuffer cfg env d att fmt).
Proof. unfold ARMSOCDRI2CreateBuffer. cpres. Qed.

(** Takes the first step off a run and records that it left the commands
    alone. *)
Ltac kept_step H Hacc :=
  let a := fresh "a" in
  let sn := fresh "sn" in
  let Hm := fresh "Hm" in
  apply bind_inv in H; destruct H as (a & sn & Hm & H);
  lazymatch type of Hm with
  | ?m _ = _ =>
      let Hp := fresh "Hp" in
      assert (Hp : preserves cmds_kept m) by cpres;
      apply Hp in Hm; clear Hp;
      pose proof (cmds_kept_trans _ _ _ Hacc Hm) as Hm';
      clear Hacc Hm; rename Hm' into Hacc
  end.

Lemma cmds_SwapComplete cfg env cmd s u s' :
  ARMSOCDRI2SwapComplete cfg env cmd s = Some (u, s') ->
  exists c,
    cmds s !! cmd = Some c /\ (next_addr s <= next_addr s')%nat /\
    cmds s' = (if 0 <? to_int (swapCount c - 1)
               then <[cmd := set_swapCount (to_int (swapCount c - 1)) c]> (cmds s)
               else delete cmd (cmds s)).
Proof.
  intros H. unfold ARMSOCDRI2SwapComplete in H.
  apply bind_inv in H. destruct H as (u1 & s1 & H1 & H).
  apply update_cmd_inv in H1. destruct H1 as (c0 & Hc0 & ->).
  apply bind_inv in H. destruct H as (c & s2 & H2 & H).
  apply load_cmd_inv in H2. destruct H2 as [-> Hc].
  simpl in Hc. rewrite lookup_insert_eq in Hc. injection Hc as <-.
  exists c0. split; [ exact Hc0 | ].
  change (swapCount (set_swapCount (to_int (swapCount c0 - 1)) c0))
    with (to_int (swapCount c0 - 1)) in H.
  set (s1 := upd_cmds (insert cmd (set_swapCount (to_int (swapCount c0 - 1)) c0)) s) in *.
  destruct (0 <? to_int (swapCount c0 - 1)).
  - unfold ret in H. injection H as _ <-. split; [ simpl; lia | reflexivity ].
  - pose proof (cmds_kept_refl s1) as Hacc.
    do 8 kept_step H Hacc.
    unfold modify in H. injection H as _ <-.
    destruct Hacc as [Hcm Hn]. simpl in *.
    split; [ exact Hn | ]. rewrite Hcm. apply delete_insert_eq.
Qed.

Lemma cmds_prepare cfg cl d dst src fn dt s cmd fb flip s0 :
  ScheduleSwap_prepare cfg cl d dst src fn dt s = Some ((cmd, fb, flip), s0) ->
  cmd = next_addr s /\
  cmds s0 = <[cmd := new_cmd cl d dst src fn dt]> (cmds s) /\
  (next_addr s <= next_addr s0)%nat.
Proof.
  intros H. unfold ScheduleSwap_prepare in H.
  apply bind_inv in H. destruct H as (c & s1 & H1 & H).
  apply fresh_addr_inv in H1. destruct H1 as [-> ->].
  apply bind_inv in H. destruct H as (u2 & s2 & H2 & H).
  unfold modify in H2. injection H2 as _ <-.
  match type of H with
  | _ ?st = _ => pose proof (cmds_kept_refl st) as Hacc
  end.
  do 13 kept_step H Hacc.
  unfold ret in H. injection H as <- _ _ <-.
  destruct Hacc as [Hc Hn]. simpl in *.
  split; [ reflexivity | ]. split; [ exact Hc | lia ].
Qed.

Lemma update_cmd_tracked cmd f s u s' (m : gmap nat ARMSOCDRISwapCmd) cK :
  cmds s = <[cmd := cK]> m ->
  update_cmd cmd f s = Some (u, s') ->
  cmds s' = <[cmd := f cK]> m /\ next_addr s' = next_addr s.
Proof.
  intros Hm H. apply update_cmd_inv in H. destruct H as (r & Hr & ->).
  rewrite Hm, lookup_insert_eq in Hr. injection Hr as <-.
  simpl. rewrite Hm, insert_insert_eq. split; reflexivity.
Qed.

Lemma kept_tracked s s' (X : gmap nat ARMSOCDRISwapCmd) :
  cmds s = X -> cmds_kept s s' -> cmds s' = X.
Proof. intros H [H1 _]. congruence. Qed.

(** The end of both branches of ARMSOCDRI2ScheduleSwap: the command either
    completes at once and is gone, or stays with the events it waits for. *)
Lemma cmds_issue cfg env cmd (res : bool) s s' (m : gmap nat ARMSOCDRISwapCmd) c :
  cmds s = <[cmd := c]> m ->
  (c0 <- load_cmd cmd ;;
   (if swapCount c0 =? 0 then ARMSOCDRI2SwapComplete cfg env cmd else ret tt) ;;
   ret res) s = Some (res, s') ->
  (swapCount c = 0 /\ cmds s' = delete cmd m) \/
  (swapCount c <> 0 /\ cmds s' = <[cmd := c]> m).
Proof.
  intros Hm H.
  apply bind_inv in H. destruct H as (c0 & s1 & H1 & H).
  apply load_cmd_inv in H1. destruct H1 as [-> Hc].
  rewrite Hm, lookup_insert_eq in Hc. injection Hc as <-.
  apply bind_inv in H. destruct H as (u & s1 & H1 & H).
  unfold ret in H. injection H as <-.
  destruct (swapCount c =? 0) eqn:E.
  - apply Z.eqb_eq in E. left. split; [ exact E | ].
    apply cmds_SwapComplete in H1. destruct H1 as (c1 & Hc1 & _ & Hcm).
    rewrite Hm, lookup_insert_eq in Hc1. injection Hc1 as <-.
    rewrite E in Hcm. change (0 <? to_int (0 - 1)) with false in Hcm.
    rewrite Hcm, Hm. apply delete_insert_eq.
  - apply Z.eqb_neq in E. right. split; [ exact E | ].
    unfold ret in H1. injection H1 as _ <-. exact Hm.
Qed.

Lemma page_flip_inv env d fb c s r s1 :
  drmmode_page_flip env d fb c s = Some (r, s1) ->
  r = env_page_flip env /\ cmds s1 = cmds s.
Proof.
  unfold drmmode_page_flip, emit, modify, bind, ret. intros H.
  injection H as <- <-. split; reflexivity.
Qed.

Lemma cmds_ScheduleSwap cfg env cl d dst src fn dt s res s' :
  flip_answer_int env ->
  ARMSOCDRI2ScheduleSwap cfg env cl d dst src fn dt s = Some (res, s') ->
  cmds s' = cmds s \/
  cmds s' = delete (next_addr s) (cmds s) \/
  exists c, cmds s' = <[next_addr s := c]> (cmds s) /\
            0 < swapCount c /\ type c = DRI2_FLIP_COMPLETE.
Proof.
  intros Hint H. unfold flip_answer_int, INT_MAX in Hint.
  unfold ARMSOCDRI2ScheduleSwap in H.
  destruct (negb (env_calloc env)).
  { unfold ret in H. injection H as _ <-. left. reflexivity. }
  apply bind_inv in H. destruct H as ([[cmd fb] flip] & s0 & H0 & H).
  apply cmds_prepare in H0. destruct H0 as (-> & Hc0 & _).
  set (cmd := next_addr s) in *.
  set (c0 := new_cmd cl d dst src fn dt) in *.
  right. destruct flip.
  - unfold ScheduleSwap_flip in H.
    apply bind_inv in H. destruct H as (u1 & s1 & H1 & H).
    destruct (update_cmd_tracked _ _ _ _ _ _ _ Hc0 H1) as [Hc1 _]. clear H1.
    apply bind_inv in H. destruct H as (u2 & s2 & H2 & H).
    apply kept_pending_deletions in H2.
    pose proof (kept_tracked _ _ _ Hc1 H2) as Hc2. clear H2.
    apply bind_inv in H. destruct H as (r & s3 & H3 & H).
    apply page_flip_inv in H3. destruct H3 as [-> Hc3]. rewrite Hc2 in Hc3.
    destruct (env_page_flip env <? 0) eqn:E.
    + apply Z.ltb_lt in E.
      apply bind_inv in H. destruct H as (u4 & s4 & H4 & H).
      destruct (update_cmd_tracked _ _ _ _ _ _ _ Hc3 H4) as [Hc4 _]. clear H4.
      apply bind_inv in H. destruct H as (u5 & s5 & H5 & H).
      destruct (update_cmd_tracked _ _ _ _ _ _ _ Hc4 H5) as [Hc5 _]. clear H5.
      assert (Hres : res = false).
      { apply bind_inv in H. destruct H as (? & ? & _ & H).
        apply bind_inv in H. destruct H as (? & ? & _ & H).
        unfold ret in H. injection H as <- _. reflexivity. }
      subst res.
      destruct (cmds_issue _ _ _ _ _ _ _ _ Hc5 H) as [[_ Hd] | [Hnz Hi]].
      * left. exact Hd.
      * right. eexists. split; [ exact Hi | ]. split; [ | reflexivity ].
        simpl in Hnz |- *.
        destruct (use_page_flip_events cfg); [ | contradiction ].
        rewrite (to_int_id (env_page_flip env + 1)) in * by (unfold INT_MAX; lia).
        rewrite to_int_id in * by (unfold INT_MAX; lia). lia.
    + apply Z.ltb_ge in E.
      apply bind_inv in H. destruct H as (u4 & s4 & H4 & H).
      assert (Hc4 : exists c4, cmds s4 = <[cmd := c4]> (cmds s) /\
                               type c4 = DRI2_FLIP_COMPLETE).
      { destruct (env_page_flip env =? 0).
        - destruct (update_cmd_tracked _ _ _ _ _ _ _ Hc3 H4) as [Hc4 _].
          eexists. split; [ exact Hc4 | reflexivity ].
        - unfold ret in H4. injection H4 as _ <-.
          eexists. split; [ exact Hc3 | reflexivity ]. }
      destruct Hc4 as (c4 & Hc4 & Ht4). clear H4.
      apply bind_inv in H. destruct H as (u5 & s5 & H5 & H).
      destruct (update_cmd_tracked _ _ _ _ _ _ _ Hc4 H5) as [Hc5 _]. clear H5.
      assert (Hres : res = true).
      { apply bind_inv in H. destruct H as (? & ? & _ & H).
        apply bind_inv in H. destruct H as (? & ? & _ & H).
        unfold ret in H. injection H as <- _. reflexivity. }
      subst res.
      destruct (cmds_issue _ _ _ _ _ _ _ _ Hc5 H) as [[_ Hd] | [Hnz Hi]].
      * left. exact Hd.
      * right. eexists. split; [ exact Hi | ]. split; [ | exact Ht4 ].
        simpl in Hnz |- *.
        destruct (use_page_flip_events cfg); [ lia | contradiction ].
  - unfold ScheduleSwap_blit in H.
    apply bind_inv in H. destruct H as (u1 & s1 & H1 & H).
    apply kept_CopyRegion in H1.
    pose proof (kept_tracked _ _ _ Hc0 H1) as Hc1. clear H1.
    apply bind_inv in H. destruct H as (u2 & s2 & H2 & H).
    destruct (update_cmd_tracked _ _ _ _ _ _ _ Hc1 H2) as [Hc2 _]. clear H2.
    apply bind_inv in H. destruct H as (u3 & s3 & H3 & H).
    unfold ret in H. injection H as _ <-.
    apply cmds_SwapComplete in H3. destruct H3 as (c1 & Hl & _ & Hcm).
    rewrite Hc2, lookup_insert_eq in Hl. injection Hl as <-.
    simpl swapCount in Hcm. change (0 <? to_int (0 - 1)) with false in Hcm.
    left. rewrite Hcm, Hc2. apply delete_insert_eq.
Qed.

Lemma wait_exec_op cfg env o s u s' :
  flip_answer_int env -> flights_wait s ->
  exec_op cfg env o s = Some (u, s') ->
  flights_wait s'.
Proof.
  intros Hint Hw H.
  assert (Hsame : forall m : M unit,
             preserves cmds_kept m -> m s = Some (u, s') -> flights_wait s').
  { intros m Hm Hrun. apply Hm in Hrun. destruct Hrun as [Hc _].
    unfold flights_wait. rewrite Hc. exact Hw. }
  destruct o; simpl in H.
  - eapply Hsame; [ | exact H ].
    apply preserves_bind;
      [ exact cmds_kept_trans | apply kept_CreateBuffer | intro; cpres ].
  - eapply Hsame; [ | exact H ]. apply kept_ReuseBufferNotify.
  - eapply Hsame; [ | exact H ]. apply kept_DestroyBuffer.
  - eapply Hsame; [ | exact H ]. apply kept_ReferenceBuffer.
  - eapply Hsame; [ | exact H ]. apply kept_CopyRegion.
  - apply bind_inv in H. destruct H as (res & s1 & H1 & H).
    unfold ret in H. injection H as _ <-.
    apply cmds_ScheduleSwap in H1; [ | exact Hint ].
    intros k c Hk.
    destruct H1 as [H1 | [H1 | (c1 & H1 & Hpos & Hty)]]; rewrite H1 in Hk.
    + exact (Hw k c Hk).
    + apply lookup_delete_Some in Hk. destruct Hk as [_ Hk]. exact (Hw k c Hk).
    + apply lookup_insert_Some in Hk. destruct Hk as [[_ <-] | [_ Hk]].
      * split; assumption.
      * exact (Hw k c Hk).
  - apply cmds_SwapComplete in H. destruct H as (c0 & Hl & _ & Hcm).
    intros k c Hk. rewrite Hcm in Hk.
    destruct (0 <? to_int (swapCount c0 - 1)) eqn:E.
    + apply lookup_insert_Some in Hk. destruct Hk as [[_ <-] | [_ Hk]].
      * apply Z.ltb_lt in E. split; [ exact E | ]. exact (proj2 (Hw _ _ Hl)).
      * exact (Hw k c Hk).
    + apply lookup_delete_Some in Hk. destruct Hk as [_ Hk]. exact (Hw k c Hk).
  - eapply Hsame; [ | exact H ]. cpres.
Qed.

(** X23: no finished command is left behind.  From a state in which every
    live swap command is a flip that still waits for at least one event,
    whatever entry points are called and whatever flip events arrive (the
    flip issuer answering with an [int]), every command alive afterwards
    is again a flip that waits for at least one event: a blit's command, and
    a flip's command whose count has reached zero, is completed and freed
    before the entry point that made it so returns. *)
Theorem live_commands_wait cfg steps :
  forall s0 s,
    flights_wait s0 ->
    Forall (fun st => flip_answer_int (fst st)) steps ->
    run cfg steps s0 = Some s ->
    forall cmd c, cmds s !! cmd = Some c ->
      0 < swapCount c /\ type c = DRI2_FLIP_COMPLETE.
Proof.
  induction steps as [| [env o] steps IH]; intros s0 s Hw Hall Hrun.
  - simpl in Hrun. injection Hrun as <-. exact Hw.
  - simpl in Hrun. inversion Hall as [| x l Hx Hl]; subst.
    destruct (exec_op cfg env o s0) as [[u s1] |] eqn:E; [ | discriminate ].
    apply (IH s1 s); [ | exact Hl | exact Hrun ].
    exact (wait_exec_op cfg env o s0 u s1 Hx Hw E).
Qed.

Lemma live_commands_wait_witness :
  cmds ex_flight !! 6%nat = Some ex_flip_cmd /\
  0 < swapCount ex_flip_cmd /\ type ex_flip_cmd = DRI2_FLIP_COMPLETE.
Proof.
  split; [ reflexivity | ].
  refine (live_commands_wait (ex_cfg true)
            [ (ex_env 1, OpScheduleSwap 55 ex_win 2%nat 5%nat 66 77) ]
            ex_state ex_flight _ _ _ 6%nat ex_flip_cmd _).
  - intros k c Hk. simpl in Hk. rewrite lookup_empty in Hk. discriminate Hk.
  - repeat constructor; vm_compute; intro; discriminate.
  - vm_compute. reflexivity.
  - reflexivity.
Defined.
